(** * Graph Banner Plus: a shallow embedding of [main.js]

    The development follows the source file:
    - [JsString]    the string primitives the plugin calls;
    - [Ignore]      [matchIgnore] with its regular-expression pipeline;
    - [IgnoreSpec]  the ignore rules as the specification words them;
    - [Js], [Settings]  the operators and the settings object;
    - [BannerHeight]  the value [applyBannerHeight] gives the style property;
    - [Plugin]      [GraphView], [GraphBannerPlugin], the workspace and the
                    timers of the window, each [async] method taken with its
                    calls awaited;
    - [SettingTab]  the handlers of the settings tab;
    - [Interactive] the interactive mode of a banner ([isActive],
                    [setActive], the pointer listeners of [_setupNode]);
    - [Async]       the same methods as the plugin calls them, without
                    awaiting them: suspended calls, promise jobs, the host
                    fulfilling promises, and the plugin under a sequence of
                    events;
    - [Sample]      a small workspace to run the plugin on;
    - [Props], [Exact], [Invariants]  the vocabulary of the statements;
    - the theorems, in the order ignore rules, presets, toggle list, pool,
      frames, binding, hidden resolutions, timers; then pattern lines and
      the text area, the banner height and the user presets, acquisition,
      placement step by step, resolutions that place, first placement,
      teardown, interactive mode, what a resolution leaves alone; then the
      calls that are not awaited: binding twice, the resolutions that stop
      at a gate, the toggle command, and what every session keeps (timers,
      pool, nodes of the graph views).

    Modelling choices.  A string is its sequence of UTF-16 code units.  A
    number is an integer, [undefined] is [None].  Arrays reached from two
    places (the [ignore] lines) live in a store and are named by reference;
    graph-view objects live in a store too, named by their leaf.  The host
    is its observable state (views, DOM nodes of the graph leaves, leaf
    parents) and the list of calls made into it.

    An [async] method is given twice.  In [Plugin] it is the call with
    every [await] answered at once, from its start to the end of its last
    continuation: what [await placeTo(...)] does when nothing else runs in
    between.  In [Async] it is the call as the source makes it: it runs up
    to its first [await] that has to wait, the rest is a suspended call that
    goes on as a promise job, or when the host fulfils the promise of
    [setViewState]; fulfilling is an event of its own, so calls overlap as
    they do in the source.  The lemma [awaited_placeTo] relates the two.
    The host fulfils its promises; it never rejects one.

    Time is a clock in milliseconds; timers fire in order of due time, and
    the delay of a timer is the 32-bit integer the window makes of it. *)

From Stdlib Require Import ZArith NArith Ascii String.
From stdpp Require Import gmap list.

Set Default Proof Using "Type".
Set Warnings "-clear-no-such-hyp".
Local Open Scope N_scope.

(* ===================================================================== *)
(** ** JavaScript strings *)
(* ===================================================================== *)

Module JsString.

(** A JavaScript string is a sequence of UTF-16 code units. *)
Definition jsstring := list N.

Definition ch (a : ascii) : N := N_of_ascii a.

(** String literals of the source, for ASCII text. *)
Definition js (s : string) : jsstring := map ch (list_ascii_of_string s).

(** ECMAScript LineTerminator: LF, CR, LS, PS. *)
Definition isLineTerminator (c : N) : bool :=
  (c =? 10) || (c =? 13) || (c =? 8232) || (c =? 8233).

(** ECMAScript WhiteSpace: TAB, VT, FF, SP, NBSP, ZWNBSP and category Zs. *)
Definition isWhiteSpace (c : N) : bool :=
  (c =? 9) || (c =? 11) || (c =? 12) || (c =? 32) || (c =? 160)
  || (c =? 5760) || ((8192 <=? c) && (c <=? 8202))
  || (c =? 8239) || (c =? 8287) || (c =? 12288) || (c =? 65279).

(** What [String.prototype.trim] strips. *)
Definition isTrimmed (c : N) : bool := isWhiteSpace c || isLineTerminator c.

Fixpoint trimStart (s : jsstring) : jsstring :=
  match s with
  | c :: s' => if isTrimmed c then trimStart s' else s
  | [] => []
  end.

Definition trimEnd (s : jsstring) : jsstring := rev (trimStart (rev s)).

(** [s.trim()] *)
Definition trim (s : jsstring) : jsstring := trimEnd (trimStart s).

(** [s.startsWith(p)] *)
Fixpoint startsWith (s p : jsstring) {struct p} : bool :=
  match p, s with
  | [], _ => true
  | _ :: _, [] => false
  | a :: p', b :: s' => (a =? b) && startsWith s' p'
  end.

(** [s.includes(p)] *)
Fixpoint includes (s p : jsstring) : bool :=
  startsWith s p ||
  match s with
  | [] => false
  | _ :: s' => includes s' p
  end.

(** [s.slice(1)] *)
Definition slice1 (s : jsstring) : jsstring := tail s.

(** Truthiness of a string value: only the empty string is falsy. *)
Definition truthy (s : jsstring) : bool :=
  match s with [] => false | _ :: _ => true end.

End JsString.

Import JsString.

(* ===================================================================== *)
(** ** [matchIgnore] *)
(* ===================================================================== *)

Module Ignore.

Definition c_star : N := ch "*".
Definition c_dot : N := ch ".".
Definition c_backslash : N := ch "\".
Definition c_caret : N := ch "^".
Definition c_dollar : N := ch "$".
Definition c_hash : N := ch "#".
Definition c_bang : N := ch "!".

(** [const specials = /[\\^$+?.()|[\]{}]/g] as a character class. *)
Definition specials (c : N) : bool :=
  (c =? c_backslash) || (c =? c_caret) || (c =? c_dollar) || (c =? ch "+")
  || (c =? ch "?") || (c =? c_dot) || (c =? ch "(") || (c =? ch ")")
  || (c =? ch "|") || (c =? ch "[") || (c =? ch "]") || (c =? ch "{")
  || (c =? ch "}").

(** [pattern.replace(specials, '\\$&')] *)
Definition escapeSpecials (pattern : jsstring) : jsstring :=
  flat_map (fun c => if specials c then [c_backslash; c] else [c]) pattern.

(** [escaped.replace(/\*/g, '.*')] *)
Definition starToDotStar (escaped : jsstring) : jsstring :=
  flat_map (fun c => if c =? c_star then [c_dot; c_star] else [c]) escaped.

(** [const reSource = '^' + escaped.replace(/\*/g, '.*') + '$'] *)
Definition reSource (pattern : jsstring) : jsstring :=
  [c_caret] ++ starToDotStar (escapeSpecials pattern) ++ [c_dollar].

(** The regular expressions [new RegExp] is asked to build here: a start
    anchor, a sequence of literal code units and [.*] runs, an end anchor. *)
Inductive atom : Type :=
| Lit (c : N)
| DotStar.

Definition regexp := list atom.

(** A syntax character of the pattern grammar. *)
Definition syntaxChar (c : N) : bool := specials c || (c =? c_star).

(** Body of the pattern up to the closing [$], for the sources [toRegExp]
    builds: escaped syntax characters, [.*] and plain code units.  Any other
    source gives [None]; [toRegExp] never hands one over. *)
Fixpoint parseBody (src : jsstring) : option regexp :=
  match src with
  | [] => None
  | [c] => if c =? c_dollar then Some [] else None
  | c :: ((d :: rest) as tl) =>
    if c =? c_backslash then
      if syntaxChar d then cons (Lit d) <$> parseBody rest else None
    else if (c =? c_dot) && (d =? c_star) then
      cons DotStar <$> parseBody rest
    else if syntaxChar c then None
    else cons (Lit c) <$> parseBody tl
  end.

(** [new RegExp(reSource)]; [None] stands for the [SyntaxError] caught by
    [toRegExp]. *)
Definition newRegExp (src : jsstring) : option regexp :=
  match src with
  | c :: body => if c =? c_caret then parseBody body else None
  | [] => None
  end.

(** [const toRegExp = (pattern) => ...] *)
Definition toRegExp (pattern : jsstring) : option regexp :=
  newRegExp (reSource pattern).

(** The code units [.] matches without the [s] flag. *)
Definition dot (c : N) : bool := negb (isLineTerminator c).

(** Anchored matching of the rest of the subject against the rest of the
    pattern; [.*] tries every run of [.]-characters. *)
Fixpoint matches (re : regexp) (s : jsstring) : bool :=
  match re with
  | [] => match s with [] => true | _ => false end
  | Lit c :: re' =>
    match s with
    | x :: s' => (x =? c) && matches re' s'
    | [] => false
    end
  | DotStar :: re' =>
    (fix run (s : jsstring) : bool :=
       matches re' s ||
       match s with
       | x :: s' => dot x && run s'
       | [] => false
       end) s
  end.

(** [re.test(path)] *)
Definition test (re : regexp) (path : jsstring) : bool := matches re path.

(** One iteration of [for (let raw of patterns)], from the running
    [ignored] to its next value; [continue] leaves it as it is. *)
Definition loopBody (path : jsstring) (ignored : bool) (raw : jsstring) : bool :=
  if negb (truthy raw) then ignored else
  let p := trim raw in
  if negb (truthy p) || startsWith p [c_hash] then ignored else
  let '(negate, p, skip) :=
    if startsWith p [c_bang]
    then let p' := trim (slice1 p) in (true, p', negb (truthy p'))
    else (false, p, false) in
  if skip then ignored else
  let isMatch :=
    if includes p [c_star] then
      match toRegExp p with
      | Some re => test re path
      | None => false
      end
    else includes path p in
  if isMatch then negb negate else ignored.

(** [function matchIgnore(path, patterns)] on an array of strings. *)
Definition matchIgnore (path : jsstring) (patterns : list jsstring) : bool :=
  match patterns with
  | [] => false
  | _ => fold_left (loopBody path) patterns false
  end.

End Ignore.


(* ===================================================================== *)
(** ** The ignore rules as the specification words them *)
(* ===================================================================== *)

Module IgnoreSpec.
Import Ignore.

(** An anchored wildcard pattern: every code unit stands for itself, a
    star for any run of code units of one line. *)
Inductive Wildcard : jsstring -> jsstring -> Prop :=
| W_end : Wildcard [] []
| W_lit c p s : c <> c_star -> Wildcard p s -> Wildcard (c :: p) (c :: s)
| W_star_done p s : Wildcard p s -> Wildcard (c_star :: p) s
| W_star_more x p s :
    dot x = true -> Wildcard (c_star :: p) s -> Wildcard (c_star :: p) (x :: s).

(** Substring containment. *)
Definition Contains (s p : jsstring) : Prop :=
  exists pre post, s = pre ++ p ++ post.

(** The executable wildcard matcher. *)
Fixpoint wildcardb (p : jsstring) (s : jsstring) : bool :=
  match p with
  | [] => match s with [] => true | _ => false end
  | c :: p' =>
    if c =? c_star then
      (fix run (s : jsstring) : bool :=
         wildcardb p' s ||
         match s with
         | x :: s' => dot x && run s'
         | [] => false
         end) s
    else
      match s with
      | x :: s' => (x =? c) && wildcardb p' s'
      | [] => false
      end
  end.

(** The atom a code unit of the pattern text stands for. *)
Definition token (c : N) : atom := if c =? c_star then DotStar else Lit c.

(** A pattern line after trimming: skipped (blank, comment, bare negation
    marker) or a rule, negated or not. *)
Inductive line : Type :=
| Skipped
| Rule (negated : bool) (pattern : jsstring).

Definition readLine (raw : jsstring) : line :=
  let p := trim raw in
  match p with
  | [] => Skipped
  | c :: rest =>
    if c =? c_hash then Skipped
    else if c =? c_bang then
      match trim rest with
      | [] => Skipped
      | q => Rule true q
      end
    else Rule false p
  end.

(** Wildcard patterns match anchored, the others by containment. *)
Definition ruleMatches (pattern path : jsstring) : bool :=
  if includes pattern [c_star] then wildcardb pattern path
  else includes path pattern.

(** Last match wins: scan the lines from the last one backwards and let the
    first matching rule found decide; no matching rule means not ignored. *)
Fixpoint lastMatch (path : jsstring) (backwards : list jsstring) : bool :=
  match backwards with
  | [] => false
  | raw :: earlier =>
    match readLine raw with
    | Rule negated pattern =>
      if ruleMatches pattern path then negb negated
      else lastMatch path earlier
    | Skipped => lastMatch path earlier
    end
  end.

Definition ignoredSpec (path : jsstring) (patterns : list jsstring) : bool :=
  lastMatch path (rev patterns).

End IgnoreSpec.

(* ===================================================================== *)
(** ** Settings, values and the host *)
(* ===================================================================== *)

Module Js.

(** [a || d] on a number: [undefined] and [0] are falsy. *)
Definition orZ (a : option Z) (d : Z) : Z :=
  match a with
  | Some v => if (v =? 0)%Z then d else v
  | None => d
  end.

(** [a || d] on a string: [undefined] and the empty string are falsy. *)
Definition orS (a : option jsstring) (d : jsstring) : jsstring :=
  match a with
  | Some v => if truthy v then v else d
  | None => d
  end.

(** [a ?? b] where both sides may be [undefined]. *)
Definition nullish {A : Type} (a b : option A) : option A :=
  match a with
  | Some _ => a
  | None => b
  end.

(** [ToInt32]: what is left of a number handed to a host function that
    takes a [long]. *)
Definition toInt32 (z : Z) : Z :=
  ((z + 2147483648) mod 4294967296 - 2147483648)%Z.

(** [list.indexOf(x)], [None] for [-1]. *)
Fixpoint indexOf (l : list jsstring) (x : jsstring) : option nat :=
  match l with
  | [] => None
  | y :: l' => if bool_decide (y = x) then Some O else S <$> indexOf l' x
  end.

(** [list.includes(x)] *)
Definition arrIncludes (l : list jsstring) (x : jsstring) : bool :=
  bool_decide (x ∈ l).

(** [list.splice(idx, 1)] *)
Definition splice1 (l : list jsstring) (idx : nat) : list jsstring :=
  take idx l ++ drop (S idx) l.

End Js.

Module Settings.
Import Js.

(** The object [_getCoreSettingsSnapshot] returns; [snap_ignore] is a
    reference to an array in the store. *)
Record Snapshot : Type := {
  snap_maxGraphViews : option Z;
  snap_layoutDebounceMs : option Z;
  snap_mobileMode : option jsstring;
  snap_showInEditMode : option jsstring;
  snap_timeToRemoveLeaf : option Z;
  snap_bannerHeight : option jsstring;
  snap_ignore : option nat;
}.

(** [this.settings].  [None] is [undefined]; numbers are integers;
    [ignore] is a reference to an array in the store. *)
Record t : Type := {
  ignore : option nat;
  timeToRemoveLeaf : option Z;
  maxGraphViews : option Z;
  layoutDebounceMs : option Z;
  bannerHeight : option jsstring;
  mobileMode : option jsstring;
  showInEditMode : option jsstring;
  perNoteDisabledPaths : option (list jsstring);
  preset1 : option Snapshot;
  preset2 : option Snapshot;
  lastAppliedPreset : option jsstring;
}.

(** [DEFAULT_SETTINGS] *)
Definition DEFAULT_timeToRemoveLeaf : Z := 100.
Definition DEFAULT_maxGraphViews : Z := 2.
Definition DEFAULT_layoutDebounceMs : Z := 80.
Definition DEFAULT_bannerHeight : jsstring := js "14vh".
Definition DEFAULT_mobileMode : jsstring := js "full".
Definition DEFAULT_showInEditMode : jsstring := js "compact".

Definition set_perNoteDisabledPaths (v : option (list jsstring)) (s : t) : t :=
  {| ignore := ignore s; timeToRemoveLeaf := timeToRemoveLeaf s;
     maxGraphViews := maxGraphViews s; layoutDebounceMs := layoutDebounceMs s;
     bannerHeight := bannerHeight s; mobileMode := mobileMode s;
     showInEditMode := showInEditMode s; perNoteDisabledPaths := v;
     preset1 := preset1 s; preset2 := preset2 s;
     lastAppliedPreset := lastAppliedPreset s |}.

Definition set_preset1 (v : option Snapshot) (s : t) : t :=
  {| ignore := ignore s; timeToRemoveLeaf := timeToRemoveLeaf s;
     maxGraphViews := maxGraphViews s; layoutDebounceMs := layoutDebounceMs s;
     bannerHeight := bannerHeight s; mobileMode := mobileMode s;
     showInEditMode := showInEditMode s;
     perNoteDisabledPaths := perNoteDisabledPaths s;
     preset1 := v; preset2 := preset2 s;
     lastAppliedPreset := lastAppliedPreset s |}.

Definition set_preset2 (v : option Snapshot) (s : t) : t :=
  {| ignore := ignore s; timeToRemoveLeaf := timeToRemoveLeaf s;
     maxGraphViews := maxGraphViews s; layoutDebounceMs := layoutDebounceMs s;
     bannerHeight := bannerHeight s; mobileMode := mobileMode s;
     showInEditMode := showInEditMode s;
     perNoteDisabledPaths := perNoteDisabledPaths s;
     preset1 := preset1 s; preset2 := v;
     lastAppliedPreset := lastAppliedPreset s |}.

(** The preset fields written by [applyBuiltinPreset]. *)
Definition set_performance (n d : Z) (edit mobile : jsstring) (s : t) : t :=
  {| ignore := ignore s; timeToRemoveLeaf := timeToRemoveLeaf s;
     maxGraphViews := Some n; layoutDebounceMs := Some d;
     bannerHeight := bannerHeight s; mobileMode := Some mobile;
     showInEditMode := Some edit;
     perNoteDisabledPaths := perNoteDisabledPaths s;
     preset1 := preset1 s; preset2 := preset2 s;
     lastAppliedPreset := lastAppliedPreset s |}.

(** The fields written by [_applyCoreSettingsSnapshot], [ignore] apart. *)
Definition set_core (n d : option Z) (mobile edit : option jsstring)
    (remove : option Z) (height : option jsstring) (s : t) : t :=
  {| ignore := ignore s; timeToRemoveLeaf := remove;
     maxGraphViews := n; layoutDebounceMs := d;
     bannerHeight := height; mobileMode := mobile;
     showInEditMode := edit;
     perNoteDisabledPaths := perNoteDisabledPaths s;
     preset1 := preset1 s; preset2 := preset2 s;
     lastAppliedPreset := lastAppliedPreset s |}.

Definition set_ignore (r : option nat) (s : t) : t :=
  {| ignore := r; timeToRemoveLeaf := timeToRemoveLeaf s;
     maxGraphViews := maxGraphViews s; layoutDebounceMs := layoutDebounceMs s;
     bannerHeight := bannerHeight s; mobileMode := mobileMode s;
     showInEditMode := showInEditMode s;
     perNoteDisabledPaths := perNoteDisabledPaths s;
     preset1 := preset1 s; preset2 := preset2 s;
     lastAppliedPreset := lastAppliedPreset s |}.

Definition set_lastAppliedPreset (v : option jsstring) (s : t) : t :=
  {| ignore := ignore s; timeToRemoveLeaf := timeToRemoveLeaf s;
     maxGraphViews := maxGraphViews s; layoutDebounceMs := layoutDebounceMs s;
     bannerHeight := bannerHeight s; mobileMode := mobileMode s;
     showInEditMode := showInEditMode s;
     perNoteDisabledPaths := perNoteDisabledPaths s;
     preset1 := preset1 s; preset2 := preset2 s;
     lastAppliedPreset := v |}.

(** [applyBuiltinPreset(name)] *)
Definition applyBuiltinPreset (name : jsstring) (s : t) : t :=
  if bool_decide (name = js "perf") then
    set_performance 1 120 (js "hidden") (js "disabled") s
  else if bool_decide (name = js "balanced") then
    set_performance 2 80 (js "compact") (js "simplified") s
  else if bool_decide (name = js "info") then
    set_performance 3 40 (js "full") (js "full") s
  else s.

(** [isNoteDisabled(path)] *)
Definition isNoteDisabled (s : t) (path : jsstring) : bool :=
  arrIncludes (default [] (perNoteDisabledPaths s)) path.

(** The list part of [toggleCurrentNote(path)]: [indexOf], then [push] or
    [splice]. *)
Definition toggleList (paths : list jsstring) (path : jsstring) : list jsstring :=
  match indexOf paths path with
  | None => paths ++ [path]
  | Some idx => splice1 paths idx
  end.

End Settings.

(* ===================================================================== *)
(** ** The value of [--banner-height] *)
(* ===================================================================== *)

Module BannerHeight.
Import Js.

(** [\d] *)
Definition isDigit (c : N) : bool := (48 <=? c) && (c <=? 57).

(** The rest of [s] after its leading digits. *)
Fixpoint skipDigits (s : jsstring) : jsstring :=
  match s with
  | c :: s' => if isDigit c then skipDigits s' else s
  | [] => []
  end.

(** [\d+] up to the end of the input. *)
Definition digitsOnly (s : jsstring) : bool := truthy s && forallb isDigit s.

(** [/^\d+(?:\.\d+)?$/.test(raw)]: digits, then the end of the input or a
    dot and digits up to the end. *)
Definition isPlainNumber (raw : jsstring) : bool :=
  match raw with
  | c :: _ =>
    isDigit c &&
    match skipDigits raw with
    | [] => true
    | d :: frac => (d =? ch ".") && digitsOnly frac
    end
  | [] => false
  end.

(** The string [applyBannerHeight] hands to [style.setProperty]. *)
Definition cssHeight (s : Settings.t) : jsstring :=
  let height := orS (Settings.bannerHeight s)
                  (orS (Some Settings.DEFAULT_bannerHeight) (js "14vh")) in
  let raw := trim height in
  if isPlainNumber raw then raw ++ js "vh" else raw.

End BannerHeight.

(* ===================================================================== *)
(** ** The plugin, the host workspace and the event loop *)
(* ===================================================================== *)

Module Plugin.
Import Js.

(** [view.getMode()] *)
Inductive Mode : Type := source | preview.

Definition Mode_eqb (a b : Mode) : bool :=
  match a, b with
  | source, source | preview, preview => true
  | _, _ => false
  end.

(** A [TFile]. *)
Record TFile : Type := { path : jsstring; extension : jsstring }.

#[global] Instance TFile_eq_dec : EqDecision TFile.
Proof. solve_decision. Defined.

(** What the plugin reads from a [MarkdownView]: its file, its mode, and
    whether the two DOM lookups of [placeTo] succeed in its container. *)
Record MarkdownView : Type := {
  file : option TFile;
  getMode : Mode;
  modeContainerFound : bool;
  inlineTitleFound : bool;
}.

(** A view the host has closed and emptied. *)
Definition closedView : MarkdownView :=
  {| file := None; getMode := preview;
     modeContainerFound := false; inlineTitleFound := false |}.

(** The [.view-content] element of a graph leaf: the markdown view and mode
    container it currently sits in, and its classes. *)
Record Node : Type := {
  parent : option (nat * Mode);
  cls_hidden : bool;
  cls_visible : bool;
  cls_compact : bool;
  cls_simplified : bool;
  cls_content : bool;
}.

Definition freshNode : Node :=
  {| parent := None; cls_hidden := false; cls_visible := false;
     cls_compact := false; cls_simplified := false; cls_content := false |}.

(** [setupLeafPromise]: pending with the [timeToRemoveLeaf] the constructor
    read, or settled. *)
Inductive Setup : Type :=
| SetupPending (timeToRemoveLeaf : option Z)
| SetupDone.

(** [class GraphView]; objects are referred to by their leaf. *)
Record GraphView : Type := {
  leaf : nat;
  node : option nat;
  setupLeafPromise : Setup;
  currentFilePath : option jsstring;
  compact : bool;
  mobileSimplified : bool;
}.

(** Timer callbacks: the arrow function of the layout-change handler and
    [removeChild] of [_setupLeaf]. *)
Inductive Callback : Type :=
| CbPlaceGraphView (view : nat)
| CbRemoveChild (leaf : nat).

Record Timer : Type := { timerId : nat; due : Z; callback : Callback }.

(** Calls into the host, and the entry of [placeGraphView]. *)
Inductive Call : Type :=
| GetLeaf (leaf : nat)
| SetViewState (leaf : nat) (stateFile : option jsstring)
| SetGroup (leaf : nat) (group : jsstring)
| InsertAfter (node view : nat) (mode : Mode)
| OnResize (leaf : nat)
| LeafDetach (leaf : nat)
| NodeRemove (node : nat)
| RemoveChild (leaf : nat)
| SetTimeout (id : nat) (cb : Callback) (delay : Z)
| ClearTimeout (id : nat)
| TimerFired (id : nat)
| SaveData
| Notice (enabled : bool)
| SetBannerHeight
| PlaceGraphView (view : nat).

(** The plugin instance. *)
Record Instance : Type := {
  settings : Settings.t;
  arrays : gmap nat (list jsstring);
  nextArray : nat;
  graphViews : list nat;
  objects : gmap nat GraphView;
  layoutTimer : option nat;
}.

(** The workspace and the DOM. *)
Record Host : Type := {
  views : gmap nat MarkdownView;
  activeView : option nat;
  markdownLeaves : list nat;
  nodes : gmap nat Node;
  leafParent : gset nat;
  noViewContent : gset nat;
  nextLeaf : nat;
  isMobile : bool;
}.

(** The timers of the window. *)
Record Loop : Type := {
  now : Z;
  timers : list Timer;
  nextTimer : nat;
}.

Record World : Type := {
  plugin : Instance;
  host : Host;
  loop : Loop;
  calls : list Call;
}.

(** *** Field updates *)

Definition withPlugin (f : Instance -> Instance) (w : World) : World :=
  {| plugin := f (plugin w); host := host w; loop := loop w; calls := calls w |}.

Definition withHost (f : Host -> Host) (w : World) : World :=
  {| plugin := plugin w; host := f (host w); loop := loop w; calls := calls w |}.

Definition withLoop (f : Loop -> Loop) (w : World) : World :=
  {| plugin := plugin w; host := host w; loop := f (loop w); calls := calls w |}.

Definition call (c : Call) (w : World) : World :=
  {| plugin := plugin w; host := host w; loop := loop w;
     calls := calls w ++ [c] |}.

Definition set_settings (s : Settings.t) (p : Instance) : Instance :=
  {| settings := s; arrays := arrays p; nextArray := nextArray p;
     graphViews := graphViews p; objects := objects p;
     layoutTimer := layoutTimer p |}.

Definition set_graphViews (l : list nat) (p : Instance) : Instance :=
  {| settings := settings p; arrays := arrays p; nextArray := nextArray p;
     graphViews := l; objects := objects p; layoutTimer := layoutTimer p |}.

Definition set_objects (o : gmap nat GraphView) (p : Instance) : Instance :=
  {| settings := settings p; arrays := arrays p; nextArray := nextArray p;
     graphViews := graphViews p; objects := o; layoutTimer := layoutTimer p |}.

Definition set_layoutTimer (t : option nat) (p : Instance) : Instance :=
  {| settings := settings p; arrays := arrays p; nextArray := nextArray p;
     graphViews := graphViews p; objects := objects p; layoutTimer := t |}.

(** Allocation of a new array holding [l]. *)
Definition allocArray (l : list jsstring) (p : Instance) : Instance * nat :=
  ({| settings := settings p; arrays := <[nextArray p := l]> (arrays p);
      nextArray := S (nextArray p); graphViews := graphViews p;
      objects := objects p; layoutTimer := layoutTimer p |}, nextArray p).

Definition set_nodes (n : gmap nat Node) (h : Host) : Host :=
  {| views := views h; activeView := activeView h;
     markdownLeaves := markdownLeaves h; nodes := n;
     leafParent := leafParent h; noViewContent := noViewContent h;
     nextLeaf := nextLeaf h; isMobile := isMobile h |}.

Definition set_leafParent (s : gset nat) (h : Host) : Host :=
  {| views := views h; activeView := activeView h;
     markdownLeaves := markdownLeaves h; nodes := nodes h;
     leafParent := s; noViewContent := noViewContent h;
     nextLeaf := nextLeaf h; isMobile := isMobile h |}.

Definition set_activeView (v : option nat) (h : Host) : Host :=
  {| views := views h; activeView := v;
     markdownLeaves := markdownLeaves h; nodes := nodes h;
     leafParent := leafParent h; noViewContent := noViewContent h;
     nextLeaf := nextLeaf h; isMobile := isMobile h |}.

Definition set_nextLeaf (n : nat) (h : Host) : Host :=
  {| views := views h; activeView := activeView h;
     markdownLeaves := markdownLeaves h; nodes := nodes h;
     leafParent := leafParent h; noViewContent := noViewContent h;
     nextLeaf := n; isMobile := isMobile h |}.

Definition set_now (t : Z) (l : Loop) : Loop :=
  {| now := t; timers := timers l; nextTimer := nextTimer l |}.

Definition set_timers (ts : list Timer) (l : Loop) : Loop :=
  {| now := now l; timers := ts; nextTimer := nextTimer l |}.

Definition set_nextTimer (n : nat) (l : Loop) : Loop :=
  {| now := now l; timers := timers l; nextTimer := n |}.

(** *** Reading the world *)

Definition viewAt (w : World) (view : nat) : MarkdownView :=
  default closedView (views (host w) !! view).

Definition nodeAt (w : World) (n : nat) : Node :=
  default freshNode (nodes (host w) !! n).

Definition object (w : World) (gv : nat) : option GraphView :=
  objects (plugin w) !! gv.

(** [this.node] of a graph view. *)
Definition nodeOf (w : World) (gv : nat) : option nat :=
  object w gv ≫= node.

(** The array behind [this.settings.ignore]; [undefined] has no lines. *)
Definition ignoreLines (w : World) : list jsstring :=
  match Settings.ignore (settings (plugin w)) with
  | Some r => default [] (arrays (plugin w) !! r)
  | None => []
  end.

Definition updNode (n : nat) (f : Node -> Node) (w : World) : World :=
  withHost (set_nodes (<[n := f (nodeAt w n)]> (nodes (host w)))) w.

Definition updObject (gv : nat) (f : GraphView -> GraphView) (w : World) : World :=
  withPlugin (set_objects (alter f gv (objects (plugin w)))) w.

Definition setClassHidden (b : bool) (d : Node) : Node :=
  {| parent := parent d; cls_hidden := b; cls_visible := cls_visible d;
     cls_compact := cls_compact d; cls_simplified := cls_simplified d;
     cls_content := cls_content d |}.

Definition setClassVisible (b : bool) (d : Node) : Node :=
  {| parent := parent d; cls_hidden := cls_hidden d; cls_visible := b;
     cls_compact := cls_compact d; cls_simplified := cls_simplified d;
     cls_content := cls_content d |}.

Definition setClassCompact (b : bool) (d : Node) : Node :=
  {| parent := parent d; cls_hidden := cls_hidden d;
     cls_visible := cls_visible d; cls_compact := b;
     cls_simplified := cls_simplified d; cls_content := cls_content d |}.

Definition setClassSimplified (b : bool) (d : Node) : Node :=
  {| parent := parent d; cls_hidden := cls_hidden d;
     cls_visible := cls_visible d; cls_compact := cls_compact d;
     cls_simplified := b; cls_content := cls_content d |}.

Definition setClassContent (b : bool) (d : Node) : Node :=
  {| parent := parent d; cls_hidden := cls_hidden d;
     cls_visible := cls_visible d; cls_compact := cls_compact d;
     cls_simplified := cls_simplified d; cls_content := b |}.

Definition setParent (p : option (nat * Mode)) (d : Node) : Node :=
  {| parent := p; cls_hidden := cls_hidden d; cls_visible := cls_visible d;
     cls_compact := cls_compact d; cls_simplified := cls_simplified d;
     cls_content := cls_content d |}.

Definition setNodeField (n : option nat) (g : GraphView) : GraphView :=
  {| leaf := leaf g; node := n; setupLeafPromise := SetupDone;
     currentFilePath := currentFilePath g; compact := compact g;
     mobileSimplified := mobileSimplified g |}.

Definition setCurrentFilePath (p : option jsstring) (g : GraphView) : GraphView :=
  {| leaf := leaf g; node := node g; setupLeafPromise := setupLeafPromise g;
     currentFilePath := p; compact := compact g;
     mobileSimplified := mobileSimplified g |}.

Definition setCompactField (b : bool) (g : GraphView) : GraphView :=
  {| leaf := leaf g; node := node g; setupLeafPromise := setupLeafPromise g;
     currentFilePath := currentFilePath g; compact := b;
     mobileSimplified := mobileSimplified g |}.

Definition setMobileSimplifiedField (b : bool) (g : GraphView) : GraphView :=
  {| leaf := leaf g; node := node g; setupLeafPromise := setupLeafPromise g;
     currentFilePath := currentFilePath g; compact := compact g;
     mobileSimplified := b |}.


(** *** Timers of the window *)

(** The delay of a timer of the window: the number handed to [setTimeout]
    is taken as a [long], and a negative one counts as zero.  A delay of
    [2^31] milliseconds or more is therefore not the delay asked for. *)
Definition timerDelay (delay : Z) : Z := Z.max 0 (toInt32 delay).

(** [setTimeout(cb, delay)] *)
Definition setTimeout (cb : Callback) (delay : Z) (w : World) : World * nat :=
  let id := nextTimer (loop w) in
  let t := {| timerId := id; due := (now (loop w) + timerDelay delay)%Z;
              callback := cb |} in
  (call (SetTimeout id cb delay)
     (withLoop (fun l => set_nextTimer (S id) (set_timers (timers l ++ [t]) l)) w),
   id).

(** [clearTimeout(id)] *)
Definition clearTimeout (id : nat) (w : World) : World :=
  call (ClearTimeout id)
    (withLoop (fun l => set_timers (filter (fun t => timerId t ≠ id) (timers l)) l) w).

(** *** [class GraphView] *)

(** The closure [removeChild] of [_setupLeaf]. *)
Definition removeChild (lf : nat) (w : World) : World :=
  if bool_decide (lf ∈ leafParent (host w)) then
    call (RemoveChild lf)
      (withHost (fun h => set_leafParent (leafParent h ∖ {[lf]}) h) w)
  else w.

(** [new GraphView(app, plugin)]: takes a new tab leaf and starts
    [_setupLeaf], which runs up to its [await]; the promise of
    [leaf.setViewState] is then pending, and so is [setupLeafPromise]. *)
Definition newGraphView (w : World) : World * nat :=
  let lf := nextLeaf (host w) in
  let w := call (GetLeaf lf)
             (withHost (fun h => set_nextLeaf (S lf)
                                   (set_leafParent ({[lf]} ∪ leafParent h) h)) w) in
  let w := call (SetViewState lf None) w in
  let g := {| leaf := lf; node := None;
              setupLeafPromise :=
                SetupPending (Settings.timeToRemoveLeaf (settings (plugin w)));
              currentFilePath := None; compact := false;
              mobileSimplified := false |} in
  (withPlugin (fun p => set_objects (<[lf := g]> (objects p)) p) w, lf).

(** [_setupNode()]: the class of the node; the overlay, the settings button
    and the pointer listeners are left out. *)
Definition setupNode (gv : nat) (w : World) : World :=
  match nodeOf w gv with
  | None => w
  | Some n => updNode n (setClassContent true) w
  end.

(** [timeToRemoveLeaf > 0] *)
Definition greaterThanZero (t : option Z) : bool :=
  match t with
  | Some v => (0 <? v)%Z
  | None => false
  end.

(** The rest of [_setupLeaf] after [await this.leaf.setViewState(...)]: it
    runs when the host fulfils that promise, and fulfils
    [setupLeafPromise]. *)
Definition resumeSetupLeaf (gv : nat) (w : World) : World :=
  match object w gv with
  | Some g =>
    match setupLeafPromise g with
    | SetupPending t =>
      let n := if bool_decide (leaf g ∈ noViewContent (host w))
               then None else Some (leaf g) in
      let w := updObject gv (setNodeField n) w in
      let w := setupNode gv w in
      if greaterThanZero t
      then fst (setTimeout (CbRemoveChild (leaf g)) (default 0%Z t) w)
      else removeChild (leaf g) w
    | SetupDone => w
    end
  | None => w
  end.

(** [setCompact(compact)] *)
Definition setCompact (gv : nat) (c : bool) (w : World) : World :=
  let w := updObject gv (setCompactField c) w in
  match nodeOf w gv with
  | None => w
  | Some n => updNode n (setClassCompact c) w
  end.

(** [setMobileSimplified(flag)] *)
Definition setMobileSimplified (gv : nat) (flag : bool) (w : World) : World :=
  let w := updObject gv (setMobileSimplifiedField flag) w in
  match nodeOf w gv with
  | None => w
  | Some n => updNode n (setClassSimplified flag) w
  end.

(** The elements [isDescendantOf] is asked about. *)
Inductive Element : Type :=
| ContainerEl (view : nat)
| ModeContainer (view : nat) (mode : Mode).

(** [el.contains(node)] *)
Definition contains (w : World) (el : Element) (n : nat) : bool :=
  match parent (nodeAt w n), el with
  | Some (v, _), ContainerEl view => bool_decide (v = view)
  | Some (v, m), ModeContainer view mode =>
    bool_decide (v = view) && Mode_eqb m mode
  | None, _ => false
  end.

(** [isDescendantOf(parent)] *)
Definition isDescendantOf (gv : nat) (el : Element) (w : World) : bool :=
  match nodeOf w gv with
  | None => false
  | Some n => contains w el n
  end.

(** [setVisibility(show)] *)
Definition setVisibility (gv : nat) (show : bool) (w : World) : World :=
  match nodeOf w gv with
  | None => w
  | Some n =>
    updNode n (fun d => setClassVisible show (setClassHidden (negb show) d)) w
  end.

(** The block [if (needNewState) { ... }] of [placeTo]. *)
Definition bindTo (gv : nat) (filePath : jsstring) (w : World) : World :=
  match object w gv with
  | None => w
  | Some g =>
    let needNewState := negb (bool_decide (currentFilePath g = Some filePath)) in
    if needNewState then
      let w := call (SetViewState (leaf g) (Some filePath)) w in
      let w := call (SetGroup (leaf g) filePath) w in
      updObject gv (setCurrentFilePath (Some filePath)) w
    else w
  end.

(** The block [if (!this.isDescendantOf(modeContainer)) { ... }] of
    [placeTo]; [None] is its [return]. *)
Definition insertUnderTitle (gv n view : nat) (mode : Mode) (w : World) : option World :=
  if isDescendantOf gv (ModeContainer view mode) w then Some w
  else if inlineTitleFound (viewAt w view) then
    Some (call (InsertAfter n view mode)
            (updNode n (setParent (Some (view, mode))) w))
  else None.

(** The end of [placeTo]: the visible class, the options, [onResize]. *)
Definition showAndResize (gv n : nat) (opts : option (bool * bool)) (w : World) : World :=
  let w := updNode n (setClassVisible true) w in
  let w :=
    match opts with
    | Some (c, m) => setMobileSimplified gv m (setCompact gv c w)
    | None => w
    end in
  match object w gv with
  | Some g => call (OnResize (leaf g)) w
  | None => w
  end.

(** [await placeTo(view, opts)]: the call from its start to the end of its
    last continuation, when the host fulfils the promises it awaits and
    nothing else runs in between; a pending setup settles at
    [await this.setupLeafPromise].  The call as the plugin makes it, without
    waiting for it, is [Async.placeTo]. *)
Definition placeTo (gv view : nat) (opts : option (bool * bool)) (w : World) : World :=
  let w := resumeSetupLeaf gv w in
  match nodeOf w gv with
  | None => w
  | Some n =>
    match file (viewAt w view) with
    | None => w
    | Some f =>
      let w := bindTo gv (path f) w in
      let mode := getMode (viewAt w view) in
      if negb (modeContainerFound (viewAt w view)) then w else
      match insertUnderTitle gv n view mode w with
      | None => w
      | Some w => showAndResize gv n opts w
      end
    end
  end.

(** [await forceRefresh(view, opts)]; not awaited: [Async.forceRefresh]. *)
Definition forceRefresh (gv view : nat) (opts : option (bool * bool)) (w : World) : World :=
  placeTo gv view opts (updObject gv (setCurrentFilePath None) w).

(** [detach()] *)
Definition detach (gv : nat) (w : World) : World :=
  match object w gv with
  | None => w
  | Some g =>
    let w := call (LeafDetach (leaf g))
               (withHost (fun h => set_leafParent (leafParent h ∖ {[leaf g]}) h) w) in
    match node g with
    | None => w
    | Some n =>
      call (NodeRemove n)
        (updNode n (fun d => setParent None (setClassContent false d)) w)
    end
  end.

(** *** [class GraphBannerPlugin] *)

(** [_getOrCreateGraphView(view)]; the result is [None] when
    [this.graphViews[0]] is [undefined]. *)
Definition getOrCreateGraphView (view : nat) (w : World) : World * option nat :=
  let markdownNodes := markdownLeaves (host w) in
  let pool := graphViews (plugin w) in
  match find (fun gv => isDescendantOf gv (ContainerEl view) w) pool with
  | Some gv => (w, Some gv)
  | None =>
    match find (fun gv =>
                  negb (existsb (fun nd => isDescendantOf gv (ContainerEl nd) w)
                          markdownNodes)) pool with
    | Some gv => (w, Some gv)
    | None =>
      let max := orZ (Settings.maxGraphViews (settings (plugin w)))
                   Settings.DEFAULT_maxGraphViews in
      if (max <=? Z.of_nat (length pool))%Z then (w, head pool)
      else
        let '(w, gv) := newGraphView w in
        (withPlugin (fun p => set_graphViews (graphViews p ++ [gv]) p) w, Some gv)
    end
  end.

(** [await placeGraphView(view)]: the call with its [placeTo] awaited as
    above.  Where [_getOrCreateGraphView] answers [undefined] the call throws
    at [gv.setVisibility] and its promise is rejected; the state is the one
    given here, the rejection is recorded by [Async.placeGraphView], the call
    as the plugin makes it. *)
Definition placeGraphView (view : nat) (w : World) : World :=
  let w := call (PlaceGraphView view) w in
  match file (viewAt w view) with
  | None => w
  | Some f =>
    if negb (bool_decide (extension f = js "md")) then w else
    let path := path f in
    if Settings.isNoteDisabled (settings (plugin w)) path then
      match getOrCreateGraphView view w with
      | (w, Some gv) => setVisibility gv false w
      | (w, None) => w
      end
    else
      let ignored := Ignore.matchIgnore path (ignoreLines w) in
      match getOrCreateGraphView view w with
      | (w, None) => w
      | (w, Some gv) =>
        let w := setVisibility gv (negb ignored) w in
        if ignored then w else
        let mode := getMode (viewAt w view) in
        let behaviour := orS (Settings.showInEditMode (settings (plugin w)))
                           Settings.DEFAULT_showInEditMode in
        if Mode_eqb mode source && bool_decide (behaviour = js "hidden")
        then setVisibility gv false w else
        let compact :=
          Mode_eqb mode source && bool_decide (behaviour = js "compact") in
        let mobileMode := orS (Settings.mobileMode (settings (plugin w)))
                            Settings.DEFAULT_mobileMode in
        if isMobile (host w) && bool_decide (mobileMode = js "disabled")
        then setVisibility gv false w else
        let mobileSimplified :=
          isMobile (host w) && bool_decide (mobileMode = js "simplified") in
        let w := setVisibility gv true w in
        placeTo gv view (Some (compact, mobileSimplified)) w
      end
  end.

(** [applyBannerHeight()] with its [forceRefresh] awaited; the style
    property is written, its value is not kept.  An exception leaves through
    the [catch].  With [forceRefresh] not awaited, as in the source:
    [Async.applyBannerHeight]. *)
Definition applyBannerHeight (w : World) : World :=
  let w := call SetBannerHeight w in
  match activeView (host w) with
  | None => w
  | Some view =>
    match file (viewAt w view) with
    | None => w
    | Some f =>
      if negb (bool_decide (extension f = js "md")) then w else
      let path := path f in
      if Settings.isNoteDisabled (settings (plugin w)) path then w else
      if Ignore.matchIgnore path (ignoreLines w) then w else
      match getOrCreateGraphView view w with
      | (w, None) => w
      | (w, Some gv) =>
        let mode := getMode (viewAt w view) in
        let behaviour := orS (Settings.showInEditMode (settings (plugin w)))
                           Settings.DEFAULT_showInEditMode in
        if Mode_eqb mode source && bool_decide (behaviour = js "hidden")
        then setVisibility gv false w else
        let compact :=
          Mode_eqb mode source && bool_decide (behaviour = js "compact") in
        let mobileMode := orS (Settings.mobileMode (settings (plugin w)))
                            Settings.DEFAULT_mobileMode in
        if isMobile (host w) && bool_decide (mobileMode = js "disabled")
        then setVisibility gv false w else
        let mobileSimplified :=
          isMobile (host w) && bool_decide (mobileMode = js "simplified") in
        let w := setVisibility gv true w in
        forceRefresh gv view (Some (compact, mobileSimplified)) w
      end
    end
  end.

(** [_getCoreSettingsSnapshot()]: the spread [[...ignore]] is a new array. *)
Definition getCoreSettingsSnapshot (w : World) : World * Settings.Snapshot :=
  let s := settings (plugin w) in
  let '(p, r) := allocArray (ignoreLines w) (plugin w) in
  (withPlugin (fun _ => p) w,
   {| Settings.snap_maxGraphViews := Settings.maxGraphViews s;
      Settings.snap_layoutDebounceMs := Settings.layoutDebounceMs s;
      Settings.snap_mobileMode := Settings.mobileMode s;
      Settings.snap_showInEditMode := Settings.showInEditMode s;
      Settings.snap_timeToRemoveLeaf := Settings.timeToRemoveLeaf s;
      Settings.snap_bannerHeight := Settings.bannerHeight s;
      Settings.snap_ignore := Some r |}).

(** [_applyCoreSettingsSnapshot(snapshot)] *)
Definition applyCoreSettingsSnapshot (snapshot : option Settings.Snapshot)
    (w : World) : World :=
  match snapshot with
  | None => w
  | Some sn =>
    let s := settings (plugin w) in
    let s := Settings.set_core
               (nullish (Settings.snap_maxGraphViews sn) (Settings.maxGraphViews s))
               (nullish (Settings.snap_layoutDebounceMs sn) (Settings.layoutDebounceMs s))
               (nullish (Settings.snap_mobileMode sn) (Settings.mobileMode s))
               (nullish (Settings.snap_showInEditMode sn) (Settings.showInEditMode s))
               (nullish (Settings.snap_timeToRemoveLeaf sn) (Settings.timeToRemoveLeaf s))
               (nullish (Settings.snap_bannerHeight sn) (Settings.bannerHeight s))
               s in
    let w := withPlugin (set_settings s) w in
    match Settings.snap_ignore sn with
    | Some r =>
      let '(p, r') := allocArray (default [] (arrays (plugin w) !! r)) (plugin w) in
      withPlugin (fun _ => set_settings (Settings.set_ignore (Some r') (settings p)) p) w
    | None => w
    end
  end.

(** [saveCurrentToUserPreset(n)] *)
Definition saveCurrentToUserPreset (n : Z) (w : World) : World :=
  let '(w, snapshot) := getCoreSettingsSnapshot w in
  if (n =? 1)%Z then
    withPlugin (fun p => set_settings (Settings.set_preset1 (Some snapshot) (settings p)) p) w
  else if (n =? 2)%Z then
    withPlugin (fun p => set_settings (Settings.set_preset2 (Some snapshot) (settings p)) p) w
  else w.

(** [applyUserPreset(n)] *)
Definition applyUserPreset (n : Z) (w : World) : World :=
  let snapshot := if (n =? 1)%Z then Settings.preset1 (settings (plugin w))
                  else Settings.preset2 (settings (plugin w)) in
  match snapshot with
  | None => call (Notice false) w
  | Some _ => applyCoreSettingsSnapshot snapshot w
  end.

(** [clearUserPreset(n)], with [this.settings.presets] there as in
    [DEFAULT_SETTINGS]. *)
Definition clearUserPreset (n : Z) (w : World) : World :=
  if (n =? 1)%Z then
    withPlugin (fun p => set_settings (Settings.set_preset1 None (settings p)) p) w
  else if (n =? 2)%Z then
    withPlugin (fun p => set_settings (Settings.set_preset2 None (settings p)) p) w
  else w.

(** The [layout-change] handler. *)
Definition onLayoutChange (w : World) : World :=
  match activeView (host w) with
  | None => w
  | Some view =>
    let wait := default Settings.DEFAULT_layoutDebounceMs
                  (Settings.layoutDebounceMs (settings (plugin w))) in
    let w := match layoutTimer (plugin w) with
             | Some id => clearTimeout id w
             | None => w
             end in
    let '(w, id) := setTimeout (CbPlaceGraphView view) wait w in
    withPlugin (set_layoutTimer (Some id)) w
  end.

(** [onunload()] *)
Definition onunload (w : World) : World :=
  let w := match layoutTimer (plugin w) with
           | Some id => withPlugin (set_layoutTimer None) (clearTimeout id w)
           | None => w
           end in
  let w := fold_left (fun w gv => detach gv w) (graphViews (plugin w)) w in
  withPlugin (set_graphViews []) w.

(** *** The event loop *)

Definition runCallback (cb : Callback) (w : World) : World :=
  match cb with
  | CbPlaceGraphView view => placeGraphView view w
  | CbRemoveChild lf => removeChild lf w
  end.

(** The pending timer that fires first: earliest due time, and among equal
    due times the one set first. *)
Fixpoint earliest (ts : list Timer) : option Timer :=
  match ts with
  | [] => None
  | t :: ts' =>
    match earliest ts' with
    | Some u => if (due u <? due t)%Z then Some u else Some t
    | None => Some t
    end
  end.

(** The timer [t] leaves the pending timers; the clock is at its due time
    or later. *)
Definition dequeue (t : Timer) (w : World) : World :=
  withLoop
    (fun l => set_now (Z.max (now l) (due t))
                (set_timers
                   (filter (fun u => timerId u ≠ timerId t) (timers l)) l)) w.

(** The timer [t] fires: its callback runs. *)
Definition fireTimer (t : Timer) (w : World) : World :=
  runCallback (callback t) (call (TimerFired (timerId t)) (dequeue t w)).

(** Fire the timers due by [target], in order, then let the clock reach
    [target].  [None]: out of fuel. *)
Fixpoint runTimers (fuel : nat) (target : Z) (w : World) : option World :=
  match fuel with
  | O => None
  | S fuel' =>
    match earliest (timers (loop w)) with
    | Some t =>
      if (due t <=? target)%Z then runTimers fuel' target (fireTimer t w)
      else Some (withLoop (set_now target) w)
    | None => Some (withLoop (set_now target) w)
    end
  end.

(** A debounce timer can start one removal timer when it fires; a removal
    timer starts none. *)
Definition weight (t : Timer) : nat :=
  match callback t with
  | CbPlaceGraphView _ => 2
  | CbRemoveChild _ => 1
  end.

Definition timersWeight (ts : list Timer) : nat :=
  foldr (fun t n => (weight t + n)%nat) O ts.

(** [d] milliseconds pass with no other event. *)
Definition elapse (d : Z) (w : World) : option World :=
  runTimers (S (timersWeight (timers (loop w))))
    (now (loop w) + Z.max 0 d)%Z w.

(** The host makes [active] the active markdown view, or leaves none
    active, and fires [layout-change]. *)
Definition layoutChange (active : option nat) (w : World) : World :=
  onLayoutChange (withHost (set_activeView active) w).

(** The host makes [view] the active markdown view and fires
    [layout-change]. *)
Definition trigger (view : nat) (w : World) : World :=
  onLayoutChange (withHost (set_activeView (Some view)) w).

(** A burst of layout changes: after the first trigger, each further one
    comes [d] milliseconds after the one before. *)
Fixpoint burstRest (rest : list (Z * nat)) (w : World) : option World :=
  match rest with
  | [] => Some w
  | (d, view) :: rest' =>
    match elapse d w with
    | Some w' => burstRest rest' (trigger view w')
    | None => None
    end
  end.

(** Layout changes one after the other, each [d] milliseconds after the
    event before it, with the markdown view that is active then, or none. *)
Fixpoint layoutChanges (changes : list (Z * option nat)) (w : World) : option World :=
  match changes with
  | [] => Some w
  | (d, active) :: changes' =>
    match elapse d w with
    | Some w' => layoutChanges changes' (layoutChange active w')
    | None => None
    end
  end.

(** The burst, then [quietTime] milliseconds with no further event. *)
Definition burst (first : nat) (rest : list (Z * nat)) (quietTime : Z)
    (w : World) : option World :=
  match burstRest rest (trigger first w) with
  | Some w' => elapse quietTime w'
  | None => None
  end.

End Plugin.

(* ===================================================================== *)
(** ** The settings tab *)
(* ===================================================================== *)

Module SettingTab.
Import Js Plugin.

(** Line feed, the separator of the ignore text area. *)
Definition c_lf : N := 10.

(** [value.split(sep)] for a separator of one code unit. *)
Fixpoint split (sep : N) (value : jsstring) : list jsstring :=
  match value with
  | [] => [[]]
  | c :: rest =>
    if c =? sep then [] :: split sep rest
    else
      match split sep rest with
      | line :: lines => (c :: line) :: lines
      | [] => [[c]]
      end
  end.

(** [lines.join(sep)] *)
Fixpoint join (sep : N) (lines : list jsstring) : jsstring :=
  match lines with
  | [] => []
  | [line] => line
  | line :: lines' => line ++ sep :: join sep lines'
  end.

(** What the ignore text area is given to show:
    [(this.plugin.settings.ignore || []).join('\n')]. *)
Definition ignoreText (w : World) : jsstring := join c_lf (ignoreLines w).

(** [onChange] of the ignore text area: the new array, then
    [saveSettings()]. *)
Definition onIgnoreChange (value : jsstring) (w : World) : World :=
  let '(p, r) := allocArray (split c_lf value) (plugin w) in
  call SaveData
    (withPlugin
       (fun _ => set_settings (Settings.set_ignore (Some r) (settings p)) p) w).

Definition set_bannerHeight (v : option jsstring) (s : Settings.t) : Settings.t :=
  Settings.set_core (Settings.maxGraphViews s) (Settings.layoutDebounceMs s)
    (Settings.mobileMode s) (Settings.showInEditMode s)
    (Settings.timeToRemoveLeaf s) v s.

(** [onChange] of the banner height field, its [applyBannerHeight] taken
    with the refresh awaited; as the source has it:
    [Async.onBannerHeightChange]. *)
Definition onBannerHeightChange (value : jsstring) (w : World) : World :=
  let v := orS (Some (trim (orS (Some value) [])))
             (orS (Some Settings.DEFAULT_bannerHeight) (js "14vh")) in
  let w := withPlugin
             (fun p => set_settings (set_bannerHeight (Some v) (settings p)) p) w in
  let w := applyBannerHeight w in
  call SaveData w.

Definition set_maxGraphViews (v : option Z) (s : Settings.t) : Settings.t :=
  Settings.set_core v (Settings.layoutDebounceMs s)
    (Settings.mobileMode s) (Settings.showInEditMode s)
    (Settings.timeToRemoveLeaf s) (Settings.bannerHeight s) s.

Definition set_layoutDebounceMs (v : option Z) (s : Settings.t) : Settings.t :=
  Settings.set_core (Settings.maxGraphViews s) v
    (Settings.mobileMode s) (Settings.showInEditMode s)
    (Settings.timeToRemoveLeaf s) (Settings.bannerHeight s) s.

Definition set_timeToRemoveLeaf (v : option Z) (s : Settings.t) : Settings.t :=
  Settings.set_core (Settings.maxGraphViews s) (Settings.layoutDebounceMs s)
    (Settings.mobileMode s) (Settings.showInEditMode s)
    v (Settings.bannerHeight s) s.

Definition set_showInEditMode (v : option jsstring) (s : Settings.t) : Settings.t :=
  Settings.set_core (Settings.maxGraphViews s) (Settings.layoutDebounceMs s)
    (Settings.mobileMode s) v
    (Settings.timeToRemoveLeaf s) (Settings.bannerHeight s) s.

Definition set_mobileMode (v : option jsstring) (s : Settings.t) : Settings.t :=
  Settings.set_core (Settings.maxGraphViews s) (Settings.layoutDebounceMs s)
    v (Settings.showInEditMode s)
    (Settings.timeToRemoveLeaf s) (Settings.bannerHeight s) s.

(** A handler that writes the settings and calls [saveSettings()].  The
    notices of the tab and its [display()] are not recorded. *)
Definition store (f : Settings.t -> Settings.t) (w : World) : World :=
  call SaveData (withPlugin (fun p => set_settings (f (settings p)) p) w).

(** [onChange] of the slider of [maxGraphViews]; the slider has the limits
    1 and 5 and the step 1. *)
Definition onMaxGraphViewsChange (value : Z) (w : World) : World :=
  store (set_maxGraphViews (Some value)) w.

(** [onChange] of a number field, for the fields [layoutDebounceMs] and
    [timeToRemoveLeaf]: [num] is [Number(value)], [None] when that is not
    finite; a number that is not finite or is negative is refused. *)
Definition onNumberChange (set : option Z -> Settings.t -> Settings.t)
    (num : option Z) (w : World) : World :=
  match num with
  | None => w
  | Some n => if (n <? 0)%Z then w else store (set (Some n)) w
  end.

Definition onDebounceChange : option Z -> World -> World :=
  onNumberChange set_layoutDebounceMs.

Definition onLeafTimeChange : option Z -> World -> World :=
  onNumberChange set_timeToRemoveLeaf.

(** [onChange] of the dropdowns of [showInEditMode] and [mobileMode]. *)
Definition onEditModeChange (value : jsstring) (w : World) : World :=
  store (set_showInEditMode (Some value)) w.

Definition onMobileModeChange (value : jsstring) (w : World) : World :=
  store (set_mobileMode (Some value)) w.

(** [onChange] of the preset dropdown. *)
Definition onPresetChange (value : jsstring) (w : World) : World :=
  if bool_decide (value = js "none") then
    store (Settings.set_lastAppliedPreset (Some (js "none"))) w
  else
    let w :=
      if bool_decide (value = js "perf")
         || bool_decide (value = js "balanced")
         || bool_decide (value = js "info")
      then withPlugin
             (fun p => set_settings
                         (Settings.applyBuiltinPreset value (settings p)) p) w
      else if bool_decide (value = js "user1") then applyUserPreset 1 w
      else if bool_decide (value = js "user2") then applyUserPreset 2 w
      else w in
    store (Settings.set_lastAppliedPreset (Some value)) w.

(** [onClick] of the two buttons of the user preset [n]. *)
Definition onSavePreset (n : Z) (w : World) : World :=
  call SaveData (saveCurrentToUserPreset n w).

Definition onClearPreset (n : Z) (w : World) : World :=
  call SaveData (clearUserPreset n w).

End SettingTab.

(* ===================================================================== *)
(** ** Interactive mode of a banner *)
(* ===================================================================== *)

Module Interactive.

(** [overlay.style.pointerEvents] *)
Inductive PointerEvents : Type := pe_auto | pe_none.

(** What the interactive mode reads and writes of a banner whose node is
    set up, with its overlay in place: [node.dataset['interactive']]
    ([None] before the first write, then the string of a boolean), the
    overlay style, the class
    [graph-banner-active], and the [pointerdown] listeners on the document
    whose [AbortController] has not aborted, in the order they were added. *)
Record Banner : Type := {
  dataset_interactive : option bool;
  overlay_pointerEvents : PointerEvents;
  cls_active : bool;
  listeners : list nat;
  nextListener : nat;
}.

(** The banner as [_setupNode] leaves it. *)
Definition afterSetupNode : Banner :=
  {| dataset_interactive := None; overlay_pointerEvents := pe_auto;
     cls_active := false; listeners := []; nextListener := 0 |}.

(** [isActive()] *)
Definition isActive (b : Banner) : bool :=
  match dataset_interactive b with
  | Some true => true
  | _ => false
  end.

(** [setActive(active)] *)
Definition setActive (active : bool) (b : Banner) : Banner :=
  {| dataset_interactive := Some active;
     overlay_pointerEvents := if active then pe_none else pe_auto;
     cls_active := active;
     listeners := listeners b; nextListener := nextListener b |}.

(** [document.addEventListener('pointerdown', ..., { signal })] *)
Definition addListener (b : Banner) : Banner :=
  {| dataset_interactive := dataset_interactive b;
     overlay_pointerEvents := overlay_pointerEvents b;
     cls_active := cls_active b;
     listeners := listeners b ++ [nextListener b];
     nextListener := S (nextListener b) |}.

(** [abortController.abort()] of the listener [id]. *)
Definition abort (id : nat) (b : Banner) : Banner :=
  {| dataset_interactive := dataset_interactive b;
     overlay_pointerEvents := overlay_pointerEvents b;
     cls_active := cls_active b;
     listeners := List.filter (fun l => negb (Nat.eqb l id)) (listeners b);
     nextListener := nextListener b |}.

(** The [pointerup] listener of the overlay. *)
Definition onOverlayPointerUp (b : Banner) : Banner :=
  if isActive b then b else addListener (setActive true b).

(** The [pointerdown] listener [id]; [inside] is
    [target && node.contains(target)]. *)
Definition listener (id : nat) (inside : bool) (b : Banner) : Banner :=
  if negb (isActive b) then b
  else if inside then b
  else abort id (setActive false b).

(** A [pointerdown] on the document: the listeners present when the event
    is dispatched run in order, each unless removed in the meantime. *)
Definition onDocumentPointerDown (inside : bool) (b : Banner) : Banner :=
  fold_left
    (fun b id => if existsb (Nat.eqb id) (listeners b)
                 then listener id inside b else b)
    (listeners b) b.

(** Pointer events on a banner. *)
Inductive Pointer : Type :=
| OverlayPointerUp
| DocumentPointerDown (inside : bool).

Definition handle (e : Pointer) (b : Banner) : Banner :=
  match e with
  | OverlayPointerUp => onOverlayPointerUp b
  | DocumentPointerDown inside => onDocumentPointerDown inside b
  end.

Definition handleAll (es : list Pointer) (b : Banner) : Banner :=
  fold_left (fun b e => handle e b) es b.

(** The banner after the events [es], from the state [_setupNode] leaves. *)
Definition after (es : list Pointer) : Banner := handleAll es afterSetupNode.

(** The listener on the document is there exactly while the banner is in
    interactive mode, and it is the one added last; the class and the
    overlay follow the mode. *)
Definition Consistent (b : Banner) : Prop :=
  listeners b = (if isActive b then [Nat.pred (nextListener b)] else [])
  /\ cls_active b = isActive b
  /\ overlay_pointerEvents b = (if isActive b then pe_none else pe_auto).

End Interactive.

(* ===================================================================== *)
(** ** Calls that are not awaited *)
(* ===================================================================== *)

Module Async.
Import Js Plugin.

(** A call of [placeTo] that is suspended: after
    [await this.setupLeafPromise], or after
    [await this.leaf.setViewState({ ..., state: { file: filePath } })]. *)
Inductive Task : Type :=
| PlaceToAfterSetup (gv view : nat) (opts : option (bool * bool))
| PlaceToAfterBind (gv view : nat) (opts : option (bool * bool))
    (filePath : jsstring).

Definition taskOf (t : Task) : nat :=
  match t with
  | PlaceToAfterSetup gv _ _ => gv
  | PlaceToAfterBind gv _ _ _ => gv
  end.

(** The plugin with what it has left pending: the promise jobs ready to
    run, first to run first; the calls of [placeTo] that wait for a
    [setupLeafPromise] still pending, in the order they were made; the
    promises of the file-scoped [setViewState] the host has not yet
    fulfilled, each with the call that awaits it; and the views whose
    resolution ended in a rejected promise.  The rest of a [_setupLeaf] that
    waits for the host is the [SetupPending] of its graph view. *)
Record State : Type := {
  world : World;
  jobs : list Task;
  setupWaiters : list Task;
  binds : list (nat * Task);
  nextPromise : nat;
  rejections : list nat;
}.

(** Nothing pending. *)
Definition settledState (w : World) : State :=
  {| world := w; jobs := []; setupWaiters := []; binds := [];
     nextPromise := 0; rejections := [] |}.

(** Code that does not wait. *)
Definition lift (f : World -> World) (a : State) : State :=
  {| world := f (world a); jobs := jobs a; setupWaiters := setupWaiters a;
     binds := binds a; nextPromise := nextPromise a;
     rejections := rejections a |}.

Definition setJobs (js : list Task) (a : State) : State :=
  {| world := world a; jobs := js; setupWaiters := setupWaiters a;
     binds := binds a; nextPromise := nextPromise a;
     rejections := rejections a |}.

Definition setSetupWaiters (ts : list Task) (a : State) : State :=
  {| world := world a; jobs := jobs a; setupWaiters := ts;
     binds := binds a; nextPromise := nextPromise a;
     rejections := rejections a |}.

Definition setBinds (bs : list (nat * Task)) (a : State) : State :=
  {| world := world a; jobs := jobs a; setupWaiters := setupWaiters a;
     binds := bs; nextPromise := nextPromise a;
     rejections := rejections a |}.

(** [await] of the promise the host has just returned. *)
Definition awaitBind (t : Task) (a : State) : State :=
  {| world := world a; jobs := jobs a; setupWaiters := setupWaiters a;
     binds := binds a ++ [(nextPromise a, t)];
     nextPromise := S (nextPromise a); rejections := rejections a |}.

(** The promise of [placeGraphView(view)] is rejected. *)
Definition reject (view : nat) (a : State) : State :=
  {| world := world a; jobs := jobs a; setupWaiters := setupWaiters a;
     binds := binds a; nextPromise := nextPromise a;
     rejections := rejections a ++ [view] |}.

(** *** [class GraphView] *)

(** [placeTo(view, opts)] as it is called: it runs up to
    [await this.setupLeafPromise].  When that promise is fulfilled already
    the rest is a promise job; else it waits for the setup. *)
Definition placeTo (gv view : nat) (opts : option (bool * bool)) (a : State) : State :=
  match object (world a) gv with
  | Some g =>
    match setupLeafPromise g with
    | SetupDone => setJobs (jobs a ++ [PlaceToAfterSetup gv view opts]) a
    | SetupPending _ =>
      setSetupWaiters (setupWaiters a ++ [PlaceToAfterSetup gv view opts]) a
    end
  | None => a
  end.

(** [forceRefresh(view, opts)] as it is called. *)
Definition forceRefresh (gv view : nat) (opts : option (bool * bool)) (a : State) : State :=
  placeTo gv view opts (lift (updObject gv (setCurrentFilePath None)) a).

(** [placeTo] from [const mode = view.getMode()] to its end. *)
Definition placeTail (gv n view : nat) (opts : option (bool * bool)) (w : World) : World :=
  let mode := getMode (viewAt w view) in
  if negb (modeContainerFound (viewAt w view)) then w else
  match insertUnderTitle gv n view mode w with
  | None => w
  | Some w => showAndResize gv n opts w
  end.

(** What follows [await this.leaf.setViewState(...)] inside
    [if (needNewState)]. *)
Definition bound (gv : nat) (filePath : jsstring) (w : World) : World :=
  match object w gv with
  | Some g =>
    updObject gv (setCurrentFilePath (Some filePath))
      (call (SetGroup (leaf g) filePath) w)
  | None => w
  end.

(** A suspended call of [placeTo] goes on, up to its next [await] or to
    its end. *)
Definition runTask (t : Task) (a : State) : State :=
  match t with
  | PlaceToAfterSetup gv view opts =>
    match nodeOf (world a) gv with
    | None => a
    | Some n =>
      match file (viewAt (world a) view) with
      | None => a
      | Some f =>
        match object (world a) gv with
        | None => a
        | Some g =>
          let filePath := path f in
          let needNewState :=
            negb (bool_decide (currentFilePath g = Some filePath)) in
          if needNewState then
            awaitBind (PlaceToAfterBind gv view opts filePath)
              (lift (call (SetViewState (leaf g) (Some filePath))) a)
          else lift (placeTail gv n view opts) a
        end
      end
    end
  | PlaceToAfterBind gv view opts filePath =>
    let a := lift (bound gv filePath) a in
    match nodeOf (world a) gv with
    | None => a
    | Some n => lift (placeTail gv n view opts) a
    end
  end.

(** The promise jobs run, first first. *)
Fixpoint drain (fuel : nat) (a : State) : State :=
  match fuel with
  | O => a
  | S fuel' =>
    match jobs a with
    | [] => a
    | t :: rest => drain fuel' (runTask t (setJobs rest a))
    end
  end.

(** The end of a turn of the event loop: the promise jobs run until none is
    left.  A job of the plugin adds no job. *)
Definition microtasks (a : State) : State := drain (length (jobs a)) a.

(** The host fulfils the promise [_setupLeaf] of [gv] awaits: the rest of
    [_setupLeaf] runs, [setupLeafPromise] is fulfilled, and the calls of
    [placeTo] that wait for it go on in the order they were made. *)
Definition settleSetup (gv : nat) (a : State) : State :=
  match object (world a) gv with
  | Some g =>
    match setupLeafPromise g with
    | SetupPending _ =>
      let a := lift (resumeSetupLeaf gv) a in
      let waiting t := Nat.eqb (taskOf t) gv in
      microtasks
        (setJobs (jobs a ++ List.filter waiting (setupWaiters a))
           (setSetupWaiters
              (List.filter (fun t => negb (waiting t)) (setupWaiters a)) a))
    | SetupDone => a
    end
  | None => a
  end.

(** The host fulfils the promise [p] of a file-scoped [setViewState]. *)
Definition settleBind (p : nat) (a : State) : State :=
  match List.find (fun b => Nat.eqb (fst b) p) (binds a) with
  | Some (_, t) =>
    microtasks
      (setJobs (jobs a ++ [t])
         (setBinds (List.filter (fun b => negb (Nat.eqb (fst b) p)) (binds a)) a))
  | None => a
  end.

(** *** [class GraphBannerPlugin] *)

(** [placeGraphView(view)] as it is called: up to the [await] inside its
    [placeTo]. *)
Definition placeGraphView (view : nat) (a : State) : State :=
  let a := lift (call (PlaceGraphView view)) a in
  match file (viewAt (world a) view) with
  | None => a
  | Some f =>
    if negb (bool_decide (extension f = js "md")) then a else
    let path := path f in
    if Settings.isNoteDisabled (settings (plugin (world a))) path then
      match getOrCreateGraphView view (world a) with
      | (w, Some gv) => lift (fun _ => setVisibility gv false w) a
      | (w, None) => reject view (lift (fun _ => w) a)
      end
    else
      let ignored := Ignore.matchIgnore path (ignoreLines (world a)) in
      match getOrCreateGraphView view (world a) with
      | (w, None) => reject view (lift (fun _ => w) a)
      | (w, Some gv) =>
        let w := setVisibility gv (negb ignored) w in
        if ignored then lift (fun _ => w) a else
        let mode := getMode (viewAt w view) in
        let behaviour := orS (Settings.showInEditMode (settings (plugin w)))
                           Settings.DEFAULT_showInEditMode in
        if Mode_eqb mode source && bool_decide (behaviour = js "hidden")
        then lift (fun _ => setVisibility gv false w) a else
        let compact :=
          Mode_eqb mode source && bool_decide (behaviour = js "compact") in
        let mobileMode := orS (Settings.mobileMode (settings (plugin w)))
                            Settings.DEFAULT_mobileMode in
        if isMobile (host w) && bool_decide (mobileMode = js "disabled")
        then lift (fun _ => setVisibility gv false w) a else
        let mobileSimplified :=
          isMobile (host w) && bool_decide (mobileMode = js "simplified") in
        let w := setVisibility gv true w in
        placeTo gv view (Some (compact, mobileSimplified)) (lift (fun _ => w) a)
      end
  end.

(** [applyBannerHeight()]: its [forceRefresh] is not awaited; an exception
    leaves through the [catch]. *)
Definition applyBannerHeight (a : State) : State :=
  let a := lift (call SetBannerHeight) a in
  match activeView (host (world a)) with
  | None => a
  | Some view =>
    match file (viewAt (world a) view) with
    | None => a
    | Some f =>
      if negb (bool_decide (extension f = js "md")) then a else
      let path := path f in
      if Settings.isNoteDisabled (settings (plugin (world a))) path then a else
      if Ignore.matchIgnore path (ignoreLines (world a)) then a else
      match getOrCreateGraphView view (world a) with
      | (w, None) => lift (fun _ => w) a
      | (w, Some gv) =>
        let mode := getMode (viewAt w view) in
        let behaviour := orS (Settings.showInEditMode (settings (plugin w)))
                           Settings.DEFAULT_showInEditMode in
        if Mode_eqb mode source && bool_decide (behaviour = js "hidden")
        then lift (fun _ => setVisibility gv false w) a else
        let compact :=
          Mode_eqb mode source && bool_decide (behaviour = js "compact") in
        let mobileMode := orS (Settings.mobileMode (settings (plugin w)))
                            Settings.DEFAULT_mobileMode in
        if isMobile (host w) && bool_decide (mobileMode = js "disabled")
        then lift (fun _ => setVisibility gv false w) a else
        let mobileSimplified :=
          isMobile (host w) && bool_decide (mobileMode = js "simplified") in
        let w := setVisibility gv true w in
        forceRefresh gv view (Some (compact, mobileSimplified))
          (lift (fun _ => w) a)
      end
    end
  end.

(** [toggleCurrentNote(path)]; neither [saveSettings()] nor
    [placeGraphView(view)] is awaited. *)
Definition toggleCurrentNote (path' : jsstring) (a : State) : State :=
  let paths :=
    default [] (Settings.perNoteDisabledPaths (settings (plugin (world a)))) in
  let a := lift (call (Notice (bool_decide (is_Some (indexOf paths path'))))) a in
  let a := lift (withPlugin
                   (fun p => set_settings
                      (Settings.set_perNoteDisabledPaths
                         (Some (Settings.toggleList paths path')) (settings p)) p))
             a in
  let a := lift (call SaveData) a in
  match activeView (host (world a)) with
  | Some view =>
    match file (viewAt (world a) view) with
    | Some f => if bool_decide (path f = path') then placeGraphView view a else a
    | None => a
    end
  | None => a
  end.

(** The command [toggle-current-note-banner], run ([checking] false). *)
Definition toggleCommand (a : State) : State :=
  match activeView (host (world a)) with
  | Some view =>
    match file (viewAt (world a) view) with
    | Some f => toggleCurrentNote (path f) a
    | None => a
    end
  | None => a
  end.

(** The [file-open] handler. *)
Definition onFileOpen (opened : option TFile) (a : State) : State :=
  match opened with
  | None => a
  | Some f =>
    if negb (bool_decide (extension f = js "md")) then a else
    match activeView (host (world a)) with
    | Some view =>
      if bool_decide (file (viewAt (world a) view) = Some f)
      then placeGraphView view a else a
    | None => a
    end
  end.

(** [onChange] of the banner height field. *)
Definition onBannerHeightChange (value : jsstring) (a : State) : State :=
  let v := orS (Some (trim (orS (Some value) [])))
             (orS (Some Settings.DEFAULT_bannerHeight) (js "14vh")) in
  let a := lift (withPlugin
                   (fun p => set_settings
                               (SettingTab.set_bannerHeight (Some v) (settings p)) p))
             a in
  let a := applyBannerHeight a in
  lift (call SaveData) a.

(** [onload()] from the merged settings, to the end of its turn: neither
    the refresh of [applyBannerHeight] nor [placeGraphView(active)] is
    awaited. *)
Definition onload (s : Settings.t) (arr : gmap nat (list jsstring))
    (nextArr : nat) (h : Host) (l : Loop) : State :=
  let a := settledState
             {| plugin := {| settings := s; arrays := arr; nextArray := nextArr;
                             graphViews := []; objects := ∅;
                             layoutTimer := None |};
                host := h; loop := l; calls := [] |} in
  let a := applyBannerHeight a in
  let a :=
    match activeView (host (world a)) with
    | Some active =>
      match file (viewAt (world a) active) with
      | Some f =>
        if bool_decide (extension f = js "md") then placeGraphView active a else a
      | None => a
      end
    | None => a
    end in
  microtasks a.

(** *** The event loop *)

Definition runCallback (cb : Callback) (a : State) : State :=
  match cb with
  | CbPlaceGraphView view => placeGraphView view a
  | CbRemoveChild lf => lift (removeChild lf) a
  end.

(** The timer [t] fires: its callback runs, then the promise jobs. *)
Definition fireTimer (t : Timer) (a : State) : State :=
  microtasks
    (runCallback (callback t)
       (lift (fun w => call (TimerFired (timerId t)) (dequeue t w)) a)).

(** Fire the timers due by [target], in order, then let the clock reach
    [target]. *)
Fixpoint runTimers (fuel : nat) (target : Z) (a : State) : State :=
  match fuel with
  | O => a
  | S fuel' =>
    match earliest (timers (loop (world a))) with
    | Some t =>
      if (due t <=? target)%Z then runTimers fuel' target (fireTimer t a)
      else lift (withLoop (set_now target)) a
    | None => lift (withLoop (set_now target)) a
    end
  end.

(** [d] milliseconds pass with no other event.  A timer that fires sets no
    timer, so each pending timer fires at most once. *)
Definition elapse (d : Z) (a : State) : State :=
  runTimers (S (length (timers (loop (world a)))))
    (now (loop (world a)) + Z.max 0 d)%Z a.

(** The host changes the workspace and the DOM to those of [h]; it does not
    hand out again a leaf it has handed out. *)
Definition hostChanges (h : Host) (w : World) : World :=
  withHost (fun h0 => set_nextLeaf (Nat.max (nextLeaf h0) (nextLeaf h)) h) w.

(** What can happen to a loaded plugin: the workspace events it listens
    to, its command, the controls of its settings tab, time passing, the
    host changing the workspace, the host fulfilling a promise the plugin
    awaits, and the unload. *)
Inductive Event : Type :=
| LayoutChange
| FileOpen (opened : option TFile)
| ToggleCommand
| PresetChange (value : jsstring)
| SavePreset (n : Z)
| ClearPreset (n : Z)
| MaxGraphViewsChange (value : Z)
| DebounceChange (num : option Z)
| LeafTimeChange (num : option Z)
| EditModeChange (value : jsstring)
| MobileModeChange (value : jsstring)
| BannerHeightChange (value : jsstring)
| IgnoreChange (value : jsstring)
| TimePasses (d : Z)
| HostChanges (h : Host)
| SetupSettles (gv : nat)
| BindSettles (p : nat)
| Unload.

Definition handle (e : Event) (a : State) : State :=
  match e with
  | LayoutChange => lift onLayoutChange a
  | FileOpen opened => onFileOpen opened a
  | ToggleCommand => toggleCommand a
  | PresetChange value => lift (SettingTab.onPresetChange value) a
  | SavePreset n => lift (SettingTab.onSavePreset n) a
  | ClearPreset n => lift (SettingTab.onClearPreset n) a
  | MaxGraphViewsChange value => lift (SettingTab.onMaxGraphViewsChange value) a
  | DebounceChange num => lift (SettingTab.onDebounceChange num) a
  | LeafTimeChange num => lift (SettingTab.onLeafTimeChange num) a
  | EditModeChange value => lift (SettingTab.onEditModeChange value) a
  | MobileModeChange value => lift (SettingTab.onMobileModeChange value) a
  | BannerHeightChange value => onBannerHeightChange value a
  | IgnoreChange value => lift (SettingTab.onIgnoreChange value) a
  | TimePasses d => elapse d a
  | HostChanges h => lift (hostChanges h) a
  | SetupSettles gv => settleSetup gv a
  | BindSettles p => settleBind p a
  | Unload => lift onunload a
  end.

(** One turn of the event loop: the event is handled, then the promise
    jobs run. *)
Definition step (e : Event) (a : State) : State := microtasks (handle e a).

Definition run (es : list Event) (a : State) : State :=
  fold_left (fun a e => step e a) es a.

(** The values the slider hands over in a session. *)
Definition sliderValues (es : list Event) : list Z :=
  omap (fun e => match e with
                 | MaxGraphViewsChange value => Some value
                 | _ => None
                 end) es.

(** The host fulfils every promise of a file-scoped [setViewState] that is
    pending, the oldest first. *)
Definition settleBinds (a : State) : State :=
  fold_left (fun a b => settleBind (fst b) a) (binds a) a.

(** The host fulfils the promise of every setup a call of [placeTo] waits
    for. *)
Definition settleWaited (a : State) : State :=
  fold_left (fun a t => settleSetup (taskOf t) a) (setupWaiters a) a.

(** The calls made so far are awaited: the promise jobs run, and the host
    fulfils the promises the calls of [placeTo] wait for, the setups first. *)
Definition awaitAll (a : State) : State :=
  settleBinds (settleWaited (microtasks a)).

End Async.

(* ===================================================================== *)
(** ** A small workspace to run the plugin on *)
(* ===================================================================== *)

Module Sample.
Import Plugin.

Definition noteA : TFile := {| path := js "A.md"; extension := js "md" |}.
Definition noteB : TFile := {| path := js "B.md"; extension := js "md" |}.

Definition openView (f : TFile) (m : Mode) : MarkdownView :=
  {| file := Some f; getMode := m;
     modeContainerFound := true; inlineTitleFound := true |}.

(** [DEFAULT_SETTINGS], with the empty [ignore] array at address 0. *)
Definition defaults : Settings.t :=
  {| Settings.ignore := Some O;
     Settings.timeToRemoveLeaf := Some Settings.DEFAULT_timeToRemoveLeaf;
     Settings.maxGraphViews := Some Settings.DEFAULT_maxGraphViews;
     Settings.layoutDebounceMs := Some Settings.DEFAULT_layoutDebounceMs;
     Settings.bannerHeight := Some Settings.DEFAULT_bannerHeight;
     Settings.mobileMode := Some Settings.DEFAULT_mobileMode;
     Settings.showInEditMode := Some Settings.DEFAULT_showInEditMode;
     Settings.perNoteDisabledPaths := Some [];
     Settings.preset1 := None; Settings.preset2 := None;
     Settings.lastAppliedPreset := Some (js "none") |}.

(** Two panes: note A in view 1 (active), note B in view 2. *)
Definition twoPanes (m : Mode) : Host :=
  {| views := {[ 1%nat := openView noteA m; 2%nat := openView noteB m ]};
     activeView := Some 1%nat;
     markdownLeaves := [1%nat; 2%nat];
     nodes := ∅; leafParent := ∅; noViewContent := ∅;
     nextLeaf := 10; isMobile := false |}.

(** The defaults with another [maxGraphViews]. *)
Definition capped (n : Z) : Settings.t :=
  Settings.set_core (Some n) (Settings.layoutDebounceMs defaults)
    (Settings.mobileMode defaults) (Settings.showInEditMode defaults)
    (Settings.timeToRemoveLeaf defaults) (Settings.bannerHeight defaults)
    defaults.

(** The defaults with another [layoutDebounceMs]. *)
Definition debounced (ms : Z) : Settings.t :=
  Settings.set_core (Settings.maxGraphViews defaults) (Some ms)
    (Settings.mobileMode defaults) (Settings.showInEditMode defaults)
    (Settings.timeToRemoveLeaf defaults) (Settings.bannerHeight defaults)
    defaults.

Definition noTimers : Loop := {| now := 0; timers := []; nextTimer := 0 |}.

(** The plugin right after its fields are initialised, no view placed. *)
Definition fresh (s : Settings.t) (lines : list jsstring) (h : Host) : World :=
  {| plugin := {| settings := s; arrays := {[ O := lines ]}; nextArray := 1;
                  graphViews := []; objects := ∅; layoutTimer := None |};
     host := h; loop := noTimers; calls := [] |}.

Definition start : World := fresh defaults [] (twoPanes preview).

(** Note A placed in view 1. *)
Definition placedA : World := placeGraphView 1 start.

(** The same with the per-note disable list [ps]. *)
Definition mute (ps : list jsstring) (w : World) : World :=
  withPlugin
    (fun pl => set_settings
                 (Settings.set_perNoteDisabledPaths (Some ps) (settings pl)) pl)
    w.

Definition mutedA : World := mute [js "A.md"] placedA.

(** The banner of A and that of B disabled, in this order. *)
Definition mutedAB : World := mute [js "A.md"; js "B.md"] placedA.

(** The banner of A disabled and hidden by a resolution. *)
Definition hiddenA : World := placeGraphView 1 mutedA.

(** Note A placed in source mode, then the preset [perf] applied. *)
Definition editingA : World :=
  withPlugin
    (fun pl => set_settings
                 (Settings.applyBuiltinPreset (js "perf") (settings pl)) pl)
    (placeGraphView 1 (fresh defaults [] (twoPanes source))).

End Sample.

(* ===================================================================== *)
(** ** Vocabulary of the statements *)
(* ===================================================================== *)

Module Props.
Import Plugin.

(** A bind: the host is asked to reinitialise a graph leaf for a file. *)
Definition isBind (c : Call) : bool :=
  match c with
  | SetViewState _ (Some _) => true
  | _ => false
  end.

(** A placement: the node is inserted under a note title. *)
Definition isInsert (c : Call) : bool :=
  match c with
  | InsertAfter _ _ _ => true
  | _ => false
  end.

(** A placement resolution: [placeGraphView] is entered. *)
Definition isResolution (c : Call) : bool :=
  match c with
  | PlaceGraphView _ => true
  | _ => false
  end.

(** A timer of the window fires. *)
Definition isTimerFired (c : Call) : bool :=
  match c with
  | TimerFired _ => true
  | _ => false
  end.

(** Runs of [_getOrCreateGraphView] under a fixed [maxGraphViews], from an
    empty pool; between two calls anything may change but the list
    [graphViews] and the setting. *)
Inductive AcquireRun (capacity : Z) : World -> Prop :=
| run_start w :
    graphViews (plugin w) = [] ->
    Settings.maxGraphViews (settings (plugin w)) = Some capacity ->
    AcquireRun capacity w
| run_acquire w view :
    AcquireRun capacity w ->
    AcquireRun capacity (fst (getOrCreateGraphView view w))
| run_other w w' :
    AcquireRun capacity w ->
    graphViews (plugin w') = graphViews (plugin w) ->
    Settings.maxGraphViews (settings (plugin w')) = Some capacity ->
    AcquireRun capacity w'.

(** No graph view of the pool sits in the container of [view]. *)
Definition noneAttachedTo (view : nat) (w : World) : Prop :=
  Forall (fun gv => isDescendantOf gv (ContainerEl view) w = false)
    (graphViews (plugin w)).

(** Every graph view of the pool sits in the container of a live markdown
    leaf. *)
Definition noneDetached (w : World) : Prop :=
  Forall (fun gv =>
            existsb (fun nd => isDescendantOf gv (ContainerEl nd) w)
              (markdownLeaves (host w)) = true)
    (graphViews (plugin w)).

(** The node a graph view has once its setup has run. *)
Definition nodeAfterSetup (w : World) (g : GraphView) : option nat :=
  match setupLeafPromise g with
  | SetupDone => node g
  | SetupPending _ =>
    if bool_decide (leaf g ∈ noViewContent (host w)) then None
    else Some (leaf g)
  end.

(** The graph view once its setup has run. *)
Definition settled (w : World) (g : GraphView) : GraphView :=
  match setupLeafPromise g with
  | SetupDone => g
  | SetupPending _ => setNodeField (nodeAfterSetup w g) g
  end.

(** A node with the classes of a hidden banner, the rest as in [d]. *)
Definition hide (d : Node) : Node :=
  setClassVisible false (setClassHidden true d).

(** No node has gained or lost the class [hidden]. *)
Definition SameHidden (w w' : World) : Prop :=
  forall m, cls_hidden (nodeAt w' m) = cls_hidden (nodeAt w m).

(** The host hands out leaves it has not handed out before. *)
Definition LeavesFresh (w : World) : Prop :=
  forall gv g, object w gv = Some g -> (gv < nextLeaf (host w))%nat.

(** The world after [new GraphView] and [graphViews.push]. *)
Definition pushNew (w : World) : World :=
  withPlugin (fun p => set_graphViews (graphViews p ++ [nextLeaf (host w)]) p)
    (fst (newGraphView w)).

(** A resolution that ends at [gv.setVisibility(false); return], after an
    earlier [setVisibility(first)] or none. *)
Definition hiddenForm (view : nat) (first : option bool) (w : World) : World :=
  match getOrCreateGraphView view (call (PlaceGraphView view) w) with
  | (w1, Some gv) =>
    setVisibility gv false
      (match first with
       | Some b => setVisibility gv b w1
       | None => w1
       end)
  | (w1, None) => w1
  end.

(** [toggleCurrentNote(path)] up to [this.saveSettings()]. *)
Definition toggled (p : jsstring) (w : World) : World :=
  let paths := default [] (Settings.perNoteDisabledPaths (settings (plugin w))) in
  call SaveData
    (withPlugin
       (fun pl => set_settings
          (Settings.set_perNoteDisabledPaths
             (Some (Settings.toggleList paths p)) (settings pl)) pl)
       (call (Notice (bool_decide (is_Some (Js.indexOf paths p)))) w)).

(** The gate [mode === 'source' && behaviour === 'hidden']. *)
Definition hiddenInEdit (w : World) (view : nat) : bool :=
  Mode_eqb (getMode (viewAt w view)) source
  && bool_decide (Js.orS (Settings.showInEditMode (settings (plugin w)))
                    Settings.DEFAULT_showInEditMode = js "hidden").

(** The gate [isMobile && mobileMode === 'disabled']. *)
Definition disabledOnMobile (w : World) : bool :=
  isMobile (host w)
  && bool_decide (Js.orS (Settings.mobileMode (settings (plugin w)))
                    Settings.DEFAULT_mobileMode = js "disabled").

(** The options [{ compact, mobileSimplified }] handed to [placeTo]. *)
Definition placeOptions (w : World) (view : nat) : bool * bool :=
  (Mode_eqb (getMode (viewAt w view)) source
   && bool_decide (Js.orS (Settings.showInEditMode (settings (plugin w)))
                     Settings.DEFAULT_showInEditMode = js "compact"),
   isMobile (host w)
   && bool_decide (Js.orS (Settings.mobileMode (settings (plugin w)))
                     Settings.DEFAULT_mobileMode = js "simplified")).

(** The calls of a list that satisfy [p]. *)
Definition only (p : Call -> bool) (cs : list Call) : list Call :=
  List.filter p cs.

(** What no operation on graph views writes: the configuration, the
    workspace layout and the clock. *)
Record Footprint (w w' : World) : Prop := {
  fp_settings : settings (plugin w') = settings (plugin w);
  fp_arrays : arrays (plugin w') = arrays (plugin w);
  fp_layoutTimer : layoutTimer (plugin w') = layoutTimer (plugin w);
  fp_views : views (host w') = views (host w);
  fp_activeView : activeView (host w') = activeView (host w);
  fp_markdownLeaves : markdownLeaves (host w') = markdownLeaves (host w);
  fp_noViewContent : noViewContent (host w') = noViewContent (host w);
  fp_isMobile : isMobile (host w') = isMobile (host w);
  fp_now : now (loop w') = now (loop w);
}.

(** [w'] has the calls of [w] and then calls that all satisfy [p]. *)
Definition Calls (p : Call -> bool) (w w' : World) : Prop :=
  exists cs, calls w' = calls w ++ cs /\ forallb p cs = true.

(** Neither a bind, nor a placement, nor a resolution. *)
Definition quiet (c : Call) : bool :=
  negb (isBind c || isInsert c || isResolution c).

Definition notResolution (c : Call) : bool := negb (isResolution c).

Definition notBind (c : Call) : bool := negb (isBind c).

(** [g'] is [g] up to the style flags. *)
Definition sameBinding (g g' : GraphView) : Prop :=
  leaf g' = leaf g /\ node g' = node g
  /\ setupLeafPromise g' = setupLeafPromise g
  /\ currentFilePath g' = currentFilePath g.

(** The timers are those of [w]. *)
Definition SameLoop (w w' : World) : Prop := loop w' = loop w.

(** The loop after a [setTimeout]. *)
Definition addedTimer (cb : Callback) (delay : Z) (l : Loop) : Loop :=
  {| now := now l;
     timers := timers l ++ [{| timerId := nextTimer l;
                               due := (now l + timerDelay delay)%Z;
                               callback := cb |}];
     nextTimer := S (nextTimer l) |}.

(** At most one timer more, and that one a leaf removal. *)
Definition AtMostOneRemoval (l l' : Loop) : Prop :=
  l' = l \/ exists lf delay, l' = addedTimer (CbRemoveChild lf) delay l.

(** [wait] of the layout-change handler. *)
Definition quietWindow (w : World) : Z :=
  default Settings.DEFAULT_layoutDebounceMs
    (Settings.layoutDebounceMs (settings (plugin w))).

(** The timers set by the layout-change handler. *)
Definition isDebounce (t : Timer) : bool :=
  match callback t with
  | CbPlaceGraphView _ => true
  | CbRemoveChild _ => false
  end.

Definition pendingDebounce (w : World) : list Timer :=
  filter (fun t => isDebounce t = true) (timers (loop w)).

Definition pendingRemoval (w : World) : list Timer :=
  filter (fun t => isDebounce t = false) (timers (loop w)).

(** The longest delay a timer of the window keeps: [2^31 - 1]. *)
Definition maxDelay : Z := 2147483647.

(** The view of the last trigger of a burst. *)
Definition lastView (first : nat) (rest : list (Z * nat)) : nat :=
  default first (last (map snd rest)).

(** Timer ids come from the counter; [_layoutTimer] is the id of every
    pending debounce timer and of no pending removal timer. *)
Record TimersOk (w : World) : Prop := {
  ok_ids :
    Forall (fun t => (timerId t < nextTimer (loop w))%nat) (timers (loop w));
  ok_layout :
    forall id, layoutTimer (plugin w) = Some id -> (id < nextTimer (loop w))%nat;
  ok_debounce :
    Forall (fun t => isDebounce t = true ->
                     layoutTimer (plugin w) = Some (timerId t))
      (timers (loop w));
  ok_removal :
    Forall (fun t => isDebounce t = false ->
                     layoutTimer (plugin w) <> Some (timerId t))
      (timers (loop w));
}.

(** The debounce timer a trigger for [view] sets in [w]. *)
Definition debounceTimer (w : World) (view : nat) : Timer :=
  {| timerId := nextTimer (loop w);
     due := (now (loop w) + timerDelay (quietWindow w))%Z;
     callback := CbPlaceGraphView view |}.

(** Right after a trigger for [view]: its timer is the one pending debounce
    timer, due a quiet window from now. *)
Definition Armed (w : World) (view : nat) : Prop :=
  TimersOk w
  /\ exists id,
       pendingDebounce w
       = [{| timerId := id;
             due := (now (loop w) + timerDelay (quietWindow w))%Z;
             callback := CbPlaceGraphView view |}].

(** The settings and [_layoutTimer] are those of [w]. *)
Definition SameConfig (w w' : World) : Prop :=
  settings (plugin w') = settings (plugin w)
  /\ layoutTimer (plugin w') = layoutTimer (plugin w).

(** [w'] is [w] up to the settings, the stored arrays and the calls. *)
Definition OnlySettings (w w' : World) : Prop :=
  graphViews (plugin w') = graphViews (plugin w)
  /\ objects (plugin w') = objects (plugin w)
  /\ layoutTimer (plugin w') = layoutTimer (plugin w)
  /\ host w' = host w /\ loop w' = loop w.

End Props.

(* ===================================================================== *)
(** ** What a placement does, written out *)
(* ===================================================================== *)

Module Exact.
Import Plugin Props.

(** The host calls of the rest of [_setupLeaf]: none when the setup is
    settled; else the removal of the leaf, delayed by a timer when
    [timeToRemoveLeaf > 0], at once otherwise (and then only when the leaf
    has a parent). *)
Definition setupCalls (w : World) (g : GraphView) : list Call :=
  match setupLeafPromise g with
  | SetupDone => []
  | SetupPending t =>
    if greaterThanZero t
    then [SetTimeout (nextTimer (loop w)) (CbRemoveChild (leaf g)) (default 0%Z t)]
    else if bool_decide (leaf g ∈ leafParent (host w))
         then [RemoveChild (leaf g)] else []
  end.

(** The timers after the rest of [_setupLeaf]. *)
Definition setupLoop (w : World) (g : GraphView) : Loop :=
  match setupLeafPromise g with
  | SetupDone => loop w
  | SetupPending t =>
    if greaterThanZero t
    then addedTimer (CbRemoveChild (leaf g)) (default 0%Z t) (loop w)
    else loop w
  end.

(** The host calls of [if (needNewState) { ... }]. *)
Definition bindCalls (g : GraphView) (p : jsstring) : list Call :=
  if bool_decide (currentFilePath g = Some p) then []
  else [SetViewState (leaf g) (Some p); SetGroup (leaf g) p].

(** The host call of [if (!this.isDescendantOf(modeContainer)) { ... }]. *)
Definition insertCalls (w : World) (n view : nat) : list Call :=
  if contains w (ModeContainer view (getMode (viewAt w view))) n then []
  else [InsertAfter n view (getMode (viewAt w view))].

(** The host calls of a [placeTo] that reaches its end. *)
Definition placeCalls (w : World) (g : GraphView) (n view : nat)
    (p : jsstring) : list Call :=
  setupCalls w g ++ bindCalls g p ++ insertCalls w n view ++ [OnResize (leaf g)].

(** The graph view after a [placeTo] that reaches its end. *)
Definition placedObject (g : GraphView) (n : nat) (p : jsstring)
    (opts : option (bool * bool)) : GraphView :=
  {| leaf := leaf g; node := Some n; setupLeafPromise := SetupDone;
     currentFilePath := Some p;
     compact := match opts with Some (c, _) => c | None => compact g end;
     mobileSimplified :=
       match opts with Some (_, m) => m | None => mobileSimplified g end |}.

(** Its node, [d] before. *)
Definition placedNode (d : Node) (g : GraphView) (view : nat) (mode : Mode)
    (opts : option (bool * bool)) : Node :=
  {| parent := Some (view, mode); cls_hidden := cls_hidden d;
     cls_visible := true;
     cls_compact := match opts with Some (c, _) => c | None => cls_compact d end;
     cls_simplified :=
       match opts with Some (_, m) => m | None => cls_simplified d end;
     cls_content := match setupLeafPromise g with
                    | SetupDone => cls_content d
                    | SetupPending _ => true
                    end |}.

(** The graph view after a [placeTo] that returns before the insertion. *)
Definition boundObject (g : GraphView) (n : nat) (p : jsstring) : GraphView :=
  {| leaf := leaf g; node := Some n; setupLeafPromise := SetupDone;
     currentFilePath := Some p; compact := compact g;
     mobileSimplified := mobileSimplified g |}.

End Exact.

(* ===================================================================== *)
(** ** What a session keeps *)
(* ===================================================================== *)

Module Invariants.
Import Plugin Props.

(** The timers are in order and at most one debounce timer is pending. *)
Definition OneDebounce (w : World) : Prop :=
  TimersOk w /\ (length (pendingDebounce w) <= 1)%nat.

(** [maxGraphViews || DEFAULT_SETTINGS.maxGraphViews] *)
Definition capacity (max : option Z) : Z :=
  Js.orZ max Settings.DEFAULT_maxGraphViews.

(** The pool, the capacity in force and the capacities stored in the user
    presets are all within [bound]. *)
Definition PoolWithin (bound : Z) (w : World) : Prop :=
  (Z.of_nat (length (graphViews (plugin w))) <= bound)%Z
  /\ (capacity (Settings.maxGraphViews (settings (plugin w))) <= bound)%Z
  /\ (forall sn,
        Settings.preset1 (settings (plugin w)) = Some sn
        \/ Settings.preset2 (settings (plugin w)) = Some sn ->
        (capacity (Settings.snap_maxGraphViews sn) <= bound)%Z).

(** Every graph view of the pool is an object of the plugin, named by its
    leaf, and the node of a graph view is the [.view-content] of its own
    leaf, if it has one. *)
Definition PoolWf (w : World) : Prop :=
  (forall gv, gv ∈ graphViews (plugin w) -> is_Some (object w gv))
  /\ (forall gv g, object w gv = Some g ->
                   leaf g = gv /\ (node g = None \/ node g = Some gv)).

(** A property of the world that the steps of a resolution keep: a call
    into the host, the acquisition of a graph view, [setVisibility], the
    reset of [forceRefresh], and what a call of [placeTo] does after each of
    its two [await]s. *)
Record Kept (P : World -> Prop) : Prop := {
  kept_call : forall c w, P w -> P (call c w);
  kept_acquire : forall view w, P w -> P (fst (getOrCreateGraphView view w));
  kept_setVisibility : forall gv b w, P w -> P (setVisibility gv b w);
  kept_unbind :
    forall gv w, P w -> P (updObject gv (setCurrentFilePath None) w);
  kept_bound : forall gv p w, P w -> P (Async.bound gv p w);
  kept_placeTail :
    forall gv n view opts w, P w -> P (Async.placeTail gv n view opts w);
}.

(** ... and that the host and the passing of time keep as well: the rest
    of [_setupLeaf], the removal of a leaf, a timer leaving the pending
    timers, the clock moving on. *)
Record KeptByLoop (P : World -> Prop) : Prop := {
  kept_resume : forall gv w, P w -> P (resumeSetupLeaf gv w);
  kept_removeChild : forall lf w, P w -> P (removeChild lf w);
  kept_dequeue : forall t w, P w -> P (dequeue t w);
  kept_now : forall x w, P w -> P (withLoop (set_now x) w);
}.

End Invariants.

(* ===================================================================== *)
(** * Theorems *)
(* ===================================================================== *)

(** ** Strings *)

Section StringFacts.
Import JsString.

Lemma startsWith_prefix (s p : jsstring) :
  startsWith s p = true <-> exists post, s = p ++ post.
Proof.
  revert s. induction p as [|a p IH]; intros s; simpl.
  - split; [intros _; by exists s | done].
  - destruct s as [|b s]; simpl.
    + split; [done | intros [post H]; discriminate].
    + rewrite andb_true_iff, N.eqb_eq, IH. split.
      * intros [-> [post ->]]. by exists post.
      * intros [post [= -> ->]]. split; [done | by exists post].
Qed.

Lemma includes_contains (s p : jsstring) :
  includes s p = true <-> IgnoreSpec.Contains s p.
Proof.
  unfold IgnoreSpec.Contains. induction s as [|x s IH].
  - cbn [includes]. rewrite orb_false_r, startsWith_prefix. split.
    + intros [post H]. by exists [], post.
    + intros [pre [post H]]. destruct pre; [by exists post | discriminate].
  - cbn [includes]. rewrite orb_true_iff, startsWith_prefix, IH. split.
    + intros [[post H] | [pre [post H]]].
      * by exists [], post.
      * exists (x :: pre), post. by rewrite H.
    + intros [[|y pre] [post H]].
      * left. by exists post.
      * right. injection H as -> ->. by exists pre, post.
Qed.

End StringFacts.

(** ** The regular expression built by [toRegExp] *)

Section RegExpFacts.
Import Ignore IgnoreSpec.

Lemma specials_not_star c : specials c = true -> (c =? c_star) = false.
Proof.
  intros H. destruct (N.eqb_spec c c_star) as [-> | ]; [ | done].
  vm_compute in H. discriminate.
Qed.

Lemma not_specials c :
  specials c = false ->
  (c =? c_backslash) = false /\ (c =? c_dot) = false.
Proof.
  unfold specials. rewrite !orb_false_iff. tauto.
Qed.

Lemma parseBody_literal c tl :
  tl <> [] -> syntaxChar c = false ->
  parseBody (c :: tl) = cons (Lit c) <$> parseBody tl.
Proof.
  intros Htl Hc. destruct tl as [|d rest]; [done |].
  unfold syntaxChar in Hc. apply orb_false_iff in Hc as [Hs Hstar].
  destruct (not_specials c Hs) as [Hb Hd].
  cbn [parseBody]. rewrite Hb, Hd. cbn [andb].
  unfold syntaxChar. by rewrite Hs, Hstar.
Qed.

Lemma parseBody_escape d rest :
  specials d = true ->
  parseBody (c_backslash :: d :: rest) = cons (Lit d) <$> parseBody rest.
Proof.
  intros Hd. cbn [parseBody]. rewrite N.eqb_refl.
  unfold syntaxChar. by rewrite Hd.
Qed.

Lemma parseBody_dotstar rest :
  parseBody (c_dot :: c_star :: rest) = cons DotStar <$> parseBody rest.
Proof. reflexivity. Qed.

(** The source text handed to [new RegExp] always parses: the [catch]
    branch of [toRegExp] is never taken. *)
Lemma toRegExp_tokens (pattern : jsstring) :
  toRegExp pattern = Some (map token pattern).
Proof.
  unfold toRegExp, reSource, newRegExp. cbn [app]. rewrite N.eqb_refl.
  induction pattern as [|c p IH]; [reflexivity |].
  unfold escapeSpecials, starToDotStar in *. cbn [flat_map].
  rewrite flat_map_app, <- app_assoc.
  destruct (specials c) eqn:Hs.
  - pose proof (specials_not_star c Hs) as Hstar.
    cbn [flat_map]. rewrite Hstar. change (c_backslash =? c_star) with false.
    cbn [app]. rewrite parseBody_escape, IH by done.
    cbn [map]. replace (token c) with (Lit c); [done |].
    unfold token. by rewrite Hstar.
  - cbn [flat_map app]. destruct (c =? c_star) eqn:Hstar.
    + apply N.eqb_eq in Hstar as ->. cbn [app].
      rewrite parseBody_dotstar, IH. reflexivity.
    + cbn [app]. rewrite parseBody_literal, IH.
      * cbn [map]. replace (token c) with (Lit c); [done |].
        unfold token. by rewrite Hstar.
      * by destruct (flat_map _ _).
      * unfold syntaxChar. by rewrite Hs, Hstar.
Qed.

Lemma matches_tokens (pattern s : jsstring) :
  matches (map token pattern) s = wildcardb pattern s.
Proof.
  revert s. induction pattern as [|c p IH]; intros s; [reflexivity |].
  cbn [map wildcardb]. unfold token at 1. destruct (c =? c_star).
  - cbn [matches]. induction s as [|x s IHs].
    + by rewrite IH.
    + rewrite IH. f_equal. f_equal. exact IHs.
  - cbn [matches]. destruct s as [|x s]; [done |]. by rewrite IH.
Qed.

Lemma wildcardb_star p s :
  wildcardb (c_star :: p) s =
  wildcardb p s ||
  match s with
  | x :: s' => dot x && wildcardb (c_star :: p) s'
  | [] => false
  end.
Proof. destruct s; reflexivity. Qed.

Lemma wildcardb_lit c p s :
  (c =? c_star) = false ->
  wildcardb (c :: p) s =
  match s with
  | x :: s' => (x =? c) && wildcardb p s'
  | [] => false
  end.
Proof. intros H. cbn [wildcardb]. by rewrite H. Qed.

Lemma wildcardb_Wildcard (p s : jsstring) :
  wildcardb p s = true <-> Wildcard p s.
Proof.
  split.
  - revert s. induction p as [|c p IH]; intros s.
    + destruct s; [constructor | discriminate].
    + destruct (N.eqb_spec c c_star) as [-> | Hne].
      * induction s as [|x s IHs]; rewrite wildcardb_star.
        -- rewrite orb_false_r. intros H. apply W_star_done. by apply IH.
        -- intros [H | [Hx H]%andb_true_iff]%orb_true_iff.
           ++ apply W_star_done. by apply IH.
           ++ apply W_star_more; [done | by apply IHs].
      * rewrite wildcardb_lit by by apply N.eqb_neq.
        destruct s as [|x s]; [discriminate |].
        intros [->%N.eqb_eq H]%andb_true_iff. apply W_lit; [done | by apply IH].
  - induction 1 as [ | c p s Hne _ IH | p s _ IH | x p s Hx _ IH].
    + reflexivity.
    + rewrite wildcardb_lit by by apply N.eqb_neq.
      by rewrite N.eqb_refl, IH.
    + rewrite wildcardb_star, IH. reflexivity.
    + rewrite wildcardb_star, Hx, IH. apply orb_true_r.
Qed.

(** [re.test(path)] on the compiled pattern is the wildcard match. *)
Lemma toRegExp_test (pattern path : jsstring) :
  match toRegExp pattern with
  | Some re => test re path
  | None => false
  end = wildcardb pattern path.
Proof. rewrite toRegExp_tokens. apply matches_tokens. Qed.

End RegExpFacts.

(** ** [matchIgnore] against the worded rules *)

Section IgnoreFacts.
Import Ignore IgnoreSpec.

(** One loop iteration reads the line and, when it is a matching rule,
    overwrites the running state. *)
Lemma loopBody_readLine (path : jsstring) (ignored : bool) (raw : jsstring) :
  loopBody path ignored raw =
  match readLine raw with
  | Rule negated pattern =>
    if ruleMatches pattern path then negb negated else ignored
  | Skipped => ignored
  end.
Proof.
  unfold loopBody, readLine.
  destruct raw as [|r0 raw']; [reflexivity |].
  cbn [truthy negb]. destruct (trim (r0 :: raw')) as [|c rest]; [reflexivity |].
  cbn [truthy negb orb startsWith slice1 tail]. rewrite !andb_true_r.
  rewrite (N.eqb_sym c_hash c), (N.eqb_sym c_bang c).
  destruct (c =? c_hash); [reflexivity |].
  destruct (c =? c_bang).
  - destruct (trim rest) as [|q0 q]; [reflexivity |].
    cbn [truthy negb]. unfold ruleMatches. by rewrite toRegExp_test.
  - unfold ruleMatches. by rewrite toRegExp_test.
Qed.

Lemma fold_loopBody_lastMatch (path : jsstring) (patterns : list jsstring) :
  fold_left (loopBody path) patterns false = lastMatch path (rev patterns).
Proof.
  induction patterns as [|raw patterns IH] using rev_ind; [reflexivity |].
  rewrite fold_left_app, rev_app_distr. cbn [fold_left rev app lastMatch].
  rewrite loopBody_readLine, IH.
  destruct (readLine raw) as [|negated pattern]; [reflexivity |].
  by destruct (ruleMatches pattern path).
Qed.

Lemma matchIgnore_ignoredSpec (path : jsstring) (patterns : list jsstring) :
  matchIgnore path patterns = ignoredSpec path patterns.
Proof.
  unfold matchIgnore, ignoredSpec.
  destruct patterns; [reflexivity | apply fold_loopBody_lastMatch].
Qed.


(** On a path without line terminators the star stands for any run of
    code units at all. *)
Lemma Wildcard_star_any_run (p gap post : jsstring) :
  forallb dot gap = true ->
  Wildcard p post ->
  Wildcard (c_star :: p) (gap ++ post).
Proof.
  intros Hgap Hp. induction gap as [|x gap IH]; cbn [app].
  - by apply W_star_done.
  - cbn [forallb] in Hgap. apply andb_true_iff in Hgap as [Hx Hgap].
    apply W_star_more; [done | by apply IH].
Qed.

(** A line terminator in the path is never swallowed by a star. *)
Example wildcard_stops_at_newline :
  matchIgnore (js "Archive/a" ++ [10] ++ js "b") [js "Archive/*"] = false.
Proof. vm_compute. reflexivity. Qed.

End IgnoreFacts.

(** ** Presets: the snapshot of the core settings *)

Section SnapshotFacts.
Import Plugin Props.

(** C10.  Taking the snapshot of the core settings and applying it at once
    leaves [maxGraphViews], [layoutDebounceMs], [mobileMode],
    [showInEditMode], [timeToRemoveLeaf] and [bannerHeight] as they were,
    and gives [ignore] the same lines, element for element, in a new
    array: the live array [r], the array [r1] of the snapshot and the
    restored array [r2] are three different arrays with the same content,
    so a later write to the live one does not reach the snapshot.  (The six
    scalar fields come back even when they are [undefined]; [ignore] has to
    be an array.) *)
Theorem snapshot_apply_identity (w : World) (r : nat) (lines : list jsstring) :
  Settings.ignore (settings (plugin w)) = Some r ->
  arrays (plugin w) !! r = Some lines ->
  (r < nextArray (plugin w))%nat ->
  let s := settings (plugin w) in
  let w1 := fst (getCoreSettingsSnapshot w) in
  let snapshot := snd (getCoreSettingsSnapshot w) in
  let w2 := applyCoreSettingsSnapshot (Some snapshot) w1 in
  let s2 := settings (plugin w2) in
  Settings.maxGraphViews s2 = Settings.maxGraphViews s
  /\ Settings.layoutDebounceMs s2 = Settings.layoutDebounceMs s
  /\ Settings.mobileMode s2 = Settings.mobileMode s
  /\ Settings.showInEditMode s2 = Settings.showInEditMode s
  /\ Settings.timeToRemoveLeaf s2 = Settings.timeToRemoveLeaf s
  /\ Settings.bannerHeight s2 = Settings.bannerHeight s
  /\ ignoreLines w2 = lines
  /\ exists r1 r2,
       Settings.snap_ignore snapshot = Some r1
       /\ Settings.ignore s2 = Some r2
       /\ r1 <> r /\ r2 <> r /\ r2 <> r1
       /\ arrays (plugin w2) !! r = Some lines
       /\ arrays (plugin w2) !! r1 = Some lines
       /\ arrays (plugin w2) !! r2 = Some lines
       /\ forall lines', <[r := lines']> (arrays (plugin w1)) !! r1 = Some lines.
Proof.
  intros Hr Hlines Hlt.
  destruct w as [[s arr next pool objs lt] h l cs]. cbn in Hr, Hlines, Hlt.
  unfold getCoreSettingsSnapshot, applyCoreSettingsSnapshot, ignoreLines.
  cbn. rewrite Hr. cbn. rewrite Hlines. cbn.
  rewrite lookup_insert_eq. cbn.
  assert (next <> r) by lia. assert (S next <> r) by lia.
  assert (S next <> next) by lia.
  destruct s; cbn in *.
  repeat split;
    try (by destruct maxGraphViews); try (by destruct layoutDebounceMs);
    try (by destruct mobileMode); try (by destruct showInEditMode);
    try (by destruct timeToRemoveLeaf); try (by destruct bannerHeight).
  - by rewrite lookup_insert_eq.
  - exists next, (S next). repeat split; try done.
    + rewrite lookup_insert_ne by done. by rewrite lookup_insert_ne by done.
    + rewrite lookup_insert_ne by done. by rewrite lookup_insert_eq.
    + by rewrite !lookup_insert_eq.
    + intros lines'. rewrite lookup_insert_ne by done. by rewrite lookup_insert_eq.
Qed.

Lemma snapshot_apply_identity_witness :
  ignoreLines
    (applyCoreSettingsSnapshot
       (Some (snd (getCoreSettingsSnapshot
                     (Sample.fresh Sample.defaults [js "Archive/*"]
                        (Sample.twoPanes preview)))))
       (fst (getCoreSettingsSnapshot
               (Sample.fresh Sample.defaults [js "Archive/*"]
                  (Sample.twoPanes preview)))))
  = [js "Archive/*"].
Proof.
  refine (proj1 (proj2 (proj2 (proj2 (proj2 (proj2 (proj2
    (snapshot_apply_identity
       (Sample.fresh Sample.defaults [js "Archive/*"] (Sample.twoPanes preview))
       O [js "Archive/*"] _ _ _)))))))).
  - reflexivity.
  - reflexivity.
  - cbn. lia.
Defined.

End SnapshotFacts.

(** ** The per-note disable list *)

Section ToggleFacts.
Import Js Settings.

Lemma indexOf_None (l : list jsstring) (x : jsstring) :
  indexOf l x = None <-> x ∉ l.
Proof.
  induction l as [|y l IH]; cbn [indexOf].
  - split; [intros _; apply not_elem_of_nil | done].
  - rewrite not_elem_of_cons. case_bool_decide as Hy.
    + split; [done | intros [Hne _]; congruence].
    + destruct (indexOf l x) eqn:E; cbn.
      * split; [done |]. intros [_ Hn]. apply IH in Hn. discriminate.
      * split; [| done]. intros _. split; [congruence | by apply IH].
Qed.

Lemma indexOf_Some (l : list jsstring) (x : jsstring) (i : nat) :
  indexOf l x = Some i ->
  exists l1 l2, l = l1 ++ x :: l2 /\ length l1 = i /\ (x ∉ l1).
Proof.
  revert i. induction l as [|y l IH]; intros i; cbn [indexOf]; [done |].
  case_bool_decide as Hy.
  - intros [= <-]. subst y. exists [], l. repeat split. apply not_elem_of_nil.
  - destruct (indexOf l x) as [j|] eqn:E; cbn; [| done].
    intros [= <-]. destruct (IH j eq_refl) as (l1 & l2 & -> & <- & Hn).
    exists (y :: l1), l2. repeat split. rewrite not_elem_of_cons. split; [congruence | done].
Qed.

Lemma indexOf_first (l1 l2 : list jsstring) (x : jsstring) :
  x ∉ l1 -> indexOf (l1 ++ x :: l2) x = Some (length l1).
Proof.
  induction l1 as [|y l1 IH]; cbn [app indexOf length]; intros Hn.
  - by rewrite bool_decide_eq_true_2.
  - apply not_elem_of_cons in Hn as [Hne Hn].
    rewrite bool_decide_eq_false_2 by congruence. by rewrite IH.
Qed.

Lemma splice1_middle (l1 l2 : list jsstring) (x : jsstring) :
  splice1 (l1 ++ x :: l2) (length l1) = l1 ++ l2.
Proof.
  unfold splice1. rewrite take_app_length.
  replace (S (length l1)) with (length (l1 ++ [x])) by (rewrite length_app; cbn; lia).
  replace (l1 ++ x :: l2) with ((l1 ++ [x]) ++ l2) by (by rewrite <- app_assoc).
  by rewrite drop_app_length.
Qed.

(** A path that is absent is pushed at the end. *)
Lemma toggleList_absent (l : list jsstring) (x : jsstring) :
  x ∉ l -> toggleList l x = l ++ [x].
Proof. intros Hn. unfold toggleList. by apply indexOf_None in Hn as ->. Qed.

(** A path that is present loses its first occurrence. *)
Lemma toggleList_present (l1 l2 : list jsstring) (x : jsstring) :
  x ∉ l1 -> toggleList (l1 ++ x :: l2) x = l1 ++ l2.
Proof.
  intros Hn. unfold toggleList. rewrite indexOf_first by done.
  apply splice1_middle.
Qed.

Lemma toggleList_cases (l : list jsstring) (x : jsstring) :
  ((x ∉ l) /\ toggleList l x = l ++ [x])
  \/ (exists l1 l2, l = l1 ++ x :: l2 /\ (x ∉ l1) /\ toggleList l x = l1 ++ l2).
Proof.
  destruct (indexOf l x) as [i|] eqn:E.
  - right. destruct (indexOf_Some l x i E) as (l1 & l2 & -> & _ & Hn).
    exists l1, l2. repeat split; [done |]. by apply toggleList_present.
  - left. apply indexOf_None in E. split; [done | by apply toggleList_absent].
Qed.

(** On a list without duplicates the toggle flips the membership of the
    path, keeps that of every other path, and keeps the list free of
    duplicates. *)
Lemma toggleList_flips (l : list jsstring) (x : jsstring) :
  NoDup l ->
  ((x ∈ toggleList l x) <-> (x ∉ l))
  /\ (forall y, y <> x -> (y ∈ toggleList l x) <-> (y ∈ l))
  /\ NoDup (toggleList l x).
Proof.
  intros Hnd. destruct (toggleList_cases l x) as [[Hn ->] | (l1 & l2 & -> & Hn & ->)].
  - split; [set_solver |]. split; [set_solver |].
    apply NoDup_app. split; [done |]. split; [set_solver | apply NoDup_singleton].
  - apply NoDup_app in Hnd as (Hnd1 & Hdisj & Hnd2).
    apply NoDup_cons in Hnd2 as [Hx2 Hnd2].
    split; [set_solver |]. split; [set_solver |].
    apply NoDup_app. split; [done |]. split; [set_solver | done].
Qed.

(** Toggling twice: an absent path leaves the list as it was; a present
    path of a duplicate-free list moves to the end. *)
Lemma toggleList_twice (l : list jsstring) (x : jsstring) :
  NoDup l ->
  (x ∉ l -> toggleList (toggleList l x) x = l)
  /\ (forall l1 l2, l = l1 ++ x :: l2 ->
        toggleList (toggleList l x) x = l1 ++ l2 ++ [x])
  /\ toggleList (toggleList l x) x ≡ₚ l.
Proof.
  intros Hnd.
  assert (Habs : x ∉ l -> toggleList (toggleList l x) x = l).
  { intros Hn. rewrite (toggleList_absent l x Hn).
    rewrite (toggleList_present l [] x Hn). by rewrite app_nil_r. }
  assert (Hpres : forall l1 l2, l = l1 ++ x :: l2 ->
            toggleList (toggleList l x) x = l1 ++ l2 ++ [x]).
  { intros l1 l2 ->.
    apply NoDup_app in Hnd as (Hnd1 & Hdisj & Hnd2).
    apply NoDup_cons in Hnd2 as [Hx2 Hnd2].
    assert (Hx1 : x ∉ l1) by set_solver.
    rewrite (toggleList_present l1 l2 x Hx1).
    rewrite toggleList_absent; [by rewrite <- app_assoc |].
    set_solver. }
  repeat split; [done | done |].
  destruct (toggleList_cases l x) as [[Hn _] | (l1 & l2 & Hl & _ & _)].
  - by rewrite Habs.
  - rewrite (Hpres l1 l2 Hl), Hl.
    rewrite (Permutation_app_comm l2 [x]). reflexivity.
Qed.

End ToggleFacts.

(** ** The pool of graph views *)

Section PoolFacts.
Import Js Plugin Props.

Lemma find_none_Forall {A : Type} (f : A -> bool) (l : list A) :
  Forall (fun x => f x = false) l -> find f l = None.
Proof.
  induction 1 as [|x l Hx _ IH]; cbn [find]; [done |]. by rewrite Hx.
Qed.

(** What one call of [_getOrCreateGraphView] does to the pool: nothing, or
    one push, and a push only below the cap. *)
Lemma getOrCreate_pool (view : nat) (w : World) :
  settings (plugin (fst (getOrCreateGraphView view w))) = settings (plugin w)
  /\ (graphViews (plugin (fst (getOrCreateGraphView view w))) = graphViews (plugin w)
      \/ (graphViews (plugin (fst (getOrCreateGraphView view w)))
            = graphViews (plugin w) ++ [nextLeaf (host w)]
          /\ (Z.of_nat (length (graphViews (plugin w)))
                < orZ (Settings.maxGraphViews (settings (plugin w)))
                      Settings.DEFAULT_maxGraphViews)%Z)).
Proof.
  unfold getOrCreateGraphView.
  destruct (find _ _); [by auto |].
  destruct (find _ _); [by auto |].
  destruct (Z.leb_spec
              (orZ (Settings.maxGraphViews (settings (plugin w)))
                 Settings.DEFAULT_maxGraphViews)
              (Z.of_nat (length (graphViews (plugin w))))) as [Hge | Hlt].
  - by auto.
  - cbn. split; [done |]. right. split; [done | lia].
Qed.

(** At the cap, with no graph view in the container asked for and none
    detached, the call returns [graphViews[0]] and changes nothing. *)
Lemma getOrCreate_at_capacity (view : nat) (w : World) :
  noneAttachedTo view w ->
  noneDetached w ->
  (orZ (Settings.maxGraphViews (settings (plugin w)))
     Settings.DEFAULT_maxGraphViews
   <= Z.of_nat (length (graphViews (plugin w))))%Z ->
  getOrCreateGraphView view w = (w, head (graphViews (plugin w))).
Proof.
  intros Hatt Hdet Hcap. unfold getOrCreateGraphView.
  rewrite (find_none_Forall _ _ Hatt).
  rewrite find_none_Forall.
  - apply Z.leb_le in Hcap. by rewrite Hcap.
  - eapply Forall_impl; [exact Hdet |]. cbn. by intros gv ->.
Qed.

Lemma AcquireRun_invariant (capacity : Z) (w : World) :
  (1 <= capacity)%Z ->
  AcquireRun capacity w ->
  Settings.maxGraphViews (settings (plugin w)) = Some capacity
  /\ (Z.of_nat (length (graphViews (plugin w))) <= capacity)%Z.
Proof.
  intros Hcap. induction 1 as [w Hnil Hset | w view _ [IHs IHl] | w w' _ [IHs IHl] Hp Hs].
  - rewrite Hnil. cbn. split; [done | lia].
  - destruct (getOrCreate_pool view w) as [Hset [Hsame | [Hpush Hlt]]].
    + rewrite Hset, Hsame. done.
    + rewrite Hset, Hpush. split; [done |].
      rewrite IHs in Hlt. unfold orZ in Hlt.
      destruct (Z.eqb_spec capacity 0); [lia |].
      rewrite length_app. cbn. lia.
  - rewrite Hp. done.
Qed.

(** C1.  The pool never exceeds [maxGraphViews].  Along every run of
    [_getOrCreateGraphView] calls that starts with the empty pool, with a
    capacity of at least one, [graphViews.length <= maxGraphViews]; and when
    the pool holds capacity-many graph views, none of them in the container
    asked for and none detached, the call returns [graphViews[0]] and
    constructs nothing: the world, pool included, is unchanged. *)
Theorem pool_never_exceeds_capacity (capacity : Z) (w : World) :
  (1 <= capacity)%Z ->
  AcquireRun capacity w ->
  (Z.of_nat (length (graphViews (plugin w))) <= capacity)%Z
  /\ forall view,
       Z.of_nat (length (graphViews (plugin w))) = capacity ->
       noneAttachedTo view w ->
       noneDetached w ->
       exists oldest,
         graphViews (plugin w) !! O = Some oldest
         /\ getOrCreateGraphView view w = (w, Some oldest).
Proof.
  intros Hcap Hrun.
  destruct (AcquireRun_invariant capacity w Hcap Hrun) as [Hset Hlen].
  split; [done |]. intros view Hfull Hatt Hdet.
  destruct (graphViews (plugin w)) as [|oldest pool] eqn:Hpool.
  { cbn in Hfull. lia. }
  exists oldest. split; [done |].
  rewrite (getOrCreate_at_capacity view w Hatt Hdet), Hpool; [done |].
  rewrite Hset, Hpool. unfold orZ.
  destruct (Z.eqb_spec capacity 0); [lia |]. lia.
Qed.

Lemma pool_never_exceeds_capacity_witness :
  let w := placeTo 10 1 (Some (false, false))
             (fst (getOrCreateGraphView 1
                     (Sample.fresh (Sample.capped 1) [] (Sample.twoPanes preview)))) in
  (Z.of_nat (length (graphViews (plugin w))) <= 1)%Z
  /\ getOrCreateGraphView 2 w = (w, Some 10%nat).
Proof.
  intros w.
  assert (Hrun : AcquireRun 1 w).
  { apply run_other
      with (w := fst (getOrCreateGraphView 1
                        (Sample.fresh (Sample.capped 1) [] (Sample.twoPanes preview)))).
    - apply run_acquire. apply run_start; reflexivity.
    - reflexivity.
    - reflexivity. }
  destruct (pool_never_exceeds_capacity 1 w ltac:(lia) Hrun) as [Hlen Hfull].
  split; [exact Hlen |].
  destruct (Hfull 2%nat) as (oldest & Hfirst & Hget).
  - reflexivity.
  - repeat constructor.
  - repeat constructor.
  - vm_compute in Hfirst. injection Hfirst as <-. exact Hget.
Defined.

End PoolFacts.

(** ** What the operations leave alone *)

Module Frames.
Import Js Plugin Props.

Lemma Footprint_refl w : Footprint w w.
Proof. by constructor. Qed.

Lemma Footprint_trans w1 w2 w3 :
  Footprint w1 w2 -> Footprint w2 w3 -> Footprint w1 w3.
Proof.
  intros [] []. constructor; etrans; eassumption.
Qed.

Lemma Footprint_call c w w' : Footprint w w' -> Footprint w (call c w').
Proof. intros []. by constructor. Qed.

Lemma Footprint_updNode n f w w' : Footprint w w' -> Footprint w (updNode n f w').
Proof. intros []. by constructor. Qed.

Lemma Footprint_updObject gv f w w' :
  Footprint w w' -> Footprint w (updObject gv f w').
Proof. intros []. by constructor. Qed.

Lemma Footprint_setTimeout cb d w w' :
  Footprint w w' -> Footprint w (fst (setTimeout cb d w')).
Proof. intros []. by constructor. Qed.

Lemma Footprint_removeChild lf w w' :
  Footprint w w' -> Footprint w (removeChild lf w').
Proof. intros H. unfold removeChild. case_bool_decide; [| done]. destruct H. by constructor. Qed.

Lemma Footprint_setupNode gv w w' :
  Footprint w w' -> Footprint w (setupNode gv w').
Proof. intros H. unfold setupNode. case_match; [by apply Footprint_updNode | done]. Qed.

Lemma Footprint_setVisibility gv b w w' :
  Footprint w w' -> Footprint w (setVisibility gv b w').
Proof. intros H. unfold setVisibility. case_match; [by apply Footprint_updNode | done]. Qed.

Lemma Footprint_setCompact gv b w w' :
  Footprint w w' -> Footprint w (setCompact gv b w').
Proof.
  intros H. unfold setCompact.
  case_match; [apply Footprint_updNode |]; by apply Footprint_updObject.
Qed.

Lemma Footprint_setMobileSimplified gv b w w' :
  Footprint w w' -> Footprint w (setMobileSimplified gv b w').
Proof.
  intros H. unfold setMobileSimplified.
  case_match; [apply Footprint_updNode |]; by apply Footprint_updObject.
Qed.

Lemma Footprint_resumeSetupLeaf gv w w' :
  Footprint w w' -> Footprint w (resumeSetupLeaf gv w').
Proof.
  intros H. unfold resumeSetupLeaf. repeat case_match; try done.
  all: first [ by apply Footprint_setTimeout, Footprint_setupNode, Footprint_updObject
             | by apply Footprint_removeChild, Footprint_setupNode, Footprint_updObject ].
Qed.

Create HintDb frame discriminated.
#[export] Hint Resolve Footprint_refl Footprint_call Footprint_updNode
  Footprint_updObject Footprint_setTimeout Footprint_removeChild
  Footprint_setupNode Footprint_setVisibility Footprint_setCompact
  Footprint_setMobileSimplified Footprint_resumeSetupLeaf : frame.

Lemma Footprint_bindTo gv p w w' : Footprint w w' -> Footprint w (bindTo gv p w').
Proof. intros H. unfold bindTo. repeat case_match; eauto with frame. Qed.

Lemma Footprint_insertUnderTitle gv n view mode w w' w'' :
  Footprint w w' -> insertUnderTitle gv n view mode w' = Some w'' -> Footprint w w''.
Proof.
  intros H. unfold insertUnderTitle.
  repeat case_match; intros; simplify_eq; eauto with frame.
Qed.

Lemma Footprint_showAndResize gv n opts w w' :
  Footprint w w' -> Footprint w (showAndResize gv n opts w').
Proof.
  intros H. unfold showAndResize. destruct opts as [[c m]|]; case_match; eauto 7 with frame.
Qed.

Lemma Footprint_placeTo gv view opts w w' :
  Footprint w w' -> Footprint w (placeTo gv view opts w').
Proof.
  intros H%(Footprint_resumeSetupLeaf gv). unfold placeTo.
  destruct (nodeOf _ gv); [| done].
  destruct (file _); [| done].
  pose proof (Footprint_bindTo gv (path t) _ _ H) as H2.
  destruct (negb _); [done |].
  destruct (insertUnderTitle _ _ _ _ _) eqn:E; [| done].
  eapply Footprint_showAndResize, Footprint_insertUnderTitle; eassumption.
Qed.

Lemma Footprint_forceRefresh gv view opts w w' :
  Footprint w w' -> Footprint w (forceRefresh gv view opts w').
Proof. intros H. by apply Footprint_placeTo, Footprint_updObject. Qed.

Lemma Footprint_getOrCreate view w w' :
  Footprint w w' -> Footprint w (fst (getOrCreateGraphView view w')).
Proof.
  intros H. unfold getOrCreateGraphView, newGraphView.
  repeat case_match; simplify_eq; cbn; try done.
  destruct H. by constructor.
Qed.

#[export] Hint Resolve Footprint_placeTo Footprint_forceRefresh
  Footprint_getOrCreate : frame.

Lemma Footprint_placeGraphView view w w' :
  Footprint w w' -> Footprint w (placeGraphView view w').
Proof.
  intros H. unfold placeGraphView.
  repeat case_match; subst;
    repeat match goal with
           | E : getOrCreateGraphView ?v ?x = (?y, _) |- _ =>
             assert (y = fst (getOrCreateGraphView v x)) as -> by (by rewrite E);
             clear E
           end;
    eauto 12 with frame.
Qed.

(** *** The calls made *)

Lemma Calls_refl p w : Calls p w w.
Proof. exists []. by rewrite app_nil_r. Qed.

Lemma Calls_trans p w1 w2 w3 : Calls p w1 w2 -> Calls p w2 w3 -> Calls p w1 w3.
Proof.
  intros (cs1 & H1 & F1) (cs2 & H2 & F2). exists (cs1 ++ cs2).
  rewrite H2, H1, app_assoc, forallb_app, F1, F2. done.
Qed.

Lemma Calls_weaken (p q : Call -> bool) w w' :
  (forall c, p c = true -> q c = true) -> Calls p w w' -> Calls q w w'.
Proof.
  intros Hpq (cs & H & F). exists cs. split; [done |].
  rewrite forallb_forall in *. auto.
Qed.

Lemma Calls_call p c w w' : p c = true -> Calls p w w' -> Calls p w (call c w').
Proof.
  intros Hc (cs & H & F). exists (cs ++ [c]). cbn.
  rewrite H, app_assoc, forallb_app, F. cbn. by rewrite Hc.
Qed.

Lemma Calls_same p w w' w'' : calls w'' = calls w' -> Calls p w w' -> Calls p w w''.
Proof. intros E (cs & H & F). exists cs. by rewrite E. Qed.

Lemma calls_updNode n f w : calls (updNode n f w) = calls w.
Proof. done. Qed.

Lemma calls_updObject gv f w : calls (updObject gv f w) = calls w.
Proof. done. Qed.

Lemma calls_setVisibility gv b w : calls (setVisibility gv b w) = calls w.
Proof. unfold setVisibility. by case_match. Qed.

Lemma calls_setCompact gv b w : calls (setCompact gv b w) = calls w.
Proof. unfold setCompact. by case_match. Qed.

Lemma calls_setMobileSimplified gv b w :
  calls (setMobileSimplified gv b w) = calls w.
Proof. unfold setMobileSimplified. by case_match. Qed.

Lemma calls_setupNode gv w : calls (setupNode gv w) = calls w.
Proof. unfold setupNode. by case_match. Qed.

Lemma Calls_updNode p n f w w' : Calls p w w' -> Calls p w (updNode n f w').
Proof. by apply Calls_same. Qed.

Lemma Calls_updObject p gv f w w' : Calls p w w' -> Calls p w (updObject gv f w').
Proof. by apply Calls_same. Qed.

Lemma Calls_setVisibility p gv b w w' :
  Calls p w w' -> Calls p w (setVisibility gv b w').
Proof. apply Calls_same, calls_setVisibility. Qed.

Lemma Calls_setCompact p gv b w w' : Calls p w w' -> Calls p w (setCompact gv b w').
Proof. apply Calls_same, calls_setCompact. Qed.

Lemma Calls_setMobileSimplified p gv b w w' :
  Calls p w w' -> Calls p w (setMobileSimplified gv b w').
Proof. apply Calls_same, calls_setMobileSimplified. Qed.

Lemma Calls_setupNode p gv w w' : Calls p w w' -> Calls p w (setupNode gv w').
Proof. apply Calls_same, calls_setupNode. Qed.

Lemma Calls_setTimeout p cb d w w' :
  p (SetTimeout (nextTimer (loop w')) cb d) = true ->
  Calls p w w' -> Calls p w (fst (setTimeout cb d w')).
Proof. intros Hp H. unfold setTimeout. cbn. by apply Calls_call. Qed.

Lemma Calls_removeChild p lf w w' :
  p (RemoveChild lf) = true -> Calls p w w' -> Calls p w (removeChild lf w').
Proof.
  intros Hp H. unfold removeChild. case_bool_decide; [| done].
  by apply Calls_call.
Qed.

Lemma Calls_resumeSetupLeaf gv w w' :
  Calls quiet w w' -> Calls quiet w (resumeSetupLeaf gv w').
Proof.
  intros H. unfold resumeSetupLeaf. repeat case_match; try done.
  all: first [ by apply Calls_setTimeout, Calls_setupNode, Calls_updObject
             | by apply Calls_removeChild, Calls_setupNode, Calls_updObject ].
Qed.

Lemma Calls_getOrCreate view w w' :
  Calls quiet w w' -> Calls quiet w (fst (getOrCreateGraphView view w')).
Proof.
  intros H. unfold getOrCreateGraphView, newGraphView.
  repeat case_match; simplify_eq; cbn; try done.
  apply (Calls_same _ _ (call (SetViewState (nextLeaf (host w')) None)
                           (call (GetLeaf (nextLeaf (host w'))) w'))); [done |].
  by do 2 (apply Calls_call; [done |]).
Qed.

#[export] Hint Resolve Calls_refl Calls_updNode Calls_updObject
  Calls_setVisibility Calls_setCompact Calls_setMobileSimplified
  Calls_setupNode : frame.
#[export] Hint Extern 2 (Calls _ _ (call _ _)) =>
  apply Calls_call; [reflexivity |] : frame.

Lemma quiet_notResolution c : quiet c = true -> notResolution c = true.
Proof. by destruct c. Qed.

Lemma Calls_bindTo gv p w w' :
  Calls notResolution w w' -> Calls notResolution w (bindTo gv p w').
Proof. intros H. unfold bindTo. repeat case_match; eauto with frame. Qed.

Lemma Calls_insertUnderTitle q gv n view mode w w' w'' :
  (forall a b c, q (InsertAfter a b c) = true) ->
  Calls q w w' -> insertUnderTitle gv n view mode w' = Some w'' -> Calls q w w''.
Proof.
  intros Hq H. unfold insertUnderTitle.
  repeat case_match; intros; simplify_eq; [done |].
  apply Calls_call; [apply Hq |]. by apply Calls_updNode.
Qed.

Lemma Calls_showAndResize q gv n opts w w' :
  (forall a, q (OnResize a) = true) ->
  Calls q w w' -> Calls q w (showAndResize gv n opts w').
Proof.
  intros Hq H. unfold showAndResize.
  destruct opts as [[c m]|]; case_match; try apply Calls_call; try apply Hq;
    eauto 7 with frame.
Qed.

Lemma Calls_placeTo gv view opts w w' :
  Calls notResolution w w' -> Calls notResolution w (placeTo gv view opts w').
Proof.
  intros H.
  assert (Calls notResolution w (resumeSetupLeaf gv w')) as H'.
  { eapply Calls_trans; [exact H |].
    eapply Calls_weaken; [exact quiet_notResolution |].
    apply Calls_resumeSetupLeaf, Calls_refl. }
  unfold placeTo.
  destruct (nodeOf _ gv); [| done].
  destruct (file _); [| done].
  pose proof (Calls_bindTo gv (path t) _ _ H') as H2.
  destruct (negb _); [done |].
  destruct (insertUnderTitle _ _ _ _ _) eqn:E; [| done].
  apply Calls_showAndResize; [done |].
  eapply Calls_insertUnderTitle; [| exact H2 | exact E]. done.
Qed.

(** *** The timers set *)

Lemma SameLoop_refl w : SameLoop w w.
Proof. done. Qed.

Lemma SameLoop_call c w w' : SameLoop w w' -> SameLoop w (call c w').
Proof. done. Qed.

Lemma SameLoop_updNode n f w w' : SameLoop w w' -> SameLoop w (updNode n f w').
Proof. done. Qed.

Lemma SameLoop_updObject gv f w w' : SameLoop w w' -> SameLoop w (updObject gv f w').
Proof. done. Qed.

Lemma SameLoop_setVisibility gv b w w' :
  SameLoop w w' -> SameLoop w (setVisibility gv b w').
Proof. unfold setVisibility. by case_match. Qed.

Lemma SameLoop_setCompact gv b w w' :
  SameLoop w w' -> SameLoop w (setCompact gv b w').
Proof. unfold setCompact. by case_match. Qed.

Lemma SameLoop_setMobileSimplified gv b w w' :
  SameLoop w w' -> SameLoop w (setMobileSimplified gv b w').
Proof. unfold setMobileSimplified. by case_match. Qed.

Lemma SameLoop_setupNode gv w w' : SameLoop w w' -> SameLoop w (setupNode gv w').
Proof. unfold setupNode. by case_match. Qed.

Lemma SameLoop_removeChild lf w w' :
  SameLoop w w' -> SameLoop w (removeChild lf w').
Proof. unfold removeChild. by case_match. Qed.

Lemma SameLoop_getOrCreate view w w' :
  SameLoop w w' -> SameLoop w (fst (getOrCreateGraphView view w')).
Proof.
  unfold getOrCreateGraphView, newGraphView.
  by repeat case_match; simplify_eq.
Qed.

Lemma SameLoop_detach gv w w' : SameLoop w w' -> SameLoop w (detach gv w').
Proof. unfold detach. by repeat case_match. Qed.

#[export] Hint Resolve SameLoop_refl SameLoop_call SameLoop_updNode
  SameLoop_updObject SameLoop_setVisibility SameLoop_setCompact
  SameLoop_setMobileSimplified SameLoop_setupNode SameLoop_removeChild
  SameLoop_getOrCreate SameLoop_detach : frame.

Lemma resumeSetupLeaf_loop gv w :
  AtMostOneRemoval (loop w) (loop (resumeSetupLeaf gv w)).
Proof.
  unfold resumeSetupLeaf. repeat case_match; try (by left).
  all: first
    [ right; eexists _, _;
      match goal with
      | |- loop (fst (setTimeout ?cb ?d ?x)) = _ =>
        assert (SameLoop w x) as Hx by eauto with frame;
        unfold setTimeout; cbn; unfold addedTimer; by rewrite Hx
      end
    | left;
      match goal with
      | |- loop ?x = _ => by assert (SameLoop w x) as -> by eauto with frame
      end ].
Qed.

Lemma SameLoop_bindTo gv p w w' : SameLoop w w' -> SameLoop w (bindTo gv p w').
Proof. unfold bindTo. by repeat case_match. Qed.

Lemma SameLoop_insertUnderTitle gv n view mode w w' w'' :
  SameLoop w w' -> insertUnderTitle gv n view mode w' = Some w'' -> SameLoop w w''.
Proof.
  intros H. unfold insertUnderTitle. by repeat case_match; intros; simplify_eq.
Qed.

Lemma SameLoop_showAndResize gv n opts w w' :
  SameLoop w w' -> SameLoop w (showAndResize gv n opts w').
Proof.
  intros H. unfold showAndResize.
  destruct opts as [[c m]|]; case_match; eauto 7 with frame.
Qed.

Lemma placeTo_loop gv view opts w :
  loop (placeTo gv view opts w) = loop (resumeSetupLeaf gv w).
Proof.
  unfold placeTo.
  destruct (nodeOf _ gv); [| done].
  destruct (file _); [| done].
  pose proof (SameLoop_bindTo gv (path t) _ _ (SameLoop_refl (resumeSetupLeaf gv w))) as H2.
  destruct (negb _); [done |].
  destruct (insertUnderTitle _ _ _ _ _) eqn:E; [| done].
  eapply SameLoop_showAndResize, SameLoop_insertUnderTitle; eassumption.
Qed.

(** *** [placeGraphView] as a whole *)

Lemma getOrCreate_fst view w w1 r :
  getOrCreateGraphView view w = (w1, r) -> w1 = fst (getOrCreateGraphView view w).
Proof. by intros ->. Qed.

(** After its entry, a resolution enters no other resolution. *)
Lemma placeGraphView_calls view w :
  Calls notResolution (call (PlaceGraphView view) w) (placeGraphView view w).
Proof.
  unfold placeGraphView. set (w0 := call (PlaceGraphView view) w).
  assert (Hacq : Calls notResolution w0 (fst (getOrCreateGraphView view w0))).
  { eapply Calls_weaken; [exact quiet_notResolution |].
    apply Calls_getOrCreate, Calls_refl. }
  destruct (file _); [| apply Calls_refl].
  destruct (negb _); [apply Calls_refl |].
  destruct (Settings.isNoteDisabled _ _).
  - destruct (getOrCreateGraphView view w0) as [w1 [gv|]] eqn:E;
      apply getOrCreate_fst in E as ->; eauto with frame.
  - destruct (getOrCreateGraphView view w0) as [w1 [gv|]] eqn:E;
      apply getOrCreate_fst in E as ->; [| done].
    repeat case_match; eauto using Calls_placeTo with frame.
Qed.

(** A resolution sets at most one timer, the removal of a new leaf. *)
Lemma placeGraphView_loop view w :
  AtMostOneRemoval (loop w) (loop (placeGraphView view w)).
Proof.
  unfold placeGraphView. set (w0 := call (PlaceGraphView view) w).
  assert (Hacq : SameLoop w (fst (getOrCreateGraphView view w0))).
  { apply SameLoop_getOrCreate. done. }
  destruct (file _); [| by left].
  destruct (negb _); [by left |].
  destruct (Settings.isNoteDisabled _ _).
  - left. destruct (getOrCreateGraphView view w0) as [w1 [gv|]] eqn:E;
      apply getOrCreate_fst in E as ->; [| done].
    by apply SameLoop_setVisibility.
  - destruct (getOrCreateGraphView view w0) as [w1 [gv|]] eqn:E;
      apply getOrCreate_fst in E as ->; [| by left].
    repeat case_match;
      try (left; by repeat apply SameLoop_setVisibility).
    rewrite placeTo_loop.
    match goal with
    | |- AtMostOneRemoval _ (loop (resumeSetupLeaf ?g ?x)) =>
      assert (SameLoop w x) as <- by (by repeat apply SameLoop_setVisibility);
      apply resumeSetupLeaf_loop
    end.
Qed.

End Frames.

(** ** Binding a graph view to a file *)

Section BindFacts.
Import Js Plugin Props Frames.

Lemma only_app p cs1 cs2 : only p (cs1 ++ cs2) = only p cs1 ++ only p cs2.
Proof. apply List.filter_app. Qed.

Lemma only_none p q cs :
  (forall c, q c = true -> p c = false) -> forallb q cs = true -> only p cs = [].
Proof.
  intros Hqp. unfold only. induction cs as [|c cs IH]; cbn; [done |].
  intros [Hc Hcs]%andb_true_iff. by rewrite (Hqp c Hc), IH.
Qed.

Lemma quiet_notBind c : quiet c = true -> notBind c = true.
Proof. by destruct c as [| ? [] | | | | | | | | | | | | |]. Qed.

Lemma notBind_isBind c : notBind c = true -> isBind c = false.
Proof. unfold notBind. by destruct (isBind c). Qed.

Lemma sameBinding_refl g : sameBinding g g.
Proof. by repeat split. Qed.

Lemma sameBinding_trans g1 g2 g3 :
  sameBinding g1 g2 -> sameBinding g2 g3 -> sameBinding g1 g3.
Proof. intros (?&?&?&?) (?&?&?&?). repeat split; congruence. Qed.

Lemma Footprint_viewAt w w' view : Footprint w w' -> viewAt w' view = viewAt w view.
Proof. intros H. unfold viewAt. by rewrite (fp_views _ _ H). Qed.

Lemma object_updObject gv f w g :
  object w gv = Some g -> object (updObject gv f w) gv = Some (f g).
Proof.
  unfold object, updObject. cbn. intros H. by rewrite lookup_alter_eq, H.
Qed.

Lemma object_updObject_ne gv gv' f w :
  gv <> gv' -> object (updObject gv f w) gv' = object w gv'.
Proof. unfold object, updObject. cbn. intros H. by rewrite lookup_alter_ne. Qed.

Lemma object_setupNode gv gv' w : object (setupNode gv w) gv' = object w gv'.
Proof. unfold setupNode. by case_match. Qed.

Lemma object_removeChild lf gv w : object (removeChild lf w) gv = object w gv.
Proof. unfold removeChild. by case_match. Qed.

Lemma object_setVisibility gv gv' b w :
  object (setVisibility gv b w) gv' = object w gv'.
Proof. unfold setVisibility. by case_match. Qed.

Lemma node_settled w g : node (settled w g) = nodeAfterSetup w g.
Proof. unfold settled, nodeAfterSetup. by destruct (setupLeafPromise g). Qed.

Lemma settled_fields w g :
  leaf (settled w g) = leaf g
  /\ currentFilePath (settled w g) = currentFilePath g
  /\ compact (settled w g) = compact g
  /\ mobileSimplified (settled w g) = mobileSimplified g
  /\ setupLeafPromise (settled w g) = SetupDone
  /\ nodeAfterSetup w (settled w g) = nodeAfterSetup w g.
Proof.
  unfold settled, nodeAfterSetup. destruct (setupLeafPromise g) eqn:E; cbn.
  - by rewrite ?E.
  - by rewrite E.
Qed.

Lemma object_setTimeout cb d w gv :
  object (fst (setTimeout cb d w)) gv = object w gv.
Proof. done. Qed.

(** After [await this.setupLeafPromise] the setup has run. *)
Lemma object_resumeSetupLeaf gv w g :
  object w gv = Some g ->
  object (resumeSetupLeaf gv w) gv = Some (settled w g).
Proof.
  intros H. unfold resumeSetupLeaf, settled, nodeAfterSetup. rewrite H.
  destruct (setupLeafPromise g); [| done].
  destruct (greaterThanZero _).
  - rewrite object_setTimeout, object_setupNode. by apply object_updObject.
  - rewrite object_removeChild, object_setupNode. by apply object_updObject.
Qed.

Lemma object_resumeSetupLeaf_ne gv gv' w :
  gv <> gv' -> object (resumeSetupLeaf gv w) gv' = object w gv'.
Proof.
  intros Hne. unfold resumeSetupLeaf.
  destruct (object w gv) as [g|]; [| done].
  destruct (setupLeafPromise g); [| done].
  destruct (greaterThanZero _).
  - rewrite object_setTimeout, object_setupNode. by apply object_updObject_ne.
  - rewrite object_removeChild, object_setupNode. by apply object_updObject_ne.
Qed.

(** The bind block: one file-scoped [setViewState] unless the path is the
    bound one, and the path is bound afterwards. *)
Lemma bindTo_spec gv p w g :
  object w gv = Some g ->
  object (bindTo gv p w) gv = Some (setCurrentFilePath (Some p) g)
  /\ calls (bindTo gv p w) =
     calls w ++ (if bool_decide (currentFilePath g = Some p) then []
                 else [SetViewState (leaf g) (Some p); SetGroup (leaf g) p])
  /\ Footprint w (bindTo gv p w).
Proof.
  intros H. unfold bindTo. rewrite H. case_bool_decide as Hp; cbn [negb].
  - rewrite app_nil_r. split; [| split; [done | apply Footprint_refl]].
    rewrite H. f_equal. destruct g. cbn in *. by subst.
  - split; [| split].
    + by apply object_updObject.
    + cbn. by rewrite <- app_assoc.
    + eauto with frame.
Qed.

Lemma object_setCompact gv b w g :
  object w gv = Some g ->
  object (setCompact gv b w) gv = Some (setCompactField b g).
Proof.
  intros H. unfold setCompact. case_match; by apply object_updObject.
Qed.

Lemma object_setMobileSimplified gv b w g :
  object w gv = Some g ->
  object (setMobileSimplified gv b w) gv = Some (setMobileSimplifiedField b g).
Proof.
  intros H. unfold setMobileSimplified. case_match; by apply object_updObject.
Qed.

Lemma insertUnderTitle_spec gv n view mode w w' :
  insertUnderTitle gv n view mode w = Some w' ->
  (forall gv', object w' gv' = object w gv')
  /\ Calls notBind w w' /\ Footprint w w'.
Proof.
  unfold insertUnderTitle. repeat case_match; intros; simplify_eq.
  - repeat split; eauto with frame.
  - repeat split; eauto with frame.
Qed.

Lemma showAndResize_spec gv n opts w g :
  object w gv = Some g ->
  (exists g', object (showAndResize gv n opts w) gv = Some g' /\ sameBinding g g')
  /\ Calls notBind w (showAndResize gv n opts w).
Proof.
  intros H. unfold showAndResize.
  destruct opts as [[c m]|].
  - pose proof (object_setCompact gv c (updNode n (setClassVisible true) w) g H) as H1.
    pose proof (object_setMobileSimplified gv m _ _ H1) as H2.
    rewrite H2. split.
    + eexists. split; [exact H2 | by repeat split].
    + eauto 10 with frame.
  - change (object (updNode n (setClassVisible true) w) gv) with (object w gv).
    rewrite H. split.
    + eexists. split; [exact H | apply sameBinding_refl].
    + eauto 10 with frame.
Qed.

(** [placeTo] on a graph view that has its node and a view that has a
    file: the file is bound afterwards, and the call makes one file-scoped
    [setViewState] unless that path was the bound one. *)
Lemma placeTo_bind gv view opts w g n f :
  object w gv = Some g ->
  nodeAfterSetup w g = Some n ->
  file (viewAt w view) = Some f ->
  exists g' cs,
    object (placeTo gv view opts w) gv = Some g'
    /\ currentFilePath g' = Some (path f)
    /\ node g' = Some n
    /\ setupLeafPromise g' = SetupDone
    /\ leaf g' = leaf g
    /\ calls (placeTo gv view opts w) = calls w ++ cs
    /\ only isBind cs =
       if bool_decide (currentFilePath g = Some (path f)) then []
       else [SetViewState (leaf g) (Some (path f))].
Proof.
  intros Hobj Hnode Hfile.
  pose proof (object_resumeSetupLeaf gv w g Hobj) as Hobj1.
  pose proof (Footprint_resumeSetupLeaf gv w w (Footprint_refl w)) as Hfp1.
  destruct (Calls_resumeSetupLeaf gv w w (Calls_refl _ w)) as (cs1 & Hcs1 & Hq1).
  destruct (settled_fields w g) as (Hleaf & Hpath & _ & _ & Hdone & _).
  assert (Hn1 : nodeOf (resumeSetupLeaf gv w) gv = Some n).
  { unfold nodeOf. rewrite Hobj1. cbn. by rewrite node_settled. }
  unfold placeTo. rewrite Hn1, (Footprint_viewAt _ _ view Hfp1), Hfile.
  destruct (bindTo_spec gv (path f) _ _ Hobj1) as (Hobj2 & Hcs2 & Hfp2).
  rewrite Hpath, Hleaf in Hcs2.
  set (w2 := bindTo gv (path f) (resumeSetupLeaf gv w)) in *.
  set (bound := setCurrentFilePath (Some (path f)) (settled w g)) in *.
  assert (Hbound : currentFilePath bound = Some (path f) /\ node bound = Some n
                   /\ setupLeafPromise bound = SetupDone /\ leaf bound = leaf g).
  { subst bound. cbn. by rewrite node_settled. }
  destruct Hbound as (Hb1 & Hb2 & Hb3 & Hb4).
  assert (Hbinds : only isBind
            (cs1 ++ (if bool_decide (currentFilePath g = Some (path f)) then []
                     else [SetViewState (leaf g) (Some (path f));
                           SetGroup (leaf g) (path f)]))
          = if bool_decide (currentFilePath g = Some (path f)) then []
            else [SetViewState (leaf g) (Some (path f))]).
  { rewrite only_app, (only_none isBind quiet cs1); [| | done].
    - by case_bool_decide.
    - intros c Hc. by apply notBind_isBind, quiet_notBind. }
  assert (Hstop : exists g' cs,
            object w2 gv = Some g' /\ currentFilePath g' = Some (path f)
            /\ node g' = Some n /\ setupLeafPromise g' = SetupDone
            /\ leaf g' = leaf g /\ calls w2 = calls w ++ cs
            /\ only isBind cs =
               if bool_decide (currentFilePath g = Some (path f)) then []
               else [SetViewState (leaf g) (Some (path f))]).
  { exists bound, (cs1 ++ (if bool_decide (currentFilePath g = Some (path f)) then []
                     else [SetViewState (leaf g) (Some (path f));
                           SetGroup (leaf g) (path f)])).
    repeat split; try done. by rewrite Hcs2, Hcs1, app_assoc. }
  destruct (negb (modeContainerFound (viewAt w2 view))); [exact Hstop |].
  destruct (insertUnderTitle gv n view (getMode (viewAt w2 view)) w2) as [w3|] eqn:Hins;
    [| exact Hstop].
  destruct (insertUnderTitle_spec _ _ _ _ _ _ Hins) as (Hobj3 & (cs3 & Hcs3 & Hq3) & _).
  assert (Hobj3' : object w3 gv = Some bound) by (by rewrite Hobj3).
  destruct (showAndResize_spec gv n opts w3 bound Hobj3')
    as ((g' & Hobj4 & (Hl & Hn & Hs & Hp)) & (cs4 & Hcs4 & Hq4)).
  exists g', ((cs1 ++ (if bool_decide (currentFilePath g = Some (path f)) then []
                       else [SetViewState (leaf g) (Some (path f));
                             SetGroup (leaf g) (path f)])) ++ cs3 ++ cs4).
  repeat split; try congruence.
  - rewrite Hcs4, Hcs3, Hcs2, Hcs1. by rewrite <- !app_assoc.
  - rewrite only_app, Hbinds, only_app.
    rewrite (only_none isBind notBind cs3), (only_none isBind notBind cs4);
      try done; try apply notBind_isBind.
    by rewrite app_nil_r.
Qed.

(** C6.  A forced refresh is a round trip on the bound path.  For a graph
    view bound to the path of [f], [forceRefresh] first clears
    [currentFilePath] and then runs [placeTo], which binds the same path
    again: one file-scoped [setViewState] is made although the path has not
    changed, and [currentFilePath] is that path again. *)
Theorem forceRefresh_round_trip (gv view : nat) (opts : option (bool * bool))
    (w : World) (g : GraphView) (n : nat) (f : TFile) :
  object w gv = Some g ->
  currentFilePath g = Some (path f) ->
  nodeAfterSetup w g = Some n ->
  file (viewAt w view) = Some f ->
  let cleared := updObject gv (setCurrentFilePath None) w in
  forceRefresh gv view opts w = placeTo gv view opts cleared
  /\ (exists g0, object cleared gv = Some g0 /\ currentFilePath g0 = None)
  /\ exists cs g',
       calls (forceRefresh gv view opts w) = calls w ++ cs
       /\ only isBind cs = [SetViewState (leaf g) (Some (path f))]
       /\ object (forceRefresh gv view opts w) gv = Some g'
       /\ currentFilePath g' = Some (path f).
Proof.
  intros Hobj Hbound Hnode Hfile cleared.
  pose proof (object_updObject gv (setCurrentFilePath None) w g Hobj) as Hobj0.
  fold cleared in Hobj0.
  split; [done |]. split; [by eexists |].
  destruct (placeTo_bind gv view opts cleared (setCurrentFilePath None g) n f)
    as (g' & cs & Hobj' & Hpath' & _ & _ & _ & Hcs & Hb); try done.
  cbn in Hb. exists cs, g'. repeat split; try done.
Qed.

Lemma forceRefresh_round_trip_witness :
  exists cs g',
    calls (forceRefresh 10 1 None (placeGraphView 1 Sample.start))
    = calls (placeGraphView 1 Sample.start) ++ cs
    /\ only isBind cs = [SetViewState 10 (Some (js "A.md"))]
    /\ object (forceRefresh 10 1 None (placeGraphView 1 Sample.start)) 10 = Some g'
    /\ currentFilePath g' = Some (js "A.md").
Proof.
  exact (proj2 (proj2
    (forceRefresh_round_trip 10 1 None (placeGraphView 1 Sample.start)
       {| leaf := 10; node := Some 10%nat; setupLeafPromise := SetupDone;
          currentFilePath := Some (js "A.md"); compact := false;
          mobileSimplified := false |}
       10 Sample.noteA eq_refl eq_refl eq_refl eq_refl))).
Defined.

End BindFacts.

(** ** Resolutions that only hide the banner *)

Section HiddenFacts.
Import Js Plugin Props Frames.

Lemma find_elem_of {A : Type} (f : A -> bool) (l : list A) (x : A) :
  find f l = Some x -> x ∈ l /\ f x = true.
Proof.
  intros H. apply find_some in H as [Hin Hf]. by rewrite list_elem_of_In.
Qed.

(** [_getOrCreateGraphView] returns a graph view of the pool and changes
    nothing, or constructs one and pushes it. *)
Lemma getOrCreate_cases (view : nat) (w : World) :
  (exists r, getOrCreateGraphView view w = (w, r)
             /\ forall gv, r = Some gv -> gv ∈ graphViews (plugin w))
  \/ getOrCreateGraphView view w = (pushNew w, Some (nextLeaf (host w))).
Proof.
  unfold getOrCreateGraphView.
  set (attached := fun gv => isDescendantOf gv (ContainerEl view) w).
  set (detached := fun gv =>
         negb (existsb (fun nd => isDescendantOf gv (ContainerEl nd) w)
                 (markdownLeaves (host w)))).
  destruct (find attached (graphViews (plugin w))) as [gv|] eqn:E1.
  { left. exists (Some gv). split; [done |]. intros gv' Hgv.
    injection Hgv as <-. by apply find_elem_of in E1 as []. }
  destruct (find detached (graphViews (plugin w))) as [gv|] eqn:E2.
  { left. exists (Some gv). split; [done |]. intros gv' Hgv.
    injection Hgv as <-. by apply find_elem_of in E2 as []. }
  destruct (_ <=? _)%Z.
  - left. exists (head (graphViews (plugin w))). split; [done |]. intros gv Hgv.
    destruct (graphViews (plugin w)); [done |]. injection Hgv as <-. by left.
  - by right.
Qed.

Lemma getOrCreate_call (c : Call) (view : nat) (w : World) :
  snd (getOrCreateGraphView view (call c w)) = snd (getOrCreateGraphView view w).
Proof.
  unfold getOrCreateGraphView.
  change (graphViews (plugin (call c w))) with (graphViews (plugin w)).
  change (markdownLeaves (host (call c w))) with (markdownLeaves (host w)).
  change (settings (plugin (call c w))) with (settings (plugin w)).
  set (attached := fun gv => isDescendantOf gv (ContainerEl view) w).
  set (detached := fun gv =>
         negb (existsb (fun nd => isDescendantOf gv (ContainerEl nd) w)
                 (markdownLeaves (host w)))).
  change (fun gv => isDescendantOf gv (ContainerEl view) (call c w)) with attached.
  change (fun gv => negb (existsb (fun nd => isDescendantOf gv (ContainerEl nd) (call c w))
                            (markdownLeaves (host w)))) with detached.
  destruct (find attached _); [done |].
  destruct (find detached _); [done |].
  destruct (_ <=? _)%Z; done.
Qed.

Lemma object_pushNew (w : World) (gv : nat) (g : GraphView) :
  LeavesFresh w -> object w gv = Some g -> object (pushNew w) gv = Some g.
Proof.
  intros Hfresh H. unfold pushNew, newGraphView, object. cbn.
  rewrite lookup_insert_ne; [done |]. specialize (Hfresh gv g H). lia.
Qed.

Lemma LeavesFresh_getOrCreate (view : nat) (w : World) :
  LeavesFresh w -> LeavesFresh (fst (getOrCreateGraphView view w)).
Proof.
  intros Hfresh. destruct (getOrCreate_cases view w) as [(r & -> & _) | ->]; [done |].
  intros gv g. unfold pushNew, newGraphView, object. cbn.
  destruct (decide (nextLeaf (host w) = gv)) as [<- | Hne].
  - intros _. lia.
  - rewrite lookup_insert_ne by done. intros Hg.
    specialize (Hfresh gv g Hg). lia.
Qed.

Lemma nodeOf_pushNew (w : World) : nodeOf (pushNew w) (nextLeaf (host w)) = None.
Proof.
  unfold nodeOf, pushNew, newGraphView, object. cbn.
  by rewrite lookup_insert_eq.
Qed.

Lemma nodeAt_pushNew (w : World) (m : nat) : nodeAt (pushNew w) m = nodeAt w m.
Proof. done. Qed.

Lemma calls_pushNew (w : World) :
  calls (pushNew w) =
  calls w ++ [GetLeaf (nextLeaf (host w)); SetViewState (nextLeaf (host w)) None].
Proof. unfold pushNew, newGraphView. cbn. by rewrite <- app_assoc. Qed.

Lemma nodeAt_updNode n f w m :
  nodeAt (updNode n f w) m = if bool_decide (n = m) then f (nodeAt w n) else nodeAt w m.
Proof.
  unfold nodeAt at 1, updNode. cbn. case_bool_decide as E.
  - subst. by rewrite lookup_insert_eq.
  - by rewrite lookup_insert_ne.
Qed.

Lemma nodeOf_setVisibility gv gv' b w :
  nodeOf (setVisibility gv b w) gv' = nodeOf w gv'.
Proof. unfold nodeOf. by rewrite object_setVisibility. Qed.

Lemma nodeAt_setVisibility gv b w m :
  nodeAt (setVisibility gv b w) m =
  if bool_decide (nodeOf w gv = Some m)
  then setClassVisible b (setClassHidden (negb b) (nodeAt w m))
  else nodeAt w m.
Proof.
  unfold setVisibility. destruct (nodeOf w gv) as [n|] eqn:E.
  - rewrite nodeAt_updNode. repeat case_bool_decide; by simplify_eq.
  - by rewrite bool_decide_eq_false_2.
Qed.

(** Hiding after any [setVisibility] leaves the classes of a hidden node. *)
Lemma hide_after_show b d :
  setClassVisible false (setClassHidden true
    (setClassVisible b (setClassHidden (negb b) d))) = hide d.
Proof. by destruct d. Qed.

(** What [setVisibility(false)], after an optional [setVisibility], does
    to the world: the node of the graph view gets the hidden classes. *)
Lemma hidden_effect gv (first : option bool) w :
  let w' := setVisibility gv false
              (match first with
               | Some b => setVisibility gv b w
               | None => w
               end) in
  (forall gv', object w' gv' = object w gv')
  /\ calls w' = calls w
  /\ forall m, nodeAt w' m =
               if bool_decide (nodeOf w gv = Some m) then hide (nodeAt w m)
               else nodeAt w m.
Proof.
  destruct first as [b|]; cbn zeta.
  - repeat split.
    + intros gv'. by rewrite !object_setVisibility.
    + by rewrite !calls_setVisibility.
    + intros m. rewrite nodeAt_setVisibility, nodeOf_setVisibility.
      rewrite nodeAt_setVisibility.
      case_bool_decide; [apply hide_after_show | done].
  - repeat split.
    + intros gv'. by rewrite object_setVisibility.
    + by rewrite calls_setVisibility.
    + intros m. rewrite nodeAt_setVisibility. by case_bool_decide.
Qed.

(** The conclusion shared by the resolutions that stop at a hidden
    banner. *)
Lemma hidden_resolution (view : nat) (first : option bool) (w : World) :
  LeavesFresh w ->
  let w' := hiddenForm view first w in
  let acquired := snd (getOrCreateGraphView view w) in
  (forall gv g, object w gv = Some g -> object w' gv = Some g)
  /\ (exists cs, calls w' = calls w ++ PlaceGraphView view :: cs
                 /\ forallb quiet cs = true)
  /\ (forall gv n, acquired = Some gv -> nodeOf w' gv = Some n ->
                   nodeAt w' n = hide (nodeAt w n))
  /\ (forall m, (forall gv, acquired = Some gv -> nodeOf w' gv <> Some m) ->
                nodeAt w' m = nodeAt w m).
Proof.
  intros Hfresh w' acquired. unfold hiddenForm in w'.
  set (w0 := call (PlaceGraphView view) w) in *.
  assert (Hacq : snd (getOrCreateGraphView view w0) = acquired)
    by apply getOrCreate_call.
  assert (Hfresh0 : LeavesFresh w0) by exact Hfresh.
  clearbody acquired. subst w' acquired. destruct (getOrCreate_cases view w0) as [(r & -> & Hr) | ->].
  - cbn [snd]. destruct r as [gv|].
    + destruct (hidden_effect gv first w0) as (Hobj & Hcalls & Hnodes).
      cbn zeta in *. split; [| split; [| split]].
      * intros gv' g Hg. by rewrite Hobj.
      * exists []. by rewrite Hcalls.
      * intros gv' n Hgv Hn. injection Hgv as <-.
        rewrite Hnodes.
        unfold nodeOf in Hn. rewrite Hobj in Hn.
        by rewrite bool_decide_eq_true_2.
      * intros m Hm. rewrite Hnodes. case_bool_decide as E; [| done].
        exfalso. apply (Hm gv eq_refl). unfold nodeOf. by rewrite Hobj.
    + split; [| split; [| split]]; try done.
      by exists [].
  - cbn [snd].
    destruct (hidden_effect (nextLeaf (host w0)) first (pushNew w0))
      as (Hobj & Hcalls & Hnodes).
    cbn zeta in *. split; [| split; [| split]].
    + intros gv' g Hg. rewrite Hobj. by apply object_pushNew.
    + eexists. rewrite Hcalls, calls_pushNew. cbn. rewrite <- app_assoc.
      split; [reflexivity | done].
    + intros gv n Hgv Hn. injection Hgv as <-.
      unfold nodeOf in Hn. rewrite Hobj in Hn.
      pose proof (nodeOf_pushNew w0) as Hnone. unfold nodeOf in Hnone.
      change (nextLeaf (host w)) with (nextLeaf (host w0)) in Hn. congruence.
    + intros m _. rewrite Hnodes, nodeOf_pushNew. done.
Qed.

Lemma orS_Some (v d : jsstring) : truthy v = true -> orS (Some v) d = v.
Proof. intros H. unfold orS. by rewrite H. Qed.

(** A per-note disabled or ignored note: the resolution stops at the first
    [setVisibility(false)]. *)
Lemma placeGraphView_muted (view : nat) (w : World) (f : TFile) :
  file (viewAt w view) = Some f ->
  extension f = js "md" ->
  Settings.isNoteDisabled (settings (plugin w)) (path f) = true
  \/ Ignore.matchIgnore (path f) (ignoreLines w) = true ->
  placeGraphView view w = hiddenForm view None w.
Proof.
  intros Hfile Hext Hgate. unfold placeGraphView, hiddenForm.
  set (w0 := call (PlaceGraphView view) w).
  change (viewAt w0 view) with (viewAt w view).
  change (settings (plugin w0)) with (settings (plugin w)).
  change (ignoreLines w0) with (ignoreLines w).
  rewrite Hfile, Hext. rewrite bool_decide_eq_true_2 by done. cbn [negb].
  destruct (Settings.isNoteDisabled _ _) eqn:Hdis.
  - by destruct (getOrCreateGraphView view w0) as [w1 [gv|]].
  - destruct Hgate as [Hgate | Hgate]; [done |]. rewrite Hgate.
    by destruct (getOrCreateGraphView view w0) as [w1 [gv|]].
Qed.

(** Edit mode with [showInEditMode] set to [hidden]: the resolution stops
    at the second [setVisibility(false)]. *)
Lemma placeGraphView_editHidden (view : nat) (w : World) (f : TFile) :
  file (viewAt w view) = Some f ->
  extension f = js "md" ->
  Settings.isNoteDisabled (settings (plugin w)) (path f) = false ->
  Ignore.matchIgnore (path f) (ignoreLines w) = false ->
  getMode (viewAt w view) = source ->
  Settings.showInEditMode (settings (plugin w)) = Some (js "hidden") ->
  placeGraphView view w = hiddenForm view (Some true) w.
Proof.
  intros Hfile Hext Hdis Hign Hmode Hedit. unfold placeGraphView, hiddenForm.
  set (w0 := call (PlaceGraphView view) w).
  change (viewAt w0 view) with (viewAt w view).
  change (settings (plugin w0)) with (settings (plugin w)).
  change (ignoreLines w0) with (ignoreLines w).
  rewrite Hfile, Hext. rewrite bool_decide_eq_true_2 by done. cbn [negb].
  rewrite Hdis, Hign.
  destruct (getOrCreateGraphView view w0) as [w1 [gv|]] eqn:E; [| done].
  cbn [negb].
  assert (Hfp : Footprint w (setVisibility gv true w1)).
  { replace w1 with (fst (getOrCreateGraphView view w0)) by (by rewrite E).
    apply Footprint_setVisibility, Footprint_getOrCreate.
    apply Footprint_call, Footprint_refl. }
  rewrite (Footprint_viewAt _ _ view Hfp), (fp_settings _ _ Hfp), Hmode, Hedit.
  rewrite orS_Some by done. cbn [Mode_eqb andb].
  by rewrite bool_decide_eq_true_2.
Qed.

Lemma LeavesFresh_intro (w : World) :
  map_Forall (fun gv _ => (gv < nextLeaf (host w))%nat) (objects (plugin w)) ->
  LeavesFresh w.
Proof. intros H gv g Hg. exact (H gv g Hg). Qed.

End HiddenFacts.

(** ** The per-note toggle *)

Section ToggleCommandFacts.
Import Js Plugin Props Frames.

(** With the gates open a resolution shows the graph view and goes on to
    [placeTo]. *)
Lemma placeGraphView_places (view : nat) (w w1 : World) (f : TFile) (gv : nat) :
  file (viewAt w view) = Some f ->
  extension f = js "md" ->
  Settings.isNoteDisabled (settings (plugin w)) (path f) = false ->
  Ignore.matchIgnore (path f) (ignoreLines w) = false ->
  hiddenInEdit w view = false ->
  disabledOnMobile w = false ->
  getOrCreateGraphView view (call (PlaceGraphView view) w) = (w1, Some gv) ->
  placeGraphView view w =
  placeTo gv view (Some (placeOptions w view))
    (setVisibility gv true (setVisibility gv true w1)).
Proof.
  intros Hfile Hext Hdis Hign Hedit Hmob E. unfold placeGraphView.
  set (w0 := call (PlaceGraphView view) w) in *.
  change (viewAt w0 view) with (viewAt w view).
  change (settings (plugin w0)) with (settings (plugin w)).
  change (ignoreLines w0) with (ignoreLines w).
  rewrite Hfile, Hext. rewrite bool_decide_eq_true_2 by done. cbn [negb].
  rewrite Hdis, Hign, E. cbn [negb].
  assert (Hfp : Footprint w (setVisibility gv true w1)).
  { rewrite (getOrCreate_fst _ _ _ _ E).
    apply Footprint_setVisibility, Footprint_getOrCreate.
    apply Footprint_call, Footprint_refl. }
  rewrite (Footprint_viewAt _ _ view Hfp), (fp_settings _ _ Hfp), (fp_isMobile _ _ Hfp).
  unfold hiddenInEdit in Hedit. unfold disabledOnMobile in Hmob.
  rewrite Hedit, Hmob. reflexivity.
Qed.

Lemma find_ext {A : Type} (f g : A -> bool) (l : list A) :
  (forall x, f x = g x) -> find f l = find g l.
Proof. intros H. induction l as [|x l IH]; cbn; [done |]. by rewrite H, IH. Qed.

Lemma existsb_agree {A : Type} (f g : A -> bool) (l : list A) :
  (forall x, f x = g x) -> existsb f l = existsb g l.
Proof. intros H. induction l as [|x l IH]; cbn; [done |]. by rewrite H, IH. Qed.

Lemma isDescendantOf_agree gv el w w2 :
  objects (plugin w2) = objects (plugin w) ->
  nodes (host w2) = nodes (host w) ->
  isDescendantOf gv el w2 = isDescendantOf gv el w.
Proof.
  intros Ho Hn. unfold isDescendantOf, nodeOf, object, contains, nodeAt.
  by rewrite Ho, Hn.
Qed.

(** A reuse is decided by the pool, the graph views, the DOM, the live
    leaves and the cap alone. *)
Lemma getOrCreate_reuse_transfer (view : nat) (w w2 : World) (r : option nat) :
  graphViews (plugin w2) = graphViews (plugin w) ->
  objects (plugin w2) = objects (plugin w) ->
  nodes (host w2) = nodes (host w) ->
  markdownLeaves (host w2) = markdownLeaves (host w) ->
  Settings.maxGraphViews (settings (plugin w2))
  = Settings.maxGraphViews (settings (plugin w)) ->
  getOrCreateGraphView view w = (w, r) ->
  getOrCreateGraphView view w2 = (w2, r).
Proof.
  intros Hp Ho Hn Hl Hm. unfold getOrCreateGraphView.
  rewrite Hp, Hl, Hm.
  rewrite (find_ext (fun gv => isDescendantOf gv (ContainerEl view) w2)
             (fun gv => isDescendantOf gv (ContainerEl view) w))
    by (intros; by apply isDescendantOf_agree).
  rewrite (find_ext
             (fun gv => negb (existsb (fun nd => isDescendantOf gv (ContainerEl nd) w2)
                                (markdownLeaves (host w))))
             (fun gv => negb (existsb (fun nd => isDescendantOf gv (ContainerEl nd) w)
                                (markdownLeaves (host w))))).
  2:{ intros gv. f_equal. apply existsb_agree. intros nd.
      by apply isDescendantOf_agree. }
  destruct (find _ _); [by intros [= <-] |].
  destruct (find _ _); [by intros [= <-] |].
  destruct (_ <=? _)%Z; [by intros [= <-] |].
  unfold newGraphView. cbn. intros [= Hw _]. exfalso.
  apply (f_equal (fun x => length (graphViews (plugin x)))) in Hw.
  cbn in Hw. rewrite length_app in Hw. cbn in Hw. lia.
Qed.

(** *** The node through [placeTo] *)

Lemma resumeSetupLeaf_done gv w g :
  object w gv = Some g -> setupLeafPromise g = SetupDone ->
  resumeSetupLeaf gv w = w.
Proof. intros Ho Hs. unfold resumeSetupLeaf. by rewrite Ho, Hs. Qed.

Lemma nodeAt_bindTo gv p w m : nodeAt (bindTo gv p w) m = nodeAt w m.
Proof. unfold bindTo. by repeat case_match. Qed.

Lemma nodeOf_bindTo gv p w : nodeOf (bindTo gv p w) gv = nodeOf w gv.
Proof.
  unfold bindTo. destruct (object w gv) as [g|] eqn:E; [| done].
  destruct (negb _); [| done].
  unfold nodeOf. erewrite object_updObject; [| exact E]. by rewrite E.
Qed.

Lemma nodeOf_updNode n f w gv : nodeOf (updNode n f w) gv = nodeOf w gv.
Proof. done. Qed.

Lemma nodeOf_call c w gv : nodeOf (call c w) gv = nodeOf w gv.
Proof. done. Qed.

(** The parent and the [hidden] class of a node are written by
    [insertAfter] and [setVisibility] alone. *)
Lemma nodeAt_setCompact gv b w m :
  parent (nodeAt (setCompact gv b w) m) = parent (nodeAt w m)
  /\ cls_hidden (nodeAt (setCompact gv b w) m) = cls_hidden (nodeAt w m)
  /\ cls_visible (nodeAt (setCompact gv b w) m) = cls_visible (nodeAt w m).
Proof.
  unfold setCompact. case_match; [| done].
  rewrite nodeAt_updNode. by case_bool_decide; subst.
Qed.

Lemma nodeAt_setMobileSimplified gv b w m :
  parent (nodeAt (setMobileSimplified gv b w) m) = parent (nodeAt w m)
  /\ cls_hidden (nodeAt (setMobileSimplified gv b w) m) = cls_hidden (nodeAt w m)
  /\ cls_visible (nodeAt (setMobileSimplified gv b w) m) = cls_visible (nodeAt w m).
Proof.
  unfold setMobileSimplified. case_match; [| done].
  rewrite nodeAt_updNode. by case_bool_decide; subst.
Qed.

Lemma nodeAt_showAndResize gv n opts w :
  parent (nodeAt (showAndResize gv n opts w) n) = parent (nodeAt w n)
  /\ cls_hidden (nodeAt (showAndResize gv n opts w) n) = cls_hidden (nodeAt w n)
  /\ cls_visible (nodeAt (showAndResize gv n opts w) n) = true.
Proof.
  unfold showAndResize.
  set (w1 := updNode n (setClassVisible true) w).
  assert (H1 : parent (nodeAt w1 n) = parent (nodeAt w n)
               /\ cls_hidden (nodeAt w1 n) = cls_hidden (nodeAt w n)
               /\ cls_visible (nodeAt w1 n) = true).
  { subst w1. rewrite nodeAt_updNode. by rewrite bool_decide_eq_true_2. }
  destruct H1 as (Hp & Hh & Hv).
  destruct opts as [[c m]|].
  - destruct (nodeAt_setCompact gv c w1 n) as (Hp1 & Hh1 & Hv1).
    destruct (nodeAt_setMobileSimplified gv m (setCompact gv c w1) n) as (Hp2 & Hh2 & Hv2).
    case_match; change (nodeAt (call ?c ?x) n) with (nodeAt x n);
      repeat split; congruence.
  - case_match; change (nodeAt (call ?c ?x) n) with (nodeAt x n); done.
Qed.

Lemma insertUnderTitle_node gv n view mode w :
  nodeOf w gv = Some n ->
  isDescendantOf gv (ModeContainer view mode) w = true
  \/ inlineTitleFound (viewAt w view) = true ->
  exists w', insertUnderTitle gv n view mode w = Some w'
             /\ parent (nodeAt w' n) = Some (view, mode)
             /\ cls_hidden (nodeAt w' n) = cls_hidden (nodeAt w n)
             /\ (forall gv', object w' gv' = object w gv').
Proof.
  intros Hn Hready. unfold insertUnderTitle.
  destruct (isDescendantOf gv (ModeContainer view mode) w) eqn:Hd.
  - exists w. repeat split; try done.
    unfold isDescendantOf in Hd. rewrite Hn in Hd. unfold contains in Hd.
    destruct (parent (nodeAt w n)) as [[v m]|]; [| done].
    apply andb_true_iff in Hd as [Hv Hm]. apply bool_decide_eq_true in Hv as ->.
    by destruct m, mode.
  - destruct Hready as [? | ->]; [done |].
    eexists. split; [done |].
    change (nodeAt (call ?c ?x) n) with (nodeAt x n).
    rewrite nodeAt_updNode, bool_decide_eq_true_2 by done. done.
Qed.

Lemma isDescendantOf_parent gv el w w2 n :
  nodeOf w gv = Some n -> nodeOf w2 gv = Some n ->
  parent (nodeAt w2 n) = parent (nodeAt w n) ->
  isDescendantOf gv el w2 = isDescendantOf gv el w.
Proof.
  intros H1 H2 Hp. unfold isDescendantOf, contains. by rewrite H1, H2, Hp.
Qed.

(** [placeTo] on a graph view that is set up, for a view whose title is in
    place: the node ends under that title with the visible class; its
    [hidden] class is not touched. *)
Lemma placeTo_shows gv view opts w g n f :
  object w gv = Some g ->
  setupLeafPromise g = SetupDone ->
  node g = Some n ->
  file (viewAt w view) = Some f ->
  modeContainerFound (viewAt w view) = true ->
  isDescendantOf gv (ModeContainer view (getMode (viewAt w view))) w = true
  \/ inlineTitleFound (viewAt w view) = true ->
  parent (nodeAt (placeTo gv view opts w) n) = Some (view, getMode (viewAt w view))
  /\ cls_hidden (nodeAt (placeTo gv view opts w) n) = cls_hidden (nodeAt w n)
  /\ cls_visible (nodeAt (placeTo gv view opts w) n) = true.
Proof.
  intros Hobj Hdone Hnode Hfile Hmc Hready.
  assert (Hn : nodeOf w gv = Some n) by (unfold nodeOf; by rewrite Hobj).
  unfold placeTo. rewrite (resumeSetupLeaf_done gv w g Hobj Hdone), Hn, Hfile.
  set (w2 := bindTo gv (path f) w).
  assert (Hfp : Footprint w w2) by apply Footprint_bindTo, Footprint_refl.
  assert (Hn2 : nodeOf w2 gv = Some n) by (subst w2; by rewrite nodeOf_bindTo).
  rewrite (Footprint_viewAt _ _ view Hfp), Hmc. cbn [negb].
  destruct (insertUnderTitle_node gv n view (getMode (viewAt w view)) w2 Hn2)
    as (w3 & -> & Hp3 & Hh3 & _).
  { rewrite (Footprint_viewAt _ _ view Hfp).
    rewrite (isDescendantOf_parent gv _ w w2 n Hn Hn2); [done |].
    subst w2. by rewrite nodeAt_bindTo. }
  destruct (nodeAt_showAndResize gv n opts w3) as (Hp4 & Hh4 & Hv4).
  repeat split; [congruence | | done].
  rewrite Hh4, Hh3. subst w2. by rewrite nodeAt_bindTo.
Qed.

Lemma isNoteDisabled_toggled (p : jsstring) (w : World) :
  NoDup (default [] (Settings.perNoteDisabledPaths (settings (plugin w)))) ->
  Settings.isNoteDisabled (settings (plugin (toggled p w))) p
  = negb (Settings.isNoteDisabled (settings (plugin w)) p).
Proof.
  intros Hnd. unfold Settings.isNoteDisabled, arrIncludes. cbn.
  destruct (toggleList_flips _ p Hnd) as (Hflip & _).
  case_bool_decide as H1; case_bool_decide as H2; try done.
  - by apply Hflip in H1.
  - exfalso. apply H1. by apply Hflip.
Qed.

End ToggleCommandFacts.

(** ** Timers: the debounce of layout changes and the teardown *)

Section TimerFacts.
Import Js Plugin Props Frames.

Lemma earliest_elem ts t : earliest ts = Some t -> t ∈ ts.
Proof.
  revert t. induction ts as [|u ts IH]; intros t; cbn; [done |].
  destruct (earliest ts) as [e|].
  - destruct (due e <? due u)%Z; intros [= <-]; [right; by apply IH | by left].
  - intros [= <-]. by left.
Qed.

Lemma earliest_least ts t u :
  earliest ts = Some t -> u ∈ ts -> (due t <= due u)%Z.
Proof.
  revert t. induction ts as [|x ts IH]; intros t; cbn; [intros _ H; by inversion H |].
  destruct (earliest ts) as [e|] eqn:E.
  - intros Ht Hu.
    assert (Htail : u ∈ ts -> (due e <= due u)%Z) by (intros; by apply IH).
    apply elem_of_cons in Hu as [-> | Hu];
      destruct (Z.ltb_spec (due e) (due x)); injection Ht as <-;
      try specialize (Htail Hu); lia.
  - intros [= <-] Hu. apply elem_of_cons in Hu as [-> | Hu]; [reflexivity |].
    destruct ts; [by inversion Hu | cbn in E; by repeat case_match].
Qed.

Lemma earliest_nil ts : earliest ts = None -> ts = [].
Proof. destruct ts; cbn; [done |]. by repeat case_match. Qed.

Lemma filter_keep {A : Type} (P Q : A -> Prop)
    `{forall x, Decision (P x)} `{forall x, Decision (Q x)} (l : list A) :
  Forall (fun x => P x -> Q x) l -> filter P (filter Q l) = filter P l.
Proof.
  induction 1 as [|x l Hx _ IH]; [done |].
  rewrite (filter_cons Q). destruct (decide (Q x)) as [Hq | Hq].
  - rewrite !(filter_cons P). by rewrite IH.
  - rewrite IH, (filter_cons P). destruct (decide (P x)); [| done]. by destruct Hq; auto.
Qed.

Lemma filter_drop {A : Type} (P Q : A -> Prop)
    `{forall x, Decision (P x)} `{forall x, Decision (Q x)} (l : list A) :
  Forall (fun x => P x -> ~ Q x) l -> filter P (filter Q l) = [].
Proof.
  induction 1 as [|x l Hx _ IH]; [done |].
  rewrite (filter_cons Q). destruct (decide (Q x)) as [Hq | Hq]; [| done].
  rewrite (filter_cons P). destruct (decide (P x)) as [Hp | Hp]; [| done].
  by destruct (Hx Hp).
Qed.

Lemma timersWeight_app ts1 ts2 :
  timersWeight (ts1 ++ ts2) = (timersWeight ts1 + timersWeight ts2)%nat.
Proof. unfold timersWeight. induction ts1; cbn; [done | lia]. Qed.

Lemma weight_positive t : (1 <= weight t)%nat.
Proof. unfold weight. destruct (callback t); lia. Qed.

Lemma timersWeight_cons t ts :
  timersWeight (t :: ts) = (weight t + timersWeight ts)%nat.
Proof. done. Qed.

Lemma timersWeight_filter_le (P : Timer -> Prop) `{forall x, Decision (P x)} ts :
  (timersWeight (filter P ts) <= timersWeight ts)%nat.
Proof.
  induction ts as [|y ts IH]; [done |].
  rewrite filter_cons. destruct (decide _); rewrite !timersWeight_cons; lia.
Qed.

Lemma timersWeight_filter ts t :
  t ∈ ts ->
  (timersWeight (filter (fun u => timerId u ≠ timerId t) ts) + weight t
   <= timersWeight ts)%nat.
Proof.
  induction ts as [|x ts IH]; [intros H; by inversion H |].
  intros Hin. rewrite filter_cons.
  pose proof (timersWeight_filter_le (fun u => timerId u ≠ timerId t) ts) as Hle.
  destruct (decide (timerId x ≠ timerId t)) as [Hne | Heq].
  - apply elem_of_cons in Hin as [-> | Hin]; [done |].
    specialize (IH Hin). rewrite !timersWeight_cons. lia.
  - apply elem_of_cons in Hin as [-> | Hin]; rewrite !timersWeight_cons.
    + lia.
    + specialize (IH Hin). pose proof (weight_positive x). lia.
Qed.

(** *** The invariant of the pending timers *)

Lemma TimersOk_same w w' :
  loop w' = loop w -> layoutTimer (plugin w') = layoutTimer (plugin w) ->
  TimersOk w -> TimersOk w'.
Proof. intros Hl Hp []. constructor; rewrite ?Hl, ?Hp; done. Qed.

Lemma Forall_filter_keep {A : Type} (R P : A -> Prop)
    `{forall x, Decision (P x)} (l : list A) :
  Forall R l -> Forall R (filter P l).
Proof.
  rewrite !Forall_forall. intros H' x [_ Hx]%list_elem_of_filter. by apply H'.
Qed.

Lemma TimersOk_removed w w' (P : Timer -> Prop) `{forall x, Decision (P x)} :
  timers (loop w') = filter P (timers (loop w)) ->
  nextTimer (loop w') = nextTimer (loop w) ->
  layoutTimer (plugin w') = layoutTimer (plugin w) ->
  TimersOk w -> TimersOk w'.
Proof.
  intros Ht Hn Hp []. constructor; rewrite ?Ht, ?Hn, ?Hp; try done;
    by apply Forall_filter_keep.
Qed.

Lemma TimersOk_added w w' lf d :
  loop w' = addedTimer (CbRemoveChild lf) d (loop w) ->
  layoutTimer (plugin w') = layoutTimer (plugin w) ->
  TimersOk w -> TimersOk w'.
Proof.
  intros Hl Hp [Hids Hlay Hdeb Hrem]. constructor; rewrite Hl, ?Hp; cbn.
  - apply Forall_app. split.
    + eapply Forall_impl; [exact Hids |]. cbn. lia.
    + apply Forall_singleton. cbn. lia.
  - intros id Hid. specialize (Hlay id Hid). lia.
  - apply Forall_app. split; [done |]. by apply Forall_singleton.
  - apply Forall_app. split; [done |]. apply Forall_singleton. cbn.
    intros _ Hid. specialize (Hlay _ Hid). lia.
Qed.

Lemma TimersOk_AtMostOneRemoval w w' :
  AtMostOneRemoval (loop w) (loop w') ->
  layoutTimer (plugin w') = layoutTimer (plugin w) ->
  TimersOk w -> TimersOk w'.
Proof.
  intros [Hl | (lf & d & Hl)] Hp Hok.
  - by apply (TimersOk_same w).
  - by apply (TimersOk_added w w' lf d).
Qed.

Lemma AtMostOneRemoval_weight l l' :
  AtMostOneRemoval l l' ->
  (timersWeight (timers l') <= timersWeight (timers l) + 1)%nat
  /\ filter (fun t => isDebounce t = true) (timers l')
     = filter (fun t => isDebounce t = true) (timers l)
  /\ now l' = now l.
Proof.
  intros [-> | (lf & d & ->)]; [repeat split; lia |].
  unfold addedTimer. cbn [timers now].
  rewrite timersWeight_app, filter_app.
  rewrite filter_cons_False by (cbn; discriminate).
  rewrite filter_nil, app_nil_r.
  split; [| done]. unfold timersWeight, weight. cbn. lia.
Qed.

Lemma TimersOk_now w x :
  TimersOk w -> TimersOk (withLoop (set_now x) w).
Proof. intros []. by constructor. Qed.

Lemma TimersOk_dequeue w t : TimersOk w -> TimersOk (dequeue t w).
Proof.
  apply (TimersOk_removed w (dequeue t w) (fun u => timerId u ≠ timerId t)); done.
Qed.

Lemma pendingDebounce_dequeue_removal w t :
  TimersOk w -> t ∈ timers (loop w) -> isDebounce t = false ->
  pendingDebounce (dequeue t w) = pendingDebounce w.
Proof.
  intros [_ _ Hdeb Hrem] Hin Ht. unfold pendingDebounce, dequeue. cbn.
  apply filter_keep. rewrite Forall_forall in *.
  intros u Hu Hud Heq. apply (Hrem t Hin Ht). rewrite <- Heq. by apply Hdeb.
Qed.

Lemma pendingDebounce_dequeue_debounce w t :
  TimersOk w -> t ∈ timers (loop w) -> isDebounce t = true ->
  pendingDebounce (dequeue t w) = [].
Proof.
  intros [_ _ Hdeb _] Hin Ht. unfold pendingDebounce, dequeue. cbn.
  apply filter_drop. rewrite Forall_forall in *.
  intros u Hu Hud Hne. apply Hne.
  pose proof (Hdeb u Hu Hud) as H1. pose proof (Hdeb t Hin Ht) as H2. congruence.
Qed.

Lemma weight_dequeue w t :
  t ∈ timers (loop w) ->
  (timersWeight (timers (loop (dequeue t w))) + weight t
   <= timersWeight (timers (loop w)))%nat.
Proof. apply timersWeight_filter. Qed.

Lemma SameConfig_refl w : SameConfig w w.
Proof. done. Qed.

Lemma SameConfig_trans w1 w2 w3 :
  SameConfig w1 w2 -> SameConfig w2 w3 -> SameConfig w1 w3.
Proof. intros [] []. split; congruence. Qed.

Lemma Footprint_SameConfig w w' : Footprint w w' -> SameConfig w w'.
Proof. intros []. by split. Qed.

(** A removal timer fires: no resolution, the debounce timers stay. *)
Lemma fire_removal w t lf :
  TimersOk w -> t ∈ timers (loop w) -> callback t = CbRemoveChild lf ->
  TimersOk (fireTimer t w)
  /\ Calls notResolution w (fireTimer t w)
  /\ SameConfig w (fireTimer t w)
  /\ pendingDebounce (fireTimer t w) = pendingDebounce w
  /\ timers (loop (fireTimer t w))
     = filter (fun u => timerId u ≠ timerId t) (timers (loop w))
  /\ (timersWeight (timers (loop (fireTimer t w)))
      < timersWeight (timers (loop w)))%nat.
Proof.
  intros Hok Hin Hcb.
  assert (Hrem : isDebounce t = false) by (unfold isDebounce; by rewrite Hcb).
  unfold fireTimer. rewrite Hcb. cbn [runCallback].
  set (w1 := call (TimerFired (timerId t)) (dequeue t w)).
  assert (Hloop : loop (removeChild lf w1) = loop (dequeue t w)).
  { by apply (SameLoop_removeChild lf (dequeue t w) w1). }
  assert (Hfp : Footprint (dequeue t w) (removeChild lf w1)).
  { apply Footprint_removeChild, Footprint_call, Footprint_refl. }
  destruct (Footprint_SameConfig _ _ Hfp) as [Hs Hl].
  split; [| split; [| split; [| split; [| split]]]].
  - apply (TimersOk_same (dequeue t w)); [done | done |]. by apply TimersOk_dequeue.
  - apply Calls_removeChild; [done |]. apply Calls_call; [done |].
    apply (Calls_same _ w w); [done | apply Calls_refl].
  - split; [by rewrite Hs | by rewrite Hl].
  - unfold pendingDebounce at 1. rewrite Hloop.
    by apply pendingDebounce_dequeue_removal.
  - by rewrite Hloop.
  - rewrite Hloop. pose proof (weight_dequeue w t Hin).
    pose proof (weight_positive t). lia.
Qed.

(** The debounce timer fires: one resolution, for the view it was set
    with. *)
Lemma fire_debounce w t v :
  TimersOk w -> t ∈ timers (loop w) -> callback t = CbPlaceGraphView v ->
  TimersOk (fireTimer t w)
  /\ (exists cs, calls (fireTimer t w)
                 = calls w ++ TimerFired (timerId t) :: PlaceGraphView v :: cs
                 /\ forallb notResolution cs = true)
  /\ SameConfig w (fireTimer t w)
  /\ pendingDebounce (fireTimer t w) = []
  /\ (timersWeight (timers (loop (fireTimer t w)))
      < timersWeight (timers (loop w)))%nat.
Proof.
  intros Hok Hin Hcb.
  assert (Hdeb : isDebounce t = true) by (unfold isDebounce; by rewrite Hcb).
  unfold fireTimer. rewrite Hcb. cbn [runCallback].
  set (w1 := call (TimerFired (timerId t)) (dequeue t w)).
  pose proof (placeGraphView_loop v w1) as Hloop.
  change (loop w1) with (loop (dequeue t w)) in Hloop.
  assert (Hfp : Footprint (dequeue t w) (placeGraphView v w1)).
  { apply Footprint_placeGraphView, Footprint_call, Footprint_refl. }
  destruct (Footprint_SameConfig _ _ Hfp) as [Hs Hl].
  destruct (AtMostOneRemoval_weight _ _ Hloop) as (Hw & Hd & _).
  split; [| split; [| split; [| split]]].
  - apply (TimersOk_AtMostOneRemoval (dequeue t w)); [done | done |].
    by apply TimersOk_dequeue.
  - destruct (placeGraphView_calls v w1) as (cs & Hcs & Hq).
    exists cs. split; [| done]. rewrite Hcs. cbn. by rewrite <- !app_assoc.
  - split; [by rewrite Hs | by rewrite Hl].
  - unfold pendingDebounce. rewrite Hd.
    by apply pendingDebounce_dequeue_debounce.
  - pose proof (weight_dequeue w t Hin) as Hwd.
    assert (weight t = 2%nat) by (unfold weight; by rewrite Hcb). lia.
Qed.

Lemma only_notResolution cs :
  forallb notResolution cs = true -> only isResolution cs = [].
Proof.
  apply only_none. intros c. unfold notResolution. by destruct (isResolution c).
Qed.

Lemma callback_cases t :
  (exists v, callback t = CbPlaceGraphView v /\ isDebounce t = true)
  \/ (exists lf, callback t = CbRemoveChild lf /\ isDebounce t = false).
Proof.
  unfold isDebounce. destruct (callback t) as [v | lf]; [left | right]; eauto.
Qed.

(** While no debounce timer is due, time passes without a resolution. *)
Lemma run_quiet (fuel : nat) (target : Z) (w : World) :
  TimersOk w ->
  Forall (fun t => isDebounce t = true -> (target < due t)%Z) (timers (loop w)) ->
  (timersWeight (timers (loop w)) < fuel)%nat ->
  exists w',
    runTimers fuel target w = Some w'
    /\ TimersOk w'
    /\ Calls notResolution w w'
    /\ SameConfig w w'
    /\ pendingDebounce w' = pendingDebounce w
    /\ now (loop w') = target.
Proof.
  revert w. induction fuel as [|fuel IH]; intros w Hok Hlate Hfuel; [lia |].
  cbn [runTimers].
  assert (Hstop : exists w',
            Some (withLoop (set_now target) w) = Some w'
            /\ TimersOk w' /\ Calls notResolution w w' /\ SameConfig w w'
            /\ pendingDebounce w' = pendingDebounce w /\ now (loop w') = target).
  { eexists. split; [done |].
    split; [by apply TimersOk_now |].
    split; [apply (Calls_same _ w w); [done | apply Calls_refl] |].
    done. }
  destruct (earliest (timers (loop w))) as [t|] eqn:E; [| exact Hstop].
  destruct (Z.leb_spec (due t) target) as [Hdue | Hdue]; [| exact Hstop].
  pose proof (earliest_elem _ _ E) as Hin.
  destruct (callback_cases t) as [(v & _ & Hd) | (lf & Hcb & _)].
  { rewrite Forall_forall in Hlate. specialize (Hlate t Hin Hd). lia. }
  destruct (fire_removal w t lf Hok Hin Hcb) as (Hok1 & Hc1 & Hs1 & Hp1 & Ht1 & Hw1).
  destruct (IH (fireTimer t w)) as (w' & Hrun & Hok' & Hc' & Hs' & Hp' & Hn');
    [done | | lia |].
  { rewrite Ht1. by apply Forall_filter_keep. }
  exists w'. split; [done |]. split; [done |].
  split; [by apply (Calls_trans _ w (fireTimer t w)) |].
  split; [by apply (SameConfig_trans w (fireTimer t w)) |].
  split; congruence.
Qed.

(** Once the pending debounce timer is due, it fires among the other due
    timers, and its resolution is the only one. *)
Lemma run_fire (fuel : nat) (target : Z) (w : World) (T : Timer) (v : nat) :
  TimersOk w ->
  pendingDebounce w = [T] ->
  callback T = CbPlaceGraphView v ->
  (due T <= target)%Z ->
  (timersWeight (timers (loop w)) < fuel)%nat ->
  exists w' cs,
    runTimers fuel target w = Some w'
    /\ TimersOk w'
    /\ calls w' = calls w ++ cs
    /\ only isResolution cs = [PlaceGraphView v]
    /\ SameConfig w w'
    /\ pendingDebounce w' = []
    /\ now (loop w') = target.
Proof.
  revert w. induction fuel as [|fuel IH]; intros w Hok Hpend Hcb Hdue Hfuel; [lia |].
  assert (HT : T ∈ timers (loop w)).
  { assert (T ∈ pendingDebounce w) as H by (rewrite Hpend; by left).
    by apply list_elem_of_filter in H as []. }
  cbn [runTimers].
  destruct (earliest (timers (loop w))) as [t|] eqn:E.
  2:{ apply earliest_nil in E. rewrite E in HT. by inversion HT. }
  pose proof (earliest_elem _ _ E) as Hin.
  pose proof (earliest_least _ _ T E HT) as Hle.
  destruct (Z.leb_spec (due t) target) as [_ | ?]; [| lia].
  destruct (callback_cases t) as [(v' & Hcb' & Hd) | (lf & Hcb' & Hd)].
  - assert (t = T) as ->.
    { assert (t ∈ pendingDebounce w) as H by (by apply list_elem_of_filter).
      rewrite Hpend in H. by apply list_elem_of_singleton in H. }
    assert (v' = v) as -> by congruence.
    destruct (fire_debounce w T v Hok HT Hcb) as (Hok1 & (cs1 & Hc1 & Hq1) & Hs1 & Hp1 & Hw1).
    destruct (run_quiet fuel target (fireTimer T w)) as (w' & Hrun & Hok' & (cs2 & Hc2 & Hq2) & Hs' & Hp' & Hn');
      [done | | lia |].
    { rewrite Forall_forall. intros u Hu Hud. exfalso.
      eapply (filter_nil_not_elem_of (fun t => isDebounce t = true)); [exact Hp1 | exact Hud | exact Hu]. }
    exists w', ([TimerFired (timerId T); PlaceGraphView v] ++ cs1 ++ cs2).
    split; [done |]. split; [done |].
    split; [rewrite Hc2, Hc1; cbn; by rewrite <- !app_assoc |].
    split.
    { rewrite only_app, only_app.
      rewrite (only_notResolution cs1 Hq1), (only_notResolution cs2 Hq2). done. }
    split; [by apply (SameConfig_trans w (fireTimer T w)) |].
    split; congruence.
  - destruct (fire_removal w t lf Hok Hin Hcb') as (Hok1 & (cs1 & Hc1 & Hq1) & Hs1 & Hp1 & Ht1 & Hw1).
    destruct (IH (fireTimer t w)) as (w' & cs2 & Hrun & Hok' & Hc2 & Hr2 & Hs' & Hp' & Hn');
      [done | congruence | done | done | lia |].
    exists w', (cs1 ++ cs2).
    split; [done |]. split; [done |].
    split; [rewrite Hc2, Hc1; by rewrite <- app_assoc |].
    split; [rewrite only_app, (only_notResolution cs1 Hq1); done |].
    split; [by apply (SameConfig_trans w (fireTimer t w)) |].
    done.
Qed.

Lemma elapse_fuel d w :
  elapse d w
  = runTimers (S (timersWeight (timers (loop w)))) (now (loop w) + Z.max 0 d)%Z w.
Proof. done. Qed.

(** Whatever timer fires, the invariant is kept and the pending work
    shrinks. *)
Lemma fire_any w t :
  TimersOk w -> t ∈ timers (loop w) ->
  TimersOk (fireTimer t w)
  /\ (timersWeight (timers (loop (fireTimer t w)))
      < timersWeight (timers (loop w)))%nat.
Proof.
  intros Hok Hin. destruct (callback_cases t) as [(v & Hcb & _) | (lf & Hcb & _)].
  - by destruct (fire_debounce w t v Hok Hin Hcb) as (? & _ & _ & _ & ?).
  - by destruct (fire_removal w t lf Hok Hin Hcb) as (? & _ & _ & _ & _ & ?).
Qed.

(** The event loop does not run out of fuel. *)
Lemma runTimers_total (fuel : nat) (target : Z) (w : World) :
  TimersOk w ->
  (timersWeight (timers (loop w)) < fuel)%nat ->
  exists w', runTimers fuel target w = Some w' /\ TimersOk w'.
Proof.
  revert w. induction fuel as [|fuel IH]; intros w Hok Hfuel; [lia |].
  cbn [runTimers].
  destruct (earliest (timers (loop w))) as [t|] eqn:E.
  2:{ eexists. split; [done | by apply TimersOk_now]. }
  destruct (due t <=? target)%Z.
  2:{ eexists. split; [done | by apply TimersOk_now]. }
  destruct (fire_any w t Hok (earliest_elem _ _ E)) as [Hok' Hw].
  apply IH; [done | lia].
Qed.

Lemma elapse_total (d : Z) (w : World) :
  TimersOk w -> exists w', elapse d w = Some w' /\ TimersOk w'.
Proof. intros Hok. rewrite elapse_fuel. apply runTimers_total; [done | lia]. Qed.

Lemma TimersOk_placeGraphView (view : nat) (w : World) :
  TimersOk w -> TimersOk (placeGraphView view w).
Proof.
  apply TimersOk_AtMostOneRemoval; [apply placeGraphView_loop |].
  apply (fp_layoutTimer w), Footprint_placeGraphView, Footprint_refl.
Qed.

(** *** The layout-change handler *)

(** A trigger cancels the pending debounce timer, if any, and sets a new
    one: afterwards exactly one is pending, and [_layoutTimer] is its id. *)
Lemma trigger_spec (view : nat) (w : World) :
  TimersOk w ->
  TimersOk (trigger view w)
  /\ pendingDebounce (trigger view w) = [debounceTimer w view]
  /\ layoutTimer (plugin (trigger view w)) = Some (nextTimer (loop w))
  /\ Calls notResolution w (trigger view w)
  /\ settings (plugin (trigger view w)) = settings (plugin w)
  /\ now (loop (trigger view w)) = now (loop w)
  /\ pendingRemoval (trigger view w) = pendingRemoval w.
Proof.
  intros [Hids Hlay Hdeb Hrem].
  unfold trigger, onLayoutChange. cbn [activeView host withHost set_activeView].
  change (plugin (withHost (set_activeView (Some view)) w)) with (plugin w).
  unfold pendingDebounce, pendingRemoval, debounceTimer, quietWindow.
  rewrite Forall_forall in Hids, Hdeb, Hrem.
  destruct (layoutTimer (plugin w)) as [id|] eqn:Hlt; cbn.
  - split; [| split; [| split; [| split; [| split; [| split]]]]]; try done.
    + constructor; cbn.
      * apply Forall_app. split; [| apply Forall_singleton; cbn; lia].
        apply Forall_forall. intros u [_ Hu]%list_elem_of_filter.
        specialize (Hids u Hu). lia.
      * intros ? [= <-]. lia.
      * apply Forall_app. split; [| by apply Forall_singleton].
        apply Forall_forall. intros u [Hne Hu]%list_elem_of_filter Hud.
        specialize (Hdeb u Hu Hud). congruence.
      * apply Forall_app. split; [| by apply Forall_singleton].
        apply Forall_forall. intros u [Hne Hu]%list_elem_of_filter Hud [= Heq].
        specialize (Hids u Hu). lia.
    + rewrite filter_app, filter_drop.
      * rewrite filter_cons_True by done. by rewrite filter_nil.
      * apply Forall_forall. intros u Hu Hud Hne. specialize (Hdeb u Hu Hud). congruence.
    + exists [ClearTimeout id;
              SetTimeout (nextTimer (loop w)) (CbPlaceGraphView view)
                (default Settings.DEFAULT_layoutDebounceMs
                   (Settings.layoutDebounceMs (settings (plugin w))))].
      split; [| done]. cbn. by rewrite <- ?app_assoc.
    + rewrite filter_app, filter_keep.
      * rewrite filter_cons_False by (cbn; discriminate).
        by rewrite filter_nil, app_nil_r.
      * apply Forall_forall. intros u Hu Hud Heq. apply (Hrem u Hu Hud). congruence.
  - split; [| split; [| split; [| split; [| split; [| split]]]]]; try done.
    + constructor; cbn.
      * apply Forall_app. split; [| apply Forall_singleton; cbn; lia].
        apply Forall_forall. intros u Hu. specialize (Hids u Hu). lia.
      * intros ? [= <-]. lia.
      * apply Forall_app. split; [| by apply Forall_singleton].
        apply Forall_forall. intros u Hu Hud. by specialize (Hdeb u Hu Hud).
      * apply Forall_app. split; [| by apply Forall_singleton].
        apply Forall_forall. intros u Hu Hud [= Heq].
        specialize (Hids u Hu). lia.
    + rewrite filter_app, filter_cons_True, filter_nil by done.
      replace (filter _ (timers (loop w))) with (@nil Timer); [done |].
      symmetry. induction (timers (loop w)) as [|u ts IH]; [done |].
      rewrite filter_cons_False.
      * apply IH; intros; [apply Hids | apply Hdeb | apply Hrem]; by try right.
      * intros Hud. by specialize (Hdeb u ltac:(by left) Hud).
    + exists [SetTimeout (nextTimer (loop w)) (CbPlaceGraphView view)
                (default Settings.DEFAULT_layoutDebounceMs
                   (Settings.layoutDebounceMs (settings (plugin w))))].
      by split.
    + rewrite filter_app, filter_cons_False by (cbn; discriminate).
      by rewrite filter_nil, app_nil_r.
Qed.

Lemma trigger_Armed (view : nat) (w : World) :
  TimersOk w -> Armed (trigger view w) view.
Proof.
  intros Hok. destruct (trigger_spec view w Hok) as (Hok' & Hp & _ & _ & Hs & Hn & _).
  split; [done |]. exists (nextTimer (loop w)).
  rewrite Hp. unfold debounceTimer, quietWindow. by rewrite Hs, Hn.
Qed.

Lemma lastView_cons (first : nat) (d : Z) (view : nat) (rest : list (Z * nat)) :
  lastView first ((d, view) :: rest) = lastView view rest.
Proof.
  unfold lastView. cbn [map snd]. rewrite last_cons.
  by destruct (last (map snd rest)).
Qed.

(** Less than a quiet window after a trigger nothing is resolved and the
    debounce timer stays pending. *)
Lemma timerDelay_exact (d : Z) : (0 <= d <= maxDelay)%Z -> timerDelay d = d.
Proof.
  unfold maxDelay, timerDelay, toInt32. intros H.
  rewrite Z.mod_small by lia. lia.
Qed.

Lemma timerDelay_nonneg (d : Z) : (0 <= timerDelay d)%Z.
Proof. unfold timerDelay. lia. Qed.

Lemma elapse_within_window (d : Z) (w : World) (view : nat) :
  Armed w view ->
  (quietWindow w <= maxDelay)%Z ->
  (0 <= d < quietWindow w)%Z ->
  exists w',
    elapse d w = Some w'
    /\ TimersOk w'
    /\ Calls notResolution w w'
    /\ SameConfig w w'.
Proof.
  intros [Hok (id & Hp)] Hmax Hd. rewrite elapse_fuel.
  destruct (run_quiet (S (timersWeight (timers (loop w))))
              (now (loop w) + Z.max 0 d)%Z w) as (w' & Hrun & Hok' & Hc & Hs & _);
    [done | | lia |].
  - apply Forall_forall. intros t Ht Htd.
    assert (t ∈ pendingDebounce w) as Hin by (by apply list_elem_of_filter).
    rewrite Hp in Hin. apply list_elem_of_singleton in Hin as ->. cbn.
    rewrite timerDelay_exact by lia. lia.
  - by exists w'.
Qed.

(** The triggers of a burst after the first one: still no resolution, and
    the pending debounce timer is that of the last trigger. *)
Lemma burstRest_spec (rest : list (Z * nat)) (w : World) (view : nat) :
  Armed w view ->
  (quietWindow w <= maxDelay)%Z ->
  Forall (fun dv => (0 <= fst dv < quietWindow w)%Z) rest ->
  exists w',
    burstRest rest w = Some w'
    /\ Armed w' (lastView view rest)
    /\ Calls notResolution w w'
    /\ quietWindow w' = quietWindow w.
Proof.
  revert w view. induction rest as [|[d v] rest IH]; intros w view Harmed Hmax Hgaps.
  - exists w. split; [done |]. split; [done |]. split; [apply Calls_refl | done].
  - apply Forall_cons in Hgaps as [Hd Hgaps]. cbn [fst] in Hd.
    destruct (elapse_within_window d w view Harmed Hmax Hd)
      as (w1 & Hel & Hok1 & Hc1 & Hs1).
    destruct (trigger_spec v w1 Hok1) as (_ & _ & _ & Hc2 & Hs2 & _).
    assert (Hq : quietWindow (trigger v w1) = quietWindow w).
    { unfold quietWindow. destruct Hs1 as [Hs1 _]. by rewrite Hs2, Hs1. }
    destruct (IH (trigger v w1) v) as (w' & Hrun & Harmed' & Hc' & Hq').
    + by apply trigger_Armed.
    + by rewrite Hq.
    + by rewrite Hq.
    + exists w'. cbn [burstRest]. rewrite Hel, lastView_cons.
      split; [done |]. split; [done |]. split; [| congruence].
      apply (Calls_trans _ w w1); [done |].
      by apply (Calls_trans _ w1 (trigger v w1)).
Qed.

(** A layout change that finds no active markdown view returns before it
    touches the timer. *)
Lemma onLayoutChange_no_view (w : World) :
  activeView (host w) = None -> onLayoutChange w = w.
Proof. unfold onLayoutChange. by intros ->. Qed.


Lemma TimersOk_noTimers (w : World) :
  timers (loop w) = [] -> layoutTimer (plugin w) = None -> TimersOk w.
Proof. intros Ht Hl. constructor; rewrite ?Ht, ?Hl; done. Qed.



(** *** Teardown *)

Lemma removeChild_absent lf w : lf ∉ leafParent (host w) -> removeChild lf w = w.
Proof. intros H. unfold removeChild. by rewrite bool_decide_eq_false_2. Qed.

Lemma detach_spec gv w :
  plugin (detach gv w) = plugin w
  /\ loop (detach gv w) = loop w
  /\ leafParent (host (detach gv w)) ⊆ leafParent (host w)
  /\ (exists cs, calls (detach gv w) = calls w ++ cs)
  /\ forall g, object w gv = Some g ->
               LeafDetach (leaf g) ∈ calls (detach gv w)
               /\ leaf g ∉ leafParent (host (detach gv w)).
Proof.
  unfold detach. destruct (object w gv) as [g|] eqn:E.
  2:{ split; [done |]. split; [done |]. split; [done |].
      split; [exists []; by rewrite app_nil_r | done]. }
  destruct (node g) as [n|]; cbn.
  - split; [done |]. split; [done |]. split; [set_solver |].
    split; [eexists; by rewrite <- app_assoc |].
    intros ? [= <-]. split; [set_solver | set_solver].
  - split; [done |]. split; [done |]. split; [set_solver |].
    split; [by eexists |].
    intros ? [= <-]. split; [set_solver | set_solver].
Qed.

Lemma detach_all_spec pool w :
  let w' := fold_left (fun w gv => detach gv w) pool w in
  plugin w' = plugin w
  /\ loop w' = loop w
  /\ leafParent (host w') ⊆ leafParent (host w)
  /\ (exists cs, calls w' = calls w ++ cs)
  /\ forall gv g, gv ∈ pool -> object w gv = Some g ->
                  LeafDetach (leaf g) ∈ calls w'
                  /\ leaf g ∉ leafParent (host w').
Proof.
  revert w. induction pool as [|gv pool IH]; intros w; cbn [fold_left].
  - split; [done |]. split; [done |]. split; [done |].
    split; [exists []; by rewrite app_nil_r |]. intros ? ? H. by inversion H.
  - destruct (detach_spec gv w) as (Hp1 & Hl1 & Hs1 & (cs1 & Hc1) & Hd1).
    destruct (IH (detach gv w)) as (Hp2 & Hl2 & Hs2 & (cs2 & Hc2) & Hd2).
    cbn zeta in *.
    split; [congruence |]. split; [congruence |]. split; [set_solver |].
    split; [exists (cs1 ++ cs2); by rewrite Hc2, Hc1, app_assoc |].
    intros gv' g Hin Hobj. apply elem_of_cons in Hin as [-> | Hin].
    + destruct (Hd1 g Hobj) as [Hcall Hgone]. split; [| set_solver].
      rewrite Hc2. apply elem_of_app. by left.
    + apply (Hd2 gv' g); [done |]. unfold object in *. by rewrite Hp1.
Qed.

(** After teardown time passes without any resolution. *)
Lemma elapse_without_debounce (d : Z) (w : World) :
  TimersOk w -> pendingDebounce w = [] ->
  exists w', elapse d w = Some w'
             /\ Calls notResolution w w'
             /\ pendingDebounce w' = [].
Proof.
  intros Hok Hp. rewrite elapse_fuel.
  destruct (run_quiet (S (timersWeight (timers (loop w))))
              (now (loop w) + Z.max 0 d)%Z w) as (w' & Hrun & _ & Hc & _ & Hp' & _);
    [done | | lia |].
  - apply Forall_forall. intros t Ht Htd. exfalso.
    eapply (filter_nil_not_elem_of (fun t => isDebounce t = true)); [exact Hp | exact Htd | exact Ht].
  - exists w'. split; [done |]. split; [done |]. congruence.
Qed.




End TimerFacts.

(* ===================================================================== *)
(** ** Pattern lines: trimming, comments, negations, the text area *)
(* ===================================================================== *)

Section TrimFacts.

Lemma trimStart_cases (s : jsstring) :
  trimStart s = [] \/ exists c s', trimStart s = c :: s' /\ isTrimmed c = false.
Proof.
  induction s as [|c s IH]; [by left |].
  cbn. destruct (isTrimmed c) eqn:E; [exact IH |].
  right. by exists c, s.
Qed.

Lemma trimStart_head (c : N) (s : jsstring) :
  isTrimmed c = false -> trimStart (c :: s) = c :: s.
Proof. intros H. cbn. by rewrite H. Qed.

Lemma trimStart_idem (s : jsstring) : trimStart (trimStart s) = trimStart s.
Proof.
  destruct (trimStart_cases s) as [-> | (c & s' & -> & H)]; [done |].
  by apply trimStart_head.
Qed.

Lemma trimStart_snoc (l : jsstring) (c : N) :
  isTrimmed c = false -> trimStart (l ++ [c]) = trimStart l ++ [c].
Proof.
  intros H. induction l as [|x l IH]; cbn.
  - by rewrite H.
  - by destruct (isTrimmed x).
Qed.

(** The end of a string that starts with a code unit [trim] keeps can be
    trimmed without touching its start. *)
Lemma trimEnd_head (c : N) (s : jsstring) :
  isTrimmed c = false -> exists s', trimEnd (c :: s) = c :: s'.
Proof.
  intros H. unfold trimEnd. cbn [rev].
  rewrite trimStart_snoc by done. rewrite rev_app_distr. cbn. by eexists.
Qed.

Lemma trimEnd_idem (s : jsstring) : trimEnd (trimEnd s) = trimEnd s.
Proof. unfold trimEnd. by rewrite rev_involutive, trimStart_idem. Qed.

Lemma trim_cases (s : jsstring) :
  trim s = [] \/ exists c s', trim s = c :: s' /\ isTrimmed c = false.
Proof.
  unfold trim. destruct (trimStart_cases s) as [-> | (c & s' & -> & H)].
  - by left.
  - right. destruct (trimEnd_head c s' H) as [s'' ->]. by exists c, s''.
Qed.

Lemma trim_idem (s : jsstring) : trim (trim s) = trim s.
Proof.
  destruct (trim_cases s) as [E | (c & s' & E & H)].
  - by rewrite E.
  - unfold trim at 1. rewrite E, trimStart_head by done.
    rewrite <- E. unfold trim. apply trimEnd_idem.
Qed.

End TrimFacts.

Section LineFacts.
Import Ignore IgnoreSpec.

Lemma matchIgnore_fold (path : jsstring) (patterns : list jsstring) :
  matchIgnore path patterns = fold_left (loopBody path) patterns false.
Proof. by destruct patterns. Qed.

Lemma readLine_trim (raw : jsstring) : readLine (trim raw) = readLine raw.
Proof. unfold readLine. by rewrite trim_idem. Qed.

Lemma loopBody_trim (path : jsstring) (ignored : bool) (raw : jsstring) :
  loopBody path ignored (trim raw) = loopBody path ignored raw.
Proof. by rewrite !loopBody_readLine, readLine_trim. Qed.

Lemma fold_loopBody_trim (path : jsstring) (patterns : list jsstring) (b : bool) :
  fold_left (loopBody path) (map trim patterns) b
  = fold_left (loopBody path) patterns b.
Proof.
  revert b. induction patterns as [|raw l IH]; intros b; [done |].
  cbn [map fold_left]. by rewrite loopBody_trim, IH.
Qed.

(** The lines [matchIgnore] passes over with [continue]. *)
Lemma loopBody_continue (path : jsstring) (ignored : bool) (raw : jsstring) :
  truthy (trim raw) = false
  \/ startsWith (trim raw) [c_hash] = true
  \/ (startsWith (trim raw) [c_bang] = true
      /\ truthy (trim (slice1 (trim raw))) = false) ->
  loopBody path ignored raw = ignored.
Proof.
  intros H. unfold loopBody.
  destruct (truthy raw) eqn:Hraw; [| done]. cbn [negb].
  destruct H as [H | [H | [H1 H2]]].
  - by rewrite H.
  - rewrite H. by rewrite orb_true_r.
  - destruct (negb (truthy (trim raw)) || startsWith (trim raw) [c_hash]); [done |].
    rewrite H1. by rewrite H2.
Qed.

(** A negated line never turns the running state to [true]. *)
Lemma loopBody_negated (path : jsstring) (ignored : bool) (raw : jsstring) :
  startsWith (trim raw) [c_bang] = true ->
  loopBody path ignored raw = true -> ignored = true.
Proof.
  intros H. unfold loopBody.
  destruct (negb (truthy raw)); [done |].
  destruct (negb (truthy (trim raw)) || startsWith (trim raw) [c_hash]); [done |].
  rewrite H.
  destruct (negb (truthy (trim (slice1 (trim raw))))); [done |].
  by destruct (if includes _ _ then _ else _).
Qed.

Lemma Wildcard_line_terminators (p s : jsstring) (c : N) :
  Wildcard p s -> c ∈ s -> isLineTerminator c = true -> c ∈ p.
Proof.
  intros HW. induction HW as [| a p s Ha HW IH | p s HW IH | x p s Hx HW IH];
    intros Hin Hlt.
  - by apply elem_of_nil in Hin.
  - apply elem_of_cons in Hin as [-> | Hin]; [by left | right; by apply IH].
  - right. by apply IH.
  - apply elem_of_cons in Hin as [-> | Hin]; [| by apply IH].
    unfold dot in Hx. rewrite Hlt in Hx. discriminate.
Qed.

(** X1.  [toRegExp] always yields a regular expression: whatever the
    pattern, escaping makes the source it builds well formed, so its
    [catch] is never taken.  The expression matches a path exactly when the
    pattern, read as an anchored wildcard pattern in which every code unit
    but the star stands for itself, matches it; and a star never runs over a
    line terminator: a line terminator of a matched path is one of the
    pattern. *)
Theorem toRegExp_always_compiles (pattern : jsstring) :
  exists re,
    toRegExp pattern = Some re
    /\ (forall path, test re path = true <-> Wildcard pattern path)
    /\ (forall path c,
          test re path = true -> c ∈ path -> isLineTerminator c = true ->
          c ∈ pattern).
Proof.
  exists (map token pattern). split; [apply toRegExp_tokens |].
  assert (H : forall path, test (map token pattern) path = true
                           <-> Wildcard pattern path).
  { intros path. unfold test. rewrite matches_tokens. apply wildcardb_Wildcard. }
  split; [exact H |].
  intros path c Ht. apply Wildcard_line_terminators. by apply H.
Qed.

(** X2.  Blank lines, comment lines and bare negation marks can stand
    anywhere in the pattern list, and white space around a line is
    immaterial: trimming every line, or putting in a line that is empty
    after trimming, starts with [#], or is a [!] followed by nothing but
    white space, leaves the verdict on every path as it was. *)
Theorem matchIgnore_skips_comments (path : jsstring)
    (before after : list jsstring) (raw : jsstring) :
  truthy (trim raw) = false
  \/ startsWith (trim raw) [c_hash] = true
  \/ (startsWith (trim raw) [c_bang] = true
      /\ truthy (trim (slice1 (trim raw))) = false) ->
  matchIgnore path (before ++ raw :: after) = matchIgnore path (before ++ after)
  /\ matchIgnore path (map trim (before ++ after))
     = matchIgnore path (before ++ after).
Proof.
  intros H. rewrite !matchIgnore_fold. split.
  - rewrite !fold_left_app. cbn [fold_left]. by rewrite loopBody_continue.
  - apply fold_loopBody_trim.
Qed.

Lemma matchIgnore_skips_comments_witness :
  matchIgnore (js "Archive/x.md")
    ([js "Archive/*"] ++ js "  # kept notes" :: [js "!Archive/keep.md"])
  = matchIgnore (js "Archive/x.md") ([js "Archive/*"] ++ [js "!Archive/keep.md"])
  /\ matchIgnore (js "Archive/x.md")
       (map trim ([js "Archive/*"] ++ [js "!Archive/keep.md"]))
     = matchIgnore (js "Archive/x.md") ([js "Archive/*"] ++ [js "!Archive/keep.md"]).
Proof.
  apply (matchIgnore_skips_comments (js "Archive/x.md") [js "Archive/*"]
           [js "!Archive/keep.md"] (js "  # kept notes")).
  right. left. reflexivity.
Defined.

(** X3.  Negations alone ignore nothing: when every line of the list is,
    after trimming, empty, a comment or a [!] line, no path is ignored. *)
Theorem matchIgnore_only_negations (path : jsstring) (patterns : list jsstring) :
  Forall (fun raw => truthy (trim raw) = false
                     \/ startsWith (trim raw) [c_hash] = true
                     \/ startsWith (trim raw) [c_bang] = true) patterns ->
  matchIgnore path patterns = false.
Proof.
  intros H. rewrite matchIgnore_fold.
  assert (G : forall b, fold_left (loopBody path) patterns b = true -> b = true).
  { induction H as [|raw l Hraw _ IH]; intros b; [done |].
    cbn [fold_left]. intros Hf. specialize (IH _ Hf).
    destruct Hraw as [Hraw | [Hraw | Hraw]].
    - rewrite loopBody_continue in IH by (by left). done.
    - rewrite loopBody_continue in IH by (right; by left). done.
    - by apply (loopBody_negated path b raw). }
  destruct (fold_left (loopBody path) patterns false) eqn:E; [| done].
  by apply G in E.
Qed.

Lemma matchIgnore_only_negations_witness :
  matchIgnore (js "Archive/keep.md")
    [js "# rules"; js "!Archive/*"; js "  "; js "!Archive/keep.md"] = false.
Proof.
  apply (matchIgnore_only_negations (js "Archive/keep.md")
           [js "# rules"; js "!Archive/*"; js "  "; js "!Archive/keep.md"]).
  apply Forall_cons_2; [right; left; reflexivity |].
  apply Forall_cons_2; [right; right; reflexivity |].
  apply Forall_cons_2; [left; reflexivity |].
  apply Forall_cons_2; [right; right; reflexivity |].
  apply Forall_nil_2.
Defined.

End LineFacts.

Section TextAreaFacts.
Import Js Plugin SettingTab.

Lemma split_nonempty (sep : N) (s : jsstring) : split sep s <> [].
Proof.
  destruct s as [|c s]; cbn; [done |].
  destruct (c =? sep); [done |]. by destruct (split sep s).
Qed.

Lemma join_cons (sep : N) (line : jsstring) (lines : list jsstring) :
  lines <> [] -> join sep (line :: lines) = line ++ sep :: join sep lines.
Proof. by destruct lines. Qed.

Lemma join_split (sep : N) (s : jsstring) : join sep (split sep s) = s.
Proof.
  induction s as [|c s IH]; [done |].
  cbn [split]. destruct (c =? sep) eqn:E.
  - apply N.eqb_eq in E as ->.
    rewrite join_cons by apply split_nonempty. cbn. by rewrite IH.
  - pose proof (split_nonempty sep s) as Hne.
    destruct (split sep s) as [|line lines]; [done |].
    destruct lines as [|l2 lines]; cbn in *; by rewrite <- IH.
Qed.

Lemma split_line (sep : N) (line : jsstring) :
  sep ∉ line -> split sep line = [line].
Proof.
  induction line as [|c line IH]; intros H; [done |].
  cbn. apply not_elem_of_cons in H as [Hc H].
  destruct (c =? sep) eqn:E; [apply N.eqb_eq in E; congruence |].
  by rewrite IH.
Qed.

Lemma split_app (sep : N) (line rest : jsstring) :
  sep ∉ line -> split sep (line ++ sep :: rest) = line :: split sep rest.
Proof.
  induction line as [|c line IH]; intros H; cbn.
  - by rewrite N.eqb_refl.
  - apply not_elem_of_cons in H as [Hc H].
    destruct (c =? sep) eqn:E; [apply N.eqb_eq in E; congruence |].
    by rewrite IH.
Qed.

Lemma split_join (sep : N) (lines : list jsstring) :
  lines <> [] -> Forall (fun line => sep ∉ line) lines ->
  split sep (join sep lines) = lines.
Proof.
  intros Hne H. induction H as [|line lines Hl H IH]; [done |].
  destruct lines as [|l2 lines].
  - cbn. by apply split_line.
  - rewrite join_cons by done. rewrite split_app by done. by rewrite IH.
Qed.

Lemma ignoreLines_onIgnoreChange (value : jsstring) (w : World) :
  ignoreLines (onIgnoreChange value w) = split c_lf value.
Proof.
  unfold onIgnoreChange, ignoreLines. cbn. by rewrite lookup_insert_eq.
Qed.

(** X4.  The ignore text area keeps the text as typed: after [onChange]
    stores [value.split('\n')], the text the tab shows next,
    [ignore.join('\n')], is [value] again, and the setting holds one line
    per line of the text, none of them containing a line feed.  The other
    settings are not touched. *)
Theorem ignore_text_round_trip (value : jsstring) (w : World) :
  ignoreText (onIgnoreChange value w) = value
  /\ ignoreLines (onIgnoreChange value w) = split c_lf value
  /\ Forall (fun line => c_lf ∉ line) (ignoreLines (onIgnoreChange value w))
  /\ Settings.set_ignore (Settings.ignore (settings (plugin w)))
       (settings (plugin (onIgnoreChange value w)))
     = settings (plugin w).
Proof.
  unfold ignoreText. rewrite ignoreLines_onIgnoreChange.
  split; [apply join_split |]. split; [done |]. split.
  - generalize c_lf. intros sep. induction value as [|c s IH]; cbn.
    + repeat constructor. apply not_elem_of_nil.
    + destruct (c =? sep) eqn:E.
      * constructor; [apply not_elem_of_nil | done].
      * destruct (split sep s) as [|line lines].
        -- repeat constructor. apply not_elem_of_cons. split; [| apply not_elem_of_nil].
           intros ->. by rewrite N.eqb_refl in E.
        -- apply Forall_cons in IH as [Hl IH]. constructor; [| done].
           apply not_elem_of_cons. split; [| done].
           intros ->. by rewrite N.eqb_refl in E.
  - unfold onIgnoreChange. cbn. by destruct (settings (plugin w)).
Qed.

(** X5.  Showing the ignore setting and storing the text back changes no
    verdict: for a list whose lines contain no line feed, the lines stored
    by [onChange] from the text shown ignore exactly the paths the list
    ignored.  (For a non-empty list the stored lines are the same lines; the
    empty list comes back as one empty line, which ignores nothing.) *)
Theorem ignore_resave_keeps_verdicts (w : World) (path : jsstring) :
  Forall (fun line => c_lf ∉ line) (ignoreLines w) ->
  Ignore.matchIgnore path (ignoreLines (onIgnoreChange (ignoreText w) w))
  = Ignore.matchIgnore path (ignoreLines w)
  /\ (ignoreLines w <> [] ->
      ignoreLines (onIgnoreChange (ignoreText w) w) = ignoreLines w).
Proof.
  intros H. rewrite ignoreLines_onIgnoreChange. unfold ignoreText.
  destruct (ignoreLines w) as [|line lines] eqn:E.
  - split; [reflexivity | done].
  - rewrite split_join by done. done.
Qed.

Lemma ignore_resave_keeps_verdicts_witness :
  Ignore.matchIgnore (js "Archive/x.md")
    (ignoreLines
       (onIgnoreChange
          (ignoreText (Sample.fresh Sample.defaults
                         [js "Archive/*"; js "!Archive/keep.md"]
                         (Sample.twoPanes preview)))
          (Sample.fresh Sample.defaults [js "Archive/*"; js "!Archive/keep.md"]
             (Sample.twoPanes preview))))
  = Ignore.matchIgnore (js "Archive/x.md")
      (ignoreLines (Sample.fresh Sample.defaults
                      [js "Archive/*"; js "!Archive/keep.md"]
                      (Sample.twoPanes preview))).
Proof.
  refine (proj1 (ignore_resave_keeps_verdicts
                   (Sample.fresh Sample.defaults
                      [js "Archive/*"; js "!Archive/keep.md"]
                      (Sample.twoPanes preview))
                   (js "Archive/x.md") _)).
  unfold ignoreLines. cbn [Sample.fresh plugin settings Settings.ignore
                            Sample.defaults arrays].
  rewrite lookup_singleton_eq. cbn [default].
  apply Forall_cons_2; [| apply Forall_cons_2; [| apply Forall_nil_2]];
    apply (bool_decide_unpack _); vm_compute; exact I.
Defined.

End TextAreaFacts.

(* ===================================================================== *)
(** ** The banner height and the user presets *)
(* ===================================================================== *)

Section HeightFacts.
Import Js Plugin Props Frames BannerHeight SettingTab.

Lemma isDigit_range (c : N) : isDigit c = true <-> 48 <= c <= 57.
Proof.
  unfold isDigit. rewrite andb_true_iff, N.leb_le, N.leb_le. done.
Qed.

Lemma isDigit_not_trimmed (c : N) : isDigit c = true -> isTrimmed c = false.
Proof.
  intros H%isDigit_range.
  unfold isTrimmed, isWhiteSpace, isLineTerminator.
  repeat match goal with
         | |- context [?a =? ?b] =>
           destruct (N.eqb_spec a b); [lia |]
         | |- context [?a <=? ?b] =>
           destruct (N.leb_spec a b); [lia |]
         end.
  reflexivity.
Qed.

(** [skipDigits] splits a string into its leading digits and the rest,
    which does not start with a digit. *)
Lemma skipDigits_split (s : jsstring) :
  exists ds, s = ds ++ skipDigits s /\ forallb isDigit ds = true.
Proof.
  induction s as [|c s (ds & Hs & Hd)]; [by exists [] |].
  cbn. destruct (isDigit c) eqn:E.
  - exists (c :: ds). cbn. rewrite E. split; [by f_equal | done].
  - by exists [].
Qed.

Lemma skipDigits_app (ds rest : jsstring) :
  forallb isDigit ds = true -> skipDigits (ds ++ rest) = skipDigits rest.
Proof.
  induction ds as [|c ds IH]; [done |]. cbn.
  intros [Hc Hd]%andb_true_iff. rewrite Hc. by apply IH.
Qed.

Lemma skipDigits_digits (ds : jsstring) :
  forallb isDigit ds = true -> skipDigits ds = [].
Proof.
  intros H. rewrite <- (app_nil_r ds). by rewrite skipDigits_app.
Qed.

(** The strings [isPlainNumber] accepts are those of the regular
    expression: one or more digits, or one or more digits, a dot and one or
    more digits. *)
Lemma isPlainNumber_spec (raw : jsstring) :
  isPlainNumber raw = true <->
  exists int, int <> [] /\ forallb isDigit int = true
              /\ (raw = int
                  \/ exists frac, frac <> [] /\ forallb isDigit frac = true
                                  /\ raw = int ++ ch "." :: frac).
Proof.
  split.
  - unfold isPlainNumber. destruct raw as [|c s]; [done |].
    intros [Hc H]%andb_true_iff.
    destruct (skipDigits_split (c :: s)) as (ds & Hs & Hd).
    assert (Hne : ds <> []).
    { intros ->. cbn [app] in Hs. cbn in Hs. rewrite Hc in Hs.
      cbn in H. rewrite Hc in H.
      assert (length (c :: s) = length (skipDigits s)) as Hl by (by rewrite Hs at 1).
      clear -Hl. exfalso. revert c Hl.
      induction s as [|x s IH]; intros c; cbn; [lia |].
      destruct (isDigit x); cbn; [| lia].
      intros Hl. assert (length s < length (skipDigits s))%nat as Hlt by lia.
      clear -Hlt. induction s as [|y s IH]; cbn in *; [lia |].
      destruct (isDigit y); cbn in *; lia. }
    exists ds. split; [done |]. split; [done |].
    destruct (skipDigits (c :: s)) as [|d frac] eqn:E.
    + left. by rewrite app_nil_r in Hs.
    + right. apply andb_true_iff in H as [Hdot Hf].
      apply N.eqb_eq in Hdot as ->.
      unfold digitsOnly in Hf. apply andb_true_iff in Hf as [Ht Hf].
      exists frac. split; [by destruct frac |]. done.
  - intros (int & Hne & Hd & [-> | (frac & Hfne & Hf & ->)]).
    + unfold isPlainNumber. destruct int as [|c int]; [done |].
      rewrite skipDigits_digits by done.
      cbn in Hd. apply andb_true_iff in Hd as [-> _]. done.
    + unfold isPlainNumber. destruct int as [|c int]; [done |].
      change ((c :: int) ++ ch "." :: frac) with (c :: (int ++ ch "." :: frac)).
      change (c :: (int ++ ch "." :: frac)) with ((c :: int) ++ ch "." :: frac) at 2.
      rewrite skipDigits_app by done.
      cbn in Hd. apply andb_true_iff in Hd as [-> _].
      change (skipDigits (ch "." :: frac)) with (ch "." :: frac).
      cbv beta iota. rewrite N.eqb_refl. unfold digitsOnly. rewrite Hf.
      by destruct frac.
Qed.

Lemma isPlainNumber_chars (raw : jsstring) (c : N) :
  isPlainNumber raw = true -> c ∈ raw -> isDigit c = true \/ c = ch ".".
Proof.
  intros (int & _ & Hd & H)%isPlainNumber_spec Hin.
  rewrite forallb_forall in Hd.
  destruct H as [-> | (frac & _ & Hf & ->)].
  - left. apply Hd. by apply list_elem_of_In.
  - rewrite forallb_forall in Hf.
    apply elem_of_app in Hin as [Hin | Hin].
    + left. apply Hd. by apply list_elem_of_In.
    + apply elem_of_cons in Hin as [-> | Hin]; [by right |].
      left. apply Hf. by apply list_elem_of_In.
Qed.

Lemma isPlainNumber_head (raw : jsstring) :
  isPlainNumber raw = true ->
  exists c s, raw = c :: s /\ isDigit c = true.
Proof.
  unfold isPlainNumber. destruct raw as [|c s]; [done |].
  intros [Hc _]%andb_true_iff. by exists c, s.
Qed.

Lemma trim_with_unit (raw : jsstring) :
  isPlainNumber raw = true -> trim (raw ++ js "vh") = raw ++ js "vh".
Proof.
  intros (c & s & -> & Hc)%isPlainNumber_head.
  unfold trim. cbn [app]. rewrite trimStart_head by by apply isDigit_not_trimmed.
  unfold trimEnd. change (c :: s ++ js "vh") with ((c :: s) ++ js "vh").
  rewrite rev_app_distr. cbn [js list_ascii_of_string map rev app].
  rewrite trimStart_head by reflexivity.
  cbn [rev]. rewrite rev_app_distr, rev_involutive. cbn.
  by rewrite <- app_assoc.
Qed.

(** What [applyBannerHeight] makes of the setting. *)
Lemma cssHeight_spec (s : Settings.t) :
  isPlainNumber (cssHeight s) = false
  /\ trim (cssHeight s) = cssHeight s
  /\ (forall raw, Settings.bannerHeight s = Some raw ->
        isPlainNumber (trim raw) = true -> cssHeight s = trim raw ++ js "vh")
  /\ (Settings.bannerHeight s = None \/ Settings.bannerHeight s = Some [] ->
      cssHeight s = js "14vh")
  /\ (cssHeight s = [] <->
      exists raw, Settings.bannerHeight s = Some raw /\ raw <> [] /\ trim raw = []).
Proof.
  unfold cssHeight.
  set (height := orS (Settings.bannerHeight s) _).
  destruct (isPlainNumber (trim height)) eqn:E.
  - split; [| split; [| split; [| split]]].
    + destruct (isPlainNumber (trim height ++ js "vh")) eqn:E2; [| done].
      assert (H : ch "v" ∈ trim height ++ js "vh").
      { apply elem_of_app. right. by left. }
      destruct (isPlainNumber_chars _ _ E2 H) as [H' | H']; discriminate.
    + by apply trim_with_unit.
    + intros raw Hraw Hn. subst height. rewrite Hraw.
      destruct raw as [|c raw]; [done |]. by rewrite orS_Some.
    + subst height. intros [H | H]; rewrite H in E; vm_compute in E; discriminate.
    + split.
      * intros H. apply app_eq_nil in H as [_ H]. vm_compute in H. discriminate.
      * intros (raw & Hraw & Hne & Ht). subst height. rewrite Hraw in E.
        destruct raw as [|c raw]; [done |].
        rewrite orS_Some in E by done. by rewrite Ht in E.
  - split; [done |]. split; [apply trim_idem |]. split; [| split].
    + intros raw Hraw Hn. subst height. rewrite Hraw in E.
      destruct raw as [|c raw]; [done |].
      rewrite orS_Some in E by done. congruence.
    + subst height. intros [H | H]; rewrite H; reflexivity.
    + subst height. split.
      * intros H. destruct (Settings.bannerHeight s) as [[|c raw]|]; try done.
        exists (c :: raw). done.
      * intros (raw & -> & Hne & Ht). by destruct raw.
Qed.

(** X6.  What [applyBannerHeight] gives [--banner-height].  The setting,
    or [14vh] when it is unset or empty, is trimmed; when what is left is a
    bare number of the form digits or digits.digits, [vh] is appended; any
    other text is passed on as it is, with or without a unit (so [.5], [1e3],
    [-20] and [20.] go through unchanged).  The value given is therefore
    never of the form digits or digits.digits, it has no white space around
    it, and it is empty exactly when the setting consists of white space
    only. *)
Theorem cssHeight_appends_vh_to_numbers (s : Settings.t) :
  let raw := trim (orS (Settings.bannerHeight s) (js "14vh")) in
  (cssHeight s = if isPlainNumber raw then raw ++ js "vh" else raw)
  /\ (isPlainNumber raw = true <->
      exists int, int <> [] /\ forallb isDigit int = true
                  /\ (raw = int
                      \/ exists frac, frac <> [] /\ forallb isDigit frac = true
                                      /\ raw = int ++ ch "." :: frac))
  /\ isPlainNumber (cssHeight s) = false
  /\ trim (cssHeight s) = cssHeight s
  /\ (cssHeight s = [] <->
      exists v, Settings.bannerHeight s = Some v /\ v <> [] /\ trim v = []).
Proof.
  intros raw. destruct (cssHeight_spec s) as (Hn & Ht & _ & _ & He).
  split; [reflexivity |]. split; [apply isPlainNumber_spec |]. done.
Qed.

(** [ 20 ] gives [20vh]; [.5], [1e3], [-20] and [20.] are passed on. *)
Lemma cssHeight_appends_vh_to_numbers_witness :
  cssHeight (set_bannerHeight (Some (js " 20 ")) Sample.defaults) = js "20vh"
  /\ cssHeight (set_bannerHeight (Some (js "12.5")) Sample.defaults) = js "12.5vh"
  /\ cssHeight (set_bannerHeight (Some (js ".5")) Sample.defaults) = js ".5"
  /\ cssHeight (set_bannerHeight (Some (js "1e3")) Sample.defaults) = js "1e3"
  /\ cssHeight (set_bannerHeight (Some (js "-20")) Sample.defaults) = js "-20"
  /\ cssHeight (set_bannerHeight (Some (js "20.")) Sample.defaults) = js "20."
  /\ cssHeight (set_bannerHeight (Some (js "200px")) Sample.defaults) = js "200px".
Proof.
  repeat match goal with |- _ /\ _ => split end;
    match goal with
    | |- cssHeight ?s = _ =>
      exact (eq_trans (proj1 (cssHeight_appends_vh_to_numbers s)) eq_refl)
    end.
Defined.

Lemma Footprint_applyBannerHeight (w w' : World) :
  Footprint w w' -> Footprint w (applyBannerHeight w').
Proof.
  intros H. unfold applyBannerHeight.
  repeat case_match; subst;
    repeat match goal with
           | E : getOrCreateGraphView ?v ?x = (?y, _) |- _ =>
             assert (y = fst (getOrCreateGraphView v x)) as -> by (by rewrite E);
             clear E
           end;
    eauto 12 with frame.
Qed.

(** X7.  The height field never stores a value the plugin cannot use: what
    [onChange] stores is the text typed, trimmed, or the default when that
    is empty; so the stored setting is non-empty and has no white space
    around it, the value then given to [--banner-height] is non-empty, and
    entering the stored value again stores the same.  No other setting is
    changed. *)
Theorem height_field_stores_usable_value (value : jsstring) (w : World) :
  let w' := onBannerHeightChange value w in
  let v := if truthy (trim value) then trim value else js "14vh" in
  settings (plugin w') = set_bannerHeight (Some v) (settings (plugin w))
  /\ truthy v = true
  /\ trim v = v
  /\ cssHeight (settings (plugin w')) <> []
  /\ settings (plugin (onBannerHeightChange v w')) = settings (plugin w').
Proof.
  intros w' v.
  assert (Hv : orS (Some (trim (orS (Some value) [])))
                 (orS (Some Settings.DEFAULT_bannerHeight) (js "14vh")) = v).
  { subst v. assert (orS (Some value) [] = value) as -> by by destruct value.
    cbn. by destruct (trim value). }
  assert (Hset : forall x w0,
             settings (plugin (onBannerHeightChange x w0))
             = set_bannerHeight
                 (Some (orS (Some (trim (orS (Some x) [])))
                          (orS (Some Settings.DEFAULT_bannerHeight) (js "14vh"))))
                 (settings (plugin w0))).
  { intros x w0. unfold onBannerHeightChange. cbn [calls call plugin].
    rewrite (fp_settings _ _ (Footprint_applyBannerHeight _ _ (Footprint_refl _))).
    reflexivity. }
  assert (Htr : truthy v = true /\ trim v = v).
  { subst v. destruct (truthy (trim value)) eqn:E.
    - split; [done | apply trim_idem].
    - split; reflexivity. }
  destruct Htr as [Htr Htrim].
  assert (Hs : settings (plugin w') = set_bannerHeight (Some v) (settings (plugin w))).
  { subst w'. by rewrite Hset, Hv. }
  split; [done |]. split; [done |]. split; [done |]. split.
  - rewrite Hs. intros (raw & Hraw & _ & Ht)%cssHeight_spec.
    cbn in Hraw. injection Hraw as <-. rewrite Htrim in Ht. by rewrite Ht in Htr.
  - rewrite Hset, Hs.
    assert (orS (Some v) [] = v) as -> by by destruct v.
    rewrite Htrim. assert (orS (Some v) (orS (Some Settings.DEFAULT_bannerHeight) (js "14vh")) = v) as ->.
    { cbn. by rewrite Htr. }
    reflexivity.
Qed.

End HeightFacts.

Section PresetFacts.
Import Js Plugin Props.

(** The user preset [applyUserPreset(n)] reads. *)
Lemma saved_snapshot (n : Z) (w : World) :
  n = 1%Z \/ n = 2%Z ->
  (if (n =? 1)%Z
   then Settings.preset1 (settings (plugin (saveCurrentToUserPreset n w)))
   else Settings.preset2 (settings (plugin (saveCurrentToUserPreset n w))))
  = Some (snd (getCoreSettingsSnapshot w))
  /\ arrays (plugin (saveCurrentToUserPreset n w)) !! nextArray (plugin w)
     = Some (ignoreLines w)
  /\ Settings.snap_ignore (snd (getCoreSettingsSnapshot w))
     = Some (nextArray (plugin w)).
Proof.
  intros [-> | ->]; unfold saveCurrentToUserPreset, getCoreSettingsSnapshot;
    cbn; by rewrite lookup_insert_eq.
Qed.

(** X8.  A user preset restores what was saved, whatever was changed in
    between: after [saveCurrentToUserPreset(n)], and then any changes that
    keep the preset and do not overwrite stored arrays,
    [applyUserPreset(n)] sets each of the six scalar core settings back to
    its value at the time of saving if it had one, and leaves it at its
    current value if it was undefined then; the ignore lines are those of
    the time of saving, in a new array. *)
Theorem user_preset_restores (n : Z) (w w2 : World) :
  n = 1%Z \/ n = 2%Z ->
  let w1 := saveCurrentToUserPreset n w in
  (if (n =? 1)%Z then Settings.preset1 (settings (plugin w2))
   else Settings.preset2 (settings (plugin w2)))
  = (if (n =? 1)%Z then Settings.preset1 (settings (plugin w1))
     else Settings.preset2 (settings (plugin w1))) ->
  arrays (plugin w1) ⊆ arrays (plugin w2) ->
  let s := settings (plugin w) in
  let s2 := settings (plugin w2) in
  let w3 := applyUserPreset n w2 in
  let s3 := settings (plugin w3) in
  Settings.maxGraphViews s3
  = nullish (Settings.maxGraphViews s) (Settings.maxGraphViews s2)
  /\ Settings.layoutDebounceMs s3
     = nullish (Settings.layoutDebounceMs s) (Settings.layoutDebounceMs s2)
  /\ Settings.mobileMode s3
     = nullish (Settings.mobileMode s) (Settings.mobileMode s2)
  /\ Settings.showInEditMode s3
     = nullish (Settings.showInEditMode s) (Settings.showInEditMode s2)
  /\ Settings.timeToRemoveLeaf s3
     = nullish (Settings.timeToRemoveLeaf s) (Settings.timeToRemoveLeaf s2)
  /\ Settings.bannerHeight s3
     = nullish (Settings.bannerHeight s) (Settings.bannerHeight s2)
  /\ ignoreLines w3 = ignoreLines w
  /\ Settings.ignore s3 = Some (nextArray (plugin w2))
  /\ Settings.perNoteDisabledPaths s3 = Settings.perNoteDisabledPaths s2.
Proof.
  intros Hn w1 Hkeep Harr s s2 w3 s3.
  destruct (saved_snapshot n w Hn) as (Hsaved & Hlines & Hsnap).
  fold w1 in Hsaved, Hlines. rewrite Hsaved in Hkeep.
  assert (Hl2 : arrays (plugin w2) !! nextArray (plugin w) = Some (ignoreLines w)).
  { by eapply lookup_weaken. }
  subst w3 s3. unfold applyUserPreset. rewrite Hkeep.
  unfold applyCoreSettingsSnapshot. rewrite Hsnap.
  cbn [withPlugin plugin settings set_settings arrays allocArray].
  rewrite Hl2. cbn.
  unfold ignoreLines at 1. cbn. rewrite lookup_insert_eq. cbn.
  repeat split; reflexivity.
Qed.

Lemma user_preset_restores_witness :
  let w := Sample.fresh Sample.defaults [js "Archive/*"] (Sample.twoPanes preview) in
  let w2 := withPlugin
              (fun p => set_settings
                          (Settings.applyBuiltinPreset (js "perf") (settings p)) p)
              (SettingTab.onIgnoreChange (js "templates/*")
                 (saveCurrentToUserPreset 1 w)) in
  Settings.maxGraphViews (settings (plugin w2)) = Some 1%Z
  /\ ignoreLines w2 = [js "templates/*"]
  /\ Settings.maxGraphViews (settings (plugin (applyUserPreset 1 w2))) = Some 2%Z
  /\ ignoreLines (applyUserPreset 1 w2) = [js "Archive/*"].
Proof.
  intros w w2.
  assert (H1 : (1 = 1 \/ 1 = 2)%Z) by (by left).
  assert (H2 : (if (1 =? 1)%Z then Settings.preset1 (settings (plugin w2))
                else Settings.preset2 (settings (plugin w2)))
               = (if (1 =? 1)%Z
                  then Settings.preset1 (settings (plugin (saveCurrentToUserPreset 1 w)))
                  else Settings.preset2 (settings (plugin (saveCurrentToUserPreset 1 w)))))
    by reflexivity.
  assert (H3 : arrays (plugin (saveCurrentToUserPreset 1 w)) ⊆ arrays (plugin w2)).
  { apply insert_subseteq. reflexivity. }
  destruct (user_preset_restores 1 w w2 H1 H2 H3) as (Hm & _ & _ & _ & _ & _ & Hi & _).
  split; [reflexivity |]. split; [reflexivity |]. split; [exact Hm | exact Hi].
Defined.

(** X9.  A cleared or never saved user preset applies nothing:
    [clearUserPreset(n)] for slot 1 or 2 empties that slot only, whatever
    was saved in it, and [applyUserPreset(n)] then shows its notice and
    leaves the settings, the stored arrays and the graph views untouched. *)
Theorem cleared_preset_applies_nothing (n : Z) (w : World) :
  n = 1%Z \/ n = 2%Z ->
  let w1 := clearUserPreset n (saveCurrentToUserPreset n w) in
  let w2 := applyUserPreset n w1 in
  (if (n =? 1)%Z then Settings.preset1 (settings (plugin w1))
   else Settings.preset2 (settings (plugin w1))) = None
  /\ (if (n =? 1)%Z then Settings.preset2 (settings (plugin w1))
      else Settings.preset1 (settings (plugin w1)))
     = (if (n =? 1)%Z then Settings.preset2 (settings (plugin w))
        else Settings.preset1 (settings (plugin w)))
  /\ plugin w2 = plugin w1
  /\ calls w2 = calls w ++ [Notice false]
  /\ Settings.set_preset1 (Settings.preset1 (settings (plugin w)))
       (Settings.set_preset2 (Settings.preset2 (settings (plugin w)))
          (settings (plugin w2)))
     = settings (plugin w).
Proof.
  intros [-> | ->]; cbn;
    (split; [done |]); (split; [done |]); (split; [done |]); (split; [done |]);
    by destruct (settings (plugin w)).
Qed.

Lemma cleared_preset_applies_nothing_witness :
  calls (applyUserPreset 2
           (clearUserPreset 2 (saveCurrentToUserPreset 2 Sample.start)))
  = calls Sample.start ++ [Notice false].
Proof.
  destruct (cleared_preset_applies_nothing 2 Sample.start) as (_ & _ & _ & H & _).
  - by right.
  - exact H.
Defined.

End PresetFacts.

(* ===================================================================== *)
(** ** Acquisition: which rule answers, and what the pool keeps *)
(* ===================================================================== *)

Section AcquireFacts.
Import Js Plugin Props Frames.

Lemma find_none_iff {A : Type} (f : A -> bool) (l : list A) :
  find f l = None <-> Forall (fun x => f x = false) l.
Proof.
  split; [| apply find_none_Forall].
  induction l as [|x l IH]; cbn; [constructor |].
  destruct (f x) eqn:E; [done |]. intros H. constructor; [done | by apply IH].
Qed.

Lemma noneAttachedTo_find (view : nat) (w : World) :
  noneAttachedTo view w <->
  find (fun gv => isDescendantOf gv (ContainerEl view) w) (graphViews (plugin w))
  = None.
Proof. unfold noneAttachedTo. by rewrite find_none_iff. Qed.

Lemma noneDetached_find (w : World) :
  noneDetached w <->
  find (fun gv =>
          negb (existsb (fun nd => isDescendantOf gv (ContainerEl nd) w)
                  (markdownLeaves (host w)))) (graphViews (plugin w))
  = None.
Proof.
  unfold noneDetached. rewrite find_none_iff.
  apply Forall_iff. intros gv. by rewrite negb_false_iff.
Qed.

(** The graph views [_getOrCreateGraphView] leaves alone. *)
Lemma getOrCreate_new (view : nat) (w : World) :
  noneAttachedTo view w ->
  noneDetached w ->
  (Z.of_nat (length (graphViews (plugin w)))
   < orZ (Settings.maxGraphViews (settings (plugin w)))
         Settings.DEFAULT_maxGraphViews)%Z ->
  getOrCreateGraphView view w = (pushNew w, Some (nextLeaf (host w))).
Proof.
  intros H1%noneAttachedTo_find H2%noneDetached_find H3.
  unfold getOrCreateGraphView. rewrite H1, H2.
  destruct (Z.leb_spec
              (orZ (Settings.maxGraphViews (settings (plugin w)))
                 Settings.DEFAULT_maxGraphViews)
              (Z.of_nat (length (graphViews (plugin w))))); [lia |].
  reflexivity.
Qed.

(** The four rules of [_getOrCreateGraphView], with what each finds. *)
Lemma getOrCreate_rules (view : nat) (w : World) :
  let pool := graphViews (plugin w) in
  let cap := orZ (Settings.maxGraphViews (settings (plugin w)))
               Settings.DEFAULT_maxGraphViews in
  let attached gv := isDescendantOf gv (ContainerEl view) w in
  let live gv := existsb (fun nd => isDescendantOf gv (ContainerEl nd) w)
                   (markdownLeaves (host w)) in
  (noneAttachedTo view w /\ noneDetached w /\ (Z.of_nat (length pool) < cap)%Z
   /\ getOrCreateGraphView view w = (pushNew w, Some (nextLeaf (host w))))
  \/ (exists r,
        getOrCreateGraphView view w = (w, r)
        /\ ((exists gv, r = Some gv /\ gv ∈ pool /\ attached gv = true)
            \/ (noneAttachedTo view w
                /\ exists gv, r = Some gv /\ gv ∈ pool /\ live gv = false)
            \/ (noneAttachedTo view w /\ noneDetached w
                /\ (cap <= Z.of_nat (length pool))%Z /\ r = head pool))).
Proof.
  cbv zeta.
  destruct (find (fun gv => isDescendantOf gv (ContainerEl view) w)
              (graphViews (plugin w))) as [gv|] eqn:E1.
  { right. exists (Some gv). split.
    - unfold getOrCreateGraphView. by rewrite E1.
    - left. exists gv. apply find_elem_of in E1 as [? ?]. done. }
  assert (H1 : noneAttachedTo view w) by (by apply noneAttachedTo_find).
  destruct (find (fun gv =>
                    negb (existsb (fun nd => isDescendantOf gv (ContainerEl nd) w)
                            (markdownLeaves (host w))))
              (graphViews (plugin w))) as [gv|] eqn:E2.
  { right. exists (Some gv). split.
    - unfold getOrCreateGraphView. by rewrite E1, E2.
    - right. left. split; [done |]. exists gv.
      apply find_elem_of in E2 as [? ?%negb_true_iff]. done. }
  assert (H2 : noneDetached w) by (by apply noneDetached_find).
  destruct (Z.leb_spec
              (orZ (Settings.maxGraphViews (settings (plugin w)))
                 Settings.DEFAULT_maxGraphViews)
              (Z.of_nat (length (graphViews (plugin w))))) as [Hle | Hlt].
  - right. exists (head (graphViews (plugin w))). split.
    + by apply getOrCreate_at_capacity.
    + right. right. done.
  - left. split; [done |]. split; [done |]. split; [done |].
    by apply getOrCreate_new.
Qed.

(** X10.  [_getOrCreateGraphView] constructs a graph view only as the last
    resort.  It constructs one (a new leaf from the host, pushed at the end
    of the pool) exactly when no graph view of the pool sits in the view's
    container, every one of them sits in the container of some live
    markdown leaf, and the pool is below [maxGraphViews] (2 when the setting
    is unset or 0).  In every other case the plugin and the workspace are
    left exactly as they were and the answer comes from the pool: a graph
    view already in the container of the view if there is one, else one
    that sits in no live markdown leaf, else the first of the pool. *)
Theorem getOrCreate_constructs_as_last_resort (view : nat) (w : World) :
  let pool := graphViews (plugin w) in
  let cap := orZ (Settings.maxGraphViews (settings (plugin w)))
               Settings.DEFAULT_maxGraphViews in
  let attached gv := isDescendantOf gv (ContainerEl view) w in
  let live gv := existsb (fun nd => isDescendantOf gv (ContainerEl nd) w)
                   (markdownLeaves (host w)) in
  (noneAttachedTo view w /\ noneDetached w /\ (Z.of_nat (length pool) < cap)%Z
   /\ getOrCreateGraphView view w = (pushNew w, Some (nextLeaf (host w))))
  \/ (exists r,
        getOrCreateGraphView view w = (w, r)
        /\ ((exists gv, r = Some gv /\ gv ∈ pool /\ attached gv = true)
            \/ (noneAttachedTo view w
                /\ exists gv, r = Some gv /\ gv ∈ pool /\ live gv = false)
            \/ (noneAttachedTo view w /\ noneDetached w
                /\ (cap <= Z.of_nat (length pool))%Z /\ r = head pool))).
Proof. apply getOrCreate_rules. Qed.

(** X11.  [_getOrCreateGraphView] answers [undefined] in one situation
    only: the pool is empty and [maxGraphViews] is negative (then
    [this.graphViews[0]] is read from the empty pool).  With the setting
    unset, zero or positive it always answers with a graph view, and that
    graph view is in the pool afterwards. *)
Theorem getOrCreate_undefined_only_below_zero (view : nat) (w : World) :
  (snd (getOrCreateGraphView view w) = None <->
   graphViews (plugin w) = []
   /\ exists v, Settings.maxGraphViews (settings (plugin w)) = Some v /\ (v < 0)%Z)
  /\ (forall gv, snd (getOrCreateGraphView view w) = Some gv ->
        gv ∈ graphViews (plugin (fst (getOrCreateGraphView view w)))).
Proof.
  split.
  - split.
    + intros Hnone.
      destruct (getOrCreate_rules view w)
        as [(_ & _ & _ & E) | (r & E & H)]; rewrite E in Hnone; cbn in Hnone;
        [done |]. subst r.
      destruct H as [(gv & ? & _) | [(_ & gv & ? & _) | (_ & _ & Hcap & Hhead)]];
        [done | done |].
      destruct (graphViews (plugin w)) as [|gv pool] eqn:Ep; [| done].
      split; [done |]. cbn in Hcap. unfold orZ in Hcap.
      destruct (Settings.maxGraphViews (settings (plugin w))) as [v|];
        [| vm_compute in Hcap; done].
      exists v. split; [done |].
      destruct (Z.eqb_spec v 0); [vm_compute in Hcap; done | lia].
    + intros (Hpool & v & Hmax & Hv).
      unfold getOrCreateGraphView. rewrite Hpool, Hmax. cbn [find].
      replace (orZ (Some v) Settings.DEFAULT_maxGraphViews) with v
        by (unfold orZ; destruct (Z.eqb_spec v 0); [lia | done]).
      destruct (Z.leb_spec v (Z.of_nat (length (@nil nat)))); [done |].
      cbn in *. lia.
  - intros gv Hsome.
    destruct (getOrCreate_cases view w) as [(r & E & H) | E];
      rewrite E in Hsome |- *; cbn in Hsome |- *.
    + by apply H.
    + injection Hsome as <-. apply elem_of_app. right. by left.
Qed.

End AcquireFacts.

(* ===================================================================== *)
(** ** Placement, step by step *)
(* ===================================================================== *)

Section PlaceFacts.
Import Js Plugin Props Frames Exact.

Lemma nodeOf_updObject gv gv' f w :
  (forall g, node (f g) = node g) ->
  nodeOf (updObject gv f w) gv' = nodeOf w gv'.
Proof.
  intros Hf. unfold nodeOf, object, updObject. cbn.
  destruct (decide (gv = gv')) as [<- | Hne].
  - rewrite lookup_alter_eq. destruct (objects (plugin w) !! gv); cbn; [| done].
    by rewrite Hf.
  - by rewrite lookup_alter_ne.
Qed.

Lemma nodeAt_setCompact_cases gv b w m :
  nodeAt (setCompact gv b w) m
  = if bool_decide (nodeOf w gv = Some m) then setClassCompact b (nodeAt w m)
    else nodeAt w m.
Proof.
  unfold setCompact. rewrite nodeOf_updObject by done.
  destruct (nodeOf w gv) as [n|] eqn:E.
  - rewrite nodeAt_updNode. repeat case_bool_decide; simplify_eq; done.
  - by rewrite bool_decide_eq_false_2.
Qed.

Lemma nodeAt_setMobileSimplified_cases gv b w m :
  nodeAt (setMobileSimplified gv b w) m
  = if bool_decide (nodeOf w gv = Some m) then setClassSimplified b (nodeAt w m)
    else nodeAt w m.
Proof.
  unfold setMobileSimplified. rewrite nodeOf_updObject by done.
  destruct (nodeOf w gv) as [n|] eqn:E.
  - rewrite nodeAt_updNode. repeat case_bool_decide; simplify_eq; done.
  - by rewrite bool_decide_eq_false_2.
Qed.

Lemma object_setCompact_ne gv gv' b w :
  gv <> gv' -> object (setCompact gv b w) gv' = object w gv'.
Proof.
  intros Hne. unfold setCompact.
  destruct (nodeOf _ gv); unfold object; cbn; by rewrite lookup_alter_ne.
Qed.

Lemma object_setMobileSimplified_ne gv gv' b w :
  gv <> gv' -> object (setMobileSimplified gv b w) gv' = object w gv'.
Proof.
  intros Hne. unfold setMobileSimplified.
  destruct (nodeOf _ gv); unfold object; cbn; by rewrite lookup_alter_ne.
Qed.

Lemma object_call c w gv : object (call c w) gv = object w gv.
Proof. reflexivity. Qed.

Lemma nodeAt_call c w m : nodeAt (call c w) m = nodeAt w m.
Proof. reflexivity. Qed.

Lemma nodeOf_object w gv g : object w gv = Some g -> nodeOf w gv = node g.
Proof. unfold nodeOf. by intros ->. Qed.

(** What the plugin keeps of its pool through the operations of a graph
    view. *)
Lemma graphViews_setCompact gv b w :
  graphViews (plugin (setCompact gv b w)) = graphViews (plugin w).
Proof. unfold setCompact. by destruct (nodeOf _ gv). Qed.

Lemma graphViews_setMobileSimplified gv b w :
  graphViews (plugin (setMobileSimplified gv b w)) = graphViews (plugin w).
Proof. unfold setMobileSimplified. by destruct (nodeOf _ gv). Qed.

Lemma graphViews_setVisibility gv b w :
  graphViews (plugin (setVisibility gv b w)) = graphViews (plugin w).
Proof. unfold setVisibility. by destruct (nodeOf _ gv). Qed.

Lemma graphViews_resumeSetupLeaf gv w :
  graphViews (plugin (resumeSetupLeaf gv w)) = graphViews (plugin w).
Proof.
  unfold resumeSetupLeaf, setupNode, removeChild.
  repeat case_match; reflexivity.
Qed.

Lemma graphViews_bindTo gv p w :
  graphViews (plugin (bindTo gv p w)) = graphViews (plugin w).
Proof. unfold bindTo. repeat case_match; reflexivity. Qed.

Lemma graphViews_showAndResize gv n opts w :
  graphViews (plugin (showAndResize gv n opts w)) = graphViews (plugin w).
Proof.
  unfold showAndResize. destruct opts as [[c m]|].
  - case_match; cbn [call plugin];
      by rewrite graphViews_setMobileSimplified, graphViews_setCompact.
  - by case_match.
Qed.

Lemma graphViews_placeTo gv view opts w :
  graphViews (plugin (placeTo gv view opts w)) = graphViews (plugin w).
Proof.
  unfold placeTo, insertUnderTitle.
  repeat case_match; simplify_eq;
    rewrite ?graphViews_showAndResize; cbn [call updNode withHost plugin];
    rewrite ?graphViews_bindTo; apply graphViews_resumeSetupLeaf.
Qed.

(** The rest of [_setupLeaf], when the leaf has its [.view-content]. *)
Lemma resumeSetupLeaf_exact gv w g n :
  object w gv = Some g ->
  nodeAfterSetup w g = Some n ->
  calls (resumeSetupLeaf gv w) = calls w ++ setupCalls w g
  /\ loop (resumeSetupLeaf gv w) = setupLoop w g
  /\ forall m,
       nodeAt (resumeSetupLeaf gv w) m
       = if bool_decide (n = m)
         then match setupLeafPromise g with
              | SetupDone => nodeAt w n
              | SetupPending _ => setClassContent true (nodeAt w n)
              end
         else nodeAt w m.
Proof.
  intros Hobj Hn. unfold resumeSetupLeaf, setupCalls, setupLoop.
  rewrite Hobj. unfold nodeAfterSetup in Hn.
  destruct (setupLeafPromise g) as [t|] eqn:Es.
  - destruct (bool_decide (leaf g ∈ noViewContent (host w))) eqn:Ev; [done |].
    injection Hn as <-.
    set (w1 := updObject gv (setNodeField (Some (leaf g))) w).
    assert (Hnode : nodeOf w1 gv = Some (leaf g)).
    { unfold nodeOf. subst w1. by rewrite (object_updObject _ _ _ _ Hobj). }
    unfold setupNode. rewrite Hnode.
    destruct (greaterThanZero t).
    + split; [reflexivity |]. split; [reflexivity |].
      intros m. cbn [setTimeout fst]. apply (nodeAt_updNode (leaf g) _ w1 m).
    + unfold removeChild. cbn [updNode withHost host set_nodes leafParent].
      change (leafParent (host w1)) with (leafParent (host w)).
      destruct (bool_decide (leaf g ∈ leafParent (host w))).
      * split; [reflexivity |]. split; [reflexivity |].
        intros m. apply (nodeAt_updNode (leaf g) _ w1 m).
      * split; [by rewrite app_nil_r |]. split; [reflexivity |].
        intros m. apply (nodeAt_updNode (leaf g) _ w1 m).
  - split; [by rewrite app_nil_r |]. split; [reflexivity |].
    intros m. case_bool_decide; by subst.
Qed.

(** The end of [placeTo] on a graph view with its node. *)
Lemma showAndResize_exact gv n opts w g :
  object w gv = Some g ->
  node g = Some n ->
  calls (showAndResize gv n opts w) = calls w ++ [OnResize (leaf g)]
  /\ object (showAndResize gv n opts w) gv
     = Some {| leaf := leaf g; node := node g;
               setupLeafPromise := setupLeafPromise g;
               currentFilePath := currentFilePath g;
               compact := match opts with Some (c, _) => c | None => compact g end;
               mobileSimplified :=
                 match opts with
                 | Some (_, m) => m
                 | None => mobileSimplified g
                 end |}
  /\ (forall gv', gv <> gv' ->
        object (showAndResize gv n opts w) gv' = object w gv')
  /\ nodeAt (showAndResize gv n opts w) n
     = {| parent := parent (nodeAt w n); cls_hidden := cls_hidden (nodeAt w n);
          cls_visible := true;
          cls_compact :=
            match opts with Some (c, _) => c | None => cls_compact (nodeAt w n) end;
          cls_simplified :=
            match opts with
            | Some (_, m) => m
            | None => cls_simplified (nodeAt w n)
            end;
          cls_content := cls_content (nodeAt w n) |}
  /\ (forall m, n <> m -> nodeAt (showAndResize gv n opts w) m = nodeAt w m)
  /\ loop (showAndResize gv n opts w) = loop w.
Proof.
  intros Hobj Hnode. unfold showAndResize.
  set (w1 := updNode n (setClassVisible true) w).
  assert (Hobj1 : object w1 gv = Some g) by done.
  assert (Hn1 : nodeOf w1 gv = Some n) by (by rewrite (nodeOf_object _ _ _ Hobj1)).
  destruct opts as [[c m]|].
  - set (w2 := setCompact gv c w1).
    assert (Hobj2 : object w2 gv = Some (setCompactField c g))
      by (by apply object_setCompact).
    assert (Hn2 : nodeOf w2 gv = Some n) by (by rewrite (nodeOf_object _ _ _ Hobj2)).
    rewrite (object_setMobileSimplified _ _ _ _ Hobj2).
    split; [| split; [| split; [| split; [| split]]]].
    + cbn [call calls]. rewrite calls_setMobileSimplified. subst w2.
      by rewrite calls_setCompact.
    + rewrite object_call, (object_setMobileSimplified _ _ _ _ Hobj2).
      by destruct g.
    + intros gv' Hne.
      rewrite object_call, object_setMobileSimplified_ne by done. subst w2.
      by rewrite object_setCompact_ne.
    + rewrite nodeAt_call.
      rewrite nodeAt_setMobileSimplified_cases, Hn2, bool_decide_eq_true_2 by done.
      subst w2. rewrite nodeAt_setCompact_cases, Hn1, bool_decide_eq_true_2 by done.
      subst w1. rewrite nodeAt_updNode, bool_decide_eq_true_2 by done.
      by destruct (nodeAt w n).
    + intros k Hne. rewrite nodeAt_call.
      rewrite nodeAt_setMobileSimplified_cases, Hn2, bool_decide_eq_false_2 by congruence.
      subst w2. rewrite nodeAt_setCompact_cases, Hn1, bool_decide_eq_false_2 by congruence.
      subst w1. by rewrite nodeAt_updNode, bool_decide_eq_false_2.
    + cbn [call loop].
      assert (SameLoop w (setMobileSimplified gv m w2)) as ->; [| done].
      apply SameLoop_setMobileSimplified, SameLoop_setCompact. done.
  - rewrite Hobj1.
    split; [done |]. split; [by destruct g |]. split; [done |].
    split; [| split; [| done]].
    + rewrite nodeAt_call. subst w1.
      rewrite nodeAt_updNode, bool_decide_eq_true_2 by done.
      by destruct (nodeAt w n).
    + intros k Hne. rewrite nodeAt_call. subst w1.
      by rewrite nodeAt_updNode, bool_decide_eq_false_2.
Qed.

Lemma contains_parent w w2 el n :
  parent (nodeAt w2 n) = parent (nodeAt w n) -> contains w2 el n = contains w el n.
Proof. unfold contains. by intros ->. Qed.

Lemma contains_mode_parent w view mode n :
  contains w (ModeContainer view mode) n = true ->
  parent (nodeAt w n) = Some (view, mode).
Proof.
  unfold contains. destruct (parent (nodeAt w n)) as [[v m]|]; [| done].
  intros [Hv Hm]%andb_true_iff. apply bool_decide_eq_true in Hv as ->.
  by destruct m, mode.
Qed.

Lemma settled_object (w : World) (g : GraphView) (n : nat) (p : jsstring) :
  nodeAfterSetup w g = Some n ->
  setCurrentFilePath (Some p) (settled w g) = boundObject g n p.
Proof.
  unfold settled, nodeAfterSetup, boundObject. destruct g as [lf nd su cp co ms]. cbn.
  destruct su; cbn.
  - destruct (bool_decide _); [done |]. by intros [= <-].
  - by intros ->.
Qed.

(** The state [placeTo] is in when it looks for the mode container. *)
Lemma placeTo_bound gv view w g n f :
  object w gv = Some g ->
  nodeAfterSetup w g = Some n ->
  file (viewAt w view) = Some f ->
  let w2 := bindTo gv (path f) (resumeSetupLeaf gv w) in
  calls w2 = calls w ++ setupCalls w g ++ bindCalls g (path f)
  /\ object w2 gv = Some (boundObject g n (path f))
  /\ (forall gv', gv <> gv' -> object w2 gv' = object w gv')
  /\ (forall m, nodeAt w2 m
                = if bool_decide (n = m)
                  then match setupLeafPromise g with
                       | SetupDone => nodeAt w n
                       | SetupPending _ => setClassContent true (nodeAt w n)
                       end
                  else nodeAt w m)
  /\ loop w2 = setupLoop w g
  /\ Footprint w w2
  /\ nodeOf (resumeSetupLeaf gv w) gv = Some n.
Proof.
  intros Hobj Hn Hf.
  destruct (resumeSetupLeaf_exact gv w g n Hobj Hn) as (Hc1 & Hl1 & Hn1).
  pose proof (object_resumeSetupLeaf gv w g Hobj) as Hobj1.
  pose proof (Footprint_resumeSetupLeaf gv w w (Footprint_refl w)) as Hfp1.
  set (w1 := resumeSetupLeaf gv w) in *.
  destruct (bindTo_spec gv (path f) w1 _ Hobj1) as (Hobj2 & Hc2 & Hfp2).
  cbn zeta.
  split; [| split; [| split; [| split; [| split; [| split]]]]].
  - rewrite Hc2, Hc1, <- app_assoc. do 2 f_equal. unfold bindCalls.
    destruct (settled_fields w g) as (-> & -> & _). done.
  - rewrite Hobj2. f_equal. by apply settled_object.
  - intros gv' Hne. transitivity (object w1 gv').
    + unfold bindTo. rewrite Hobj1. destruct (negb _); [| reflexivity].
      rewrite object_updObject_ne by done. reflexivity.
    + by apply object_resumeSetupLeaf_ne.
  - intros m. rewrite nodeAt_bindTo. apply Hn1.
  - rewrite <- Hl1. apply (SameLoop_bindTo gv (path f) w1 w1). reflexivity.
  - by apply (Footprint_trans w w1).
  - rewrite (nodeOf_object _ _ _ Hobj1), node_settled. done.
Qed.

(** A [placeTo] that reaches its end. *)
Lemma placeTo_exact gv view opts w g n f :
  object w gv = Some g ->
  nodeAfterSetup w g = Some n ->
  file (viewAt w view) = Some f ->
  modeContainerFound (viewAt w view) = true ->
  contains w (ModeContainer view (getMode (viewAt w view))) n = true
  \/ inlineTitleFound (viewAt w view) = true ->
  calls (placeTo gv view opts w) = calls w ++ placeCalls w g n view (path f)
  /\ object (placeTo gv view opts w) gv = Some (placedObject g n (path f) opts)
  /\ (forall gv', gv <> gv' -> object (placeTo gv view opts w) gv' = object w gv')
  /\ nodeAt (placeTo gv view opts w) n
     = placedNode (nodeAt w n) g view (getMode (viewAt w view)) opts
  /\ (forall m, n <> m -> nodeAt (placeTo gv view opts w) m = nodeAt w m)
  /\ loop (placeTo gv view opts w) = setupLoop w g.
Proof.
  intros Hobj Hn Hf Hmc Hins.
  destruct (placeTo_bound gv view w g n f Hobj Hn Hf)
    as (Hc2 & Hobj2 & Hne2 & Hn2 & Hl2 & Hfp2 & Hnode1).
  cbn zeta in *. unfold placeTo. rewrite Hnode1.
  rewrite (Footprint_viewAt _ _ view
             (Footprint_resumeSetupLeaf gv w w (Footprint_refl w))), Hf.
  set (w2 := bindTo gv (path f) (resumeSetupLeaf gv w)) in *.
  rewrite (Footprint_viewAt _ _ view Hfp2), Hmc. cbn [negb].
  set (mode := getMode (viewAt w view)) in *.
  assert (Hpar : parent (nodeAt w2 n) = parent (nodeAt w n)).
  { rewrite Hn2, bool_decide_eq_true_2 by done. by destruct (setupLeafPromise g). }
  assert (Hnode2 : nodeOf w2 gv = Some n) by (by rewrite (nodeOf_object _ _ _ Hobj2)).
  assert (Hdesc : isDescendantOf gv (ModeContainer view mode) w2
                  = contains w (ModeContainer view mode) n).
  { unfold isDescendantOf. rewrite Hnode2. by apply contains_parent. }
  unfold insertUnderTitle. rewrite Hdesc, (Footprint_viewAt _ _ view Hfp2).
  unfold placeCalls, insertCalls. fold mode.
  destruct (contains w (ModeContainer view mode) n) eqn:Econt.
  - destruct (showAndResize_exact gv n opts w2 _ Hobj2 eq_refl)
      as (Hc3 & Hobj3 & Hne3 & Hn3 & Hm3 & Hl3).
    split; [| split; [| split; [| split; [| split]]]].
    + rewrite Hc3, Hc2, <- !app_assoc. reflexivity.
    + rewrite Hobj3. reflexivity.
    + intros gv' Hne. rewrite Hne3 by done. by apply Hne2.
    + rewrite Hn3, Hn2, bool_decide_eq_true_2 by done.
      apply contains_mode_parent in Econt. unfold placedNode.
      destruct (setupLeafPromise g); cbn; by rewrite Econt.
    + intros m Hne. rewrite Hm3 by done. by rewrite Hn2, bool_decide_eq_false_2.
    + by rewrite Hl3.
  - destruct Hins as [? | Htitle]; [done |]. rewrite Htitle.
    set (w3 := call (InsertAfter n view mode)
                 (updNode n (setParent (Some (view, mode))) w2)).
    assert (Hobj3' : object w3 gv = Some (boundObject g n (path f))) by exact Hobj2.
    destruct (showAndResize_exact gv n opts w3 _ Hobj3' eq_refl)
      as (Hc3 & Hobj3 & Hne3 & Hn3 & Hm3 & Hl3).
    assert (Hn3' : forall m, nodeAt w3 m
                             = if bool_decide (n = m)
                               then setParent (Some (view, mode)) (nodeAt w2 n)
                               else nodeAt w2 m).
    { intros m. subst w3. rewrite nodeAt_call. apply nodeAt_updNode. }
    split; [| split; [| split; [| split; [| split]]]].
    + rewrite Hc3. subst w3. cbn [call calls]. rewrite calls_updNode, Hc2.
      rewrite <- !app_assoc. reflexivity.
    + rewrite Hobj3. reflexivity.
    + intros gv' Hne. rewrite Hne3 by done. by apply Hne2.
    + rewrite Hn3, Hn3', bool_decide_eq_true_2 by done.
      rewrite Hn2, bool_decide_eq_true_2 by done. unfold placedNode.
      by destruct (setupLeafPromise g).
    + intros m Hne. rewrite Hm3 by done.
      rewrite Hn3', bool_decide_eq_false_2 by done.
      by rewrite Hn2, bool_decide_eq_false_2.
    + by rewrite Hl3.
Qed.

(** A [placeTo] that returns at the mode container or at the title. *)
Lemma placeTo_skipped gv view opts w g n f :
  object w gv = Some g ->
  nodeAfterSetup w g = Some n ->
  file (viewAt w view) = Some f ->
  modeContainerFound (viewAt w view) = false
  \/ (contains w (ModeContainer view (getMode (viewAt w view))) n = false
      /\ inlineTitleFound (viewAt w view) = false) ->
  placeTo gv view opts w = bindTo gv (path f) (resumeSetupLeaf gv w).
Proof.
  intros Hobj Hn Hf Hskip.
  destruct (placeTo_bound gv view w g n f Hobj Hn Hf)
    as (Hc2 & Hobj2 & Hne2 & Hn2 & Hl2 & Hfp2 & Hnode1).
  cbn zeta in *. unfold placeTo. rewrite Hnode1.
  rewrite (Footprint_viewAt _ _ view
             (Footprint_resumeSetupLeaf gv w w (Footprint_refl w))), Hf.
  set (w2 := bindTo gv (path f) (resumeSetupLeaf gv w)) in *.
  rewrite (Footprint_viewAt _ _ view Hfp2).
  destruct Hskip as [-> | [Hcont Htitle]]; [done |].
  destruct (modeContainerFound (viewAt w view)); [| done]. cbn [negb].
  assert (Hpar : parent (nodeAt w2 n) = parent (nodeAt w n)).
  { rewrite Hn2, bool_decide_eq_true_2 by done. by destruct (setupLeafPromise g). }
  assert (Hnode2 : nodeOf w2 gv = Some n) by (by rewrite (nodeOf_object _ _ _ Hobj2)).
  unfold insertUnderTitle, isDescendantOf. rewrite Hnode2.
  rewrite (contains_parent w w2) by done.
  by rewrite Hcont, (Footprint_viewAt _ _ view Hfp2), Htitle.
Qed.

End PlaceFacts.

(* ===================================================================== *)
(** ** Resolutions that place, written out *)
(* ===================================================================== *)

Section ResolveFacts.
Import Js Plugin Props Frames Exact.

(** X12.  A [placeTo] that finds the mode container, and the note title
    when the node is not under that container yet, does exactly this, in
    this order: the rest of the leaf setup if it was pending (the removal of
    the leaf, by a timer when [timeToRemoveLeaf > 0]); a file-scoped
    [setViewState] and [setGroup] if the bound path differs from the path of
    the file; [insertAfter] under the title if the node is not in the mode
    container; [onResize].  Afterwards the graph view is bound to the path,
    its flags are the options given, and its node sits in the mode container
    with the class [graph-banner-visible], the [hidden] class as before and
    the compact and simplified classes as the options say.  No other graph
    view and no other node is touched, and no timer is set but the one of
    the setup. *)
Theorem placeTo_exact_effect (gv view : nat) (opts : option (bool * bool))
    (w : World) (g : GraphView) (n : nat) (f : TFile) :
  object w gv = Some g ->
  nodeAfterSetup w g = Some n ->
  file (viewAt w view) = Some f ->
  modeContainerFound (viewAt w view) = true ->
  contains w (ModeContainer view (getMode (viewAt w view))) n = true
  \/ inlineTitleFound (viewAt w view) = true ->
  calls (placeTo gv view opts w) = calls w ++ placeCalls w g n view (path f)
  /\ object (placeTo gv view opts w) gv = Some (placedObject g n (path f) opts)
  /\ (forall gv', gv <> gv' -> object (placeTo gv view opts w) gv' = object w gv')
  /\ nodeAt (placeTo gv view opts w) n
     = placedNode (nodeAt w n) g view (getMode (viewAt w view)) opts
  /\ (forall m, n <> m -> nodeAt (placeTo gv view opts w) m = nodeAt w m)
  /\ loop (placeTo gv view opts w) = setupLoop w g.
Proof. apply placeTo_exact. Qed.

Lemma placeTo_exact_effect_witness :
  calls (placeTo 10 1 (Some (true, false)) (fst (getOrCreateGraphView 1 Sample.start)))
  = [GetLeaf 10; SetViewState 10 None;
     SetTimeout 0 (CbRemoveChild 10) 100;
     SetViewState 10 (Some (js "A.md")); SetGroup 10 (js "A.md");
     InsertAfter 10 1 preview; OnResize 10]
  /\ cls_compact
       (nodeAt (placeTo 10 1 (Some (true, false))
                  (fst (getOrCreateGraphView 1 Sample.start))) 10) = true.
Proof.
  destruct (placeTo_exact_effect 10 1 (Some (true, false))
              (fst (getOrCreateGraphView 1 Sample.start))
              {| leaf := 10; node := None;
                 setupLeafPromise := SetupPending (Some 100%Z);
                 currentFilePath := None; compact := false;
                 mobileSimplified := false |}
              10 Sample.noteA)
    as (Hc & _ & _ & Hn & _);
    [reflexivity .. | by right | split; [by rewrite Hc | by rewrite Hn]].
Defined.

(** X13.  [placeTo] binds before it looks at the DOM: when the mode
    container of the view is missing, or the node is outside it and the note
    has no inline title, [placeTo] has already run the pending leaf setup
    and bound the graph view to the file, and then returns.  It inserts
    nothing, does not add the class [graph-banner-visible], does not apply
    the options and does not call [onResize]. *)
Theorem placeTo_binds_then_gives_up (gv view : nat) (opts : option (bool * bool))
    (w : World) (g : GraphView) (n : nat) (f : TFile) :
  object w gv = Some g ->
  nodeAfterSetup w g = Some n ->
  file (viewAt w view) = Some f ->
  modeContainerFound (viewAt w view) = false
  \/ (contains w (ModeContainer view (getMode (viewAt w view))) n = false
      /\ inlineTitleFound (viewAt w view) = false) ->
  calls (placeTo gv view opts w)
  = calls w ++ setupCalls w g ++ bindCalls g (path f)
  /\ object (placeTo gv view opts w) gv = Some (boundObject g n (path f))
  /\ (forall gv', gv <> gv' -> object (placeTo gv view opts w) gv' = object w gv')
  /\ nodeAt (placeTo gv view opts w) n
     = match setupLeafPromise g with
       | SetupDone => nodeAt w n
       | SetupPending _ => setClassContent true (nodeAt w n)
       end
  /\ (forall m, n <> m -> nodeAt (placeTo gv view opts w) m = nodeAt w m).
Proof.
  intros Hobj Hn Hf Hskip.
  rewrite (placeTo_skipped gv view opts w g n f Hobj Hn Hf Hskip).
  destruct (placeTo_bound gv view w g n f Hobj Hn Hf)
    as (Hc & Ho & Hne & Hnd & _).
  cbn zeta in *.
  split; [done |]. split; [done |]. split; [done |]. split.
  - by rewrite Hnd, bool_decide_eq_true_2.
  - intros m Hm. by rewrite Hnd, bool_decide_eq_false_2.
Qed.

Lemma placeTo_binds_then_gives_up_witness :
  let w := withHost
             (fun h => {| views := {[ 1%nat := {| file := Some Sample.noteB;
                                                  getMode := preview;
                                                  modeContainerFound := false;
                                                  inlineTitleFound := true |} ]};
                          activeView := activeView h;
                          markdownLeaves := markdownLeaves h; nodes := nodes h;
                          leafParent := leafParent h;
                          noViewContent := noViewContent h;
                          nextLeaf := nextLeaf h; isMobile := isMobile h |})
             Sample.placedA in
  calls (placeTo 10 1 None w)
  = calls w ++ [SetViewState 10 (Some (js "B.md")); SetGroup 10 (js "B.md")].
Proof.
  intros w.
  destruct (placeTo_binds_then_gives_up 10 1 None w
              {| leaf := 10; node := Some 10%nat; setupLeafPromise := SetupDone;
                 currentFilePath := Some (js "A.md"); compact := false;
                 mobileSimplified := false |}
              10 Sample.noteB)
    as (Hc & _); [reflexivity .. | by left | exact Hc].
Defined.

(** With its gates open a resolution goes on to [placeTo] whichever way
    the graph view was acquired. *)
Lemma getOrCreate_call_reuse (c : Call) (view : nat) (w : World) (r : option nat) :
  getOrCreateGraphView view w = (w, r) ->
  getOrCreateGraphView view (call c w) = (call c w, r).
Proof. by apply getOrCreate_reuse_transfer. Qed.

Lemma nodeAt_shown gv w g n :
  object w gv = Some g -> node g = Some n ->
  nodeAt (setVisibility gv true (setVisibility gv true w)) n
  = setClassVisible true (setClassHidden false (nodeAt w n))
  /\ (forall m, n <> m ->
        nodeAt (setVisibility gv true (setVisibility gv true w)) m = nodeAt w m).
Proof.
  intros Hobj Hnode.
  assert (Hn : nodeOf w gv = Some n) by (by rewrite (nodeOf_object _ _ _ Hobj)).
  split.
  - rewrite nodeAt_setVisibility, nodeOf_setVisibility, Hn, bool_decide_eq_true_2 by done.
    rewrite nodeAt_setVisibility, Hn, bool_decide_eq_true_2 by done.
    by destruct (nodeAt w n).
  - intros m Hne.
    rewrite nodeAt_setVisibility, nodeOf_setVisibility, Hn, bool_decide_eq_false_2
      by congruence.
    by rewrite nodeAt_setVisibility, Hn, bool_decide_eq_false_2 by congruence.
Qed.

(** A resolution with a reused, settled graph view. *)
Lemma placeGraphView_reuse_exact (view : nat) (w : World) (f : TFile)
    (gv : nat) (g : GraphView) (n : nat) :
  file (viewAt w view) = Some f ->
  extension f = js "md" ->
  Settings.isNoteDisabled (settings (plugin w)) (path f) = false ->
  Ignore.matchIgnore (path f) (ignoreLines w) = false ->
  hiddenInEdit w view = false ->
  disabledOnMobile w = false ->
  getOrCreateGraphView view w = (w, Some gv) ->
  object w gv = Some g ->
  setupLeafPromise g = SetupDone ->
  node g = Some n ->
  modeContainerFound (viewAt w view) = true ->
  contains w (ModeContainer view (getMode (viewAt w view))) n = true
  \/ inlineTitleFound (viewAt w view) = true ->
  let w' := placeGraphView view w in
  calls w'
  = calls w ++ PlaceGraphView view
      :: bindCalls g (path f) ++ insertCalls w n view ++ [OnResize (leaf g)]
  /\ object w' gv = Some (placedObject g n (path f) (Some (placeOptions w view)))
  /\ (forall gv', gv <> gv' -> object w' gv' = object w gv')
  /\ nodeAt w' n
     = {| parent := Some (view, getMode (viewAt w view));
          cls_hidden := false; cls_visible := true;
          cls_compact := fst (placeOptions w view);
          cls_simplified := snd (placeOptions w view);
          cls_content := cls_content (nodeAt w n) |}
  /\ (forall m, n <> m -> nodeAt w' m = nodeAt w m)
  /\ graphViews (plugin w') = graphViews (plugin w)
  /\ loop w' = loop w.
Proof.
  intros Hf Hext Hdis Hign Hedit Hmob Hacq Hobj Hdone Hnode Hmc Hins w'.
  subst w'.
  rewrite (placeGraphView_places view w (call (PlaceGraphView view) w) f gv)
    by (done || by apply getOrCreate_call_reuse).
  set (w0 := call (PlaceGraphView view) w).
  set (wv := setVisibility gv true (setVisibility gv true w0)).
  assert (Hobjv : object wv gv = Some g).
  { subst wv. by rewrite !object_setVisibility. }
  assert (Hfp : Footprint w wv).
  { subst wv w0. do 2 apply Footprint_setVisibility. apply Footprint_call, Footprint_refl. }
  destruct (nodeAt_shown gv w0 g n Hobj Hnode) as [Hnv Hmv]. fold wv in Hnv, Hmv.
  change (nodeAt w0) with (nodeAt w) in Hnv, Hmv.
  assert (Hnas : nodeAfterSetup wv g = Some n).
  { unfold nodeAfterSetup. by rewrite Hdone. }
  assert (Hcont : contains wv (ModeContainer view (getMode (viewAt w view))) n
                  = contains w (ModeContainer view (getMode (viewAt w view))) n).
  { apply contains_parent. rewrite Hnv. by destruct (nodeAt w n). }
  destruct (placeTo_exact gv view (Some (placeOptions w view)) wv g n f)
    as (Hc & Ho & Hne & Hn & Hm & Hl); try done.
  { by rewrite (Footprint_viewAt _ _ view Hfp). }
  { by rewrite (Footprint_viewAt _ _ view Hfp). }
  { rewrite (Footprint_viewAt _ _ view Hfp), Hcont. done. }
  rewrite (Footprint_viewAt _ _ view Hfp) in Hn.
  split; [| split; [| split; [| split; [| split; [| split]]]]].
  - rewrite Hc. subst wv. rewrite !calls_setVisibility. subst w0. cbn [call calls].
    rewrite <- app_assoc. cbn [app]. do 2 f_equal.
    unfold placeCalls, setupCalls, insertCalls. rewrite Hdone. cbn [app].
    by rewrite (Footprint_viewAt _ _ view Hfp), Hcont.
  - exact Ho.
  - intros gv' Hgv. rewrite Hne by done. subst wv. by rewrite !object_setVisibility.
  - rewrite Hn, Hnv. unfold placedNode. rewrite Hdone.
    by destruct (placeOptions w view), (nodeAt w n).
  - intros m Hne'. rewrite Hm by done. by apply Hmv.
  - rewrite graphViews_placeTo. subst wv. by rewrite !graphViews_setVisibility.
  - rewrite Hl. unfold setupLoop. rewrite Hdone.
    assert (SameLoop w wv) as ->; [| done].
    subst wv w0. do 2 apply SameLoop_setVisibility. apply SameLoop_call. reflexivity.
Qed.

(** X14.  A resolution that reuses a graph view whose setup is done, with
    every gate open: after the entry of [placeGraphView] the host sees a
    file-scoped [setViewState] and [setGroup] only if the graph view was
    bound to another path, an [insertAfter] only if its node was not in the
    mode container of the view, and one [onResize]; nothing else.  No leaf
    is asked for, no timer is set, the pool is as before.  The node ends in
    the mode container, shown ([hidden] off, [graph-banner-visible] on), with
    the compact and simplified classes, and the graph view with the flags,
    that the mode and the settings ask for. *)
Theorem resolution_reuses_settled_view (view : nat) (w : World) (f : TFile)
    (gv : nat) (g : GraphView) (n : nat) :
  file (viewAt w view) = Some f ->
  extension f = js "md" ->
  Settings.isNoteDisabled (settings (plugin w)) (path f) = false ->
  Ignore.matchIgnore (path f) (ignoreLines w) = false ->
  hiddenInEdit w view = false ->
  disabledOnMobile w = false ->
  getOrCreateGraphView view w = (w, Some gv) ->
  object w gv = Some g ->
  setupLeafPromise g = SetupDone ->
  node g = Some n ->
  modeContainerFound (viewAt w view) = true ->
  contains w (ModeContainer view (getMode (viewAt w view))) n = true
  \/ inlineTitleFound (viewAt w view) = true ->
  let w' := placeGraphView view w in
  calls w'
  = calls w ++ PlaceGraphView view
      :: bindCalls g (path f) ++ insertCalls w n view ++ [OnResize (leaf g)]
  /\ object w' gv = Some (placedObject g n (path f) (Some (placeOptions w view)))
  /\ (forall gv', gv <> gv' -> object w' gv' = object w gv')
  /\ nodeAt w' n
     = {| parent := Some (view, getMode (viewAt w view));
          cls_hidden := false; cls_visible := true;
          cls_compact := fst (placeOptions w view);
          cls_simplified := snd (placeOptions w view);
          cls_content := cls_content (nodeAt w n) |}
  /\ (forall m, n <> m -> nodeAt w' m = nodeAt w m)
  /\ graphViews (plugin w') = graphViews (plugin w)
  /\ loop w' = loop w.
Proof. apply placeGraphView_reuse_exact. Qed.

Lemma resolution_reuses_settled_view_witness :
  calls (placeGraphView 1 Sample.placedA)
  = calls Sample.placedA ++ [PlaceGraphView 1; OnResize 10]
  /\ (let w := placeGraphView 1
                 (Sample.fresh (Sample.capped 1) [] (Sample.twoPanes preview)) in
      calls (placeGraphView 2 w)
      = calls w ++ [PlaceGraphView 2; SetViewState 10 (Some (js "B.md"));
                    SetGroup 10 (js "B.md"); InsertAfter 10 2 preview;
                    OnResize 10]).
Proof.
  split.
  - destruct (resolution_reuses_settled_view 1 Sample.placedA Sample.noteA 10
                {| leaf := 10; node := Some 10%nat; setupLeafPromise := SetupDone;
                   currentFilePath := Some (js "A.md"); compact := false;
                   mobileSimplified := false |} 10) as (Hc & _);
      [reflexivity .. | by left | exact Hc].
  - intros w.
    destruct (resolution_reuses_settled_view 2 w Sample.noteB 10
                {| leaf := 10; node := Some 10%nat; setupLeafPromise := SetupDone;
                   currentFilePath := Some (js "A.md"); compact := false;
                   mobileSimplified := false |} 10) as (Hc & _);
      [reflexivity .. | by right | exact Hc].
Defined.

Lemma find_moved {A : Type} `{EqDecision A} (f f' : A -> bool) (l : list A) (x : A) :
  x ∈ l -> f' x = true ->
  (forall y, y ∈ l -> y <> x -> f' y = f y) ->
  find f l = Some x \/ find f l = None ->
  find f' l = Some x.
Proof.
  induction l as [|a l IH]; intros Hin Hx Hy Hf.
  - by apply elem_of_nil in Hin.
  - cbn in *. destruct (decide (a = x)) as [-> | Hne]; [by rewrite Hx |].
    rewrite (Hy a) by (done || by left).
    destruct (f a) eqn:E.
    + destruct Hf as [[= ?] | ?]; done.
    + apply IH; [| done | | done].
      * apply elem_of_cons in Hin as [? | ?]; [congruence | done].
      * intros y Hyl. apply Hy. by right.
Qed.

Lemma pushNew_changes (w : World) : pushNew w <> w.
Proof.
  intros H. apply (f_equal (fun x => length (graphViews (plugin x)))) in H.
  unfold pushNew in H. cbn in H. rewrite length_app in H. cbn in H. lia.
Qed.

Lemma getOrCreate_reused_in_pool (view : nat) (w : World) (gv : nat) :
  getOrCreateGraphView view w = (w, Some gv) ->
  gv ∈ graphViews (plugin w)
  /\ (find (fun x => isDescendantOf x (ContainerEl view) w) (graphViews (plugin w))
      = Some gv
      \/ find (fun x => isDescendantOf x (ContainerEl view) w) (graphViews (plugin w))
         = None).
Proof.
  intros Hacq. split.
  - destruct (getOrCreate_cases view w) as [(r & E & H) | E]; rewrite E in Hacq.
    + injection Hacq as ->. by apply H.
    + injection Hacq as Hw _. by apply pushNew_changes in Hw.
  - unfold getOrCreateGraphView in Hacq.
    destruct (find _ _) as [gv0|]; [| by right].
    injection Hacq as ->. by left.
Qed.

(** X22.  A placement is stable: once a resolution has placed a reused,
    set-up graph view in a view, the pool answers the next request for that
    view with the same graph view, and resolving the view again, with the
    workspace as it is, makes the host see a single [onResize]: no bind, no
    insertion, no new leaf; the graph view and its node stay exactly as they
    are.  (No other graph view of the pool shares the node.) *)
Theorem placement_is_stable (view : nat) (w : World) (f : TFile)
    (gv : nat) (g : GraphView) (n : nat) :
  file (viewAt w view) = Some f ->
  extension f = js "md" ->
  Settings.isNoteDisabled (settings (plugin w)) (path f) = false ->
  Ignore.matchIgnore (path f) (ignoreLines w) = false ->
  hiddenInEdit w view = false ->
  disabledOnMobile w = false ->
  getOrCreateGraphView view w = (w, Some gv) ->
  object w gv = Some g ->
  setupLeafPromise g = SetupDone ->
  node g = Some n ->
  modeContainerFound (viewAt w view) = true ->
  contains w (ModeContainer view (getMode (viewAt w view))) n = true
  \/ inlineTitleFound (viewAt w view) = true ->
  (forall gv' g', gv' ∈ graphViews (plugin w) -> gv' <> gv ->
                  object w gv' = Some g' -> node g' <> Some n) ->
  let w1 := placeGraphView view w in
  getOrCreateGraphView view w1 = (w1, Some gv)
  /\ calls (placeGraphView view w1)
     = calls w1 ++ [PlaceGraphView view; OnResize (leaf g)]
  /\ object (placeGraphView view w1) gv = object w1 gv
  /\ nodeAt (placeGraphView view w1) n = nodeAt w1 n
  /\ graphViews (plugin (placeGraphView view w1)) = graphViews (plugin w)
  /\ loop (placeGraphView view w1) = loop w.
Proof.
  intros Hf Hext Hdis Hign Hedit Hmob Hacq Hobj Hdone Hnode Hmc Hins Hshare w1.
  destruct (placeGraphView_reuse_exact view w f gv g n)
    as (Hc1 & Ho1 & Hne1 & Hn1 & Hm1 & Hp1 & Hl1); try done.
  fold w1 in Hc1, Ho1, Hne1, Hn1, Hm1, Hp1, Hl1.
  pose proof (Footprint_placeGraphView view w w (Footprint_refl w)) as Hfp.
  fold w1 in Hfp.
  assert (Hv1 : viewAt w1 view = viewAt w view) by apply (Footprint_viewAt _ _ view Hfp).
  assert (Hnode1 : nodeOf w1 gv = Some n) by (by rewrite (nodeOf_object _ _ _ Ho1)).
  assert (Hcont1 : forall el,
             contains w1 el n
             = match el with
               | ContainerEl v => bool_decide (view = v)
               | ModeContainer v m =>
                 bool_decide (view = v) && Mode_eqb (getMode (viewAt w view)) m
               end).
  { intros el. unfold contains. rewrite Hn1. by destruct el. }
  destruct (getOrCreate_reused_in_pool view w gv Hacq) as [Hin Hfind].
  assert (Hacq1 : getOrCreateGraphView view w1 = (w1, Some gv)).
  { unfold getOrCreateGraphView. rewrite Hp1.
    rewrite (find_moved
               (fun x => isDescendantOf x (ContainerEl view) w)
               (fun x => isDescendantOf x (ContainerEl view) w1)
               (graphViews (plugin w)) gv); try done.
    - unfold isDescendantOf. rewrite Hnode1, Hcont1. by apply bool_decide_eq_true_2.
    - intros y Hy Hne. unfold isDescendantOf, nodeOf.
      rewrite Hne1 by done.
      destruct (object w y) as [gy|] eqn:Ey; [| done]. cbn.
      destruct (node gy) as [m|] eqn:Em; [| done].
      apply contains_parent.
      rewrite Hm1; [done |]. intros <-. by apply (Hshare y gy). }
  split; [done |].
  destruct (placeGraphView_reuse_exact view w1 f gv
              (placedObject g n (path f) (Some (placeOptions w view))) n)
    as (Hc2 & Ho2 & Hne2 & Hn2 & Hm2 & Hp2 & Hl2); try done.
  { by rewrite Hv1. }
  { by rewrite (fp_settings _ _ Hfp). }
  { unfold ignoreLines. by rewrite (fp_settings _ _ Hfp), (fp_arrays _ _ Hfp). }
  { unfold hiddenInEdit. by rewrite Hv1, (fp_settings _ _ Hfp). }
  { unfold disabledOnMobile. by rewrite (fp_isMobile _ _ Hfp), (fp_settings _ _ Hfp). }
  { by rewrite Hv1. }
  { left. rewrite Hv1, Hcont1. rewrite bool_decide_eq_true_2 by done.
    by destruct (getMode (viewAt w view)). }
  assert (Hopts : placeOptions w1 view = placeOptions w view).
  { unfold placeOptions. by rewrite Hv1, (fp_settings _ _ Hfp), (fp_isMobile _ _ Hfp). }
  split; [| split; [| split; [| split]]].
  - rewrite Hc2. f_equal. unfold bindCalls, insertCalls.
    cbn [placedObject currentFilePath leaf].
    rewrite bool_decide_eq_true_2 by done.
    rewrite Hv1, Hcont1, bool_decide_eq_true_2 by done.
    by destruct (getMode (viewAt w view)).
  - rewrite Ho2, Ho1, Hopts. unfold placedObject. by destruct (placeOptions w view).
  - rewrite Hn2, Hn1, Hv1, Hopts. reflexivity.
  - by rewrite Hp2.
  - by rewrite Hl2.
Qed.

Lemma placement_is_stable_witness :
  let w := placeGraphView 1
             (Sample.fresh (Sample.capped 1) [] (Sample.twoPanes preview)) in
  let w1 := placeGraphView 2 w in
  getOrCreateGraphView 2 w1 = (w1, Some 10%nat)
  /\ calls (placeGraphView 2 w1) = calls w1 ++ [PlaceGraphView 2; OnResize 10].
Proof.
  intros w w1.
  destruct (placement_is_stable 2 w Sample.noteB 10
              {| leaf := 10; node := Some 10%nat; setupLeafPromise := SetupDone;
                 currentFilePath := Some (js "A.md"); compact := false;
                 mobileSimplified := false |} 10) as (Ha & Hc & _);
    [reflexivity .. | by right | | split; [exact Ha | exact Hc]].
  intros gv' g' Hin Hne. vm_compute in Hin.
  apply elem_of_cons in Hin as [-> | Hin]; [done |]. by apply elem_of_nil in Hin.
Defined.

End ResolveFacts.

(* ===================================================================== *)
(** ** First placement, the mobile gate, the height change *)
(* ===================================================================== *)

Section CreateFacts.
Import Js Plugin Props Frames Exact.

Lemma object_pushNew_new (w : World) :
  object (pushNew w) (nextLeaf (host w))
  = Some {| leaf := nextLeaf (host w); node := None;
            setupLeafPromise :=
              SetupPending (Settings.timeToRemoveLeaf (settings (plugin w)));
            currentFilePath := None; compact := false;
            mobileSimplified := false |}.
Proof. unfold pushNew, newGraphView, object. cbn. by rewrite lookup_insert_eq. Qed.

Lemma object_pushNew_ne (w : World) (gv : nat) :
  nextLeaf (host w) <> gv -> object (pushNew w) gv = object w gv.
Proof.
  intros Hne. unfold pushNew, newGraphView, object. cbn.
  by rewrite lookup_insert_ne.
Qed.

Lemma setVisibility_pushNew (w : World) (b : bool) :
  setVisibility (nextLeaf (host w)) b (pushNew w) = pushNew w.
Proof. unfold setVisibility. by rewrite nodeOf_pushNew. Qed.

(** X15.  The first placement in a view, from lazy creation to the banner
    under the title.  When no graph view of the pool can be reused and the
    pool is below its capacity, a resolution with every gate open asks the
    host for one new leaf, sets it up as a local graph, removes the leaf
    from the workspace (after [timeToRemoveLeaf] by a timer, at once when
    that is not positive), binds it to the note, inserts its node under the
    title unless it is already in the mode container, and calls [onResize]:
    these host calls, in this order, and no others.  The new graph view is
    the last of the pool, bound to the note, with the flags the mode and the
    settings ask for; its node has the classes [graph-banner-content] and
    [graph-banner-visible].  The graph views and nodes that existed are
    untouched, and at most the removal timer is added. *)
Theorem resolution_creates_and_places (view : nat) (w : World) (f : TFile) :
  file (viewAt w view) = Some f ->
  extension f = js "md" ->
  Settings.isNoteDisabled (settings (plugin w)) (path f) = false ->
  Ignore.matchIgnore (path f) (ignoreLines w) = false ->
  hiddenInEdit w view = false ->
  disabledOnMobile w = false ->
  noneAttachedTo view w ->
  noneDetached w ->
  (Z.of_nat (length (graphViews (plugin w)))
   < orZ (Settings.maxGraphViews (settings (plugin w)))
         Settings.DEFAULT_maxGraphViews)%Z ->
  nextLeaf (host w) ∉ noViewContent (host w) ->
  modeContainerFound (viewAt w view) = true ->
  contains w (ModeContainer view (getMode (viewAt w view))) (nextLeaf (host w)) = true
  \/ inlineTitleFound (viewAt w view) = true ->
  let lf := nextLeaf (host w) in
  let t := Settings.timeToRemoveLeaf (settings (plugin w)) in
  let w' := placeGraphView view w in
  calls w'
  = calls w
    ++ [PlaceGraphView view; GetLeaf lf; SetViewState lf None;
        (if greaterThanZero t
         then SetTimeout (nextTimer (loop w)) (CbRemoveChild lf) (default 0%Z t)
         else RemoveChild lf);
        SetViewState lf (Some (path f)); SetGroup lf (path f)]
    ++ insertCalls w lf view ++ [OnResize lf]
  /\ graphViews (plugin w') = graphViews (plugin w) ++ [lf]
  /\ object w' lf
     = Some {| leaf := lf; node := Some lf; setupLeafPromise := SetupDone;
               currentFilePath := Some (path f);
               compact := fst (placeOptions w view);
               mobileSimplified := snd (placeOptions w view) |}
  /\ (forall gv, lf <> gv -> object w' gv = object w gv)
  /\ nodeAt w' lf
     = {| parent := Some (view, getMode (viewAt w view));
          cls_hidden := cls_hidden (nodeAt w lf); cls_visible := true;
          cls_compact := fst (placeOptions w view);
          cls_simplified := snd (placeOptions w view);
          cls_content := true |}
  /\ (forall m, lf <> m -> nodeAt w' m = nodeAt w m)
  /\ loop w'
     = (if greaterThanZero t
        then addedTimer (CbRemoveChild lf) (default 0%Z t) (loop w)
        else loop w).
Proof.
  intros Hf Hext Hdis Hign Hedit Hmob Hatt Hdet Hcap Hvc Hmc Hins lf t w'.
  subst w'.
  set (w0 := call (PlaceGraphView view) w).
  assert (Hacq : getOrCreateGraphView view w0 = (pushNew w0, Some lf)).
  { by apply (getOrCreate_new view w0). }
  rewrite (placeGraphView_places view w (pushNew w0) f lf) by done.
  assert (Hsv : forall b, setVisibility lf b (pushNew w0) = pushNew w0)
    by (intros b; apply (setVisibility_pushNew w0 b)).
  rewrite !Hsv.
  set (newg := {| leaf := lf; node := None; setupLeafPromise := SetupPending t;
                  currentFilePath := None; compact := false;
                  mobileSimplified := false |}).
  assert (Hobj : object (pushNew w0) lf = Some newg) by apply (object_pushNew_new w0).
  assert (Hnas : nodeAfterSetup (pushNew w0) newg = Some lf).
  { unfold nodeAfterSetup. cbn. by rewrite bool_decide_eq_false_2. }
  destruct (placeTo_exact lf view (Some (placeOptions w view)) (pushNew w0) newg lf f
              Hobj Hnas Hf Hmc Hins)
    as (Hc & Ho & Hne & Hn & Hm & Hl).
  split; [| split; [| split; [| split; [| split; [| split]]]]].
  - rewrite Hc, (calls_pushNew w0). subst w0. cbn [call calls].
    rewrite <- !app_assoc. cbn [app]. do 4 f_equal.
    unfold placeCalls, setupCalls, bindCalls. subst newg.
    cbn [setupLeafPromise leaf currentFilePath].
    rewrite (bool_decide_eq_false_2 (None = Some (path f))) by done.
    destruct (greaterThanZero t); [reflexivity |].
    rewrite bool_decide_eq_true_2; [reflexivity |].
    cbn. set_solver.
  - rewrite graphViews_placeTo. reflexivity.
  - rewrite Ho. unfold placedObject. by destruct (placeOptions w view).
  - intros gv Hgv. rewrite Hne by done. by apply (object_pushNew_ne w0).
  - rewrite Hn. unfold placedNode. subst newg. cbn [setupLeafPromise].
    rewrite (nodeAt_pushNew w0). by destruct (placeOptions w view).
  - intros m Hlm. rewrite Hm by done. apply (nodeAt_pushNew w0).
  - rewrite Hl. unfold setupLoop. subst newg. cbn [setupLeafPromise leaf].
    reflexivity.
Qed.

Lemma resolution_creates_and_places_witness :
  calls (placeGraphView 1 Sample.start)
  = [PlaceGraphView 1; GetLeaf 10; SetViewState 10 None;
     SetTimeout 0 (CbRemoveChild 10) 100;
     SetViewState 10 (Some (js "A.md")); SetGroup 10 (js "A.md");
     InsertAfter 10 1 preview; OnResize 10]
  /\ graphViews (plugin (placeGraphView 1 Sample.start)) = [10%nat].
Proof.
  destruct (resolution_creates_and_places 1 Sample.start Sample.noteA)
    as (Hc & Hp & _);
    [reflexivity | reflexivity | reflexivity | reflexivity | reflexivity
    | reflexivity | constructor | constructor | by vm_compute | set_solver
    | reflexivity | by right | split; [exact Hc | exact Hp]].
Defined.

(** With a gate of the mode or of the platform closed, a resolution of a
    note that is neither disabled nor ignored shows the graph view and then
    hides it. *)
Lemma placeGraphView_gated (view : nat) (w : World) (f : TFile) :
  file (viewAt w view) = Some f ->
  extension f = js "md" ->
  Settings.isNoteDisabled (settings (plugin w)) (path f) = false ->
  Ignore.matchIgnore (path f) (ignoreLines w) = false ->
  hiddenInEdit w view || disabledOnMobile w = true ->
  placeGraphView view w = hiddenForm view (Some true) w.
Proof.
  intros Hfile Hext Hdis Hign Hgate. unfold placeGraphView, hiddenForm.
  set (w0 := call (PlaceGraphView view) w).
  change (viewAt w0 view) with (viewAt w view).
  change (settings (plugin w0)) with (settings (plugin w)).
  change (ignoreLines w0) with (ignoreLines w).
  rewrite Hfile, Hext. rewrite bool_decide_eq_true_2 by done. cbn [negb].
  rewrite Hdis, Hign.
  destruct (getOrCreateGraphView view w0) as [w1 [gv|]] eqn:E; [| done].
  cbn [negb].
  assert (Hfp : Footprint w (setVisibility gv true w1)).
  { rewrite (getOrCreate_fst _ _ _ _ E).
    apply Footprint_setVisibility, Footprint_getOrCreate.
    apply Footprint_call, Footprint_refl. }
  rewrite (Footprint_viewAt _ _ view Hfp), (fp_settings _ _ Hfp), (fp_isMobile _ _ Hfp).
  unfold hiddenInEdit, disabledOnMobile in Hgate.
  destruct (Mode_eqb (getMode (viewAt w view)) source
            && bool_decide (orS (Settings.showInEditMode (settings (plugin w)))
                              Settings.DEFAULT_showInEditMode = js "hidden"));
    [reflexivity |].
  cbn [orb] in Hgate. by rewrite Hgate.
Qed.

(** With its gates open [applyBannerHeight] goes on to [forceRefresh]. *)
Lemma applyBannerHeight_refreshes (view : nat) (w w1 : World) (f : TFile) (gv : nat) :
  activeView (host w) = Some view ->
  file (viewAt w view) = Some f ->
  extension f = js "md" ->
  Settings.isNoteDisabled (settings (plugin w)) (path f) = false ->
  Ignore.matchIgnore (path f) (ignoreLines w) = false ->
  hiddenInEdit w view = false ->
  disabledOnMobile w = false ->
  getOrCreateGraphView view (call SetBannerHeight w) = (w1, Some gv) ->
  applyBannerHeight w =
  forceRefresh gv view (Some (placeOptions w view)) (setVisibility gv true w1).
Proof.
  intros Hact Hfile Hext Hdis Hign Hedit Hmob E. unfold applyBannerHeight.
  set (w0 := call SetBannerHeight w) in *.
  change (activeView (host w0)) with (activeView (host w)). rewrite Hact.
  change (viewAt w0 view) with (viewAt w view).
  change (settings (plugin w0)) with (settings (plugin w)).
  change (ignoreLines w0) with (ignoreLines w).
  rewrite Hfile, Hext. rewrite bool_decide_eq_true_2 by done. cbn [negb].
  rewrite Hdis, Hign, E.
  assert (Hfp : Footprint w w1).
  { rewrite (getOrCreate_fst _ _ _ _ E).
    apply Footprint_getOrCreate. apply Footprint_call, Footprint_refl. }
  rewrite (Footprint_viewAt _ _ view Hfp), (fp_settings _ _ Hfp), (fp_isMobile _ _ Hfp).
  unfold hiddenInEdit in Hedit. unfold disabledOnMobile in Hmob.
  rewrite Hedit, Hmob. reflexivity.
Qed.

(** X17.  Changing the banner height re-binds the banner of the active
    note, and does nothing to a banner that is switched off.  For an active
    markdown note with every gate open whose graph view is reused and set
    up, [applyBannerHeight] writes the style property, then makes the host
    reinitialise the graph leaf for the note even though it was bound to it
    already (one file-scoped [setViewState] and [setGroup]), inserts the
    node only if it was outside the mode container, and calls [onResize].
    For a per-note disabled or ignored note it only writes the style
    property: no graph view is acquired, hidden or created. *)
Theorem height_change_rebinds_active_banner (w : World) :
  (forall view f gv g n,
     activeView (host w) = Some view ->
     file (viewAt w view) = Some f ->
     extension f = js "md" ->
     Settings.isNoteDisabled (settings (plugin w)) (path f) = false ->
     Ignore.matchIgnore (path f) (ignoreLines w) = false ->
     hiddenInEdit w view = false ->
     disabledOnMobile w = false ->
     getOrCreateGraphView view w = (w, Some gv) ->
     object w gv = Some g ->
     setupLeafPromise g = SetupDone ->
     node g = Some n ->
     modeContainerFound (viewAt w view) = true ->
     contains w (ModeContainer view (getMode (viewAt w view))) n = true
     \/ inlineTitleFound (viewAt w view) = true ->
     calls (applyBannerHeight w)
     = calls w ++ [SetBannerHeight; SetViewState (leaf g) (Some (path f));
                   SetGroup (leaf g) (path f)]
         ++ insertCalls w n view ++ [OnResize (leaf g)]
     /\ object (applyBannerHeight w) gv
        = Some (placedObject g n (path f) (Some (placeOptions w view)))
     /\ graphViews (plugin (applyBannerHeight w)) = graphViews (plugin w)
     /\ loop (applyBannerHeight w) = loop w)
  /\ (forall view f,
        activeView (host w) = Some view ->
        file (viewAt w view) = Some f ->
        Settings.isNoteDisabled (settings (plugin w)) (path f) = true
        \/ Ignore.matchIgnore (path f) (ignoreLines w) = true ->
        applyBannerHeight w = call SetBannerHeight w).
Proof.
  split.
  - intros view f gv g n Hact Hf Hext Hdis Hign Hedit Hmob Hacq Hobj Hdone Hnode Hmc Hins.
    rewrite (applyBannerHeight_refreshes view w (call SetBannerHeight w) f gv)
      by (done || by apply getOrCreate_call_reuse).
    set (w0 := call SetBannerHeight w).
    unfold forceRefresh.
    set (wv := updObject gv (setCurrentFilePath None) (setVisibility gv true w0)).
    set (g0 := setCurrentFilePath None g).
    assert (Hobjv : object wv gv = Some g0).
    { subst wv. apply object_updObject. by rewrite object_setVisibility. }
    assert (Hfp : Footprint w wv).
    { subst wv w0. apply Footprint_updObject, Footprint_setVisibility.
      apply Footprint_call, Footprint_refl. }
    assert (Hnas : nodeAfterSetup wv g0 = Some n).
    { unfold nodeAfterSetup. cbn. by rewrite Hdone. }
    assert (Hnv : parent (nodeAt wv n) = parent (nodeAt w n)).
    { subst wv. change (nodeAt (updObject _ _ ?x) n) with (nodeAt x n).
      rewrite nodeAt_setVisibility. case_bool_decide; reflexivity. }
    assert (Hcont : contains wv (ModeContainer view (getMode (viewAt w view))) n
                    = contains w (ModeContainer view (getMode (viewAt w view))) n).
    { by apply contains_parent. }
    destruct (placeTo_exact gv view (Some (placeOptions w view)) wv g0 n f)
      as (Hc & Ho & Hne & Hn & Hm & Hl); try done.
    { by rewrite (Footprint_viewAt _ _ view Hfp). }
    { by rewrite (Footprint_viewAt _ _ view Hfp). }
    { rewrite (Footprint_viewAt _ _ view Hfp), Hcont. done. }
    split; [| split; [| split]].
    + rewrite Hc. subst wv. rewrite calls_updObject, calls_setVisibility.
      subst w0. cbn [call calls]. rewrite <- app_assoc. cbn [app]. do 2 f_equal.
      unfold placeCalls, setupCalls, bindCalls, insertCalls. subst g0.
      cbn [setCurrentFilePath setupLeafPromise currentFilePath leaf].
      rewrite Hdone. cbn [app].
      rewrite bool_decide_eq_false_2 by done.
      by rewrite (Footprint_viewAt _ _ view Hfp), Hcont.
    + rewrite Ho. unfold placedObject. by destruct (placeOptions w view).
    + rewrite graphViews_placeTo. subst wv. cbn [updObject withPlugin plugin set_objects graphViews].
      by rewrite graphViews_setVisibility.
    + rewrite Hl. unfold setupLoop. subst g0.
      cbn [setCurrentFilePath setupLeafPromise].
      rewrite Hdone.
      assert (SameLoop w wv) as ->; [| done].
      subst wv w0. apply SameLoop_updObject, SameLoop_setVisibility, SameLoop_call.
      reflexivity.
  - intros view f Hact Hf Hoff. unfold applyBannerHeight.
    set (w0 := call SetBannerHeight w).
    change (activeView (host w0)) with (activeView (host w)). rewrite Hact.
    change (viewAt w0 view) with (viewAt w view).
    change (settings (plugin w0)) with (settings (plugin w)).
    change (ignoreLines w0) with (ignoreLines w).
    rewrite Hf.
    destruct (negb _); [done |].
    destruct (Settings.isNoteDisabled _ _); [done |].
    destruct Hoff as [? | ->]; done.
Qed.

Lemma height_change_rebinds_active_banner_witness :
  calls (applyBannerHeight Sample.placedA)
  = calls Sample.placedA
    ++ [SetBannerHeight; SetViewState 10 (Some (js "A.md"));
        SetGroup 10 (js "A.md"); OnResize 10]
  /\ applyBannerHeight Sample.mutedA = call SetBannerHeight Sample.mutedA.
Proof.
  split.
  - destruct (height_change_rebinds_active_banner Sample.placedA) as [H _].
    destruct (H 1%nat Sample.noteA 10%nat
                {| leaf := 10; node := Some 10%nat; setupLeafPromise := SetupDone;
                   currentFilePath := Some (js "A.md"); compact := false;
                   mobileSimplified := false |} 10%nat) as (Hc & _);
      [reflexivity .. | by left | exact Hc].
  - destruct (height_change_rebinds_active_banner Sample.mutedA) as [_ H].
    apply (H 1%nat Sample.noteA); [reflexivity | reflexivity | by left].
Defined.

End CreateFacts.

(* ===================================================================== *)
(** ** Teardown of the banners *)
(* ===================================================================== *)

Section UnloadFacts.
Import Js Plugin Props Frames.

(** [detach] takes its node out of the document and puts no node in. *)
Lemma detach_nodes gv w :
  (forall m, parent (nodeAt w m) = None -> parent (nodeAt (detach gv w) m) = None)
  /\ (forall m, cls_content (nodeAt w m) = false ->
                cls_content (nodeAt (detach gv w) m) = false)
  /\ (forall g n, object w gv = Some g -> node g = Some n ->
                  parent (nodeAt (detach gv w) n) = None
                  /\ cls_content (nodeAt (detach gv w) n) = false
                  /\ NodeRemove n ∈ calls (detach gv w)).
Proof.
  unfold detach. destruct (object w gv) as [g|] eqn:E; [| done].
  destruct (node g) as [n|] eqn:En.
  - split; [| split].
    + intros m Hm. rewrite nodeAt_call, nodeAt_updNode.
      case_bool_decide; [done | exact Hm].
    + intros m Hm. rewrite nodeAt_call, nodeAt_updNode.
      case_bool_decide; [done | exact Hm].
    + intros g0 n0 [= <-] Hn0. rewrite En in Hn0. injection Hn0 as <-.
      rewrite nodeAt_call, nodeAt_updNode, bool_decide_eq_true_2 by done.
      split; [done |]. split; [done |].
      cbn [call calls]. apply elem_of_app. right. by left.
  - split; [done |]. split; [done |]. intros ? ? [= <-]. congruence.
Qed.

Lemma detach_calls gv w c : c ∈ calls w -> c ∈ calls (detach gv w).
Proof.
  destruct (detach_spec gv w) as (_ & _ & _ & (cs & ->) & _).
  intros H. apply elem_of_app. by left.
Qed.

Lemma detach_all_nodes pool w :
  let w' := fold_left (fun w gv => detach gv w) pool w in
  (forall m, parent (nodeAt w m) = None -> parent (nodeAt w' m) = None)
  /\ (forall m, cls_content (nodeAt w m) = false -> cls_content (nodeAt w' m) = false)
  /\ (forall c, c ∈ calls w -> c ∈ calls w')
  /\ (forall gv g n, gv ∈ pool -> object w gv = Some g -> node g = Some n ->
                     parent (nodeAt w' n) = None
                     /\ cls_content (nodeAt w' n) = false
                     /\ NodeRemove n ∈ calls w').
Proof.
  revert w. induction pool as [|gv pool IH]; intros w; cbn [fold_left].
  - split; [done |]. split; [done |]. split; [done |].
    intros ? ? ? H. by apply elem_of_nil in H.
  - destruct (detach_nodes gv w) as (Hp1 & Hc1 & Hd1).
    destruct (detach_spec gv w) as (Hpl & _).
    destruct (IH (detach gv w)) as (Hp2 & Hc2 & Hk2 & Hd2). cbn zeta in *.
    split; [intros m Hm; by apply Hp2, Hp1 |].
    split; [intros m Hm; by apply Hc2, Hc1 |].
    split; [intros c Hc; by apply Hk2, detach_calls |].
    intros gv' g n Hin Hobj Hnode. apply elem_of_cons in Hin as [-> | Hin].
    + destruct (Hd1 g n Hobj Hnode) as (Ha & Hb & Hc).
      split; [by apply Hp2 |]. split; [by apply Hc2 | by apply Hk2].
    + apply (Hd2 gv' g n Hin); [| done]. unfold object in *. by rewrite Hpl.
Qed.

Lemma onunload_nothing_left (w : World) :
  layoutTimer (plugin w) = None -> graphViews (plugin w) = [] -> onunload w = w.
Proof.
  destruct w as [[s a na pool o lt] h l c]. cbn. intros -> ->. reflexivity.
Qed.

(** The step of [onunload] before the graph views are detached. *)
Lemma onunload_first_step (w : World) :
  let w1 := match layoutTimer (plugin w) with
            | Some id => withPlugin (set_layoutTimer None) (clearTimeout id w)
            | None => w
            end in
  layoutTimer (plugin w1) = None
  /\ graphViews (plugin w1) = graphViews (plugin w)
  /\ objects (plugin w1) = objects (plugin w)
  /\ nodes (host w1) = nodes (host w).
Proof. cbn zeta. by destruct (layoutTimer (plugin w)) eqn:E. Qed.

(** X18.  [onunload] takes every banner out of the notes: for each graph
    view of the pool that has a node, the host is asked to remove the node,
    the node ends outside every container, without the class
    [graph-banner-content], so the graph view is a descendant of no element;
    [_layoutTimer] is cleared and the pool is emptied.  Unloading again
    changes nothing. *)
Theorem unload_takes_banners_out (w : World) :
  (forall gv g n,
     gv ∈ graphViews (plugin w) -> object w gv = Some g -> node g = Some n ->
     NodeRemove n ∈ calls (onunload w)
     /\ parent (nodeAt (onunload w) n) = None
     /\ cls_content (nodeAt (onunload w) n) = false
     /\ forall el, isDescendantOf gv el (onunload w) = false)
  /\ layoutTimer (plugin (onunload w)) = None
  /\ graphViews (plugin (onunload w)) = []
  /\ onunload (onunload w) = onunload w.
Proof.
  destruct (onunload_first_step w) as (Hlt & Hpool & Hobjs & Hnodes).
  cbn zeta in *. unfold onunload at 1 2 3 4 5 6.
  set (w1 := match layoutTimer (plugin w) with
             | Some id => withPlugin (set_layoutTimer None) (clearTimeout id w)
             | None => w
             end) in *.
  destruct (detach_all_spec (graphViews (plugin w1)) w1) as (Hp2 & _).
  destruct (detach_all_nodes (graphViews (plugin w1)) w1) as (_ & _ & _ & Hd).
  cbn zeta in *.
  set (w2 := fold_left (fun w gv => detach gv w) (graphViews (plugin w1)) w1) in *.
  assert (Hlt2 : layoutTimer (plugin (withPlugin (set_graphViews []) w2)) = None).
  { cbn. by rewrite Hp2. }
  split; [| split; [done | split; [done |]]].
  - intros gv g n Hin Hobj Hnode.
    destruct (Hd gv g n) as (Ha & Hb & Hc).
    { by rewrite Hpool. }
    { unfold object. by rewrite Hobjs. }
    { done. }
    split; [done |]. split; [done |]. split; [done |].
    intros el. unfold isDescendantOf, nodeOf, object. cbn. rewrite Hp2, Hobjs.
    unfold object in Hobj. rewrite Hobj. cbn. rewrite Hnode.
    unfold contains.
    change (nodeAt (withPlugin (set_graphViews []) w2) n) with (nodeAt w2 n).
    by rewrite Ha.
  - fold (onunload w). apply onunload_nothing_left.
    + unfold onunload. fold w1. fold w2. exact Hlt2.
    + reflexivity.
Qed.

Lemma unload_takes_banners_out_witness :
  NodeRemove 10 ∈ calls (onunload Sample.placedA)
  /\ parent (nodeAt (onunload Sample.placedA) 10) = None
  /\ onunload (onunload Sample.placedA) = onunload Sample.placedA.
Proof.
  destruct (unload_takes_banners_out Sample.placedA) as (H & _ & _ & Hi).
  destruct (H 10%nat
              {| leaf := 10; node := Some 10%nat; setupLeafPromise := SetupDone;
                 currentFilePath := Some (js "A.md"); compact := false;
                 mobileSimplified := false |} 10%nat)
    as (Ha & Hb & _); [by left | reflexivity | reflexivity |].
  split; [exact Ha |]. split; [exact Hb | exact Hi].
Defined.

End UnloadFacts.

(* ===================================================================== *)
(** ** Interactive mode *)
(* ===================================================================== *)

Section InteractiveFacts.
Import Interactive.

Lemma Consistent_afterSetupNode : Consistent afterSetupNode.
Proof. by repeat split. Qed.

Lemma onOverlayPointerUp_spec (b : Banner) :
  Consistent b ->
  Consistent (onOverlayPointerUp b) /\ isActive (onOverlayPointerUp b) = true.
Proof.
  intros (Hl & Hc & Ho). unfold onOverlayPointerUp.
  destruct (isActive b) eqn:E.
  - split; [| done]. unfold Consistent. by rewrite E.
  - split; [| done]. unfold Consistent. cbn. by rewrite Hl.
Qed.

Lemma onDocumentPointerDown_spec (inside : bool) (b : Banner) :
  Consistent b ->
  Consistent (onDocumentPointerDown inside b)
  /\ (inside = true -> onDocumentPointerDown inside b = b)
  /\ (inside = false ->
      isActive (onDocumentPointerDown inside b) = false
      /\ listeners (onDocumentPointerDown inside b) = []).
Proof.
  intros (Hl & Hc & Ho). unfold onDocumentPointerDown.
  destruct (isActive b) eqn:E; rewrite Hl; cbn [fold_left].
  - rewrite Hl. cbn [existsb]. rewrite Nat.eqb_refl. cbn [orb].
    unfold listener. rewrite E. cbn [negb].
    destruct inside.
    + split; [| split; [done | done]]. unfold Consistent. by rewrite E.
    + assert (Hf : listeners (abort (Nat.pred (nextListener b)) (setActive false b)) = []).
      { cbn. rewrite Hl. cbn. by rewrite Nat.eqb_refl. }
      split; [| split; [done | done]].
      unfold Consistent. by rewrite Hf.
  - split; [| split; [done |]].
    + unfold Consistent. by rewrite E.
    + intros _. by split.
Qed.

Lemma Consistent_handle (e : Pointer) (b : Banner) :
  Consistent b -> Consistent (handle e b).
Proof.
  intros H. destruct e as [|inside]; cbn [handle].
  - by apply onOverlayPointerUp_spec.
  - by apply onDocumentPointerDown_spec.
Qed.

Lemma Consistent_handleAll (es : list Pointer) (b : Banner) :
  Consistent b -> Consistent (handleAll es b).
Proof.
  revert b. induction es as [|e es IH]; intros b H; [done |].
  cbn [handleAll fold_left]. apply IH. by apply Consistent_handle.
Qed.

(** X19.  Interactive mode never leaks a listener.  After any sequence of
    pointer events on a banner that [_setupNode] has set up, the document
    carries exactly one [pointerdown] listener of the banner while it is in
    interactive mode and none while it is not; the class
    [graph-banner-active] is on exactly in interactive mode, and the overlay
    lets pointer events through ([pointerEvents] is [none]) exactly then.
    From any such state a [pointerup] on the overlay ends in interactive
    mode, a [pointerdown] inside the node changes nothing, and a
    [pointerdown] outside it ends out of interactive mode with the listener
    removed. *)
Theorem interactive_mode_never_leaks (es : list Pointer) :
  let b := after es in
  length (listeners b) = (if isActive b then 1 else 0)%nat
  /\ cls_active b = isActive b
  /\ overlay_pointerEvents b = (if isActive b then pe_none else pe_auto)
  /\ isActive (handle OverlayPointerUp b) = true
  /\ handle (DocumentPointerDown true) b = b
  /\ isActive (handle (DocumentPointerDown false) b) = false
  /\ listeners (handle (DocumentPointerDown false) b) = [].
Proof.
  intros b.
  assert (H : Consistent b).
  { apply Consistent_handleAll, Consistent_afterSetupNode. }
  destruct (onOverlayPointerUp_spec b H) as [_ Hup].
  destruct (onDocumentPointerDown_spec true b H) as (_ & Hin & _).
  destruct (onDocumentPointerDown_spec false b H) as (_ & _ & Hout).
  destruct H as (Hl & Hc & Ho).
  split; [rewrite Hl; by destruct (isActive b) |].
  split; [done |]. split; [done |]. split; [done |].
  split; [by apply Hin |]. by apply Hout.
Qed.

End InteractiveFacts.

(* ===================================================================== *)
(** ** What a resolution never does; what the steps of a session keep *)
(* ===================================================================== *)

Section WfFacts.
Import Js Plugin Props Frames Exact Invariants.

Lemma nextLeaf_getOrCreate (view : nat) (w : World) :
  (nextLeaf (host w) <= nextLeaf (host (fst (getOrCreateGraphView view w))))%nat.
Proof.
  destruct (getOrCreate_cases view w) as [(r & -> & _) | ->]; cbn; lia.
Qed.

Lemma placeGraphView_pool (view : nat) (w : World) :
  graphViews (plugin (placeGraphView view w)) = graphViews (plugin w)
  \/ graphViews (plugin (placeGraphView view w))
     = graphViews (plugin w) ++ [nextLeaf (host w)].
Proof.
  assert (H0 : graphViews (plugin (fst (getOrCreateGraphView view
                                          (call (PlaceGraphView view) w))))
               = graphViews (plugin w)
               \/ graphViews (plugin (fst (getOrCreateGraphView view
                                             (call (PlaceGraphView view) w))))
                  = graphViews (plugin w) ++ [nextLeaf (host w)]).
  { destruct (getOrCreate_pool view (call (PlaceGraphView view) w))
      as [_ [Hp | [Hp _]]]; [by left | by right]. }
  unfold placeGraphView. set (w0 := call (PlaceGraphView view) w) in *.
  destruct (file _); [| by left].
  destruct (negb _); [by left |].
  destruct (Settings.isNoteDisabled _ _).
  - destruct (getOrCreateGraphView view w0) as [w1 [gv|]] eqn:E; cbn [fst] in H0;
      by rewrite ?graphViews_setVisibility.
  - destruct (getOrCreateGraphView view w0) as [w1 [gv|]] eqn:E; cbn [fst] in H0;
      [| done].
    repeat case_match;
      by rewrite ?graphViews_placeTo, ?graphViews_setVisibility.
Qed.

(** X23.  What a resolution never does.  [placeGraphView] leaves the
    settings, the stored arrays, [_layoutTimer], the markdown views, the
    active view, the list of markdown leaves and the clock as they are; it
    enters no other resolution; it sets at most one timer, and that one a
    leaf removal, never a debounce timer; it cancels no timer; and it removes
    no graph view from the pool, adding at most one, at the end. *)
Theorem resolution_leaves_the_rest_alone (view : nat) (w : World) :
  let w' := placeGraphView view w in
  Footprint w w'
  /\ AtMostOneRemoval (loop w) (loop w')
  /\ pendingDebounce w' = pendingDebounce w
  /\ (exists cs, calls w' = calls w ++ PlaceGraphView view :: cs
                 /\ forallb notResolution cs = true)
  /\ (graphViews (plugin w') = graphViews (plugin w)
      \/ graphViews (plugin w') = graphViews (plugin w) ++ [nextLeaf (host w)]).
Proof.
  intros w'. subst w'.
  split; [apply Footprint_placeGraphView, Footprint_refl |].
  pose proof (placeGraphView_loop view w) as Hl.
  split; [done |]. split.
  - destruct (AtMostOneRemoval_weight _ _ Hl) as (_ & Hd & _). exact Hd.
  - split; [| apply placeGraphView_pool].
    destruct (placeGraphView_calls view w) as (cs & Hc & Hn).
    exists cs. split; [| done]. rewrite Hc. cbn [call calls].
    by rewrite <- app_assoc.
Qed.

(** *** Graph views and their nodes *)

Lemma PoolWf_same (w w' : World) :
  graphViews (plugin w') = graphViews (plugin w) ->
  objects (plugin w') = objects (plugin w) ->
  PoolWf w -> PoolWf w'.
Proof. unfold PoolWf, object. by intros -> ->. Qed.

Lemma PoolWf_updObject (gv : nat) (f : GraphView -> GraphView) (w : World) :
  (forall g, object w gv = Some g ->
             leaf (f g) = leaf g
             /\ (node (f g) = node g \/ node (f g) = None
                 \/ node (f g) = Some (leaf g))) ->
  PoolWf w -> PoolWf (updObject gv f w).
Proof.
  intros Hf [Hin Hwf]. split.
  - intros gv' Hgv'. specialize (Hin gv' Hgv').
    unfold object, updObject in *. cbn.
    destruct (decide (gv = gv')) as [<- | Hne].
    + rewrite lookup_alter_eq. destruct Hin as [g ->]. by eexists.
    + by rewrite lookup_alter_ne.
  - intros gv' g' Hobj. destruct (decide (gv = gv')) as [<- | Hne].
    + unfold object, updObject in Hobj. cbn in Hobj.
      rewrite lookup_alter_eq in Hobj.
      destruct (objects (plugin w) !! gv) as [g|] eqn:E; [| done].
      injection Hobj as <-.
      destruct (Hwf gv g E) as [Hleaf Hnode].
      destruct (Hf g E) as [Hl' Hn'].
      split; [congruence |].
      destruct Hn' as [-> | [-> | ->]]; [done | by left | right; by rewrite Hleaf].
    + rewrite object_updObject_ne in Hobj by done. by apply Hwf.
Qed.

Lemma PoolWf_setVisibility gv b w : PoolWf w -> PoolWf (setVisibility gv b w).
Proof.
  apply PoolWf_same; [apply graphViews_setVisibility |].
  unfold setVisibility. by destruct (nodeOf w gv).
Qed.

Lemma PoolWf_setCompact gv b w : PoolWf w -> PoolWf (setCompact gv b w).
Proof.
  intros H. unfold setCompact.
  assert (H1 : PoolWf (updObject gv (setCompactField b) w)).
  { apply PoolWf_updObject; [| done]. intros g _. split; [done | by left]. }
  destruct (nodeOf _ gv); [| done]. by apply (PoolWf_same _ _ eq_refl eq_refl).
Qed.

Lemma PoolWf_setMobileSimplified gv b w :
  PoolWf w -> PoolWf (setMobileSimplified gv b w).
Proof.
  intros H. unfold setMobileSimplified.
  assert (H1 : PoolWf (updObject gv (setMobileSimplifiedField b) w)).
  { apply PoolWf_updObject; [| done]. intros g _. split; [done | by left]. }
  destruct (nodeOf _ gv); [| done]. by apply (PoolWf_same _ _ eq_refl eq_refl).
Qed.

Lemma PoolWf_resumeSetupLeaf gv w : PoolWf w -> PoolWf (resumeSetupLeaf gv w).
Proof.
  intros H. unfold resumeSetupLeaf.
  destruct (object w gv) as [g|] eqn:E; [| done].
  destruct (setupLeafPromise g) as [t|]; [| done].
  set (n := if bool_decide _ then None else Some (leaf g)).
  assert (H1 : PoolWf (updObject gv (setNodeField n) w)).
  { apply PoolWf_updObject; [| done]. intros g' Hg'. rewrite E in Hg'.
    injection Hg' as <-. split; [done |]. subst n. cbn.
    case_bool_decide; [right; by left | right; by right]. }
  assert (H2 : PoolWf (setupNode gv (updObject gv (setNodeField n) w))).
  { unfold setupNode. destruct (nodeOf _ gv); [| done].
    by apply (PoolWf_same _ _ eq_refl eq_refl). }
  destruct (greaterThanZero t).
  - by apply (PoolWf_same _ _ eq_refl eq_refl).
  - unfold removeChild. case_match; [| done].
    by apply (PoolWf_same _ _ eq_refl eq_refl).
Qed.

Lemma PoolWf_bindTo gv p w : PoolWf w -> PoolWf (bindTo gv p w).
Proof.
  intros H. unfold bindTo. destruct (object w gv) as [g|] eqn:E; [| done].
  destruct (negb _); [| done].
  apply PoolWf_updObject.
  - intros g' _. split; [done | by left].
  - by apply (PoolWf_same w).
Qed.

Lemma PoolWf_showAndResize gv n opts w :
  PoolWf w -> PoolWf (showAndResize gv n opts w).
Proof.
  intros H. unfold showAndResize.
  assert (H1 : PoolWf (updNode n (setClassVisible true) w))
    by (by apply (PoolWf_same w)).
  destruct opts as [[c m]|].
  - assert (H2 : PoolWf (setMobileSimplified gv m
                           (setCompact gv c (updNode n (setClassVisible true) w)))).
    { by apply PoolWf_setMobileSimplified, PoolWf_setCompact. }
    destruct (object _ gv); [| done]. by apply (PoolWf_same _ _ eq_refl eq_refl).
  - destruct (object _ gv); [| done]. by apply (PoolWf_same _ _ eq_refl eq_refl).
Qed.

Lemma PoolWf_placeTo gv view opts w : PoolWf w -> PoolWf (placeTo gv view opts w).
Proof.
  intros H%(PoolWf_resumeSetupLeaf gv). unfold placeTo.
  destruct (nodeOf _ gv) as [n|]; [| done].
  destruct (file _) as [f|]; [| done].
  apply (PoolWf_bindTo gv (path f)) in H.
  destruct (negb _); [done |].
  unfold insertUnderTitle.
  destruct (isDescendantOf _ _ _); [by apply PoolWf_showAndResize |].
  destruct (inlineTitleFound _); [| done].
  apply PoolWf_showAndResize. by apply (PoolWf_same _ _ eq_refl eq_refl).
Qed.

Lemma PoolWf_getOrCreate view w :
  PoolWf w -> PoolWf (fst (getOrCreateGraphView view w)).
Proof.
  intros [Hin Hwf].
  destruct (getOrCreate_cases view w) as [(r & -> & _) | ->]; [done |].
  cbn [fst]. split.
  - intros gv Hgv. unfold pushNew in Hgv. cbn in Hgv.
    destruct (decide (gv = nextLeaf (host w))) as [-> | Hne].
    + rewrite object_pushNew_new. by eexists.
    + rewrite object_pushNew_ne by done. apply Hin.
      apply elem_of_app in Hgv as [? | Hgv]; [done |].
      apply list_elem_of_singleton in Hgv. congruence.
  - intros gv g Hobj.
    destruct (decide (gv = nextLeaf (host w))) as [-> | Hne].
    + rewrite object_pushNew_new in Hobj. injection Hobj as <-. cbn.
      split; [done | by left].
    + rewrite object_pushNew_ne in Hobj by done. by apply Hwf.
Qed.

Lemma PoolWf_placeGraphView view w : PoolWf w -> PoolWf (placeGraphView view w).
Proof.
  intros H.
  assert (H0 : PoolWf (fst (getOrCreateGraphView view (call (PlaceGraphView view) w)))).
  { apply PoolWf_getOrCreate. by apply (PoolWf_same w). }
  unfold placeGraphView. set (w0 := call (PlaceGraphView view) w) in *.
  destruct (file _); [| done].
  destruct (negb _); [done |].
  destruct (Settings.isNoteDisabled _ _).
  - destruct (getOrCreateGraphView view w0) as [w1 [gv|]]; cbn [fst] in H0; [| done].
    by apply PoolWf_setVisibility.
  - destruct (getOrCreateGraphView view w0) as [w1 [gv|]]; cbn [fst] in H0; [| done].
    repeat case_match;
      repeat (apply PoolWf_placeTo || apply PoolWf_setVisibility); done.
Qed.

Lemma PoolWf_applyBannerHeight w : PoolWf w -> PoolWf (applyBannerHeight w).
Proof.
  intros H. unfold applyBannerHeight. set (w0 := call SetBannerHeight w).
  destruct (activeView (host w0)) as [view|]; [| done].
  assert (H0 : PoolWf (fst (getOrCreateGraphView view w0))).
  { apply PoolWf_getOrCreate. by apply (PoolWf_same w). }
  destruct (file _); [| done].
  destruct (negb _); [done |].
  destruct (Settings.isNoteDisabled _ _); [done |].
  destruct (Ignore.matchIgnore _ _); [done |].
  destruct (getOrCreateGraphView view w0) as [w1 [gv|]]; cbn [fst] in H0; [| done].
  repeat case_match; try (by repeat apply PoolWf_setVisibility).
  unfold forceRefresh. apply PoolWf_placeTo, PoolWf_updObject.
  - intros g _. split; [done | by left].
  - by apply PoolWf_setVisibility.
Qed.

Lemma PoolWf_detach gv w : PoolWf w -> PoolWf (detach gv w).
Proof.
  apply PoolWf_same; by destruct (detach_spec gv w) as (-> & _).
Qed.

(** *** The timers *)

Lemma OneDebounce_same (w w' : World) :
  loop w' = loop w -> layoutTimer (plugin w') = layoutTimer (plugin w) ->
  OneDebounce w -> OneDebounce w'.
Proof.
  intros Hl Hlt [Hok Hone]. split; [by apply (TimersOk_same w) |].
  unfold pendingDebounce in *. by rewrite Hl.
Qed.

Lemma OneDebounce_AtMostOneRemoval (w w' : World) :
  AtMostOneRemoval (loop w) (loop w') ->
  layoutTimer (plugin w') = layoutTimer (plugin w) ->
  OneDebounce w -> OneDebounce w'.
Proof.
  intros Hl Hlt [Hok Hone]. split; [by apply (TimersOk_AtMostOneRemoval w) |].
  destruct (AtMostOneRemoval_weight _ _ Hl) as (_ & Hd & _).
  unfold pendingDebounce in *. by rewrite Hd.
Qed.

Lemma OneDebounce_placeGraphView (view : nat) (w : World) :
  OneDebounce w -> OneDebounce (placeGraphView view w).
Proof.
  apply OneDebounce_AtMostOneRemoval; [apply placeGraphView_loop |].
  apply (fp_layoutTimer w), Footprint_placeGraphView, Footprint_refl.
Qed.

Lemma set_activeView_same (w : World) (view : nat) :
  activeView (host w) = Some view ->
  withHost (set_activeView (Some view)) w = w.
Proof. destruct w as [p [vs av ml ns lp nv nl im] l c]. cbn. by intros ->. Qed.

Lemma OneDebounce_onLayoutChange (w : World) :
  OneDebounce w -> OneDebounce (onLayoutChange w).
Proof.
  intros [Hok Hone]. destruct (activeView (host w)) as [view|] eqn:E.
  - rewrite <- (set_activeView_same w view E). fold (trigger view w).
    destruct (trigger_spec view w Hok) as (Hok' & Hp & _).
    split; [done |]. by rewrite Hp.
  - unfold onLayoutChange. by rewrite E.
Qed.

Lemma onunload_timers (w : World) :
  TimersOk w -> TimersOk (onunload w) /\ pendingDebounce (onunload w) = [].
Proof.
  intros Hok. unfold onunload.
  set (w1 := match layoutTimer (plugin w) with
             | Some id => withPlugin (set_layoutTimer None) (clearTimeout id w)
             | None => w
             end).
  assert (H1 : pendingDebounce w1 = [] /\ TimersOk w1).
  { destruct Hok as [Hids Hlay Hdeb Hrem]. subst w1. unfold pendingDebounce.
    destruct (layoutTimer (plugin w)) as [id|] eqn:Hlt; cbn.
    - split.
      + apply filter_drop. eapply Forall_impl; [exact Hdeb |]. cbn.
        intros t Ht Htd Hne. specialize (Ht Htd). congruence.
      + constructor; cbn; try done.
        * by apply Forall_filter_keep.
        * rewrite Forall_forall in *.
          intros t [Hne Ht]%list_elem_of_filter Htd.
          specialize (Hdeb t Ht Htd). congruence.
        * apply Forall_forall. done.
    - split.
      + induction (timers (loop w)) as [|t ts IH]; [done |].
        apply Forall_cons in Hids as [_ Hids]. apply Forall_cons in Hdeb as [Ht Hdeb].
        apply Forall_cons in Hrem as [_ Hrem].
        rewrite filter_cons_False; [by apply IH |]. intros Htd. by specialize (Ht Htd).
      + constructor; rewrite ?Hlt; done. }
  destruct H1 as (Hpd1 & Hok1).
  destruct (detach_all_spec (graphViews (plugin w1)) w1) as (Hp2 & Hl2 & _).
  cbn zeta in *.
  set (w2 := fold_left (fun w gv => detach gv w) (graphViews (plugin w1)) w1) in *.
  split.
  - apply (TimersOk_same w1); [done | | done]. cbn. by rewrite Hp2.
  - unfold pendingDebounce in *. cbn. by rewrite Hl2.
Qed.

(** *** The pool over a session *)

Lemma PoolWithin_same (bound : Z) (w w' : World) :
  graphViews (plugin w') = graphViews (plugin w) ->
  settings (plugin w') = settings (plugin w) ->
  PoolWithin bound w -> PoolWithin bound w'.
Proof. unfold PoolWithin. by intros -> ->. Qed.

Lemma PoolWithin_getOrCreate (bound : Z) (view : nat) (w : World) :
  PoolWithin bound w -> PoolWithin bound (fst (getOrCreateGraphView view w)).
Proof.
  intros (Hlen & Hcap & Hsn).
  destruct (getOrCreate_pool view w) as [Hs [Hp | [Hp Hlt]]];
    unfold PoolWithin; rewrite Hs, Hp; [done |].
  split; [| done]. rewrite length_app. cbn. unfold capacity in Hcap. lia.
Qed.

Lemma PoolWithin_removeChild (bound : Z) (lf : nat) (w : World) :
  PoolWithin bound w -> PoolWithin bound (removeChild lf w).
Proof. unfold removeChild. by case_match. Qed.

Lemma capacity_builtin (name : jsstring) (s : Settings.t) (bound : Z) :
  (3 <= bound)%Z ->
  (capacity (Settings.maxGraphViews s) <= bound)%Z ->
  (capacity (Settings.maxGraphViews (Settings.applyBuiltinPreset name s)) <= bound)%Z.
Proof.
  intros Hb Hc. unfold Settings.applyBuiltinPreset.
  repeat case_bool_decide; cbn; try done; unfold capacity; cbn; lia.
Qed.

Lemma capacity_nullish (a b : option Z) (bound : Z) :
  (3 <= bound)%Z ->
  (capacity a <= bound)%Z -> (capacity b <= bound)%Z ->
  (capacity (nullish a b) <= bound)%Z.
Proof. intros Hb Ha Hbb. by destruct a. Qed.

Lemma PoolWithin_saveCurrentToUserPreset (bound : Z) (n : Z) (w : World) :
  PoolWithin bound w -> PoolWithin bound (saveCurrentToUserPreset n w).
Proof.
  intros (Hlen & Hcap & Hsn).
  unfold saveCurrentToUserPreset, getCoreSettingsSnapshot. cbn.
  destruct (n =? 1)%Z; [| destruct (n =? 2)%Z].
  - split; [done |]. split; [done |]. cbn.
    intros sn [[= <-] | Hs]; [done | apply Hsn; by right].
  - split; [done |]. split; [done |]. cbn.
    intros sn [Hs | [= <-]]; [apply Hsn; by left | done].
  - split; [done |]. split; [done |]. exact Hsn.
Qed.

Lemma PoolWithin_clearUserPreset (bound : Z) (n : Z) (w : World) :
  PoolWithin bound w -> PoolWithin bound (clearUserPreset n w).
Proof.
  intros (Hlen & Hcap & Hsn). unfold clearUserPreset.
  destruct (n =? 1)%Z; [| destruct (n =? 2)%Z].
  - split; [done |]. split; [done |]. cbn.
    intros sn [Hs | Hs]; [done | apply Hsn; by right].
  - split; [done |]. split; [done |]. cbn.
    intros sn [Hs | Hs]; [apply Hsn; by left | done].
  - split; [done |]. split; [done |]. exact Hsn.
Qed.

Lemma PoolWithin_applyCoreSettingsSnapshot (bound : Z) (sn : Settings.Snapshot)
    (w : World) :
  (3 <= bound)%Z ->
  (capacity (Settings.snap_maxGraphViews sn) <= bound)%Z ->
  PoolWithin bound w -> PoolWithin bound (applyCoreSettingsSnapshot (Some sn) w).
Proof.
  intros Hb Hc (Hlen & Hcap & Hsn). unfold applyCoreSettingsSnapshot.
  destruct (Settings.snap_ignore sn); cbn.
  - split; [done |]. split; [by apply capacity_nullish | exact Hsn].
  - split; [done |]. split; [by apply capacity_nullish | exact Hsn].
Qed.

Lemma PoolWithin_applyUserPreset (bound : Z) (n : Z) (w : World) :
  (3 <= bound)%Z ->
  PoolWithin bound w -> PoolWithin bound (applyUserPreset n w).
Proof.
  intros Hb H. unfold applyUserPreset.
  destruct (if (n =? 1)%Z then _ else _) as [sn|] eqn:E; [| done].
  apply PoolWithin_applyCoreSettingsSnapshot; [done | | done].
  destruct H as (_ & _ & Hsn). apply Hsn.
  destruct (n =? 1)%Z; [by left | by right].
Qed.

End WfFacts.

(* ===================================================================== *)
(** ** Calls that are not awaited: promise jobs and awaited calls *)
(* ===================================================================== *)

Section AsyncFacts.
Import Js Plugin Props Frames Async.

Ltac state_simpl :=
  cbn [world jobs setupWaiters binds nextPromise rejections
       lift setJobs setSetupWaiters setBinds awaitBind reject settledState].

Ltac state_simpl_in H :=
  cbn [world jobs setupWaiters binds nextPromise rejections
       lift setJobs setSetupWaiters setBinds awaitBind reject settledState] in H.

(** *** The promise jobs *)

Lemma runTask_setJobs t js a : runTask t (setJobs js a) = setJobs js (runTask t a).
Proof. destruct t; cbn; repeat case_match; reflexivity. Qed.

Lemma jobs_runTask t a : jobs (runTask t a) = jobs a.
Proof. destruct t; cbn; repeat case_match; reflexivity. Qed.

Lemma setupWaiters_runTask t a : setupWaiters (runTask t a) = setupWaiters a.
Proof. destruct t; cbn; repeat case_match; reflexivity. Qed.

Lemma rejections_runTask t a : rejections (runTask t a) = rejections a.
Proof. destruct t; cbn; repeat case_match; reflexivity. Qed.

Lemma drain_step fuel t rest a :
  jobs a = t :: rest -> drain (S fuel) a = drain fuel (runTask t (setJobs rest a)).
Proof. intros H. cbn. by rewrite H. Qed.

Lemma drain_idle fuel a : jobs a = [] -> drain fuel a = a.
Proof. intros H. destruct fuel; cbn; [done |]. by rewrite H. Qed.

(** After the promise jobs have run none is left. *)
Lemma jobs_drain fuel a : (length (jobs a) <= fuel)%nat -> jobs (drain fuel a) = [].
Proof.
  revert a. induction fuel as [|fuel IH]; intros a H; cbn.
  - destruct (jobs a); [done | cbn in H; lia].
  - destruct (jobs a) as [|t rest] eqn:E; [done |].
    apply IH. rewrite jobs_runTask. cbn in *. lia.
Qed.

Lemma jobs_microtasks a : jobs (microtasks a) = [].
Proof. by apply jobs_drain. Qed.

Lemma microtasks_idle a : jobs a = [] -> microtasks a = a.
Proof. intros H. by apply drain_idle. Qed.

Lemma microtasks_one t a :
  jobs a = [t] -> microtasks a = runTask t (setJobs [] a).
Proof.
  intros H. unfold microtasks. rewrite H. cbn [length].
  rewrite (drain_step 0 t [] a H). reflexivity.
Qed.

Lemma microtasks_two t1 t2 a :
  jobs a = [t1; t2] ->
  microtasks a = runTask t2 (runTask t1 (setJobs [] a)).
Proof.
  intros H. unfold microtasks. rewrite H. cbn [length].
  rewrite (drain_step 1 t1 [t2] a H).
  rewrite (drain_step 0 t2 [] _).
  - cbn [drain]. by rewrite !runTask_setJobs.
  - by rewrite jobs_runTask.
Qed.

Lemma setupWaiters_drain fuel a : setupWaiters (drain fuel a) = setupWaiters a.
Proof.
  revert a. induction fuel as [|fuel IH]; intros a; cbn; [done |].
  destruct (jobs a); [done |]. by rewrite IH, setupWaiters_runTask.
Qed.

Lemma rejections_drain fuel a : rejections (drain fuel a) = rejections a.
Proof.
  revert a. induction fuel as [|fuel IH]; intros a; cbn; [done |].
  destruct (jobs a); [done |]. by rewrite IH, rejections_runTask.
Qed.

(** *** A call of [placeTo], piece by piece *)

Lemma placeTo_unfold gv view opts w :
  Plugin.placeTo gv view opts w
  = let w1 := resumeSetupLeaf gv w in
    match nodeOf w1 gv with
    | None => w1
    | Some n =>
      match file (viewAt w1 view) with
      | None => w1
      | Some f => placeTail gv n view opts (bindTo gv (path f) w1)
      end
    end.
Proof. reflexivity. Qed.

(** The bind of [placeTo] is the call of [setViewState] and, once its
    promise is fulfilled, [setGroup] and the write of [currentFilePath]. *)
Lemma bindTo_bound gv p w g :
  object w gv = Some g ->
  bindTo gv p w
  = if bool_decide (currentFilePath g = Some p) then w
    else bound gv p (call (SetViewState (leaf g) (Some p)) w).
Proof.
  intros H. unfold bindTo, bound. rewrite H.
  change (object (call ?c w) gv) with (object w gv). rewrite H.
  by case_bool_decide.
Qed.

Lemma nodeOf_bound gv gv' p w : nodeOf (bound gv p w) gv' = nodeOf w gv'.
Proof.
  unfold bound. destruct (object w gv) as [g|]; [| done].
  by rewrite nodeOf_updObject.
Qed.

Lemma Footprint_bound gv p w w' : Footprint w w' -> Footprint w (bound gv p w').
Proof. intros H. unfold bound. destruct (object w' gv); eauto with frame. Qed.

Lemma Footprint_placeTail gv n view opts w w' :
  Footprint w w' -> Footprint w (placeTail gv n view opts w').
Proof.
  intros H. unfold placeTail. destruct (negb _); [done |].
  destruct (insertUnderTitle _ _ _ _ _) eqn:E; [| done].
  eapply Footprint_showAndResize, Footprint_insertUnderTitle; eauto.
Qed.

Lemma Calls_placeTail q gv n view opts w w' :
  (forall a b c, q (InsertAfter a b c) = true) ->
  (forall a, q (OnResize a) = true) ->
  Calls q w w' -> Calls q w (placeTail gv n view opts w').
Proof.
  intros Hi Hr H. unfold placeTail. destruct (negb _); [done |].
  destruct (insertUnderTitle _ _ _ _ _) eqn:E; [| done].
  apply Calls_showAndResize; [done |].
  by eapply Calls_insertUnderTitle.
Qed.

(** The end of [placeTo] keeps the binding of the graph view. *)
Lemma object_placeTail gv n view opts w g :
  object w gv = Some g ->
  exists g', object (placeTail gv n view opts w) gv = Some g' /\ sameBinding g g'.
Proof.
  intros H. unfold placeTail.
  destruct (negb _); [by exists g; split; [| apply sameBinding_refl] |].
  destruct (insertUnderTitle _ _ _ _ _) as [w1|] eqn:E;
    [| by exists g; split; [| apply sameBinding_refl]].
  destruct (insertUnderTitle_spec _ _ _ _ _ _ E) as (Hobj & _).
  apply showAndResize_spec. by rewrite Hobj.
Qed.

(** *** Awaited calls *)

Lemma settleBinds_idle a : binds a = [] -> settleBinds a = a.
Proof. intros H. unfold settleBinds. by rewrite H. Qed.

(** The continuation of [placeTo] after the setup, with its bind awaited:
    the rest of the awaited call. *)
Lemma awaited_afterSetup gv view opts a :
  jobs a = [] -> binds a = [] ->
  let a' := settleBinds (runTask (PlaceToAfterSetup gv view opts) a) in
  world a' = match nodeOf (world a) gv with
             | None => world a
             | Some n =>
               match file (viewAt (world a) view) with
               | None => world a
               | Some f => placeTail gv n view opts (bindTo gv (path f) (world a))
               end
             end
  /\ jobs a' = [] /\ binds a' = [] /\ setupWaiters a' = setupWaiters a.
Proof.
  intros Hjobs Hbinds. cbn zeta. cbn [runTask].
  destruct (nodeOf (world a) gv) as [n|] eqn:Hn;
    [| by rewrite settleBinds_idle].
  destruct (file (viewAt (world a) view)) as [f|] eqn:Hf;
    [| by rewrite settleBinds_idle].
  destruct (object (world a) gv) as [g|] eqn:Hg;
    [| unfold nodeOf in Hn; by rewrite Hg in Hn].
  rewrite (bindTo_bound gv (path f) (world a) g Hg).
  case_bool_decide as Hb; cbn [negb].
  - by rewrite settleBinds_idle.
  - unfold settleBinds. cbn [binds awaitBind lift]. rewrite Hbinds.
    cbn [app fold_left fst]. unfold settleBind.
    cbn [binds awaitBind lift List.find fst]. rewrite Hbinds. cbn [app List.find fst].
    rewrite Nat.eqb_refl. cbn [List.filter fst]. rewrite Nat.eqb_refl. cbn [negb].
    rewrite (microtasks_one (PlaceToAfterBind gv view opts (path f)))
      by (cbn; by rewrite Hjobs).
    cbn [runTask]. cbn [world lift setJobs setBinds awaitBind].
    rewrite nodeOf_bound. change (nodeOf (call ?c (world a)) gv) with (nodeOf (world a) gv).
    rewrite Hn. done.
Qed.

Lemma settleWaited_idle a : setupWaiters a = [] -> settleWaited a = a.
Proof. intros H. unfold settleWaited. by rewrite H. Qed.

(** The sequential [placeTo] is the call of the source, awaited. *)
Lemma awaited_placeTo gv view opts a g :
  jobs a = [] -> setupWaiters a = [] -> binds a = [] ->
  object (world a) gv = Some g ->
  let a' := awaitAll (placeTo gv view opts a) in
  world a' = Plugin.placeTo gv view opts (world a)
  /\ jobs a' = [] /\ setupWaiters a' = [] /\ binds a' = [].
Proof.
  intros Hjobs Hwait Hbinds Hobj. cbn zeta.
  rewrite placeTo_unfold. cbn zeta.
  unfold awaitAll, placeTo. rewrite Hobj.
  destruct (setupLeafPromise g) as [t|] eqn:Hs.
  - rewrite microtasks_idle by done.
    unfold settleWaited. cbn [setupWaiters setSetupWaiters]. rewrite Hwait.
    cbn [app fold_left taskOf]. unfold settleSetup.
    cbn [world setSetupWaiters]. rewrite Hobj, Hs.
    cbn [setupWaiters lift setSetupWaiters jobs setJobs List.filter taskOf].
    rewrite Nat.eqb_refl, Hjobs. cbn [negb app].
    rewrite (microtasks_one (PlaceToAfterSetup gv view opts)) by done.
    match goal with
    | |- context [settleBinds (runTask ?T ?A)] =>
      destruct (awaited_afterSetup gv view opts A) as (Hw & Hj & Hb & Hsw);
        [done | done |]
    end.
    cbn zeta in *. cbn [world setJobs setSetupWaiters lift setupWaiters] in *.
    done.
  - rewrite (microtasks_one (PlaceToAfterSetup gv view opts))
      by (cbn; by rewrite Hjobs).
    rewrite settleWaited_idle by (by rewrite setupWaiters_runTask).
    match goal with
    | |- context [settleBinds (runTask ?T ?A)] =>
      destruct (awaited_afterSetup gv view opts A) as (Hw & Hj & Hb & Hsw);
        [done | done |]
    end.
    cbn zeta in *. cbn [world setJobs setSetupWaiters lift setupWaiters] in *.
    rewrite (resumeSetupLeaf_done gv (world a) g) by done.
    rewrite Hsw. done.
Qed.

Lemma object_bound gv p w g :
  object w gv = Some g ->
  object (bound gv p w) gv = Some (setCurrentFilePath (Some p) g).
Proof.
  intros H. unfold bound. rewrite H. apply object_updObject. exact H.
Qed.

Lemma Calls_bound q gv p w w' :
  (forall lf x, q (SetGroup lf x) = true) ->
  Calls q w w' -> Calls q w (bound gv p w').
Proof.
  intros Hq H. unfold bound. destruct (object w' gv); [| done].
  apply Calls_updObject, Calls_call; [apply Hq | done].
Qed.

(** What a continuation of [placeTo] does once the path is bound: the bound
    path stays, and the host sees no file-scoped [setViewState]. *)
Lemma placeTail_keeps gv n view opts w g :
  object w gv = Some g ->
  exists g',
    object (placeTail gv n view opts w) gv = Some g'
    /\ sameBinding g g'
    /\ nodeOf (placeTail gv n view opts w) gv = node g
    /\ viewAt (placeTail gv n view opts w) view = viewAt w view
    /\ Calls notBind w (placeTail gv n view opts w).
Proof.
  intros H. destruct (object_placeTail gv n view opts w g H) as (g' & Hg' & Hsame).
  exists g'. split; [done |]. split; [done |]. split; [| split].
  - rewrite (nodeOf_object _ _ _ Hg'). by destruct Hsame as (_ & -> & _).
  - apply Footprint_viewAt, Footprint_placeTail, Footprint_refl.
  - apply Calls_placeTail; [done | done | apply Calls_refl].
Qed.

Lemma runTask_afterSetup_bound gv view opts a g n f :
  object (world a) gv = Some g -> node g = Some n ->
  file (viewAt (world a) view) = Some f ->
  currentFilePath g = Some (path f) ->
  runTask (PlaceToAfterSetup gv view opts) a = lift (placeTail gv n view opts) a.
Proof.
  intros Hobj Hnode Hfile Hb. cbn [runTask].
  rewrite (nodeOf_object _ _ _ Hobj), Hnode, Hfile, Hobj.
  by rewrite bool_decide_eq_true_2.
Qed.

Lemma runTask_afterSetup_need gv view opts a g n f :
  object (world a) gv = Some g -> node g = Some n ->
  file (viewAt (world a) view) = Some f ->
  currentFilePath g <> Some (path f) ->
  runTask (PlaceToAfterSetup gv view opts) a
  = awaitBind (PlaceToAfterBind gv view opts (path f))
      (lift (call (SetViewState (leaf g) (Some (path f)))) a).
Proof.
  intros Hobj Hnode Hfile Hb. cbn [runTask].
  rewrite (nodeOf_object _ _ _ Hobj), Hnode, Hfile, Hobj.
  by rewrite bool_decide_eq_false_2.
Qed.

Lemma runTask_afterBind gv view opts p a g n :
  object (world a) gv = Some g -> node g = Some n ->
  runTask (PlaceToAfterBind gv view opts p) a
  = lift (fun w => placeTail gv n view opts (bound gv p w)) a.
Proof.
  intros Hobj Hnode. cbn [runTask]. state_simpl.
  by rewrite nodeOf_bound, (nodeOf_object _ _ _ Hobj), Hnode.
Qed.

Lemma filter_others (p : nat) (bs : list (nat * Task)) :
  Forall (fun b => fst b <> p) bs ->
  List.filter (fun b : nat * Task => negb (Nat.eqb (fst b) p)) bs = bs.
Proof.
  induction bs as [|b bs IH]; [done |].
  intros [Hb Hne]%Forall_cons. cbn [List.filter].
  apply Nat.eqb_neq in Hb. rewrite Hb. cbn [negb]. by rewrite IH.
Qed.

(** The host fulfils the oldest of the pending binds. *)
Lemma settleBind_first p t bs a :
  jobs a = [] -> binds a = (p, t) :: bs ->
  Forall (fun b => fst b <> p) bs ->
  settleBind p a = runTask t (setJobs [] (setBinds bs a)).
Proof.
  intros Hjobs Hbinds Hne. unfold settleBind. rewrite Hbinds, Hjobs.
  cbn [List.find fst List.filter app]. rewrite Nat.eqb_refl. cbn [negb].
  rewrite filter_others by done.
  rewrite (microtasks_one t) by done.
  reflexivity.
Qed.

(** Two calls of [placeTo] for the same view, the second made before the
    first has gone on: both find the old [currentFilePath], and both ask
    the host to bind the file. *)
Lemma overlapping_afterSetup gv view opts1 opts2 b g n f :
  jobs b = [] -> binds b = [] ->
  object (world b) gv = Some g ->
  node g = Some n ->
  file (viewAt (world b) view) = Some f ->
  let once := if bool_decide (currentFilePath g = Some (path f)) then []
              else [SetViewState (leaf g) (Some (path f))] in
  let b2 := runTask (PlaceToAfterSetup gv view opts2)
              (runTask (PlaceToAfterSetup gv view opts1) b) in
  let b3 := settleBinds b2 in
  length (binds b2) = length (once ++ once)
  /\ (exists cs2 g2, calls (world b2) = calls (world b) ++ cs2
                     /\ only isBind cs2 = once ++ once
                     /\ object (world b2) gv = Some g2
                     /\ setupLeafPromise g2 = setupLeafPromise g)
  /\ exists cs g3,
       calls (world b3) = calls (world b) ++ cs
       /\ only isBind cs = once ++ once
       /\ object (world b3) gv = Some g3
       /\ currentFilePath g3 = Some (path f)
       /\ setupLeafPromise g3 = setupLeafPromise g
       /\ jobs b3 = [] /\ binds b3 = [] /\ setupWaiters b3 = setupWaiters b.
Proof.
  intros Hjobs Hbinds Hobj Hnode Hfile once b2 b3.
  destruct (decide (currentFilePath g = Some (path f))) as [Hb | Hb].
  - (* bound already *)
    assert (once = []) as -> by (subst once; by rewrite bool_decide_eq_true_2).
    destruct (placeTail_keeps gv n view opts1 (world b) g Hobj)
      as (g1 & Hg1 & (Hl1 & Hn1 & Hs1 & Hp1) & Hnode1 & Hview1 & (cs1 & Hcs1 & Hq1)).
    destruct (placeTail_keeps gv n view opts2 _ g1 Hg1)
      as (g2 & Hg2 & (Hl2 & Hn2 & Hs2 & Hp2) & _ & _ & (cs2 & Hcs2 & Hq2)).
    assert (Hb2 : b2 = lift (placeTail gv n view opts2)
                         (lift (placeTail gv n view opts1) b)).
    { subst b2.
      rewrite (runTask_afterSetup_bound gv view opts1 b g n f) by done.
      apply (runTask_afterSetup_bound gv view opts2 _ g1 n f); state_simpl;
        [done | congruence | by rewrite Hview1 | congruence]. }
    assert (Hb3 : b3 = b2).
    { subst b3. apply settleBinds_idle. rewrite Hb2. by state_simpl. }
    rewrite Hb3, Hb2. state_simpl. rewrite Hbinds.
    assert (Hcalls : calls (placeTail gv n view opts2
                              (placeTail gv n view opts1 (world b)))
                     = calls (world b) ++ (cs1 ++ cs2)
                     /\ only isBind (cs1 ++ cs2) = []).
    { split; [by rewrite Hcs2, Hcs1, app_assoc |].
      rewrite only_app, (only_none isBind notBind cs1), (only_none isBind notBind cs2);
        try done; apply notBind_isBind. }
    destruct Hcalls as [Hc Ho].
    split; [done |].
    split; [exists (cs1 ++ cs2), g2; repeat split; try done; congruence |].
    exists (cs1 ++ cs2), g2.
    repeat split; try done; congruence.
  - (* to be bound: both ask the host *)
    set (bind := SetViewState (leaf g) (Some (path f))) in *.
    assert (once = [bind]) as -> by (subst once; by rewrite bool_decide_eq_false_2).
    set (w0 := call bind (call bind (world b))).
    assert (Hobj0 : object w0 gv = Some g) by exact Hobj.
    pose proof (object_bound gv (path f) w0 g Hobj0) as Hobj1.
    destruct (placeTail_keeps gv n view opts1 _ _ Hobj1)
      as (g2 & Hg2 & (Hl2 & Hn2 & Hs2 & Hp2) & Hnode2 & _ & Hc2).
    pose proof (object_bound gv (path f) _ g2 Hg2) as Hobj3.
    destruct (placeTail_keeps gv n view opts2 _ _ Hobj3)
      as (g4 & Hg4 & (Hl4 & Hn4 & Hs4 & Hp4) & _ & _ & Hc4).
    assert (Hb2 : b2 = awaitBind (PlaceToAfterBind gv view opts2 (path f))
                         (lift (call bind)
                            (awaitBind (PlaceToAfterBind gv view opts1 (path f))
                               (lift (call bind) b)))).
    { subst b2.
      rewrite (runTask_afterSetup_need gv view opts1 b g n f) by done.
      by apply (runTask_afterSetup_need gv view opts2 _ g n f). }
    assert (Hb3 : b3 = lift (fun _ => placeTail gv n view opts2
                                        (bound gv (path f)
                                           (placeTail gv n view opts1
                                              (bound gv (path f) w0))))
                         (setJobs [] (setBinds [] b2))).
    { subst b3. unfold settleBinds. rewrite Hb2 at 1. state_simpl.
      rewrite Hbinds. cbn [app fold_left fst].
      rewrite (settleBind_first (nextPromise b)
                 (PlaceToAfterBind gv view opts1 (path f))
                 [(S (nextPromise b), PlaceToAfterBind gv view opts2 (path f))]);
        [| by rewrite Hb2 | rewrite Hb2; state_simpl; by rewrite Hbinds
         | apply Forall_singleton; cbn; lia].
      rewrite (runTask_afterBind gv view opts1 (path f) _ g n);
        [| by rewrite Hb2 | done].
      rewrite (settleBind_first (S (nextPromise b))
                 (PlaceToAfterBind gv view opts2 (path f)) []);
        [| by rewrite Hb2 | done | done].
      rewrite (runTask_afterBind gv view opts2 (path f) _ g2 n);
        [| rewrite Hb2; state_simpl; exact Hg2 | by rewrite Hn2].
      rewrite Hb2. reflexivity. }
    rewrite Hb3, Hb2. state_simpl. rewrite Hbinds.
    split; [done |].
    split.
    { exists [bind; bind], g. split; [cbn; by rewrite <- app_assoc | done]. }
    assert (Hq : Calls notBind w0
                   (placeTail gv n view opts2
                      (bound gv (path f)
                         (placeTail gv n view opts1 (bound gv (path f) w0))))).
    { eapply Calls_trans; [| exact Hc4].
      apply Calls_bound; [done |].
      eapply Calls_trans; [| exact Hc2].
      apply Calls_bound; [done | apply Calls_refl]. }
    destruct Hq as (cs & Hcs & Hqs).
    exists ([bind; bind] ++ cs), g4.
    split; [rewrite Hcs; subst w0; cbn; by rewrite <- !app_assoc |].
    split.
    { rewrite only_app, (only_none isBind notBind cs); [done | | done].
      apply notBind_isBind. }
    split; [done |]. split; [by rewrite Hp4 |].
    split; [| done]. rewrite Hs4. cbn. by rewrite Hs2.
Qed.

(** C3, as amended.  Binding is idempotent per path for calls that are
    awaited.  When [currentFilePath] already is the path of the view's file,
    [placeTo] asks the host for nothing.  Of two calls of [placeTo] for a view
    showing the file [f], the second made when the first has been awaited,
    only the first makes a file-scoped [setViewState] (none when [f] was bound
    already).  When the second call is made before the first has gone on
    past its [await], as the plugin makes them, both find the old
    [currentFilePath] and each makes a file-scoped [setViewState]: two for
    one path, both asked for before the host has answered either.  In both
    cases the bound path is that of [f] once the calls have been awaited. *)
Theorem bind_once_when_awaited (gv view : nat) (opts1 opts2 : option (bool * bool))
    (a : State) (g : GraphView) (n : nat) (f : TFile) :
  jobs a = [] -> setupWaiters a = [] -> binds a = [] ->
  object (world a) gv = Some g ->
  nodeAfterSetup (world a) g = Some n ->
  file (viewAt (world a) view) = Some f ->
  let once := if bool_decide (currentFilePath g = Some (path f)) then []
              else [SetViewState (leaf g) (Some (path f))] in
  (let a1 := awaitAll (placeTo gv view opts1 a) in
   let a2 := awaitAll (placeTo gv view opts2 a1) in
   exists cs1 cs2 g2,
     calls (world a1) = calls (world a) ++ cs1
     /\ calls (world a2) = calls (world a1) ++ cs2
     /\ only isBind cs1 = once
     /\ only isBind cs2 = []
     /\ object (world a2) gv = Some g2
     /\ currentFilePath g2 = Some (path f))
  /\ (let a12 := placeTo gv view opts2 (placeTo gv view opts1 a) in
      let asked := settleWaited (microtasks a12) in
      let a2 := awaitAll a12 in
      exists cs0 cs g2,
        calls (world asked) = calls (world a) ++ cs0
        /\ only isBind cs0 = once ++ once
        /\ length (binds asked) = length (once ++ once)
        /\ calls (world a2) = calls (world a) ++ cs
        /\ only isBind cs = once ++ once
        /\ object (world a2) gv = Some g2
        /\ currentFilePath g2 = Some (path f)).
Proof.
  intros Hjobs Hwait Hbinds Hobj Hnode Hfile once. split.
  - (* awaited *)
    intros a1 a2.
    destruct (awaited_placeTo gv view opts1 a g Hjobs Hwait Hbinds Hobj)
      as (Hw1 & Hj1 & Hs1 & Hb1). fold a1 in Hw1, Hj1, Hs1, Hb1.
    destruct (placeTo_bind gv view opts1 (world a) g n f Hobj Hnode Hfile)
      as (g1 & cs1 & Hobj1 & Hpath1 & Hnode1 & Hdone1 & Hleaf1 & Hcs1 & Hbd1).
    rewrite <- Hw1 in Hobj1, Hcs1.
    destruct (awaited_placeTo gv view opts2 a1 g1 Hj1 Hs1 Hb1 Hobj1)
      as (Hw2 & _). fold a2 in Hw2.
    assert (Hfile1 : file (viewAt (world a1) view) = Some f).
    { rewrite Hw1, (Footprint_viewAt (world a)); [done |].
      apply Footprint_placeTo, Footprint_refl. }
    assert (Hnode1' : nodeAfterSetup (world a1) g1 = Some n).
    { unfold nodeAfterSetup. by rewrite Hdone1. }
    destruct (placeTo_bind gv view opts2 (world a1) g1 n f Hobj1 Hnode1' Hfile1)
      as (g2 & cs2 & Hobj2 & Hpath2 & _ & _ & _ & Hcs2 & Hbd2).
    rewrite <- Hw2 in Hobj2, Hcs2.
    rewrite bool_decide_eq_true_2 in Hbd2 by done.
    by exists cs1, cs2, g2.
  - (* not awaited *)
    intros a12 asked a2.
    set (T1 := PlaceToAfterSetup gv view opts1).
    set (T2 := PlaceToAfterSetup gv view opts2).
    (* the state once the setup is settled and both calls are promise jobs *)
    set (b := setJobs [] (setSetupWaiters [] (lift (resumeSetupLeaf gv) a))).
    assert (Hasked : asked = runTask T2 (runTask T1 b)).
    { subst asked a12 b. unfold placeTo. rewrite Hobj.
      destruct (setupLeafPromise g) as [t|] eqn:Hs.
      - state_simpl. rewrite Hobj, Hs.
        rewrite microtasks_idle by (state_simpl; done).
        unfold settleWaited. state_simpl. rewrite Hwait.
        cbn [app fold_left taskOf]. unfold settleSetup at 2.
        state_simpl. rewrite Hobj, Hs. state_simpl.
        cbn [List.filter taskOf]. rewrite Nat.eqb_refl, Hjobs. cbn [negb app].
        rewrite (microtasks_two T1 T2) by done.
        state_simpl.
        match goal with
        | |- settleSetup gv ?B = _ =>
          change B
            with (runTask T2
                    (runTask T1
                       (setJobs []
                          (setSetupWaiters [] (lift (resumeSetupLeaf gv) a)))))
        end.
        destruct (overlapping_afterSetup gv view opts1 opts2
                    (setJobs [] (setSetupWaiters [] (lift (resumeSetupLeaf gv) a)))
                    (settled (world a) g) n f)
          as (_ & (cs2 & g2 & _ & _ & Hg2 & Hs2) & _); try done.
        { state_simpl. by apply object_resumeSetupLeaf. }
        { by rewrite node_settled. }
        { state_simpl. rewrite (Footprint_viewAt (world a)); [done |].
          apply Footprint_resumeSetupLeaf, Footprint_refl. }
        cbn zeta in Hg2, Hs2. fold T1 T2 in Hg2.
        unfold settleSetup. rewrite Hg2, Hs2.
        by destruct (settled_fields (world a) g) as (_ & _ & _ & _ & -> & _).
      - state_simpl. rewrite Hobj, Hs. state_simpl. rewrite Hjobs. cbn [app].
        rewrite (microtasks_two T1 T2) by done.
        rewrite settleWaited_idle
          by (by rewrite !setupWaiters_runTask).
        f_equal. f_equal. unfold lift, setJobs, setSetupWaiters. state_simpl.
        rewrite (resumeSetupLeaf_done gv (world a) g) by done.
        destruct a; cbn in *. by subst. }
    assert (Ha2 : a2 = settleBinds (runTask T2 (runTask T1 b))).
    { subst a2. unfold awaitAll. fold asked. by rewrite Hasked. }
    destruct (overlapping_afterSetup gv view opts1 opts2 b (settled (world a) g) n f)
      as (Hlen & (cs2 & g2 & Hcs2 & Hb2 & _) & (cs & g3 & Hcs & Hb3 & Hg3 & Hp3 & _));
      try done.
    { subst b. state_simpl. by apply object_resumeSetupLeaf. }
    { by rewrite node_settled. }
    { subst b. state_simpl. rewrite (Footprint_viewAt (world a)); [done |].
      apply Footprint_resumeSetupLeaf, Footprint_refl. }
    cbn zeta in *. fold T1 T2 in Hlen, Hcs2, Hcs, Hg3.
    rewrite <- Hasked in Hlen, Hcs2. rewrite <- Ha2 in Hcs, Hg3.
    destruct (settled_fields (world a) g) as (Hleaf & Hpath & _).
    rewrite Hleaf, Hpath in *. fold once in Hlen, Hb2, Hb3.
    destruct (Calls_resumeSetupLeaf gv (world a) (world a) (Calls_refl _ _))
      as (cs0 & Hcs0 & Hq0).
    assert (Hb0 : only isBind cs0 = []).
    { apply (only_none isBind quiet); [| done].
      intros c Hc. by apply notBind_isBind, quiet_notBind. }
    assert (Hwb : calls (world b) = calls (world a) ++ cs0) by (subst b; exact Hcs0).
    exists (cs0 ++ cs2), (cs0 ++ cs), g3.
    rewrite Hcs2, Hcs, Hwb, !only_app, Hb0, <- !app_assoc.
    repeat split; done.
Qed.

Lemma bind_once_when_awaited_witness :
  let a := settledState (fst (getOrCreateGraphView 1 Sample.start)) in
  exists cs g2,
    calls (world (awaitAll (placeTo 10 1 None (placeTo 10 1 None a))))
    = calls (world a) ++ cs
    /\ only isBind cs = [SetViewState 10 (Some (js "A.md"));
                         SetViewState 10 (Some (js "A.md"))]
    /\ object (world (awaitAll (placeTo 10 1 None (placeTo 10 1 None a)))) 10
       = Some g2
    /\ currentFilePath g2 = Some (js "A.md").
Proof.
  intros a.
  destruct (bind_once_when_awaited 10 1 None None a
              {| leaf := 10; node := None;
                 setupLeafPromise := SetupPending (Some 100%Z);
                 currentFilePath := None; compact := false;
                 mobileSimplified := false |}
              10 Sample.noteA eq_refl eq_refl eq_refl eq_refl eq_refl eq_refl)
    as (_ & cs0 & cs & g2 & _ & _ & _ & H1 & H2 & H3 & H4).
  exists cs, g2. repeat split; assumption.
Defined.

(** C3, refuted as stated.  Two calls of [placeTo] for one path, made one
    right after the other, bind the path twice; and the plugin makes them so
    when it is loaded with a note open: the refresh of [applyBannerHeight]
    and the [placeTo] of [placeGraphView(active)] both ask the host to bind
    [A.md]. *)
Lemma placeTo_twice_binds_twice :
  (let a := settledState (fst (getOrCreateGraphView 1 Sample.start)) in
   only isBind
     (calls (world (awaitAll (placeTo 10 1 None (placeTo 10 1 None a)))))
   = [SetViewState 10 (Some (js "A.md")); SetViewState 10 (Some (js "A.md"))])
  /\ only isBind
       (calls (world (awaitAll
                        (onload Sample.defaults {[ O := [] ]} 1
                           (Sample.twoPanes preview) Sample.noTimers))))
     = [SetViewState 10 (Some (js "A.md")); SetViewState 10 (Some (js "A.md"))].
Proof. split; vm_compute; reflexivity. Qed.

End AsyncFacts.

(* ===================================================================== *)
(** ** Resolutions that stop at a gate *)
(* ===================================================================== *)

Section GateFacts.
Import Js Plugin Props Frames Async.

Ltac state_simpl :=
  cbn [world jobs setupWaiters binds nextPromise rejections
       lift setJobs setSetupWaiters setBinds awaitBind reject settledState].

(** *** The class [hidden] is written by [setVisibility] alone *)

Lemma SameHidden_refl w : SameHidden w w.
Proof. done. Qed.

Lemma SameHidden_trans w1 w2 w3 :
  SameHidden w1 w2 -> SameHidden w2 w3 -> SameHidden w1 w3.
Proof. intros H1 H2 m. by rewrite H2, H1. Qed.

Lemma SameHidden_nodes w w' : nodes (host w') = nodes (host w) -> SameHidden w w'.
Proof. intros H m. unfold nodeAt. by rewrite H. Qed.

Lemma SameHidden_updNode n f w :
  (forall d, cls_hidden (f d) = cls_hidden d) -> SameHidden w (updNode n f w).
Proof. intros Hf m. rewrite nodeAt_updNode. case_bool_decide; [by subst | done]. Qed.

Lemma SameHidden_resumeSetupLeaf gv w : SameHidden w (resumeSetupLeaf gv w).
Proof.
  unfold resumeSetupLeaf. destruct (object w gv) as [g|]; [| done].
  destruct (setupLeafPromise g) as [t|]; [| done].
  set (w1 := updObject gv _ w).
  assert (H1 : SameHidden w (setupNode gv w1)).
  { unfold setupNode. destruct (nodeOf w1 gv) as [n|]; [| done].
    intros m. rewrite nodeAt_updNode. case_bool_decide; [by subst | done]. }
  destruct (greaterThanZero t).
  - exact H1.
  - unfold removeChild. by case_match.
Qed.

Lemma SameHidden_bound gv p w : SameHidden w (bound gv p w).
Proof. unfold bound. by destruct (object w gv). Qed.

Lemma SameHidden_placeTail gv n view opts w : SameHidden w (placeTail gv n view opts w).
Proof.
  unfold placeTail. destruct (negb _); [done |].
  unfold insertUnderTitle.
  assert (Hshow : forall w0, SameHidden w0 (showAndResize gv n opts w0)).
  { intros w0 m. unfold showAndResize.
    set (w1 := updNode n (setClassVisible true) w0).
    assert (H1 : cls_hidden (nodeAt w1 m) = cls_hidden (nodeAt w0 m)).
    { subst w1. by apply SameHidden_updNode. }
    destruct opts as [[c s]|].
    - destruct (nodeAt_setCompact gv c w1 m) as (_ & Hc & _).
      destruct (nodeAt_setMobileSimplified gv s (setCompact gv c w1) m) as (_ & Hs & _).
      case_match; change (nodeAt (call ?c ?x) m) with (nodeAt x m); congruence.
    - by case_match. }
  destruct (isDescendantOf _ _ _); [apply Hshow |].
  destruct (inlineTitleFound _); [| done].
  eapply SameHidden_trans; [| apply Hshow].
  intros m. change (nodeAt (call ?c ?x) m) with (nodeAt x m).
  by apply SameHidden_updNode.
Qed.

Lemma SameHidden_runTask t a : SameHidden (world a) (world (runTask t a)).
Proof.
  destruct t as [gv view opts | gv view opts p]; cbn [runTask].
  - repeat case_match; try done. state_simpl. apply SameHidden_placeTail.
  - state_simpl. case_match; state_simpl; [| apply SameHidden_bound].
    eapply SameHidden_trans; [apply SameHidden_bound | apply SameHidden_placeTail].
Qed.

Lemma SameHidden_drain fuel a : SameHidden (world a) (world (drain fuel a)).
Proof.
  revert a. induction fuel as [|fuel IH]; intros a; cbn; [done |].
  destruct (jobs a) as [|t rest]; [done |].
  eapply SameHidden_trans; [| apply IH].
  apply (SameHidden_runTask t (setJobs rest a)).
Qed.

(** When the host fulfils the promise of a setup, no node gains or loses
    the class [hidden], whatever calls of [placeTo] go on then. *)
Lemma SameHidden_settleSetup gv a : SameHidden (world a) (world (settleSetup gv a)).
Proof.
  unfold settleSetup. destruct (object (world a) gv) as [g|]; [| done].
  destruct (setupLeafPromise g); [| done].
  eapply SameHidden_trans; [| apply SameHidden_drain].
  state_simpl. apply SameHidden_resumeSetupLeaf.
Qed.

(** *** The resolutions that stop at a gate, as the plugin makes them *)

(** A per-note disabled or ignored note: the resolution stops at the first
    [setVisibility(false)]; it leaves no call of [placeTo] pending, and its
    promise is rejected when no graph view could be acquired. *)
Lemma placeGraphView_muted_async (view : nat) (a : State) (f : TFile) :
  file (viewAt (world a) view) = Some f ->
  extension f = js "md" ->
  Settings.isNoteDisabled (settings (plugin (world a))) (path f) = true
  \/ Ignore.matchIgnore (path f) (ignoreLines (world a)) = true ->
  world (placeGraphView view a) = hiddenForm view None (world a)
  /\ jobs (placeGraphView view a) = jobs a
  /\ setupWaiters (placeGraphView view a) = setupWaiters a
  /\ binds (placeGraphView view a) = binds a
  /\ rejections (placeGraphView view a)
     = rejections a ++ match snd (getOrCreateGraphView view (world a)) with
                       | Some _ => []
                       | None => [view]
                       end.
Proof.
  intros Hfile Hext Hgate. unfold placeGraphView, hiddenForm.
  rewrite <- (getOrCreate_call (PlaceGraphView view) view (world a)).
  state_simpl.
  set (w0 := call (PlaceGraphView view) (world a)).
  change (viewAt w0 view) with (viewAt (world a) view).
  change (settings (plugin w0)) with (settings (plugin (world a))).
  change (ignoreLines w0) with (ignoreLines (world a)).
  rewrite Hfile, Hext. rewrite bool_decide_eq_true_2 by done. cbn [negb].
  destruct (Settings.isNoteDisabled _ _) eqn:Hdis.
  - destruct (getOrCreateGraphView view w0) as [w1 [gv|]]; state_simpl; cbn [snd];
      by rewrite ?app_nil_r.
  - destruct Hgate as [Hgate | Hgate]; [done |]. rewrite Hgate.
    destruct (getOrCreateGraphView view w0) as [w1 [gv|]]; state_simpl; cbn [snd negb];
      by rewrite ?app_nil_r.
Qed.

(** With a gate of the mode or of the platform closed, a resolution of a
    note that is neither disabled nor ignored shows the graph view and then
    hides it, and returns before [placeTo]. *)
Lemma placeGraphView_gated_async (view : nat) (a : State) (f : TFile) :
  file (viewAt (world a) view) = Some f ->
  extension f = js "md" ->
  Settings.isNoteDisabled (settings (plugin (world a))) (path f) = false ->
  Ignore.matchIgnore (path f) (ignoreLines (world a)) = false ->
  hiddenInEdit (world a) view || disabledOnMobile (world a) = true ->
  world (placeGraphView view a) = hiddenForm view (Some true) (world a)
  /\ jobs (placeGraphView view a) = jobs a
  /\ setupWaiters (placeGraphView view a) = setupWaiters a
  /\ binds (placeGraphView view a) = binds a
  /\ rejections (placeGraphView view a)
     = rejections a ++ match snd (getOrCreateGraphView view (world a)) with
                       | Some _ => []
                       | None => [view]
                       end.
Proof.
  intros Hfile Hext Hdis Hign Hgate. unfold placeGraphView, hiddenForm.
  rewrite <- (getOrCreate_call (PlaceGraphView view) view (world a)).
  state_simpl.
  set (w0 := call (PlaceGraphView view) (world a)).
  change (viewAt w0 view) with (viewAt (world a) view).
  change (settings (plugin w0)) with (settings (plugin (world a))).
  change (ignoreLines w0) with (ignoreLines (world a)).
  rewrite Hfile, Hext. rewrite bool_decide_eq_true_2 by done. cbn [negb].
  rewrite Hdis, Hign.
  destruct (getOrCreateGraphView view w0) as [w1 [gv|]] eqn:E; state_simpl; cbn [snd];
    [| done].
  cbn [negb].
  assert (Hfp : Footprint (world a) (setVisibility gv true w1)).
  { rewrite (getOrCreate_fst _ _ _ _ E).
    apply Footprint_setVisibility, Footprint_getOrCreate.
    apply Footprint_call, Footprint_refl. }
  rewrite (Footprint_viewAt _ _ view Hfp), (fp_settings _ _ Hfp), (fp_isMobile _ _ Hfp).
  unfold hiddenInEdit, disabledOnMobile in Hgate.
  destruct (Mode_eqb (getMode (viewAt (world a) view)) source
            && bool_decide (orS (Settings.showInEditMode (settings (plugin (world a))))
                              Settings.DEFAULT_showInEditMode = js "hidden"));
    [state_simpl; by rewrite app_nil_r |].
  cbn [orb] in Hgate. rewrite Hgate. state_simpl. by rewrite app_nil_r.
Qed.

(** The classes of a hidden banner, field by field. *)
Lemma hide_fields (d : Node) :
  cls_hidden (hide d) = true /\ cls_visible (hide d) = false
  /\ parent (hide d) = parent d /\ cls_compact (hide d) = cls_compact d
  /\ cls_simplified (hide d) = cls_simplified d
  /\ cls_content (hide d) = cls_content d.
Proof. by destruct d. Qed.

(** The conclusion shared by the resolutions that stop at a gate. *)
Lemma gated_resolution (view : nat) (first : option bool) (a a' : State) :
  LeavesFresh (world a) ->
  world a' = hiddenForm view first (world a)
  /\ jobs a' = jobs a /\ setupWaiters a' = setupWaiters a /\ binds a' = binds a
  /\ rejections a'
     = rejections a ++ match snd (getOrCreateGraphView view (world a)) with
                       | Some _ => []
                       | None => [view]
                       end ->
  let w := world a in
  let w' := world a' in
  let acquired := snd (getOrCreateGraphView view w) in
  (forall gv g, object w gv = Some g -> object w' gv = Some g)
  /\ (exists cs, calls w' = calls w ++ PlaceGraphView view :: cs
                 /\ forallb quiet cs = true)
  /\ (jobs a' = jobs a /\ setupWaiters a' = setupWaiters a /\ binds a' = binds a)
  /\ (forall gv n, acquired = Some gv -> nodeOf w' gv = Some n ->
        cls_hidden (nodeAt w' n) = true
        /\ cls_visible (nodeAt w' n) = false
        /\ parent (nodeAt w' n) = parent (nodeAt w n)
        /\ cls_compact (nodeAt w' n) = cls_compact (nodeAt w n)
        /\ cls_simplified (nodeAt w' n) = cls_simplified (nodeAt w n)
        /\ cls_content (nodeAt w' n) = cls_content (nodeAt w n))
  /\ (forall m, (forall gv, acquired = Some gv -> nodeOf w' gv <> Some m) ->
                nodeAt w' m = nodeAt w m)
  /\ (forall gv, acquired = Some gv -> nodeOf w' gv = None ->
                 forall m, nodeAt w' m = nodeAt w m)
  /\ (forall gv m, cls_hidden (nodeAt (world (settleSetup gv a')) m)
                   = cls_hidden (nodeAt w' m))
  /\ (rejections a' = rejections a <-> acquired <> None).
Proof.
  intros Hfresh (Hw & Hj & Hs & Hb & Hr) w w' acquired.
  destruct (hidden_resolution view first (world a) Hfresh) as (Hobj & Hcalls & Hhide & Hrest).
  cbn zeta in *. subst w' acquired w. rewrite Hw.
  split; [exact Hobj |]. split; [exact Hcalls |]. split; [done |].
  split.
  { intros gv n Hacq Hn. rewrite (Hhide gv n Hacq Hn). apply hide_fields. }
  split; [exact Hrest |].
  split.
  { intros gv Hacq Hn m. apply Hrest. intros gv' Hacq'.
    assert (gv' = gv) as -> by congruence. by rewrite Hn. }
  split.
  { intros gv m. rewrite <- Hw. apply SameHidden_settleSetup. }
  rewrite Hr. destruct (snd (getOrCreateGraphView view (world a))).
  - rewrite app_nil_r. split; done.
  - split; [| by intros H]. intros H. exfalso.
    apply (f_equal length) in H. rewrite length_app in H. cbn in H. lia.
Qed.

(** C7, as amended.  A resolution for a per-note disabled or ignored note
    hides the acquired graph view when that one has its node, and does
    nothing else.  Every graph-view object that existed is left as it was
    (bound path, node, compact and simplified flags): a bound one stays
    bound.  After the entry of [placeGraphView] the host sees no file-scoped
    [setViewState] and no [insertAfter], and no call of [placeTo] is left
    pending.  The node of the acquired graph view, when it has one, ends
    with the class [hidden] and without [graph-banner-visible], its parent
    and its other classes as before; every other node is untouched.  When
    the acquired graph view has no node (it was created by this resolution,
    or its setup has not settled), [setVisibility(false)] does nothing: no
    node is touched, and the rest of the setup, when the host lets it run,
    gives no node the class [hidden].  The promise of the resolution is
    rejected exactly when no graph view could be acquired. *)
Theorem muted_resolution_only_hides (view : nat) (a : State) (f : TFile) :
  LeavesFresh (world a) ->
  file (viewAt (world a) view) = Some f ->
  extension f = js "md" ->
  Settings.isNoteDisabled (settings (plugin (world a))) (path f) = true
  \/ Ignore.matchIgnore (path f) (ignoreLines (world a)) = true ->
  let a' := placeGraphView view a in
  let w := world a in
  let w' := world a' in
  let acquired := snd (getOrCreateGraphView view w) in
  (forall gv g, object w gv = Some g -> object w' gv = Some g)
  /\ (exists cs, calls w' = calls w ++ PlaceGraphView view :: cs
                 /\ forallb quiet cs = true)
  /\ (jobs a' = jobs a /\ setupWaiters a' = setupWaiters a /\ binds a' = binds a)
  /\ (forall gv n, acquired = Some gv -> nodeOf w' gv = Some n ->
        cls_hidden (nodeAt w' n) = true
        /\ cls_visible (nodeAt w' n) = false
        /\ parent (nodeAt w' n) = parent (nodeAt w n)
        /\ cls_compact (nodeAt w' n) = cls_compact (nodeAt w n)
        /\ cls_simplified (nodeAt w' n) = cls_simplified (nodeAt w n)
        /\ cls_content (nodeAt w' n) = cls_content (nodeAt w n))
  /\ (forall m, (forall gv, acquired = Some gv -> nodeOf w' gv <> Some m) ->
                nodeAt w' m = nodeAt w m)
  /\ (forall gv, acquired = Some gv -> nodeOf w' gv = None ->
                 forall m, nodeAt w' m = nodeAt w m)
  /\ (forall gv m, cls_hidden (nodeAt (world (settleSetup gv a')) m)
                   = cls_hidden (nodeAt w' m))
  /\ (rejections a' = rejections a <-> acquired <> None).
Proof.
  intros Hfresh Hfile Hext Hgate.
  apply (gated_resolution view None a (placeGraphView view a) Hfresh).
  by apply (placeGraphView_muted_async view a f).
Qed.

Lemma muted_resolution_only_hides_witness :
  let a := settledState Sample.mutedA in
  (forall gv g, object (world a) gv = Some g ->
                object (world (placeGraphView 1 a)) gv = Some g)
  /\ cls_hidden (nodeAt (world (placeGraphView 1 a)) 10) = true
  /\ cls_visible (nodeAt (world (placeGraphView 1 a)) 10) = false
  /\ parent (nodeAt (world (placeGraphView 1 a)) 10) = Some (1%nat, preview).
Proof.
  intros a.
  destruct (muted_resolution_only_hides 1 a Sample.noteA)
    as (Hobj & _ & _ & Hnode & _).
  - apply LeavesFresh_intro.
    apply (bool_decide_unpack (map_Forall _ _)). vm_compute. exact I.
  - reflexivity.
  - reflexivity.
  - left. reflexivity.
  - split; [exact Hobj |].
    destruct (Hnode 10%nat 10%nat eq_refl eq_refl) as (Hh & Hv & Hp & _).
    split; [exact Hh |]. split; [exact Hv |]. rewrite Hp. reflexivity.
Defined.

(** C7, refuted as stated.  Note A is per-note disabled and no graph view
    exists yet: the resolution creates one, whose [setVisibility(false)]
    finds no node and does nothing; when the host then fulfils the promise
    of the setup, the node arrives with the class [graph-banner-content] and
    without the class [hidden], and nothing hides it. *)
Lemma muted_first_resolution_hides_nothing :
  let a := settledState (Sample.mute [js "A.md"] Sample.start) in
  let a' := placeGraphView 1 a in
  Settings.isNoteDisabled (settings (plugin (world a))) (js "A.md") = true
  /\ snd (getOrCreateGraphView 1 (world a)) = Some 10%nat
  /\ nodeOf (world a') 10 = None
  /\ nodes (host (world a')) = nodes (host (world a))
  /\ nodeOf (world (settleSetup 10 a')) 10 = Some 10%nat
  /\ cls_content (nodeAt (world (settleSetup 10 a')) 10) = true
  /\ cls_hidden (nodeAt (world (settleSetup 10 a')) 10) = false.
Proof. repeat split; vm_compute; reflexivity. Qed.

(** C8, as amended.  Edit mode with the setting [hidden].  For a note that
    is neither per-note disabled nor ignored, shown in source mode while
    [showInEditMode] is [hidden], the resolution returns before [placeTo]:
    no file-scoped [setViewState], no [insertAfter], no call left pending,
    every graph-view object as it was.  The acquired graph view is hidden
    when it has its node: the node ends with the class [hidden] and without
    [graph-banner-visible], the rest of it and every other node as before.
    When the acquired graph view has no node (it was created by this
    resolution, or its setup has not settled) nothing is hidden, now or when
    the rest of the setup runs. *)
Theorem edit_hidden_resolution (view : nat) (a : State) (f : TFile) :
  LeavesFresh (world a) ->
  file (viewAt (world a) view) = Some f ->
  extension f = js "md" ->
  Settings.isNoteDisabled (settings (plugin (world a))) (path f) = false ->
  Ignore.matchIgnore (path f) (ignoreLines (world a)) = false ->
  getMode (viewAt (world a) view) = source ->
  Settings.showInEditMode (settings (plugin (world a))) = Some (js "hidden") ->
  let a' := placeGraphView view a in
  let w := world a in
  let w' := world a' in
  let acquired := snd (getOrCreateGraphView view w) in
  (forall gv g, object w gv = Some g -> object w' gv = Some g)
  /\ (exists cs, calls w' = calls w ++ PlaceGraphView view :: cs
                 /\ forallb quiet cs = true)
  /\ (jobs a' = jobs a /\ setupWaiters a' = setupWaiters a /\ binds a' = binds a)
  /\ (forall gv n, acquired = Some gv -> nodeOf w' gv = Some n ->
        cls_hidden (nodeAt w' n) = true
        /\ cls_visible (nodeAt w' n) = false
        /\ parent (nodeAt w' n) = parent (nodeAt w n)
        /\ cls_compact (nodeAt w' n) = cls_compact (nodeAt w n)
        /\ cls_simplified (nodeAt w' n) = cls_simplified (nodeAt w n)
        /\ cls_content (nodeAt w' n) = cls_content (nodeAt w n))
  /\ (forall m, (forall gv, acquired = Some gv -> nodeOf w' gv <> Some m) ->
                nodeAt w' m = nodeAt w m)
  /\ (forall gv, acquired = Some gv -> nodeOf w' gv = None ->
                 forall m, nodeAt w' m = nodeAt w m)
  /\ (forall gv m, cls_hidden (nodeAt (world (settleSetup gv a')) m)
                   = cls_hidden (nodeAt w' m))
  /\ (rejections a' = rejections a <-> acquired <> None).
Proof.
  intros Hfresh Hfile Hext Hdis Hign Hmode Hedit.
  apply (gated_resolution view (Some true) a (placeGraphView view a) Hfresh).
  apply (placeGraphView_gated_async view a f); try done.
  unfold hiddenInEdit. by rewrite Hmode, Hedit.
Qed.

Lemma edit_hidden_resolution_witness :
  let a := settledState Sample.editingA in
  (forall gv g, object (world a) gv = Some g ->
                object (world (placeGraphView 1 a)) gv = Some g)
  /\ cls_hidden (nodeAt (world (placeGraphView 1 a)) 10) = true
  /\ cls_visible (nodeAt (world (placeGraphView 1 a)) 10) = false
  /\ parent (nodeAt (world (placeGraphView 1 a)) 10) = Some (1%nat, source).
Proof.
  intros a.
  destruct (edit_hidden_resolution 1 a Sample.noteA)
    as (Hobj & _ & _ & Hnode & _).
  - apply LeavesFresh_intro.
    apply (bool_decide_unpack (map_Forall _ _)). vm_compute. exact I.
  - reflexivity.
  - reflexivity.
  - reflexivity.
  - reflexivity.
  - reflexivity.
  - reflexivity.
  - split; [exact Hobj |].
    destruct (Hnode 10%nat 10%nat eq_refl eq_refl) as (Hh & Hv & Hp & _).
    split; [exact Hh |]. split; [exact Hv |]. rewrite Hp. reflexivity.
Defined.

(** C8, refuted as stated.  The plugin is loaded with note A open in source
    mode and [showInEditMode] set to [hidden], and no graph view exists yet:
    the resolution creates one and both calls of [setVisibility] find no
    node; when the host then fulfils the promise of the setup, the node
    arrives without the class [hidden]. *)
Lemma edit_hidden_first_resolution_hides_nothing :
  let a := settledState
             (withPlugin
                (fun pl => set_settings
                             (Settings.applyBuiltinPreset (js "perf") (settings pl)) pl)
                (Sample.fresh Sample.defaults [] (Sample.twoPanes source))) in
  let a' := placeGraphView 1 a in
  hiddenInEdit (world a) 1 = true
  /\ snd (getOrCreateGraphView 1 (world a)) = Some 10%nat
  /\ nodeOf (world a') 10 = None
  /\ nodes (host (world a')) = nodes (host (world a))
  /\ nodeOf (world (settleSetup 10 a')) 10 = Some 10%nat
  /\ cls_content (nodeAt (world (settleSetup 10 a')) 10) = true
  /\ cls_hidden (nodeAt (world (settleSetup 10 a')) 10) = false.
Proof. repeat split; vm_compute; reflexivity. Qed.

(** X16.  On a mobile device with [mobileMode] set to [disabled], the
    resolution of a note that is neither disabled nor ignored returns before
    [placeTo]: every graph-view object that existed keeps its bound path,
    node and flags; after the entry of [placeGraphView] the host sees no
    file-scoped [setViewState] and no [insertAfter], and no call is left
    pending.  The acquired graph view is hidden when it has its node: the
    node ends with the class [hidden] and without [graph-banner-visible],
    its parent and other classes as before, every other node untouched.
    When it has no node (it was created by this resolution, or its setup has
    not settled) nothing is hidden, now or when the rest of the setup
    runs. *)
Theorem mobile_disabled_resolution_hides (view : nat) (a : State) (f : TFile) :
  LeavesFresh (world a) ->
  file (viewAt (world a) view) = Some f ->
  extension f = js "md" ->
  Settings.isNoteDisabled (settings (plugin (world a))) (path f) = false ->
  Ignore.matchIgnore (path f) (ignoreLines (world a)) = false ->
  disabledOnMobile (world a) = true ->
  let a' := placeGraphView view a in
  let w := world a in
  let w' := world a' in
  let acquired := snd (getOrCreateGraphView view w) in
  (forall gv g, object w gv = Some g -> object w' gv = Some g)
  /\ (exists cs, calls w' = calls w ++ PlaceGraphView view :: cs
                 /\ forallb quiet cs = true)
  /\ (jobs a' = jobs a /\ setupWaiters a' = setupWaiters a /\ binds a' = binds a)
  /\ (forall gv n, acquired = Some gv -> nodeOf w' gv = Some n ->
        cls_hidden (nodeAt w' n) = true
        /\ cls_visible (nodeAt w' n) = false
        /\ parent (nodeAt w' n) = parent (nodeAt w n)
        /\ cls_compact (nodeAt w' n) = cls_compact (nodeAt w n)
        /\ cls_simplified (nodeAt w' n) = cls_simplified (nodeAt w n)
        /\ cls_content (nodeAt w' n) = cls_content (nodeAt w n))
  /\ (forall m, (forall gv, acquired = Some gv -> nodeOf w' gv <> Some m) ->
                nodeAt w' m = nodeAt w m)
  /\ (forall gv, acquired = Some gv -> nodeOf w' gv = None ->
                 forall m, nodeAt w' m = nodeAt w m)
  /\ (forall gv m, cls_hidden (nodeAt (world (settleSetup gv a')) m)
                   = cls_hidden (nodeAt w' m))
  /\ (rejections a' = rejections a <-> acquired <> None).
Proof.
  intros Hfresh Hfile Hext Hdis Hign Hmob.
  apply (gated_resolution view (Some true) a (placeGraphView view a) Hfresh).
  apply (placeGraphView_gated_async view a f); try done.
  by rewrite Hmob, orb_true_r.
Qed.

Lemma mobile_disabled_resolution_hides_witness :
  let onMobile w :=
    withHost
      (fun h => {| views := views h; activeView := activeView h;
                   markdownLeaves := markdownLeaves h; nodes := nodes h;
                   leafParent := leafParent h;
                   noViewContent := noViewContent h;
                   nextLeaf := nextLeaf h; isMobile := true |})
      (withPlugin
         (fun pl => set_settings
                      (Settings.applyBuiltinPreset (js "perf") (settings pl)) pl)
         w) in
  (* a graph view that has its node is hidden *)
  (let a := settledState (onMobile Sample.placedA) in
   cls_hidden (nodeAt (world (placeGraphView 1 a)) 10) = true
   /\ cls_visible (nodeAt (world (placeGraphView 1 a)) 10) = false)
  (* a graph view created by the resolution is not *)
  /\ (let a := settledState (onMobile Sample.start) in
      forall m, nodeAt (world (placeGraphView 1 a)) m = nodeAt (world a) m).
Proof.
  intros onMobile. split.
  - intros a.
    destruct (mobile_disabled_resolution_hides 1 a Sample.noteA)
      as (_ & _ & _ & Hnode & _).
    + apply LeavesFresh_intro.
      apply (bool_decide_unpack (map_Forall _ _)). vm_compute. exact I.
    + reflexivity.
    + reflexivity.
    + reflexivity.
    + reflexivity.
    + reflexivity.
    + destruct (Hnode 10%nat 10%nat eq_refl eq_refl) as (Hh & Hv & _).
      by split.
  - intros a.
    destruct (mobile_disabled_resolution_hides 1 a Sample.noteA)
      as (_ & _ & _ & _ & _ & Hnone & _).
    + apply LeavesFresh_intro.
      apply (bool_decide_unpack (map_Forall _ _)). vm_compute. exact I.
    + reflexivity.
    + reflexivity.
    + reflexivity.
    + reflexivity.
    + reflexivity.
    + apply (Hnone 10%nat); reflexivity.
Defined.

End GateFacts.

(* ===================================================================== *)
(** ** Resolutions as the plugin makes them, and the toggle command *)
(* ===================================================================== *)

Section ResolutionFacts.
Import Js Plugin Props Frames Async.

Ltac state_simpl :=
  cbn [world jobs setupWaiters binds nextPromise rejections
       lift setJobs setSetupWaiters setBinds awaitBind reject settledState].

(** A call of [placeTo] changes nothing before its first [await]. *)
Lemma world_placeTo gv view opts a : world (placeTo gv view opts a) = world a.
Proof. unfold placeTo. by repeat case_match. Qed.

Lemma binds_placeTo gv view opts a : binds (placeTo gv view opts a) = binds a.
Proof. unfold placeTo. by repeat case_match. Qed.

Lemma rejections_placeTo gv view opts a :
  rejections (placeTo gv view opts a) = rejections a.
Proof. unfold placeTo. by repeat case_match. Qed.

(** The world when [placeGraphView] returns to its caller: that of its
    entry, or that after the acquisition of a graph view and one or two
    calls of [setVisibility]. *)
Lemma placeGraphView_world (view : nat) (a : State) :
  let w0 := call (PlaceGraphView view) (world a) in
  let w1 := fst (getOrCreateGraphView view w0) in
  world (placeGraphView view a) = w0
  \/ world (placeGraphView view a) = w1
  \/ (exists gv b, world (placeGraphView view a) = setVisibility gv b w1)
  \/ (exists gv b b',
        world (placeGraphView view a) = setVisibility gv b (setVisibility gv b' w1)).
Proof.
  cbn zeta. unfold placeGraphView. state_simpl.
  set (w0 := call (PlaceGraphView view) (world a)).
  destruct (file (viewAt w0 view)) as [f|]; [| by left].
  destruct (negb _); [by left |].
  destruct (getOrCreateGraphView view w0) as [w1 [gv|]] eqn:E; cbn [fst].
  - destruct (Settings.isNoteDisabled _ _); state_simpl.
    + right. right. left. by exists gv, false.
    + destruct (Ignore.matchIgnore _ _); state_simpl.
      * right. right. left. by eexists _, _.
      * repeat case_match; rewrite ?world_placeTo; state_simpl;
          right; right; right; by eexists _, _, _.
  - destruct (Settings.isNoteDisabled _ _); state_simpl; right; by left.
Qed.

(** With the gates open a resolution shows the graph view and calls
    [placeTo], which it leaves pending. *)
Lemma placeGraphView_places_async (view : nat) (a : State) (w1 : World)
    (f : TFile) (gv : nat) :
  file (viewAt (world a) view) = Some f ->
  extension f = js "md" ->
  Settings.isNoteDisabled (settings (plugin (world a))) (path f) = false ->
  Ignore.matchIgnore (path f) (ignoreLines (world a)) = false ->
  hiddenInEdit (world a) view = false ->
  disabledOnMobile (world a) = false ->
  getOrCreateGraphView view (call (PlaceGraphView view) (world a)) = (w1, Some gv) ->
  placeGraphView view a
  = placeTo gv view (Some (placeOptions (world a) view))
      (lift (fun _ => setVisibility gv true (setVisibility gv true w1)) a).
Proof.
  intros Hfile Hext Hdis Hign Hedit Hmob E. unfold placeGraphView. state_simpl.
  set (w0 := call (PlaceGraphView view) (world a)) in *.
  change (viewAt w0 view) with (viewAt (world a) view).
  change (settings (plugin w0)) with (settings (plugin (world a))).
  change (ignoreLines w0) with (ignoreLines (world a)).
  rewrite Hfile, Hext. rewrite bool_decide_eq_true_2 by done. cbn [negb].
  rewrite Hdis, Hign, E. cbn [negb].
  assert (Hfp : Footprint (world a) (setVisibility gv true w1)).
  { rewrite (getOrCreate_fst _ _ _ _ E).
    apply Footprint_setVisibility, Footprint_getOrCreate.
    apply Footprint_call, Footprint_refl. }
  rewrite (Footprint_viewAt _ _ view Hfp), (fp_settings _ _ Hfp), (fp_isMobile _ _ Hfp).
  unfold hiddenInEdit in Hedit. unfold disabledOnMobile in Hmob.
  rewrite Hedit, Hmob. reflexivity.
Qed.

Lemma SameHidden_placeTo gv view opts w : SameHidden w (Plugin.placeTo gv view opts w).
Proof.
  rewrite placeTo_unfold. cbn zeta.
  pose proof (SameHidden_resumeSetupLeaf gv w) as H1.
  destruct (nodeOf _ gv) as [n|]; [| done].
  destruct (file _) as [f|]; [| done].
  eapply SameHidden_trans; [| apply SameHidden_placeTail].
  intros m. by rewrite nodeAt_bindTo.
Qed.

(** A resolution with every gate open, awaited: the acquired graph view,
    reused or just created, ends bound to the note, its node without the
    class [hidden], and under the title of the view when that is there. *)
Lemma resolution_shows (view : nat) (a : State) (w1 : World) (f : TFile)
    (gv : nat) (g1 : GraphView) (n : nat) :
  jobs a = [] -> setupWaiters a = [] -> binds a = [] ->
  file (viewAt (world a) view) = Some f ->
  extension f = js "md" ->
  Settings.isNoteDisabled (settings (plugin (world a))) (path f) = false ->
  Ignore.matchIgnore (path f) (ignoreLines (world a)) = false ->
  hiddenInEdit (world a) view = false ->
  disabledOnMobile (world a) = false ->
  getOrCreateGraphView view (call (PlaceGraphView view) (world a)) = (w1, Some gv) ->
  object w1 gv = Some g1 ->
  nodeAfterSetup w1 g1 = Some n ->
  (node g1 <> Some n -> cls_hidden (nodeAt w1 n) = false) ->
  let a' := awaitAll (placeGraphView view a) in
  (exists g', object (world a') gv = Some g'
              /\ currentFilePath g' = Some (path f) /\ node g' = Some n)
  /\ cls_hidden (nodeAt (world a') n) = false
  /\ (modeContainerFound (viewAt (world a) view) = true ->
      inlineTitleFound (viewAt (world a) view) = true ->
      parent (nodeAt (world a') n) = Some (view, getMode (viewAt (world a) view))
      /\ cls_visible (nodeAt (world a') n) = true)
  /\ settings (plugin (world a')) = settings (plugin (world a))
  /\ jobs a' = [] /\ setupWaiters a' = [] /\ binds a' = [].
Proof.
  intros Hjobs Hwait Hbinds Hfile Hext Hdis Hign Hedit Hmob E Hobj1 Hnode1 Hfreshnode a'.
  subst a'.
  rewrite (placeGraphView_places_async view a w1 f gv) by done.
  set (shown := setVisibility gv true (setVisibility gv true w1)).
  set (opts := Some (placeOptions (world a) view)).
  assert (Hobjs : object shown gv = Some g1).
  { subst shown. by rewrite !object_setVisibility. }
  destruct (awaited_placeTo gv view opts (lift (fun _ => shown) a) g1)
    as (Hw & Hj & Hs & Hb); try done.
  cbn zeta in Hw, Hj, Hs, Hb. rewrite Hw, Hj, Hs, Hb.
  cbn [world lift].
  assert (Hfp1 : Footprint (world a) w1).
  { rewrite (getOrCreate_fst _ _ _ _ E).
    apply Footprint_getOrCreate, Footprint_call, Footprint_refl. }
  assert (Hfp : Footprint (world a) shown).
  { subst shown. by do 2 apply Footprint_setVisibility. }
  assert (Hview : viewAt shown view = viewAt (world a) view)
    by (by apply Footprint_viewAt).
  assert (Hnode : nodeAfterSetup shown g1 = Some n).
  { unfold nodeAfterSetup in *.
    rewrite (fp_noViewContent _ _ Hfp), <- (fp_noViewContent _ _ Hfp1). exact Hnode1. }
  assert (Hfiles : file (viewAt shown view) = Some f) by (by rewrite Hview).
  destruct (placeTo_bind gv view opts shown g1 n f Hobjs Hnode Hfiles)
    as (g' & cs & Hg' & Hpath & Hn' & _).
  assert (Hhid : cls_hidden (nodeAt shown n) = false).
  { destruct (decide (node g1 = Some n)) as [Hn | Hn].
    - destruct (nodeAt_shown gv w1 g1 n Hobj1 Hn) as [Hsh _].
      fold shown in Hsh. by rewrite Hsh.
    - subst shown. rewrite nodeAt_setVisibility, nodeOf_setVisibility.
      rewrite (nodeOf_object _ _ _ Hobj1), bool_decide_eq_false_2 by done.
      rewrite nodeAt_setVisibility.
      rewrite (nodeOf_object _ _ _ Hobj1), bool_decide_eq_false_2 by done.
      by apply Hfreshnode. }
  split; [by exists g' |]. split.
  { by rewrite (SameHidden_placeTo gv view opts shown n). }
  split.
  { intros Hmc Htitle.
    destruct (placeTo_exact gv view opts shown g1 n f Hobjs Hnode Hfiles)
      as (_ & _ & _ & Hplaced & _); [by rewrite Hview | right; by rewrite Hview |].
    rewrite Hplaced, Hview. done. }
  split; [| done].
  rewrite (fp_settings shown); [by apply (fp_settings (world a)) |].
  apply Footprint_placeTo, Footprint_refl.
Qed.

End ResolutionFacts.

Section ToggleFactsAsync.
Import Js Plugin Props Frames Async.

Ltac state_simpl :=
  cbn [world jobs setupWaiters binds nextPromise rejections
       lift setJobs setSetupWaiters setBinds awaitBind reject settledState].

Ltac state_simpl_in H :=
  cbn [world jobs setupWaiters binds nextPromise rejections
       lift setJobs setSetupWaiters setBinds awaitBind reject settledState] in H.

(** The command is the toggle of the list and then a resolution for the
    active view. *)
Lemma toggleCommand_resolves (a : State) (view : nat) (f : TFile) :
  activeView (host (world a)) = Some view ->
  file (viewAt (world a) view) = Some f ->
  toggleCommand a = placeGraphView view (lift (toggled (path f)) a).
Proof.
  intros Hact Hfile. unfold toggleCommand, toggleCurrentNote. rewrite Hact, Hfile.
  state_simpl.
  change (activeView (host (call SaveData ?x))) with (activeView (host (world a))).
  rewrite Hact.
  change (viewAt (call SaveData ?x) view) with (viewAt (world a) view).
  rewrite Hfile. by rewrite bool_decide_eq_true_2.
Qed.

Lemma Calls_placeGraphView_async (view : nat) (a : State) :
  Calls notResolution (call (PlaceGraphView view) (world a))
    (world (placeGraphView view a)).
Proof.
  assert (H1 : Calls notResolution (call (PlaceGraphView view) (world a))
                 (fst (getOrCreateGraphView view (call (PlaceGraphView view) (world a))))).
  { eapply Calls_weaken; [apply quiet_notResolution |].
    apply Calls_getOrCreate, Calls_refl. }
  destruct (placeGraphView_world view a)
    as [-> | [-> | [(gv & b & ->) | (gv & b & b' & ->)]]].
  - apply Calls_refl.
  - exact H1.
  - by apply Calls_setVisibility.
  - by do 2 apply Calls_setVisibility.
Qed.




End ToggleFactsAsync.

(* ===================================================================== *)
(** ** Sessions: what every sequence of events keeps *)
(* ===================================================================== *)

Section KeptFacts.
Import Js Plugin Props Frames Exact Invariants Async.

Ltac state_simpl :=
  cbn [world jobs setupWaiters binds nextPromise rejections
       lift setJobs setSetupWaiters setBinds awaitBind reject settledState].

Lemma Kept_runTask (P : World -> Prop) (t : Task) (a : State) :
  Kept P -> P (world a) -> P (world (runTask t a)).
Proof.
  intros K H. destruct t as [gv view opts | gv view opts fp]; cbn [runTask].
  - destruct (nodeOf (world a) gv) as [n|]; [| done].
    destruct (file _) as [f|]; [| done].
    destruct (object (world a) gv) as [g|]; [| done].
    destruct (negb _); state_simpl.
    + by apply (kept_call P K).
    + by apply (kept_placeTail P K).
  - state_simpl. pose proof (kept_bound P K gv fp _ H) as Hb.
    destruct (nodeOf _ gv); state_simpl; [| done].
    by apply (kept_placeTail P K).
Qed.

Lemma Kept_drain (P : World -> Prop) (fuel : nat) (a : State) :
  Kept P -> P (world a) -> P (world (drain fuel a)).
Proof.
  intros K. revert a. induction fuel as [|fuel IH]; intros a H; [done |].
  cbn [drain]. destruct (jobs a) as [|t rest]; [done |].
  apply IH. by apply Kept_runTask.
Qed.

Lemma Kept_microtasks (P : World -> Prop) (a : State) :
  Kept P -> P (world a) -> P (world (microtasks a)).
Proof. apply Kept_drain. Qed.

Lemma Kept_placeGraphView (P : World -> Prop) (view : nat) (a : State) :
  Kept P -> P (world a) -> P (world (placeGraphView view a)).
Proof.
  intros K H.
  assert (H0 : P (call (PlaceGraphView view) (world a)))
    by (by apply (kept_call P K)).
  pose proof (kept_acquire P K view _ H0) as H1.
  destruct (placeGraphView_world view a)
    as [-> | [-> | [(gv & b & ->) | (gv & b & b' & ->)]]]; try done.
  - by apply (kept_setVisibility P K).
  - by do 2 apply (kept_setVisibility P K).
Qed.

Lemma Kept_applyBannerHeight (P : World -> Prop) (a : State) :
  Kept P -> P (world a) -> P (world (applyBannerHeight a)).
Proof.
  intros K H. unfold applyBannerHeight. state_simpl.
  assert (H0 : P (call SetBannerHeight (world a)))
    by (by apply (kept_call P K)).
  set (w0 := call SetBannerHeight (world a)) in *.
  destruct (activeView (host w0)) as [view|]; [| done].
  pose proof (kept_acquire P K view _ H0) as H1.
  destruct (file _); [| done].
  destruct (negb _); [done |].
  destruct (Settings.isNoteDisabled _ _); [done |].
  destruct (Ignore.matchIgnore _ _); [done |].
  destruct (getOrCreateGraphView view w0) as [w1 [gv|]]; cbn [fst] in H1;
    state_simpl; [| done].
  repeat case_match; state_simpl;
    try (by apply (kept_setVisibility P K)).
  unfold forceRefresh. rewrite world_placeTo. state_simpl.
  by apply (kept_unbind P K), (kept_setVisibility P K).
Qed.

Lemma Kept_toggleCommand (P : World -> Prop) (a : State) :
  Kept P -> (forall p w, P w -> P (toggled p w)) ->
  P (world a) -> P (world (toggleCommand a)).
Proof.
  intros K Ht H.
  destruct (activeView (host (world a))) as [view|] eqn:Hact.
  2:{ unfold toggleCommand. by rewrite Hact. }
  destruct (file (viewAt (world a) view)) as [f|] eqn:Hfile.
  2:{ unfold toggleCommand. by rewrite Hact, Hfile. }
  rewrite (toggleCommand_resolves a view f Hact Hfile).
  apply Kept_placeGraphView; [done |]. state_simpl. by apply Ht.
Qed.

Lemma Kept_onFileOpen (P : World -> Prop) (opened : option TFile) (a : State) :
  Kept P -> P (world a) -> P (world (onFileOpen opened a)).
Proof.
  intros K H. unfold onFileOpen.
  repeat case_match; try done. by apply Kept_placeGraphView.
Qed.

Lemma Kept_onBannerHeightChange (P : World -> Prop) (value : jsstring) (a : State) :
  Kept P ->
  (forall v w, P w ->
     P (withPlugin
          (fun p => set_settings (SettingTab.set_bannerHeight v (settings p)) p) w)) ->
  P (world a) -> P (world (onBannerHeightChange value a)).
Proof.
  intros K Hh H. unfold onBannerHeightChange. state_simpl.
  apply (kept_call P K), Kept_applyBannerHeight; [done |]. state_simpl.
  by apply Hh.
Qed.

Lemma Kept_settleSetup (P : World -> Prop) (gv : nat) (a : State) :
  Kept P -> KeptByLoop P -> P (world a) -> P (world (settleSetup gv a)).
Proof.
  intros K L H. unfold settleSetup.
  destruct (object (world a) gv) as [g|]; [| done].
  destruct (setupLeafPromise g); [| done].
  apply Kept_microtasks; [done |]. state_simpl. by apply (kept_resume P L).
Qed.

Lemma Kept_settleBind (P : World -> Prop) (p : nat) (a : State) :
  Kept P -> P (world a) -> P (world (settleBind p a)).
Proof.
  intros K H. unfold settleBind.
  destruct (List.find _ _) as [[q t]|]; [| done].
  by apply Kept_microtasks.
Qed.

Lemma Kept_fireTimer (P : World -> Prop) (t : Timer) (a : State) :
  Kept P -> KeptByLoop P -> P (world a) -> P (world (fireTimer t a)).
Proof.
  intros K L H. unfold fireTimer. apply Kept_microtasks; [done |].
  assert (H1 : P (call (TimerFired (timerId t)) (dequeue t (world a))))
    by (by apply (kept_call P K), (kept_dequeue P L)).
  unfold runCallback. destruct (callback t).
  - by apply Kept_placeGraphView.
  - state_simpl. by apply (kept_removeChild P L).
Qed.

Lemma Kept_runTimers (P : World -> Prop) (fuel : nat) (target : Z) (a : State) :
  Kept P -> KeptByLoop P -> P (world a) -> P (world (runTimers fuel target a)).
Proof.
  intros K L. revert a. induction fuel as [|fuel IH]; intros a H; [done |].
  cbn [runTimers].
  destruct (earliest _) as [t|]; [| by apply (kept_now P L)].
  destruct (due t <=? target)%Z; [| by apply (kept_now P L)].
  by apply IH, Kept_fireTimer.
Qed.

Lemma Kept_elapse (P : World -> Prop) (d : Z) (a : State) :
  Kept P -> KeptByLoop P -> P (world a) -> P (world (elapse d a)).
Proof. intros K L H. unfold elapse. by apply Kept_runTimers. Qed.

(** What is left to show of a property that is kept, for it to hold along
    a session: that the handlers that await nothing keep it. *)
Lemma Kept_step (P : World -> Prop) (e : Event) (a : State) :
  Kept P -> KeptByLoop P ->
  (forall p w, P w -> P (toggled p w)) ->
  (forall v w, P w ->
     P (withPlugin
          (fun p => set_settings (SettingTab.set_bannerHeight v (settings p)) p) w)) ->
  match e with
  | LayoutChange => forall w, P w -> P (onLayoutChange w)
  | PresetChange value => forall w, P w -> P (SettingTab.onPresetChange value w)
  | SavePreset n => forall w, P w -> P (SettingTab.onSavePreset n w)
  | ClearPreset n => forall w, P w -> P (SettingTab.onClearPreset n w)
  | MaxGraphViewsChange value =>
    forall w, P w -> P (SettingTab.onMaxGraphViewsChange value w)
  | DebounceChange num => forall w, P w -> P (SettingTab.onDebounceChange num w)
  | LeafTimeChange num => forall w, P w -> P (SettingTab.onLeafTimeChange num w)
  | EditModeChange value => forall w, P w -> P (SettingTab.onEditModeChange value w)
  | MobileModeChange value =>
    forall w, P w -> P (SettingTab.onMobileModeChange value w)
  | IgnoreChange value => forall w, P w -> P (SettingTab.onIgnoreChange value w)
  | HostChanges h => forall w, P w -> P (hostChanges h w)
  | Unload => forall w, P w -> P (onunload w)
  | FileOpen _ | ToggleCommand | BannerHeightChange _ | TimePasses _
  | SetupSettles _ | BindSettles _ => True
  end ->
  P (world a) -> P (world (step e a)).
Proof.
  intros K L Ht Hh Hsync H. unfold step. apply Kept_microtasks; [done |].
  destruct e; cbn [handle]; try (state_simpl; by apply Hsync).
  - by apply Kept_onFileOpen.
  - by apply Kept_toggleCommand.
  - by apply Kept_onBannerHeightChange.
  - by apply Kept_elapse.
  - by apply Kept_settleSetup.
  - by apply Kept_settleBind.
Qed.

Lemma Kept_onload (P : World -> Prop) (s : Settings.t)
    (arr : gmap nat (list jsstring)) (nextArr : nat) (h : Host) (l : Loop) :
  Kept P ->
  P {| plugin := {| settings := s; arrays := arr; nextArray := nextArr;
                    graphViews := []; objects := ∅; layoutTimer := None |};
       host := h; loop := l; calls := [] |} ->
  P (world (onload s arr nextArr h l)).
Proof.
  intros K H. unfold onload. apply Kept_microtasks; [done |].
  set (a0 := settledState _).
  assert (H1 : P (world (applyBannerHeight a0)))
    by (by apply Kept_applyBannerHeight).
  repeat case_match; try done. by apply Kept_placeGraphView.
Qed.

(** The handlers of the settings tab that store a value, and the first
    half of the toggle, write the settings only. *)
Lemma OnlySettings_refl (w : World) : OnlySettings w w.
Proof. by repeat split. Qed.

Lemma OnlySettings_store (f : Settings.t -> Settings.t) (w : World) :
  OnlySettings w (SettingTab.store f w).
Proof. by repeat split. Qed.

Lemma OnlySettings_applyUserPreset (n : Z) (w : World) :
  OnlySettings w (applyUserPreset n w).
Proof.
  unfold applyUserPreset, applyCoreSettingsSnapshot.
  destruct (if (n =? 1)%Z then _ else _) as [sn|]; [| by repeat split].
  by destruct (Settings.snap_ignore sn).
Qed.

Lemma OnlySettings_trans (w1 w2 w3 : World) :
  OnlySettings w1 w2 -> OnlySettings w2 w3 -> OnlySettings w1 w3.
Proof.
  intros (H1 & H2 & H3 & H4 & H5) (G1 & G2 & G3 & G4 & G5).
  repeat split; congruence.
Qed.

Lemma OnlySettings_tab (e : Event) :
  match e with
  | PresetChange value => forall w, OnlySettings w (SettingTab.onPresetChange value w)
  | SavePreset n => forall w, OnlySettings w (SettingTab.onSavePreset n w)
  | ClearPreset n => forall w, OnlySettings w (SettingTab.onClearPreset n w)
  | MaxGraphViewsChange value =>
    forall w, OnlySettings w (SettingTab.onMaxGraphViewsChange value w)
  | DebounceChange num => forall w, OnlySettings w (SettingTab.onDebounceChange num w)
  | LeafTimeChange num => forall w, OnlySettings w (SettingTab.onLeafTimeChange num w)
  | EditModeChange value =>
    forall w, OnlySettings w (SettingTab.onEditModeChange value w)
  | MobileModeChange value =>
    forall w, OnlySettings w (SettingTab.onMobileModeChange value w)
  | IgnoreChange value => forall w, OnlySettings w (SettingTab.onIgnoreChange value w)
  | _ => True
  end.
Proof.
  destruct e; try exact I; intros w.
  - unfold SettingTab.onPresetChange.
    case_bool_decide; [apply OnlySettings_store |].
    eapply OnlySettings_trans; [| apply OnlySettings_store].
    repeat case_match; try apply OnlySettings_applyUserPreset; by repeat split.
  - unfold SettingTab.onSavePreset, saveCurrentToUserPreset, getCoreSettingsSnapshot.
    cbn. by repeat case_match.
  - unfold SettingTab.onClearPreset, clearUserPreset. by repeat case_match.
  - apply OnlySettings_store.
  - unfold SettingTab.onDebounceChange, SettingTab.onNumberChange.
    destruct num as [n|]; [| apply OnlySettings_refl].
    destruct (n <? 0)%Z; [apply OnlySettings_refl | apply OnlySettings_store].
  - unfold SettingTab.onLeafTimeChange, SettingTab.onNumberChange.
    destruct num as [n|]; [| apply OnlySettings_refl].
    destruct (n <? 0)%Z; [apply OnlySettings_refl | apply OnlySettings_store].
  - apply OnlySettings_store.
  - apply OnlySettings_store.
  - by repeat split.
Qed.

Lemma OnlySettings_toggled (p : jsstring) (w : World) : OnlySettings w (toggled p w).
Proof. by repeat split. Qed.

End KeptFacts.

(* ===================================================================== *)
(** ** Sessions: the timers *)
(* ===================================================================== *)

Section TimerSessions.
Import Js Plugin Props Frames Exact Invariants Async.

Ltac state_simpl :=
  cbn [world jobs setupWaiters binds nextPromise rejections
       lift setJobs setSetupWaiters setBinds awaitBind reject settledState].

Lemma loop_bound gv p w : loop (bound gv p w) = loop w.
Proof. unfold bound. by destruct (object w gv). Qed.

Lemma loop_placeTail gv n view opts w : loop (placeTail gv n view opts w) = loop w.
Proof.
  unfold placeTail. destruct (negb _); [done |].
  destruct (insertUnderTitle _ _ _ _ _) as [w1|] eqn:E; [| done].
  apply (SameLoop_showAndResize gv n opts w).
  by apply (SameLoop_insertUnderTitle _ _ _ _ w w w1 eq_refl E).
Qed.

(** No step of a resolution sets or clears a timer. *)
Lemma Kept_loop (l : Loop) : Kept (fun w => loop w = l).
Proof.
  constructor.
  - done.
  - intros view w <-. by apply (SameLoop_getOrCreate view w w).
  - intros gv b w <-. by apply (SameLoop_setVisibility gv b w w).
  - done.
  - intros gv p w <-. apply loop_bound.
  - intros gv n view opts w <-. apply loop_placeTail.
Qed.

Lemma Kept_OneDebounce : Kept OneDebounce.
Proof.
  constructor.
  - intros c w. by apply OneDebounce_same.
  - intros view w. apply OneDebounce_same.
    + by apply (SameLoop_getOrCreate view w w).
    + apply (fp_layoutTimer w), Footprint_getOrCreate, Footprint_refl.
  - intros gv b w. apply OneDebounce_same.
    + by apply (SameLoop_setVisibility gv b w w).
    + apply (fp_layoutTimer w), Footprint_setVisibility, Footprint_refl.
  - intros gv w. by apply OneDebounce_same.
  - intros gv p w. apply OneDebounce_same; [apply loop_bound |].
    apply (fp_layoutTimer w), Footprint_bound, Footprint_refl.
  - intros gv n view opts w. apply OneDebounce_same; [apply loop_placeTail |].
    apply (fp_layoutTimer w), Footprint_placeTail, Footprint_refl.
Qed.

Lemma length_filter_le {A : Type} (P : A -> Prop) `{forall x, Decision (P x)}
    (l : list A) :
  (length (filter P l) <= length l)%nat.
Proof.
  induction l as [|x l IH]; [done |].
  rewrite filter_cons. destruct (decide (P x)); cbn; lia.
Qed.

Lemma length_filter_filter {A : Type} (P Q : A -> Prop)
    `{forall x, Decision (P x)} `{forall x, Decision (Q x)} (l : list A) :
  (length (filter P (filter Q l)) <= length (filter P l))%nat.
Proof.
  induction l as [|x l IH]; [done |].
  rewrite !filter_cons. destruct (decide (Q x)), (decide (P x));
    rewrite ?filter_cons; try rewrite decide_True by done;
    try rewrite decide_False by done; cbn; lia.
Qed.

Lemma KeptByLoop_OneDebounce : KeptByLoop OneDebounce.
Proof.
  constructor.
  - intros gv w. apply OneDebounce_AtMostOneRemoval; [apply resumeSetupLeaf_loop |].
    apply (fp_layoutTimer w), Footprint_resumeSetupLeaf, Footprint_refl.
  - intros lf w. apply OneDebounce_same.
    + by apply (SameLoop_removeChild lf w w).
    + apply (fp_layoutTimer w), Footprint_removeChild, Footprint_refl.
  - intros t w [Hok Hone]. split; [by apply TimersOk_dequeue |].
    unfold pendingDebounce, dequeue in *. cbn.
    etrans; [| exact Hone]. apply length_filter_filter.
  - intros x w [Hok Hone]. split; [by apply TimersOk_now | done].
Qed.

Lemma OneDebounce_OnlySettings (w w' : World) :
  OnlySettings w w' -> OneDebounce w -> OneDebounce w'.
Proof. intros (_ & _ & Hl & _ & Hloop). by apply OneDebounce_same. Qed.

Lemma OneDebounce_step (e : Event) (a : State) :
  OneDebounce (world a) -> OneDebounce (world (step e a)).
Proof.
  apply Kept_step.
  - exact Kept_OneDebounce.
  - exact KeptByLoop_OneDebounce.
  - intros p w. by apply OneDebounce_same.
  - intros v w. by apply OneDebounce_same.
  - pose proof (OnlySettings_tab e) as Htab.
    destruct e; try exact I; intros w Hw;
      try (by apply (OneDebounce_OnlySettings w _ (Htab w))).
    + by apply OneDebounce_onLayoutChange.
    + by apply (OneDebounce_same w).
    + destruct Hw as [Hok _]. destruct (onunload_timers w Hok) as [Hok' Hp].
      split; [done |]. rewrite Hp. cbn. lia.
Qed.

Lemma OneDebounce_run (es : list Event) (a : State) :
  OneDebounce (world a) -> OneDebounce (world (run es a)).
Proof.
  revert a. induction es as [|e es IH]; intros a H; [done |].
  cbn. apply IH. by apply OneDebounce_step.
Qed.

Lemma OneDebounce_onload (s : Settings.t) (arr : gmap nat (list jsstring))
    (nextArr : nat) (h : Host) (t0 : Z) (k : nat) :
  OneDebounce
    (world (onload s arr nextArr h {| now := t0; timers := []; nextTimer := k |})).
Proof.
  apply Kept_onload; [exact Kept_OneDebounce |].
  split; [by apply TimersOk_noTimers |]. cbn. lia.
Qed.

(** *** Every turn and every passage of time comes to an end *)

Lemma jobs_step (e : Event) (a : State) : jobs (step e a) = [].
Proof. apply jobs_microtasks. Qed.

Lemma jobs_run (es : list Event) (a : State) : jobs a = [] -> jobs (run es a) = [].
Proof.
  revert a. induction es as [|e es IH]; intros a H; [done |].
  cbn. apply IH, jobs_step.
Qed.

(** A timer that fires leaves the pending timers and sets none. *)
Lemma loop_fireTimer (t : Timer) (a : State) :
  loop (world (fireTimer t a)) = loop (dequeue t (world a)).
Proof.
  unfold fireTimer.
  apply (Kept_microtasks (fun w => loop w = loop (dequeue t (world a))));
    [apply Kept_loop |].
  unfold runCallback. destruct (callback t) as [view | lf].
  - apply (Kept_placeGraphView (fun w => loop w = loop (dequeue t (world a))));
      [apply Kept_loop | done].
  - state_simpl. by apply (SameLoop_removeChild lf (dequeue t (world a))).
Qed.

Lemma length_dequeue (t : Timer) (ts : list Timer) :
  t ∈ ts ->
  (length (filter (fun u => timerId u ≠ timerId t) ts) < length ts)%nat.
Proof.
  induction ts as [|x ts IH]; intros Hin; [by inversion Hin |].
  rewrite filter_cons. apply elem_of_cons in Hin as [<- | Hin].
  - rewrite decide_False by (intros Hne; by apply Hne).
    pose proof (length_filter_le (fun u => timerId u ≠ timerId t) ts). cbn. lia.
  - specialize (IH Hin). destruct (decide _); cbn; lia.
Qed.

Lemma runTimers_ends (fuel : nat) (target : Z) (a : State) :
  (length (timers (loop (world a))) < fuel)%nat ->
  now (loop (world (runTimers fuel target a))) = target
  /\ Forall (fun t => (target < due t)%Z)
       (timers (loop (world (runTimers fuel target a))))
  /\ (forall t, t ∈ timers (loop (world (runTimers fuel target a))) ->
                t ∈ timers (loop (world a))).
Proof.
  revert a. induction fuel as [|fuel IH]; intros a Hfuel; [lia |].
  cbn [runTimers].
  destruct (earliest (timers (loop (world a)))) as [t|] eqn:E.
  - destruct (Z.leb_spec (due t) target) as [Hdue | Hdue].
    + pose proof (earliest_elem _ _ E) as Hin.
      pose proof (loop_fireTimer t a) as Hl.
      destruct (IH (fireTimer t a)) as (Hnow & Hall & Hsub).
      { rewrite Hl. cbn. pose proof (length_dequeue t _ Hin). lia. }
      split; [done |]. split; [done |].
      intros u Hu. specialize (Hsub u Hu). rewrite Hl in Hsub. cbn in Hsub.
      by apply list_elem_of_filter in Hsub as [_ ?].
    + state_simpl. cbn. split; [done |]. split; [| done].
      apply Forall_forall. intros u Hu.
      pose proof (earliest_least _ _ u E Hu). lia.
  - state_simpl. cbn. apply earliest_nil in E. rewrite E.
    split; [done |]. split; [by apply Forall_nil | done].
Qed.

Lemma elapse_ends (d : Z) (a : State) :
  now (loop (world (elapse d a))) = (now (loop (world a)) + Z.max 0 d)%Z
  /\ Forall (fun t => (now (loop (world (elapse d a))) < due t)%Z)
       (timers (loop (world (elapse d a))))
  /\ (forall t, t ∈ timers (loop (world (elapse d a))) ->
                t ∈ timers (loop (world a))).
Proof.
  unfold elapse.
  destruct (runTimers_ends (S (length (timers (loop (world a)))))
              (now (loop (world a)) + Z.max 0 d)%Z a) as (Hnow & Hall & Hsub);
    [lia |].
  rewrite Hnow. by split.
Qed.

(** X20.  At most one resolution is ever pending.  The plugin is loaded
    ([onload], up to the end of its turn, with no timer pending), and then
    anything happens, in any order and any number of times: a layout
    change, a file opening, the toggle command, a change of any control of
    the settings tab (preset dropdown, the save and clear buttons of the
    user presets, the slider of [maxGraphViews], the number fields of the
    debounce window and of the leaf removal time, the dropdowns of the edit
    mode and of the mobile mode, the banner height, the ignore text area),
    time passing, the host changing the workspace, the host fulfilling the
    promise of a [setViewState] the plugin awaits (that of a [_setupLeaf],
    or that of a bind), the unload.  After all that the window holds at most
    one debounce timer of the plugin, [_layoutTimer] is its id and never the
    id of a pending leaf removal, and no promise job of the plugin is left.
    Each passage of time then comes to an end: the clock is where it
    should be, no timer that is still pending was due, and no timer was set
    on the way. *)
Theorem session_holds_one_debounce_timer (s : Settings.t)
    (arr : gmap nat (list jsstring)) (nextArr : nat) (h : Host) (t0 : Z)
    (k : nat) (es : list Event) :
  let a' := run es (onload s arr nextArr h
                      {| now := t0; timers := []; nextTimer := k |}) in
  (length (pendingDebounce (world a')) <= 1)%nat
  /\ (forall t, t ∈ pendingDebounce (world a') ->
                layoutTimer (plugin (world a')) = Some (timerId t))
  /\ (forall t, t ∈ pendingRemoval (world a') ->
                layoutTimer (plugin (world a')) <> Some (timerId t))
  /\ jobs a' = []
  /\ (forall d,
        let b := elapse d a' in
        now (loop (world b)) = (now (loop (world a')) + Z.max 0 d)%Z
        /\ Forall (fun t => (now (loop (world b)) < due t)%Z)
             (timers (loop (world b)))
        /\ (forall t, t ∈ timers (loop (world b)) ->
                      t ∈ timers (loop (world a')))).
Proof.
  intros a'.
  destruct (OneDebounce_run es _ (OneDebounce_onload s arr nextArr h t0 k))
    as [Hok Hone].
  fold a' in Hok, Hone.
  split; [done |].
  destruct Hok as [_ _ Hdeb Hrem]. rewrite Forall_forall in Hdeb, Hrem.
  split; [| split; [| split]].
  - intros t [Hd Ht]%list_elem_of_filter. by apply Hdeb.
  - intros t [Hd Ht]%list_elem_of_filter. by apply Hrem.
  - apply jobs_run. unfold onload. apply jobs_microtasks.
  - intros d. apply elapse_ends.
Qed.

End TimerSessions.

(* ===================================================================== *)
(** ** Sessions: the pool, and the nodes of the graph views *)
(* ===================================================================== *)

Section PoolSessions.
Import Js Plugin Props Frames Exact Invariants Async.

Ltac state_simpl :=
  cbn [world jobs setupWaiters binds nextPromise rejections
       lift setJobs setSetupWaiters setBinds awaitBind reject settledState].

Lemma graphViews_bound gv p w :
  graphViews (plugin (bound gv p w)) = graphViews (plugin w).
Proof. unfold bound. by destruct (object w gv). Qed.

Lemma graphViews_placeTail gv n view opts w :
  graphViews (plugin (placeTail gv n view opts w)) = graphViews (plugin w).
Proof.
  unfold placeTail, insertUnderTitle. destruct (negb _); [done |].
  repeat case_match; simplify_eq; rewrite ?graphViews_showAndResize; done.
Qed.

(** What [PoolWithin] reads. *)
Lemma PoolWithin_config (bound : Z) (w w' : World) :
  graphViews (plugin w') = graphViews (plugin w) ->
  Settings.maxGraphViews (settings (plugin w'))
  = Settings.maxGraphViews (settings (plugin w)) ->
  Settings.preset1 (settings (plugin w')) = Settings.preset1 (settings (plugin w)) ->
  Settings.preset2 (settings (plugin w')) = Settings.preset2 (settings (plugin w)) ->
  PoolWithin bound w -> PoolWithin bound w'.
Proof. unfold PoolWithin. by intros -> -> -> ->. Qed.

Lemma Kept_PoolWithin (bound : Z) : Kept (PoolWithin bound).
Proof.
  constructor.
  - intros c w. by apply PoolWithin_same.
  - intros view w. apply PoolWithin_getOrCreate.
  - intros gv b w. apply PoolWithin_same; [apply graphViews_setVisibility |].
    apply (fp_settings w), Footprint_setVisibility, Footprint_refl.
  - intros gv w. by apply PoolWithin_same.
  - intros gv p w. apply PoolWithin_same; [apply graphViews_bound |].
    apply (fp_settings w), Footprint_bound, Footprint_refl.
  - intros gv n view opts w. apply PoolWithin_same; [apply graphViews_placeTail |].
    apply (fp_settings w), Footprint_placeTail, Footprint_refl.
Qed.

Lemma KeptByLoop_PoolWithin (bound : Z) : KeptByLoop (PoolWithin bound).
Proof.
  constructor.
  - intros gv w. apply PoolWithin_same; [apply graphViews_resumeSetupLeaf |].
    apply (fp_settings w), Footprint_resumeSetupLeaf, Footprint_refl.
  - intros lf w. apply PoolWithin_removeChild.
  - intros t w. by apply PoolWithin_same.
  - intros x w. by apply PoolWithin_same.
Qed.

Lemma capacity_slider (value bound : Z) :
  (3 <= bound)%Z -> (value <= bound)%Z -> (capacity (Some value) <= bound)%Z.
Proof.
  intros Hb Hv. unfold capacity, orZ, Settings.DEFAULT_maxGraphViews.
  destruct (value =? 0)%Z; lia.
Qed.

Lemma PoolWithin_onPresetChange (bound : Z) (value : jsstring) (w : World) :
  (3 <= bound)%Z ->
  PoolWithin bound w -> PoolWithin bound (SettingTab.onPresetChange value w).
Proof.
  intros Hb H. unfold SettingTab.onPresetChange.
  case_bool_decide; [by apply (PoolWithin_config bound w) |].
  match goal with
  | |- PoolWithin _ (SettingTab.store _ ?x) =>
    assert (H1 : PoolWithin bound x); [| by apply (PoolWithin_config bound x)]
  end.
  destruct (_ || _).
  - destruct H as (Hlen & Hcap & Hsn). split; [done |]. split.
    + by apply capacity_builtin.
    + intros sn. cbn. unfold Settings.applyBuiltinPreset.
      repeat case_bool_decide; apply Hsn.
  - repeat case_bool_decide; try done; by apply PoolWithin_applyUserPreset.
Qed.

Lemma PoolWithin_onunload (bound : Z) (w : World) :
  (3 <= bound)%Z -> PoolWithin bound w -> PoolWithin bound (onunload w).
Proof.
  intros Hb H. unfold onunload.
  set (w1 := match layoutTimer (plugin w) with
             | Some id => withPlugin (set_layoutTimer None) (clearTimeout id w)
             | None => w
             end).
  assert (Hs1 : settings (plugin w1) = settings (plugin w))
    by (subst w1; by destruct (layoutTimer (plugin w))).
  destruct (detach_all_spec (graphViews (plugin w1)) w1) as (Hp2 & _).
  cbn zeta in Hp2. destruct H as (Hlen & Hcap & Hsn).
  unfold PoolWithin. cbn. rewrite Hp2, Hs1. split; [lia | done].
Qed.

Lemma PoolWithin_step (bound : Z) (e : Event) (a : State) :
  (3 <= bound)%Z ->
  Forall (fun v => (v <= bound)%Z) (sliderValues [e]) ->
  PoolWithin bound (world a) -> PoolWithin bound (world (step e a)).
Proof.
  intros Hb Hv. apply Kept_step.
  - apply Kept_PoolWithin.
  - apply KeptByLoop_PoolWithin.
  - intros p w. by apply PoolWithin_config.
  - intros v w. by apply PoolWithin_config.
  - destruct e; try exact I; intros w Hw.
    + unfold onLayoutChange. destruct (activeView (host w)); [| done].
      by destruct (layoutTimer (plugin w)).
    + by apply PoolWithin_onPresetChange.
    + apply (PoolWithin_same bound (saveCurrentToUserPreset n w)); [done | done |].
      by apply PoolWithin_saveCurrentToUserPreset.
    + apply (PoolWithin_same bound (clearUserPreset n w)); [done | done |].
      by apply PoolWithin_clearUserPreset.
    + cbn in Hv. apply Forall_cons in Hv as [Hv _].
      destruct Hw as (Hlen & Hcap & Hsn). split; [done |]. split; [| done].
      by apply capacity_slider.
    + unfold SettingTab.onDebounceChange, SettingTab.onNumberChange.
      destruct num as [n|]; [| done].
      destruct (n <? 0)%Z; [done |]. by apply (PoolWithin_config bound w).
    + unfold SettingTab.onLeafTimeChange, SettingTab.onNumberChange.
      destruct num as [n|]; [| done].
      destruct (n <? 0)%Z; [done |]. by apply (PoolWithin_config bound w).
    + by apply (PoolWithin_config bound w).
    + by apply (PoolWithin_config bound w).
    + by apply (PoolWithin_config bound w).
    + by apply (PoolWithin_same bound w).
    + by apply PoolWithin_onunload.
Qed.

Lemma sliderValues_cons (e : Event) (es : list Event) :
  sliderValues (e :: es) = sliderValues [e] ++ sliderValues es.
Proof. unfold sliderValues. cbn. by destruct e. Qed.

Lemma PoolWithin_run (bound : Z) (es : list Event) (a : State) :
  (3 <= bound)%Z ->
  Forall (fun v => (v <= bound)%Z) (sliderValues es) ->
  PoolWithin bound (world a) -> PoolWithin bound (world (run es a)).
Proof.
  intros Hb. revert a. induction es as [|e es IH]; intros a Hv H; [done |].
  rewrite sliderValues_cons in Hv. apply Forall_app in Hv as [Hv1 Hv2].
  cbn. apply IH; [done |]. by apply PoolWithin_step.
Qed.

(** X21.  The pool stays bounded over a whole session, also when the
    capacity changes.  Take a bound that is at least 3 (the largest
    capacity a built-in preset sets) and at least every value the slider of
    [maxGraphViews] hands over in the session (its limits are 1 and 5, so 5
    will do), and that covers the pool, the capacity in force
    ([maxGraphViews], 2 when unset or 0) and the capacities stored in the
    two user presets.  Then after any sequence of layout changes, file
    openings, toggle commands, changes of the controls of the settings tab
    (preset dropdown, save and clear of the user presets, slider, number
    fields, dropdowns, banner height, ignore text area), passages of time,
    workspace changes by the host, promises the host fulfils and unloads,
    whatever is pending at the start, the pool holds at most that many
    graph views and the capacity in force is within the bound. *)
Theorem session_pool_stays_bounded (bound : Z) (es : list Event) (a : State) :
  (3 <= bound)%Z ->
  Forall (fun v => (v <= bound)%Z) (sliderValues es) ->
  PoolWithin bound (world a) ->
  (Z.of_nat (length (graphViews (plugin (world (run es a))))) <= bound)%Z
  /\ (capacity (Settings.maxGraphViews (settings (plugin (world (run es a)))))
      <= bound)%Z.
Proof.
  intros Hb Hv H.
  destruct (PoolWithin_run bound es a Hb Hv H) as (Hlen & Hcap & _).
  by split.
Qed.

Lemma session_pool_stays_bounded_witness :
  let es := [FileOpen (Some Sample.noteA); PresetChange (js "info");
             MaxGraphViewsChange 5; LayoutChange; TimePasses 200;
             SetupSettles 10; BindSettles 0; SavePreset 1;
             PresetChange (js "perf"); PresetChange (js "user1")] in
  (Z.of_nat (length (graphViews (plugin (world (run es (settledState Sample.start))))))
   <= 5)%Z.
Proof.
  intros es.
  refine (proj1 (session_pool_stays_bounded 5 es (settledState Sample.start) _ _ _)).
  - done.
  - vm_compute. repeat constructor. discriminate.
  - split; [by vm_compute |]. split; [by vm_compute |].
    intros sn [Hs | Hs]; discriminate.
Defined.

(** *** Graph views and their nodes *)

Lemma Kept_PoolWf : Kept PoolWf.
Proof.
  constructor.
  - intros c w. by apply PoolWf_same.
  - intros view w. apply PoolWf_getOrCreate.
  - intros gv b w. apply PoolWf_setVisibility.
  - intros gv w. apply PoolWf_updObject. intros g _. split; [done | by left].
  - intros gv p w H. unfold bound. destruct (object w gv) as [g|] eqn:E; [| done].
    apply PoolWf_updObject.
    + intros g' _. split; [done | by left].
    + by apply (PoolWf_same w).
  - intros gv n view opts w H. unfold placeTail, insertUnderTitle.
    destruct (negb _); [done |].
    destruct (isDescendantOf _ _ _); [by apply PoolWf_showAndResize |].
    destruct (inlineTitleFound _); [| done].
    apply PoolWf_showAndResize. by apply (PoolWf_same _ _ eq_refl eq_refl).
Qed.

Lemma KeptByLoop_PoolWf : KeptByLoop PoolWf.
Proof.
  constructor.
  - intros gv w. apply PoolWf_resumeSetupLeaf.
  - intros lf w H. unfold removeChild. case_match; [| done].
    by apply (PoolWf_same _ _ eq_refl eq_refl).
  - intros t w. by apply PoolWf_same.
  - intros x w. by apply PoolWf_same.
Qed.

Lemma PoolWf_OnlySettings (w w' : World) :
  OnlySettings w w' -> PoolWf w -> PoolWf w'.
Proof. intros (Hg & Ho & _). by apply PoolWf_same. Qed.

Lemma PoolWf_onunload (w : World) : PoolWf w -> PoolWf (onunload w).
Proof.
  intros H. unfold onunload.
  set (w1 := match layoutTimer (plugin w) with
             | Some id => withPlugin (set_layoutTimer None) (clearTimeout id w)
             | None => w
             end).
  destruct H as [_ Hwf]. split.
  - intros gv Hgv. by apply elem_of_nil in Hgv.
  - intros gv g Hobj. apply (Hwf gv g).
    destruct (detach_all_spec (graphViews (plugin w1)) w1) as (Hp2 & _).
    cbn zeta in Hp2. unfold object in *. cbn in Hobj. rewrite Hp2 in Hobj.
    subst w1. by destruct (layoutTimer (plugin w)).
Qed.

Lemma PoolWf_step (e : Event) (a : State) :
  PoolWf (world a) -> PoolWf (world (step e a)).
Proof.
  apply Kept_step.
  - exact Kept_PoolWf.
  - exact KeptByLoop_PoolWf.
  - intros p w. by apply PoolWf_same.
  - intros v w. by apply PoolWf_same.
  - pose proof (OnlySettings_tab e) as Htab.
    destruct e; try exact I; intros w Hw;
      try (by apply (PoolWf_OnlySettings w _ (Htab w))).
    + unfold onLayoutChange. destruct (activeView (host w)); [| done].
      by destruct (layoutTimer (plugin w)).
    + by apply (PoolWf_same w).
    + by apply PoolWf_onunload.
Qed.

Lemma PoolWf_run (es : list Event) (a : State) :
  PoolWf (world a) -> PoolWf (world (run es a)).
Proof.
  revert a. induction es as [|e es IH]; intros a H; [done |].
  cbn. apply IH. by apply PoolWf_step.
Qed.

Lemma PoolWf_onload (s : Settings.t) (arr : gmap nat (list jsstring))
    (nextArr : nat) (h : Host) (l : Loop) :
  PoolWf (world (onload s arr nextArr h l)).
Proof.
  apply Kept_onload; [exact Kept_PoolWf |].
  split; [intros gv Hgv; by apply elem_of_nil in Hgv |].
  intros gv g Hobj. unfold object in Hobj. cbn in Hobj.
  by rewrite lookup_empty in Hobj.
Qed.

(** X24.  Graph views keep their own nodes, whatever happens.  The plugin
    is loaded ([onload], up to the end of its turn), and then anything
    happens, in any order: layout changes, file openings, toggle commands,
    changes of the controls of the settings tab (preset dropdown, save and
    clear of the user presets, slider, number fields, dropdowns, banner
    height, ignore text area), passages of time, workspace changes by the
    host, promises of [setViewState] the host fulfils, unloads.  After all
    that every graph view of the pool is a graph-view object of the plugin,
    with the leaf it was made with, and its node is either not set or the
    [.view-content] of that very leaf. *)
Theorem session_graph_views_own_their_nodes (s : Settings.t)
    (arr : gmap nat (list jsstring)) (nextArr : nat) (h : Host) (l : Loop)
    (es : list Event) (gv : nat) :
  gv ∈ graphViews (plugin (world (run es (onload s arr nextArr h l)))) ->
  exists g, object (world (run es (onload s arr nextArr h l))) gv = Some g
            /\ leaf g = gv
            /\ (node g = None \/ node g = Some gv).
Proof.
  intros Hgv.
  destruct (PoolWf_run es _ (PoolWf_onload s arr nextArr h l)) as [Hin Hwf].
  destruct (Hin gv Hgv) as [g Hg].
  exists g. split; [done |]. by apply Hwf.
Qed.

Lemma session_graph_views_own_their_nodes_witness :
  let es := [LayoutChange; TimePasses 100; SetupSettles 10; BindSettles 0;
             ToggleCommand; ToggleCommand; MaxGraphViewsChange 1;
             HostChanges (Sample.twoPanes source); FileOpen (Some Sample.noteA)] in
  let a' := run es (onload Sample.defaults {[ O := [] ]} 1
                      (Sample.twoPanes preview) Sample.noTimers) in
  graphViews (plugin (world a')) = [10%nat]
  /\ exists g, object (world a') 10 = Some g
               /\ leaf g = 10%nat /\ (node g = None \/ node g = Some 10%nat).
Proof.
  intros es a'.
  assert (Hpool : graphViews (plugin (world a')) = [10%nat])
    by (vm_compute; reflexivity).
  split; [exact Hpool |].
  apply (session_graph_views_own_their_nodes Sample.defaults {[ O := [] ]} 1
           (Sample.twoPanes preview) Sample.noTimers es 10).
  fold a'. rewrite Hpool. by left.
Defined.

End PoolSessions.
